(* ===== verification/_CoqProject ===== *)
-Q . S2P
Prelude.v
Python.v
Serialization.v
Floats.v
History.v
HistoryTheory.v
Commands.v
Context.v
Durability.v
Operations.v
Calls.v
Replay.v
Requests.v
Determinism.v
Versions.v
Waiting.v
Config.v
Security.v
Metrics.v
Migrations.v
Database.v
Logic.v
Store.v
Leasing.v
AuditLog.v
Definitions.v
Transitions.v
Commit.v
Activities.v
Messages.v
Timeouts.v
Queries.v
Cron.v
CronSpec.v
Schedules.v
Workers.v
Debugger.v
DebuggerSpec.v
Api.v
Http.v
Frames.v
StoreInvariant.v
System.v
Runner.v
Startup.v
Cli.v
Views.v
Atomicity.v
Writes.v
Tables.v
Records.v
Occurrences.v
Backfill.v
Retries.v
Families.v
Client.v
Audits.v
HttpTheory.v
Service.v
CliTheory.v
ApiKeys.v
Demo.v
DemoTheory.v
Benchmarks.v
BenchmarksTheory.v
Chronicle.v
Wakes.v
Engine.v
Delivery.v
Fencing.v
LeaseSpec.v
Sample.v
Scenario.v
Limits.v
Witnesses.v
ReplayWitnesses.v
PlatformWitnesses.v
RecordWitnesses.v
ServiceWitnesses.v
CliWitnesses.v
