(* ===== verification/Prelude.v ===== *)
(** * A verification of the durable workflow engine

    The program (src/engine) runs workflow functions durably.  A workflow
    function awaits operations of its [WorkflowContext] (activities, timers,
    signals, child workflows, markers).  Its history, a contiguous list of events in
    PostgreSQL, is replayed: a worker leases a workflow task, builds the replay
    index of the history, runs the function on it until the function waits for
    something the history does not hold, and commits the commands the function
    emitted.  Activity workers run activities and record their outcomes; clients
    start workflows and send signals and updates; maintenance fires timers,
    reclaims expired leases, times activities out and materialises schedules.  An
    HTTP API, a direct client and a command line drive these operations.

    ** The files, and the code they model

    Foundations
    - Prelude: results, folds that may raise, generic list lemmas, automation.
    - Python: values, floats, exceptions and the library functions that are
      parameters ([PyStd], with the laws [PyStdLaws] assumed of them).
    - Serialization, Floats: runtime/serialization.py; fractions in binary64.

    Replay
    - History, HistoryTheory: runtime/history.py, the index and what it is of its
      events.
    - Commands: runtime/commands.py, sdk/policies.py.
    - Context: sdk/context.py, every operation as a function of the context.
    - Replay: runtime/replay.py; a workflow function is a [Coroutine].
    - Durability, Operations, Calls, Requests, Determinism, Versions: operation
      by operation, then for whole replays, that an outcome replay found it finds
      again on every longer history.
    - Waiting: a replay that waits goes on waiting while only events happen that
      replay does not react to, those that are not [rousing].
    - Debugger, DebuggerSpec: runtime/replay_debugger.py, replay_check.py.

    Persistence
    - Database: migrations/*.sql as tables with their constraints, and the monad
      [M] of persistence code; [transaction] rolls back when its body raises.
    - Leasing, AuditLog, Definitions, Transitions, Commit, Activities, Messages,
      Timeouts, Queries, Schedules, Migrations: the files of persistence/;
      Definitions is also runtime/definitions.py, sdk/decorators.py and
      sdk/activity_context.py, whose context variable is a value that is set around
      an activity's call and read by its body.
    - Cron, CronSpec: runtime/cron.py.
    - Logic: [wp] and [preserves], the logic the invariants are proved in.
    - Store, Frames, StoreInvariant, System: the invariant of stored histories
      and the transition system of all operations ([step], [reachable]).

    Services
    - Workers, Runner, Service: workers/, one step of a role, the loops around
      it, what the loops promise.
    - Config, Security, Metrics: config.py, api/security.py, observability.py.
    - Api, Http, HttpTheory: api/app.py, the handlers, the middleware, what the
      application promises.
    - Client: client.py.
    - Startup: logging, pools, migrating and the application's lifespan, as
      actions ([IO]) of a process on a [Machine]; Cli, CliTheory, ApiKeys:
      cli.py, every command.
    - Demo, DemoTheory: examples/, programs written against the engine.
    - Benchmarks, BenchmarksTheory: benchmarks/run.py, its measurements as actions
      of a process; the readings of the clock are the surroundings' ([Surroundings]).

    Composition
    - Writes: every operation is a sequence of [write]s, the few ways in which
      rows are added and changed, some of them reserved to a [Privilege]; what
      holds of writes holds of every interleaving.
    - Atomicity, Audits, Fencing, LeaseSpec, Delivery, Views, and over the writes
      Tables, Records, Occurrences, Backfill, Retries, Families: properties of
      the operations in every interleaving.
    - Chronicle, Engine: the stored histories refine the abstract versions of
      Versions, when commits are made by workers.  The runs of workers of Engine
      ([worker_run]) are those in which a commit is a replay of a history its worker
      loaded under the task it leased and activities are reported by the holders of
      their tasks ([System.genuine]); the steps of run_workflow_task and
      run_activity_task make such runs, interrupted anywhere.
    - Wakes: every operation is [paid] for: what it appends to a history that is
      rousing comes with an open workflow task, and only the commit of a workflow
      task closes it while its workflow runs.  [owing] is the state within an
      operation.
    - Sample, Scenario and the Witnesses files: an executable instance of the
      parameters, a run on it, and the theorems applied to that run.
    - Limits: runs of workflow code outside the discipline replay asks for, which
      reach histories that do not replay, and the run in which a wait with a timeout
      overlooks a signal.

    ** State and operations

    A component's state is a record with the source's names: [WorkflowContext],
    [HistoryIndex], the rows of [DB], [MetricsRegistry],
    [FixedWindowRateLimiter], [AppState], [Service].  An operation of the
    database is a function in [M]: it reads an [Env] -- the transaction's
    [now()], the wall clock, fresh identifiers, jitter, and the rows that other
    transactions hold locked -- threads [DB], and returns or raises.  A
    transaction is one atomic step: the source serialises the operations of one
    execution on its row lock, and [skip locked] is the set of locked rows of the
    environment.  An operation that consists of several transactions is their
    sequence under one environment.  In [System] any operation may follow any
    other, with any environment and arguments, and may raise.

    ** What the theorems show

    - Determinism.  In a run whose commits are made by workers no replay meets
      non-determinism and every stored history replays ([Engine], [Chronicle]);
      abstractly a replay that ran keeps its result on every later version
      ([Versions]).  The discipline it asks of workflow code -- not to read
      [cancellation_requested], not to go on after a failed [gather] -- is needed:
      [Limits] has a run that diverges for each.
    - The store.  Histories stay contiguous, begin with the start event, end at
      the terminal one, agree with the execution row and only grow ([System],
      [Atomicity]); a closed execution is final.
    - Concurrency.  A task is settled at most once, only under its current lease
      ([Fencing]); [lease_task] takes the first leasable task or says there is
      none ([LeaseSpec]); a signal is delivered and an update requested once
      ([Delivery]), an effect recorded once and an execution pinned to its code
      ([Records]), an occurrence of a schedule started once ([Occurrences]) and a
      backfill exact ([Backfill], which also shows how a backfill into the future
      blocks every schedule), an
      activity attempted as often as its policy allows ([Retries]), a child closed
      with its parent ([Families]).  The constraints of the tables hold in every
      reachable database, also those that updates could break ([Tables]).
    - Progress.  A running workflow without an open workflow task is blocked: no
      interleaving of clients, maintenance and workers loses a wake-up
      ([Engine.no_lost_wakeup]).  The one exception is code that waits with a
      timeout for a signal received before the wait ([Waiting.overlooks]); it is a
      flaw of the engine, and [Limits.signal_overlooked] is a run that meets it.
      An open task that is due is handed out by one pass of maintenance and as
      many leases as its queue has open tasks, also when its worker crashed
      ([LeaseSpec]).  The engine does not promise more: a worker that fails every
      time, or a queue without workers, makes none.
    - Errors.  A raising operation changes nothing ([Atomicity]); the routes
      answer every engine error but one ([HttpTheory]).
    - Services.  A role loop survives every exception, shut-down ends
      ([Service]); a client reaches a recorded outcome ([Client]); an HTTP request
      changes the database only with a role that may, and on the record
      ([HttpTheory], [Audits]); a command changes it by operations, closes its
      pools and ends with a status ([CliTheory]); the key it makes is accepted
      ([ApiKeys]); seeding the demo is idempotent ([DemoTheory]).
    - Functions.  Cron search against a reference ([CronSpec]), canonical JSON
      round trips ([Serialization]), rate limits ([Security]), metrics
      ([Metrics]), migrations ([Migrations]), paging ([Views]), the comparison of
      histories ([DebuggerSpec]), the replay check ([CliTheory]), and a whole replay
      of the history the benchmark generates ([BenchmarksTheory]).

    ** Bounds and fuel

    - [replay] runs a coroutine with fuel; [Versions.replay_terminates] shows that
      a function whose waits are bounded by a measure needs no more than that.
    - [next_cron_time] searches [cron_horizon] minutes, the source's own horizon.
    - Terminating descendants recurses over executions; parents form a forest, so
      the number of executions is enough ([Families.terminate_descendants_ends]).
    - Integers are unbounded as Python's are; that columns of PostgreSQL are 32 or
      64 bits wide is not modelled, instants and durations of datetime overflow as
      Python's do.  Floats are binary64 ([spec_float] operations), rounding
      included.

    ** Not modelled, and why

    - SQL text and the encodings of rows.  The code relies on PostgreSQL's
      transactions, constraints and row locks, which are the model's [M] and [DB].
    - FastAPI's routing, decoding and encoding, ASGI: a request arrives as its
      decoded [Target].
    - asyncio scheduling below a step: the loops of a service interleave at steps,
      a step's transactions under one environment.
    - argparse's reading of words and the texts it prints: the parsers are data,
      and [conforms] is what is assumed of a parsed namespace.  The import of a
      module by its name and the driver asyncpg are parameters.
    - The text of printed JSON and of log lines: the printed value is modelled.
    - SHA-256, UUID5, [repr] of floats, Unicode classes, time zones, collations and
      the text of jsonb are parameters; the laws assumed of them are documented
      behaviour and hold of the instances in [Sample] and the witness files.
    - The texts of exceptions that PostgreSQL and argument conversions raise are
      abbreviated.
    - The UI (JavaScript) and the shell scripts.  Of the benchmarks the reading of
      the arguments and the writing of the report to a file.
*)
From stdpp Require Export base tactics option list gmap strings sorting numbers fin_maps.
From Stdlib Require Export ZArith.
Set Default Goal Selector "!".

(** ** Results of fallible code

    [Ok a] is a normal return, [Err e] a raised exception.  The monad
    instances make stdpp's [x ← m; k] notation available. *)
Inductive Result (E A : Type) : Type :=
| Ok (a : A)
| Err (e : E).
Arguments Ok {E A} a.
Arguments Err {E A} e.

#[export] Instance Result_ret (E : Type) : MRet (Result E) := fun A a => Ok a.
#[export] Instance Result_bind (E : Type) : MBind (Result E) := fun A B k m =>
  match m with Ok a => k a | Err e => Err e end.
#[export] Instance Result_fmap (E : Type) : FMap (Result E) := fun A B f m =>
  match m with Ok a => Ok (f a) | Err e => Err e end.

(** [is_ok] decides a normal return; used by witnesses. *)
Definition is_ok {E A : Type} (r : Result E A) : bool :=
  match r with Ok _ => true | Err _ => false end.

(** A left fold whose step may raise: the loop stops at the first exception. *)
Fixpoint foldM {E S A : Type} (f : S → A → Result E S) (s : S) (l : list A) : Result E S :=
  match l with
  | [] => Ok s
  | x :: l => match f s x with Ok s => foldM f s l | Err e => Err e end
  end.

(** ** Generic lemmas *)
Section foldM_lemmas.
Context {E S A : Type} (f : S → A → Result E S).

Lemma foldM_app s l1 l2 :
  foldM f s (l1 ++ l2) =
  match foldM f s l1 with Ok s' => foldM f s' l2 | Err e => Err e end.
Proof.
  revert s; induction l1 as [|x l1 IH]; intros s; simpl; [done|].
  destruct (f s x); [apply IH|done].
Qed.

Lemma foldM_snoc s l x :
  foldM f s (l ++ [x]) = match foldM f s l with Ok s' => f s' x | Err e => Err e end.
Proof. rewrite foldM_app; destruct (foldM f s l) as [s'|e]; simpl; [|done]. by destruct (f s' x). Qed.

(** Invariant rule for a loop that may stop early; the invariant may depend on
    the elements consumed so far. *)
Lemma foldM_ind (P : list A → S → Prop) s l s' :
  P [] s →
  (∀ done_ s0 x s1, P done_ s0 → f s0 x = Ok s1 → P (done_ ++ [x]) s1) →
  foldM f s l = Ok s' → P l s'.
Proof.
  intros H0 Hstep. revert s'. induction l as [|x l IH] using rev_ind; intros s'.
  - intros [= <-]. done.
  - rewrite foldM_snoc. destruct (foldM f s l) as [s1|e] eqn:Hl; [|done].
    intros Hx. eapply Hstep; eauto.
Qed.
End foldM_lemmas.

(** ** Sorting by a Boolean order *)

(** [sorted] and [order by], by a preorder. *)
Definition le_rel {A : Type} (le : A → A → bool) (a b : A) : Prop := le a b = true.
#[export] Instance le_rel_dec {A} (le : A → A → bool) : RelDecision (le_rel le).
Proof. intros a b. unfold le_rel. apply _. Defined.
Definition order_by {A : Type} (le : A → A → bool) (l : list A) : list A :=
  merge_sort (le_rel le) l.

Section order.
Context {A : Type} (le : A → A → bool).
Context (Htrans : ∀ x y z, le x y = true → le y z = true → le x z = true).
Context (Htotal : ∀ x y, le x y = true ∨ le y x = true).

#[local] Instance le_rel_trans : Transitive (le_rel le).
Proof. intros x y z. apply Htrans. Qed.
#[local] Instance le_rel_total : Total (le_rel le).
Proof. intros x y. apply Htotal. Qed.

Lemma order_by_sorted l : StronglySorted (le_rel le) (order_by le l).
Proof. apply StronglySorted_merge_sort; apply _. Qed.

Lemma order_by_perm l : order_by le l ≡ₚ l.
Proof. apply merge_sort_Permutation. Qed.

(** A list already in a strict order stays. *)
Lemma order_by_id l :
  StronglySorted (le_rel le) l → (∀ x y, x ∈ l → y ∈ l → le x y = true → le y x = true → x = y) →
  order_by le l = l.
Proof.
  intros Hs Hanti. apply (StronglySorted_unique_strong (le_rel le)).
  - intros x y Hx Hy. rewrite order_by_perm in Hx. by apply Hanti.
  - apply order_by_sorted.
  - done.
  - apply order_by_perm.
Qed.
End order.
