(* ===== verification/Python.v ===== *)
(** * Python values and the parts of the runtime the engine uses

    JSON values, binary64 floats, durations and instants, dictionary
    operations, the exception classes of the engine, and the pure library
    functions the engine calls but does not define (hashing, UUID5, ISO 8601
    text, [repr]), which are the fields of the class [PyStd]. *)
From S2P Require Import Prelude.
From stdpp Require Import pretty.
From Stdlib Require Export SpecFloat.

(** ** Identifiers, instants and durations *)

(** A UUID is its 128-bit integer value ([UUID.int]); PostgreSQL orders the
    type bytewise, which is the order of these integers. *)
Abbreviation UUID := N (only parsing).

(** An instant ([timestamptz], an aware UTC [datetime]) in microseconds since
    the epoch, and a [timedelta] / [interval] in microseconds. *)
Abbreviation Timestamp := Z (only parsing).
Abbreviation TimeDelta := Z (only parsing).

(** A Python [datetime]: wall-clock microseconds and, when aware, the offset. *)
Record Datetime := mk_datetime { dt_wall : Z; dt_offset : option Z }.

(** ** Floats: IEEE 754 binary64 *)
Definition prec : Z := 53.
Definition emax : Z := 1024.
Abbreviation float := spec_float (only parsing).

Definition float_of_Z (n : Z) : float := binary_normalize prec emax n 0 false.
Definition float_mul : float → float → float := SFmul prec emax.
Definition float_div : float → float → float := SFdiv prec emax.

(** Python's [int / int]: the correctly rounded quotient, for [0 < d]. *)
Definition int_truediv (n d : Z) : float :=
  match n with
  | Z0 => S754_zero false
  | _ =>
    let '(mz, ez, lz) := SFdiv_core_binary prec emax (Z.abs n) 0 d 0 in
    binary_round_aux prec emax (Z.ltb n 0) mz ez lz
  end.

(** [timedelta.total_seconds()]. *)
Definition total_seconds (d : TimeDelta) : float := int_truediv d 1000000.

Definition is_finite (f : float) : bool :=
  match f with S754_zero _ | S754_finite _ _ _ => true | _ => false end.

(** The nearest integer, ties to even (C's [rint], Python's [round]). *)
Definition round_half_even (f : float) : Z :=
  match f with
  | S754_finite s m e =>
    let v :=
      if (0 <=? e)%Z then (Z.pos m * 2 ^ e)%Z
      else
        let d := (2 ^ (- e))%Z in
        let q := (Z.pos m / d)%Z in
        let r := (Z.pos m mod d)%Z in
        match (2 * r ?= d)%Z with
        | Lt => q
        | Gt => (q + 1)%Z
        | Eq => if Z.even q then q else (q + 1)%Z
        end in
    if s then (- v)%Z else v
  | _ => 0%Z
  end.

(** The integer part of a finite float, and the remaining fraction. *)
Definition float_trunc (f : float) : Z :=
  match f with
  | S754_finite s m e =>
    let v := if (0 <=? e)%Z then (Z.pos m * 2 ^ e)%Z else (Z.pos m / 2 ^ (- e))%Z in
    if s then (- v)%Z else v
  | _ => 0%Z
  end.
Definition float_frac (f : float) : float :=
  match f with
  | S754_finite s m e =>
    if (0 <=? e)%Z then S754_zero s
    else let r := (Z.pos m mod 2 ^ (- e))%Z in
         binary_normalize prec emax (if s then - r else r)%Z e s
  | _ => f
  end.

(** ** JSON values *)
Inductive JSON : Type :=
| JNull
| JBool (b : bool)
| JInt (n : Z)
| JFloat (f : float)
| JStr (s : string)
| JList (l : list JSON)
| JObj (d : list (string * JSON)).

(** A Python dictionary with string keys, in insertion order. *)
Abbreviation dict := (list (string * JSON)) (only parsing).

(** [d.get(k)]. *)
Fixpoint dict_get {A : Type} (k : string) (d : list (string * A)) : option A :=
  match d with
  | [] => None
  | (k', v) :: d => if String.eqb k k' then Some v else dict_get k d
  end.

(** [d.get(k)] as a JSON value: [None] is JSON null. *)
Definition dict_get_json (k : string) (d : dict) : JSON := default JNull (dict_get k d).

(** [d[k] = v]: in place when the key exists, at the end otherwise. *)
Fixpoint dict_set {A : Type} (k : string) (v : A) (d : list (string * A)) : list (string * A) :=
  match d with
  | [] => [(k, v)]
  | (k', v') :: d => if String.eqb k k' then (k, v) :: d else (k', v') :: dict_set k v d
  end.

(** [{**a, **b}]. *)
Definition dict_merge {A : Type} (a b : list (string * A)) : list (string * A) :=
  foldl (fun d kv => dict_set kv.1 kv.2 d) a b.

(** [d.pop(k, None)]. *)
Definition dict_pop {A : Type} (k : string) (d : list (string * A)) : list (string * A) :=
  filter (fun kv => kv.1 ≠ k) d.

(** Python truth value of a JSON value. *)
Definition truthy (v : JSON) : bool :=
  match v with
  | JNull => false
  | JBool b => b
  | JInt n => negb (n =? 0)%Z
  | JFloat f => match f with S754_zero _ => false | _ => true end
  | JStr s => negb (String.eqb s "")
  | JList l => match l with [] => false | _ => true end
  | JObj d => match d with [] => false | _ => true end
  end.

(** [a or b] on JSON values. *)
Definition py_or (a b : JSON) : JSON := if truthy a then a else b.

Definition is_continuation_byte (a : Ascii.ascii) : bool :=
  let n := Ascii.N_of_ascii a in ((128 <=? n) && (n <? 192))%N.

(** [len(s)]: strings are UTF-8 bytes here, and Python counts code points. *)
Fixpoint py_len (s : string) : Z :=
  match s with
  | EmptyString => 0
  | String a s => (if is_continuation_byte a then 0 else 1) + py_len s
  end.

Definition json_opt {A : Type} (f : A → JSON) (o : option A) : JSON :=
  match o with Some a => f a | None => JNull end.
Definition json_opt_str : option string → JSON := json_opt JStr.
Definition json_opt_float : option float → JSON := json_opt JFloat.

(** ** Exceptions

    One constructor per exception class; [UserError] is an exception class of
    workflow code outside the engine, with its type name and its [str]. *)
Inductive PyError : Type :=
| ValueError (msg : string)
| TypeError (msg : string)
| KeyError (key : string)
| RuntimeError (msg : string)
| OverflowError (msg : string)
| RecursionError
| SerializationError (msg : string)
| InvalidHistoryError (msg : string)
| NonDeterminismError (command_id : Z) (detail : string)
| ActivityError (activity_type : string) (failure : JSON)
| SignalTimeoutError (signal_name : string)
| ChildWorkflowError (workflow_type : string) (failure : JSON)
| DefinitionError (msg : string)
| DefinitionConflictError (name : string)
| UnknownDefinitionError (name : string)
| TransitionError (msg : string)
| DefinitionNotRegisteredError (workflow_type : string) (version : Z)
| StoredDefinitionConflictError (workflow_type : string) (version : Z)
| TerminalWorkflowError (workflow_id : UUID) (status : string)
| StaleLeaseError (task_id : UUID)
| ActivityCancellationRequested (task_id : UUID) (reason : option string)
| CronExpressionError (msg : string)
| MigrationError (msg : string)
| UniqueViolation (constraint : string)
| ForeignKeyViolation (constraint : string)
| CheckViolation (constraint : string)
| IndexError (msg : string)
| TimeoutError
| HTTPException (status_code : Z) (detail : string)
| RequestBodyTooLarge
| WorkflowNotFoundError (msg : string)
| WorkflowClosedError (workflow_id : UUID) (status : string) (failure : JSON)
| WorkflowUpdateRejectedError (update_id : string) (failure : JSON)
| UserError (type_name message : string).

Abbreviation Py := (Result PyError).

(** [timedelta(seconds=f)]: whole seconds exactly, the fraction scaled to
    microseconds and rounded half to even. *)
Definition timedelta_seconds (f : float) : Py TimeDelta :=
  match f with
  | S754_nan => Err (ValueError "cannot convert float NaN to integer")
  | S754_infinity _ => Err (OverflowError "cannot convert float infinity to integer")
  | _ =>
    let us := (float_trunc f * 1000000 +
               round_half_even (float_mul (float_of_Z 1000000) (float_frac f)))%Z in
    if (999999999 <? Z.abs (us / 86400000000))%Z then
      Err (OverflowError "days must have magnitude <= 999999999")
    else Ok us
  end.

(** PostgreSQL's [f * interval '1 second'], in microseconds. *)
Definition pg_seconds (f : float) : Py TimeDelta :=
  let x := float_mul (float_of_Z 1000000) f in
  if is_finite x && (Z.abs (round_half_even x) <? 2 ^ 63)%Z then Ok (round_half_even x)
  else Err (OverflowError "interval out of range").

(** ** Library functions the engine calls

    The hash, UUID and text functions are pure and deterministic; the engine's
    code relies on nothing else about them, so the development quantifies over
    them.  [float_pow] is the C library's [pow] as Python exposes it, [None]
    being its [OverflowError], and [float_of_str] is [float] of a string, [None]
    being its [ValueError].  [zone_info] is [ZoneInfo] with the IANA database: the
    UTC offset of a zone at an instant, in microseconds, or the exception for a
    name that is unknown ([ZoneInfoNotFoundError], a [KeyError]) or malformed. *)
Class PyStd := {
  float_repr : float → string;
  float_pow : float → Z → option float;
  float_of_str : string → option float;
  sha256 : string → N;
  uuid5 : UUID → string → UUID;
  uuid_str : UUID → string;
  uuid_parse : string → option UUID;
  isoformat : Datetime → string;
  fromisoformat : string → option Datetime;
  py_repr : JSON → string;
  json_error : JSON → string;
  zone_info : string → Py (Z → Z)
}.

(** The range of a [datetime]: years 1 to 9999, and offsets below a day; later
    wall times overflow. *)
Definition datetime_begin : Z := -62135596800000000.
Definition datetime_end : Z := 253402300800000000.
Definition day_us : Z := 86400000000.
Definition datetime_ok (d : Datetime) : Prop :=
  (datetime_begin ≤ dt_wall d < datetime_end)%Z ∧
  match dt_offset d with Some z => (- day_us < z < day_us)%Z | None => True end.

(** The documented laws of these functions that replay relies on: the sizes of
    SHA-256 digests and UUIDs, and the text forms reading back. *)
Class PyStdLaws `{PyStd} : Prop := {
  sha256_range s : (sha256 s < 2 ^ 256)%N;
  uuid5_range n s : (uuid5 n s < 2 ^ 128)%N;
  uuid_roundtrip u : (u < 2 ^ 128)%N → uuid_parse (uuid_str u) = Some u;
  iso_range s d : fromisoformat s = Some d → datetime_ok d;
  iso_roundtrip d : datetime_ok d → fromisoformat (isoformat d) = Some d
}.

(** An instant as the aware UTC [datetime] the database driver returns. *)
Definition utc (t : Timestamp) : Datetime := mk_datetime t (Some 0%Z).

Definition hex_digit (n : N) : Ascii.ascii :=
  Ascii.ascii_of_N (if (n <? 10)%N then n + 48 else n + 87).

(** [k] hexadecimal digits of [n], most significant first ([hexdigest]). *)
Fixpoint hex (k : nat) (n : N) : string :=
  match k with
  | O => ""
  | S k => hex k (n / 16) +:+ String (hex_digit (n mod 16)) ""
  end.

(** [type(error).__name__]. *)
Definition exn_type_name (e : PyError) : string :=
  match e with
  | ValueError _ => "ValueError"
  | TypeError _ => "TypeError"
  | KeyError _ => "KeyError"
  | RuntimeError _ => "RuntimeError"
  | OverflowError _ => "OverflowError"
  | RecursionError => "RecursionError"
  | SerializationError _ => "SerializationError"
  | InvalidHistoryError _ => "InvalidHistoryError"
  | NonDeterminismError _ _ => "NonDeterminismError"
  | ActivityError _ _ => "ActivityError"
  | SignalTimeoutError _ => "SignalTimeoutError"
  | ChildWorkflowError _ _ => "ChildWorkflowError"
  | DefinitionError _ => "DefinitionError"
  | DefinitionConflictError _ => "DefinitionConflictError"
  | UnknownDefinitionError _ => "UnknownDefinitionError"
  | TransitionError _ => "TransitionError"
  | DefinitionNotRegisteredError _ _ => "DefinitionNotRegisteredError"
  | StoredDefinitionConflictError _ _ => "StoredDefinitionConflictError"
  | TerminalWorkflowError _ _ => "TerminalWorkflowError"
  | StaleLeaseError _ => "StaleLeaseError"
  | ActivityCancellationRequested _ _ => "ActivityCancellationRequested"
  | CronExpressionError _ => "CronExpressionError"
  | MigrationError _ => "MigrationError"
  | UniqueViolation _ => "UniqueViolationError"
  | ForeignKeyViolation _ => "ForeignKeyViolationError"
  | CheckViolation _ => "CheckViolationError"
  | IndexError _ => "IndexError"
  | TimeoutError => "TimeoutError"
  | HTTPException _ _ => "HTTPException"
  | RequestBodyTooLarge => "RequestBodyTooLarge"
  | WorkflowNotFoundError _ => "WorkflowNotFoundError"
  | WorkflowClosedError _ _ _ => "WorkflowClosedError"
  | WorkflowUpdateRejectedError _ _ => "WorkflowUpdateRejectedError"
  | UserError t _ => t
  end.

(** [str(error)] for the exceptions workflow code can see; the messages of the
    persistence exceptions, which never become durable, are their keys only. *)
Definition exn_str `{PyStd} (e : PyError) : string :=
  match e with
  | ValueError m | TypeError m | RuntimeError m | OverflowError m
  | SerializationError m | InvalidHistoryError m | DefinitionError m
  | TransitionError m | CronExpressionError m | MigrationError m
  | UniqueViolation m | ForeignKeyViolation m | CheckViolation m => m
  | KeyError k => py_repr (JStr k)
  | RecursionError => "maximum recursion depth exceeded"
  | NonDeterminismError c d => "non-determinism at command " +:+ pretty c +:+ ": " +:+ d
  | ActivityError t f => "activity " +:+ py_repr (JStr t) +:+ " failed: " +:+ py_repr f
  | SignalTimeoutError n => "timed out waiting for signal " +:+ py_repr (JStr n)
  | ChildWorkflowError t f =>
    "child workflow " +:+ py_repr (JStr t) +:+ " failed: " +:+ py_repr f
  | DefinitionConflictError n | UnknownDefinitionError n => n
  | DefinitionNotRegisteredError t v | StoredDefinitionConflictError t v =>
    t +:+ " version " +:+ pretty v
  | TerminalWorkflowError w s => uuid_str w +:+ " is " +:+ s
  | StaleLeaseError t => uuid_str t
  | ActivityCancellationRequested t r =>
    "cancellation requested for activity task " +:+ uuid_str t +:+
    match r with Some r => if String.eqb r "" then "" else ": " +:+ r | None => "" end
  | IndexError m | WorkflowNotFoundError m => m
  | TimeoutError | RequestBodyTooLarge => ""
  | HTTPException c d => pretty c +:+ ": " +:+ d
  | WorkflowClosedError w s f =>
    "workflow " +:+ uuid_str w +:+ " closed as " +:+ s +:+ ": " +:+ py_repr f
  | WorkflowUpdateRejectedError u f =>
    "workflow update " +:+ py_repr (JStr u) +:+ " was rejected: " +:+ py_repr f
  | UserError _ m => m
  end.

(** [float(v)] of a JSON value. *)
Definition py_float `{PyStd} (v : JSON) : Py float :=
  match v with
  | JBool b => Ok (float_of_Z (if b then 1 else 0))
  | JInt n =>
    let f := float_of_Z n in
    if is_finite f then Ok f else Err (OverflowError "int too large to convert to float")
  | JFloat f => Ok f
  | JStr s =>
    match float_of_str s with
    | Some f => Ok f
    | None => Err (ValueError "could not convert string to float")
    end
  | _ => Err (TypeError "float() argument must be a string or a real number")
  end.

(** ** Integers as text *)

Definition digit_value (a : Ascii.ascii) : option Z :=
  let n := Z.of_N (Ascii.N_of_ascii a) in
  if ((48 <=? n) && (n <=? 57))%Z then Some (n - 48)%Z else None.

(** Decimal digits, with single underscores between digits; [acc] is the value
    so far and [sep] whether an underscore may follow. *)
Fixpoint parse_digits (acc : Z) (sep : bool) (s : string) : option Z :=
  match s with
  | EmptyString => if sep then Some acc else None
  | String a s =>
    match digit_value a with
    | Some d => parse_digits (acc * 10 + d) true s
    | None => if Ascii.eqb a (Ascii.ascii_of_N 95) && sep then parse_digits acc false s else None
    end
  end.

(** [int(s)] of ASCII text without white space; [None] is the [ValueError]. *)
Definition int_of_str (s : string) : option Z :=
  match s with
  | String a t =>
    if Ascii.eqb a (Ascii.ascii_of_N 45) then Z.opp <$> parse_digits 0 false t
    else if Ascii.eqb a (Ascii.ascii_of_N 43) then parse_digits 0 false t
    else parse_digits 0 false s
  | EmptyString => None
  end.

Definition newline : string := String (Ascii.ascii_of_N 10) "".

(** [s.split(sep)] for a one-character separator. *)
Fixpoint split_on (sep : Ascii.ascii) (s : string) : list string :=
  match s with
  | EmptyString => [""]
  | String a s =>
    if Ascii.eqb a sep then "" :: split_on sep s
    else match split_on sep s with
         | w :: ws => String a w :: ws
         | [] => [String a ""]
         end
  end.

(** The text before the first separator, and the text after it when there is
    one ([s.partition(sep)], [s.split(sep, 1)]). *)
Fixpoint partition_on (sep : Ascii.ascii) (s : string) : string * option string :=
  match s with
  | EmptyString => ("", None)
  | String a s =>
    if Ascii.eqb a sep then ("", Some s)
    else let '(w, r) := partition_on sep s in (String a w, r)
  end.

Definition is_space (a : Ascii.ascii) : bool :=
  let n := Ascii.N_of_ascii a in
  ((9 <=? n) && (n <=? 13) || (28 <=? n) && (n <=? 32))%N.

(** [s.split()] of ASCII text: the maximal runs of other characters. *)
Fixpoint words (s : string) : list string :=
  match s with
  | EmptyString => []
  | String a s' =>
    if is_space a then words s'
    else match s' with
         | EmptyString => [String a ""]
         | String b _ =>
           if is_space b then String a "" :: words s'
           else match words s' with
                | w :: ws => String a w :: ws
                | [] => [String a ""]
                end
         end
  end.

(** [d[k]] of a dictionary. *)
Definition dict_item (k : string) (d : dict) : Py JSON :=
  match dict_get k d with Some v => Ok v | None => Err (KeyError k) end.

(** ** Induction and decidable equality on JSON values *)
Section JSON_ind.
Context (P : JSON → Prop).
Context (Hnull : P JNull) (Hbool : ∀ b, P (JBool b)) (Hint : ∀ n, P (JInt n)).
Context (Hfloat : ∀ f, P (JFloat f)) (Hstr : ∀ s, P (JStr s)).
Context (Hlist : ∀ l, Forall P l → P (JList l)).
Context (Hobj : ∀ d : dict, Forall (fun kv => P kv.2) d → P (JObj d)).

Fixpoint JSON_ind' (v : JSON) : P v :=
  match v with
  | JNull => Hnull
  | JBool b => Hbool b
  | JInt n => Hint n
  | JFloat f => Hfloat f
  | JStr s => Hstr s
  | JList l => Hlist l
      ((fix go (l : list JSON) : Forall P l :=
          match l with
          | [] => Forall_nil_2 P
          | v :: l => Forall_cons_2 P v l (JSON_ind' v) (go l)
          end) l)
  | JObj d => Hobj d
      ((fix go (d : dict) : Forall (fun kv => P kv.2) d :=
          match d with
          | [] => Forall_nil_2 (fun kv => P kv.2)
          | kv :: d => Forall_cons_2 (fun kv => P kv.2) kv d (JSON_ind' kv.2) (go d)
          end) d)
  end.
End JSON_ind.

#[export] Instance spec_float_eq_dec : EqDecision float.
Proof. solve_decision. Defined.

Fixpoint JSON_eq_dec (v w : JSON) : Decision (v = w).
Proof.
  refine
    match v, w with
    | JNull, JNull => left eq_refl
    | JBool a, JBool b => cast_if (decide (a = b))
    | JInt a, JInt b => cast_if (decide (a = b))
    | JFloat a, JFloat b => cast_if (decide (a = b))
    | JStr a, JStr b => cast_if (decide (a = b))
    | JList a, JList b =>
      cast_if (@list_eq_dec JSON JSON_eq_dec a b)
    | JObj a, JObj b =>
      cast_if (@list_eq_dec _ (@prod_eq_dec string _ JSON JSON_eq_dec) a b)
    | _, _ => right _
    end; congruence.
Defined.
#[export] Instance JSON_EqDecision : EqDecision JSON := JSON_eq_dec.
#[export] Instance Datetime_eq_dec : EqDecision Datetime.
Proof. solve_decision. Defined.
#[export] Instance PyError_eq_dec : EqDecision PyError.
Proof. solve_decision. Defined.
