(* ===== verification/Serialization.v ===== *)
(** * Canonical JSON (engine/runtime/serialization.py)

    [canonical_json] prints a value with sorted keys, minimal separators and
    non-ASCII text kept ([json.dumps] with the options of the source);
    [clone_json] is the value that text parses back to; [fingerprint] hashes the
    text.  [jsonb] is what a value becomes when it is stored in a [jsonb] column
    and read back. *)
From S2P Require Import Prelude Python.
From stdpp Require Import pretty.

(** ** Text *)
Definition dquote : string := String (Ascii.ascii_of_N 34) "".

(** The escape of one character ([json.encoder.ESCAPE_DCT], [ensure_ascii=False]). *)
Definition escape_char (a : Ascii.ascii) : string :=
  match Ascii.N_of_ascii a with
  | 34%N => "\" +:+ dquote
  | 92%N => "\\"
  | 8%N => "\b"
  | 12%N => "\f"
  | 10%N => "\n"
  | 13%N => "\r"
  | 9%N => "\t"
  | n => if (n <? 32)%N then "\u" +:+ hex 4 n else String a ""
  end.

Fixpoint escape (s : string) : string :=
  match s with
  | EmptyString => ""
  | String a s => escape_char a +:+ escape s
  end.

Definition quote (s : string) : string := dquote +:+ escape s +:+ dquote.

Fixpoint join (sep : string) (l : list string) : string :=
  match l with
  | [] => ""
  | [s] => s
  | s :: l => s +:+ sep +:+ join sep l
  end.

(** ** Key order *)
Definition key_le {A : Type} (a b : string * A) : Prop := String.leb a.1 b.1 = true.
#[export] Instance key_le_dec {A} : RelDecision (@key_le A).
Proof. intros a b. unfold key_le. apply _. Defined.

(** The value with the keys of every object sorted ([sort_keys=True]). *)
Fixpoint sort_keys (v : JSON) : JSON :=
  match v with
  | JList l => JList (map sort_keys l)
  | JObj d => JObj (merge_sort key_le (map (fun kv => match kv with (k, v) => (k, sort_keys v) end) d))
  | _ => v
  end.

(** [allow_nan=False]: no float of the value is infinite or not a number. *)
Fixpoint json_finite (v : JSON) : bool :=
  match v with
  | JFloat f => is_finite f
  | JList l => forallb json_finite l
  | JObj d => forallb (fun kv => match kv with (_, v) => json_finite v end) d
  | _ => true
  end.

Section Serialization.
Context `{PyStd}.

(** The text of a value, its objects in the order they have. *)
Fixpoint print_json (v : JSON) : string :=
  match v with
  | JNull => "null"
  | JBool true => "true"
  | JBool false => "false"
  | JInt n => pretty n
  | JFloat f => float_repr f
  | JStr s => quote s
  | JList l => "[" +:+ join "," (map print_json l) +:+ "]"
  | JObj d =>
    "{" +:+ join "," (map (fun kv => match kv with (k, v) => quote k +:+ ":" +:+ print_json v end) d)
    +:+ "}"
  end.

(** engine/runtime/serialization.py, lines 15-25 *)
Definition canonical_json (value : JSON) : Py string :=
  if json_finite value then Ok (print_json (sort_keys value))
  else Err (SerializationError ("value is not canonical JSON: " +:+ json_error value)).

(** engine/runtime/serialization.py, lines 28-29 *)
Definition fingerprint (value : JSON) : Py string :=
  text ← canonical_json value; Ok (hex 64 (sha256 text)).

(** engine/runtime/serialization.py, lines 32-34: parsing the canonical text
    gives the value back with its keys in canonical order. *)
Definition clone_json (value : JSON) : Py JSON :=
  _ ← canonical_json value; Ok (sort_keys value).

(** ** Values in [jsonb] columns

    A [jsonb] number is a decimal: the text of a float of magnitude at least
    [10^16] is in exponent form and reads back as an integer, and negative zero
    loses its sign. *)
Definition jsonb_float (f : float) : JSON :=
  match f with
  | S754_zero _ => JFloat (S754_zero false)
  | _ => if SFleb (float_of_Z (10 ^ 16)) (SFabs f) then JInt (round_half_even f) else JFloat f
  end.

Fixpoint jsonb (v : JSON) : JSON :=
  match v with
  | JFloat f => jsonb_float f
  | JList l => JList (map jsonb l)
  | JObj d => JObj (map (fun kv => match kv with (k, v) => (k, jsonb v) end) d)
  | _ => v
  end.

(** Storing a value: [canonical_json(value)] cast to [jsonb]. *)
Definition to_jsonb (value : JSON) : Py JSON :=
  _ ← canonical_json value; Ok (jsonb (sort_keys value)).

End Serialization.

(** ** Python's equality of JSON values: numbers by value, dictionaries
    whatever the order of their keys. *)
Definition float_eq_int (f : float) (n : Z) : bool :=
  match f with
  | S754_zero _ => (n =? 0)%Z
  | S754_finite _ m e =>
    ((0 <=? e)%Z || (Z.pos m mod 2 ^ (- e) =? 0)%Z) && (float_trunc f =? n)%Z
  | _ => false
  end.
Definition as_number (v : JSON) : option (Z + float) :=
  match v with
  | JBool b => Some (inl (Z.b2z b))
  | JInt n => Some (inl n)
  | JFloat f => Some (inr f)
  | _ => None
  end.
Definition number_eq (a b : Z + float) : bool :=
  match a, b with
  | inl m, inl n => (m =? n)%Z
  | inl n, inr f | inr f, inl n => float_eq_int f n
  | inr f, inr g => SFeqb f g
  end.
Fixpoint py_eq (v w : JSON) : bool :=
  match v, w with
  | JNull, JNull => true
  | JStr s, JStr t => String.eqb s t
  | JList l, JList l' =>
    (fix go (l l' : list JSON) : bool :=
       match l, l' with
       | [], [] => true
       | v :: l, w :: l' => py_eq v w && go l l'
       | _, _ => false
       end) l l'
  | JObj d, JObj d' =>
    (fix go (d d' : dict) : bool :=
       match d, d' with
       | [], [] => true
       | (k, v) :: d, (k', w) :: d' => String.eqb k k' && py_eq v w && go d d'
       | _, _ => false
       end) d d'
  | _, _ =>
    match as_number v, as_number w with
    | Some a, Some b => number_eq a b
    | _, _ => false
    end
  end.
Definition json_equal (v w : JSON) : bool := py_eq (sort_keys v) (sort_keys w).

(** ** Lemmas: the key order *)
Lemma string_compare_refl s : String.compare s s = Eq.
Proof.
  induction s as [|a s IH]; simpl; [done|].
  assert (Ascii.compare a a = Eq) as -> by (unfold Ascii.compare; apply N.compare_refl).
  done.
Qed.

Lemma ascii_compare_trans a b c :
  Ascii.compare a b = Lt → Ascii.compare b c = Lt → Ascii.compare a c = Lt.
Proof. unfold Ascii.compare. rewrite !N.compare_lt_iff. lia. Qed.

Lemma string_compare_trans s t u :
  String.compare s t = Lt → String.compare t u = Lt → String.compare s u = Lt.
Proof.
  revert t u; induction s as [|a s IH]; intros [|b t] [|c u]; simpl; try done.
  destruct (Ascii.compare a b) eqn:Hab; [|intros _|done];
    (destruct (Ascii.compare b c) eqn:Hbc; [|intros ?|done]); intros.
  - apply Ascii.compare_eq_iff in Hab as ->. rewrite Hbc. eauto.
  - apply Ascii.compare_eq_iff in Hab as ->. by rewrite Hbc.
  - apply Ascii.compare_eq_iff in Hbc as <-. by rewrite Hab.
  - by rewrite (ascii_compare_trans a b c).
Qed.

Lemma string_leb_spec s t : String.leb s t = true ↔ s = t ∨ String.compare s t = Lt.
Proof.
  unfold String.leb. split.
  - destruct (String.compare s t) eqn:E; intros; [left|by right|done].
    by apply String.compare_eq_iff.
  - by intros [-> | ->]; [rewrite string_compare_refl|].
Qed.

#[export] Instance key_le_total {A} : Total (@key_le A).
Proof. intros a b. unfold key_le. destruct (String.leb_total a.1 b.1); auto. Qed.

#[export] Instance key_le_trans {A} : Transitive (@key_le A).
Proof.
  intros [a ?] [b ?] [c ?]. unfold key_le; simpl. rewrite !string_leb_spec.
  intros [->|?] [->|?]; eauto using string_compare_trans.
Qed.

Lemma key_le_antisym {A} (a b : string * A) : key_le a b → key_le b a → a.1 = b.1.
Proof. unfold key_le. intros. by apply String.leb_antisym. Qed.

(** ** Dictionaries with distinct keys *)
Fixpoint json_wf (v : JSON) : Prop :=
  match v with
  | JList l => foldr (fun v P => json_wf v ∧ P) True l
  | JObj d => NoDup d.*1 ∧ foldr (fun kv P => json_wf (snd kv) ∧ P) True d
  | _ => True
  end.

(** Python equality of values that differ only in the order of their keys. *)
Inductive json_eq : JSON → JSON → Prop :=
| json_eq_refl v : json_eq v v
| json_eq_list l l' : Forall2 json_eq l l' → json_eq (JList l) (JList l')
| json_eq_obj d d' d'' :
    Forall2 (fun kv kv' => kv.1 = kv'.1 ∧ json_eq kv.2 kv'.2) d d' → d' ≡ₚ d'' →
    json_eq (JObj d) (JObj d'').

Definition sort_kv (kv : string * JSON) : string * JSON := (kv.1, sort_keys kv.2).

Lemma sort_keys_obj d : sort_keys (JObj d) = JObj (merge_sort key_le (map sort_kv d)).
Proof. simpl. f_equal. f_equal. apply map_ext. by intros []. Qed.

Lemma sort_kv_keys d : (map sort_kv d).*1 = d.*1.
Proof. induction d as [|kv d IH]; [done|]. rewrite map_cons, !fmap_cons. by rewrite IH. Qed.

Lemma json_wf_obj d : json_wf (JObj d) ↔ NoDup d.*1 ∧ Forall (fun kv => json_wf kv.2) d.
Proof.
  simpl. apply and_iff_compat_l. induction d as [|kv d IH]; simpl; [done|].
  rewrite Forall_cons. by apply and_iff_compat_l.
Qed.
Lemma json_wf_list l : json_wf (JList l) ↔ Forall json_wf l.
Proof.
  simpl. induction l as [|v l IH]; simpl; [done|].
  rewrite Forall_cons. by apply and_iff_compat_l.
Qed.

Lemma nodup_keys_eq {A} (d : list (string * A)) a b :
  NoDup d.*1 → a ∈ d → b ∈ d → a.1 = b.1 → a = b.
Proof.
  intros Hnd [i Hi]%list_elem_of_lookup [j Hj]%list_elem_of_lookup Hab.
  assert (i = j) as ->; [|congruence].
  apply (NoDup_lookup d.*1 i j a.1); [done| |]; rewrite list_lookup_fmap.
  - by rewrite Hi.
  - by rewrite Hj, Hab.
Qed.

(** Sorting forgets the order of a dictionary's entries. *)
Lemma merge_sort_perm {A} (d d' : list (string * A)) :
  NoDup d.*1 → d ≡ₚ d' → merge_sort key_le d = merge_sort key_le d'.
Proof.
  intros Hnd Hp.
  assert (∀ x, x ∈ merge_sort key_le d → x ∈ d) as Hin
    by (intros x; by rewrite merge_sort_Permutation).
  assert (∀ x, x ∈ merge_sort key_le d' → x ∈ d) as Hin'
    by (intros x; by rewrite merge_sort_Permutation, <- Hp).
  eapply (StronglySorted_unique_strong key_le).
  - intros x y Hx%Hin Hy%Hin' Hxy Hyx. by eapply nodup_keys_eq, key_le_antisym.
  - by apply StronglySorted_merge_sort; apply _.
  - by apply StronglySorted_merge_sort; apply _.
  - by rewrite !merge_sort_Permutation.
Qed.

Lemma map_sort_kv_sorted d :
  map sort_kv (merge_sort key_le (map sort_kv d)) ≡ₚ map sort_kv (map sort_kv d).
Proof. by apply Permutation_map, merge_sort_Permutation. Qed.

Lemma sort_keys_idemp v : json_wf v → sort_keys (sort_keys v) = sort_keys v.
Proof.
  induction v as [| | | | |l IH|d IH] using JSON_ind'; intros Hwf; try done.
  - apply json_wf_list in Hwf. simpl. f_equal. rewrite map_map.
    induction Hwf as [|v l Hv Hl IHl]; [done|]; simpl.
    inversion_clear IH as [|?? Hv' Hl']. by rewrite Hv', IHl.
  - apply json_wf_obj in Hwf as [Hnd Hwf]. rewrite !sort_keys_obj. f_equal.
    apply merge_sort_perm.
    + by rewrite sort_kv_keys, merge_sort_Permutation, sort_kv_keys.
    + rewrite map_sort_kv_sorted.
      assert (map sort_kv (map sort_kv d) = map sort_kv d) as ->; [|done].
      clear Hnd. induction Hwf as [|[k v] d Hv Hd IHd]; [done|].
      apply Forall_cons in IH as [IHv IH]. rewrite !map_cons, (IHd IH).
      unfold sort_kv; simpl in *. by rewrite IHv.
Qed.

(** Two values equal up to key order have the same canonical form. *)
Lemma sort_keys_json_eq v w : json_wf v → json_eq v w → sort_keys v = sort_keys w.
Proof.
  revert w. induction v as [| | | | |l IH|d IH] using JSON_ind'; intros w Hwf Heq.
  6:{ inversion Heq as [|? l' Hl|]; subst; [done|]. simpl. f_equal.
    apply json_wf_list in Hwf. clear Heq.
    induction Hl as [|v v' l l' Hv Hl IHl]; [done|]; simpl.
    apply Forall_cons in IH as [IHv IH]. apply Forall_cons in Hwf as [Hwv Hwf].
    by rewrite (IHv v'), IHl. }
  6:{ inversion Heq as [| |? d' d'' Hd Hp]; subst; [done|].
    apply json_wf_obj in Hwf as [Hnd Hwf]. rewrite !sort_keys_obj. f_equal.
    assert (map sort_kv d = map sort_kv d') as ->.
    { clear Heq Hnd Hp. induction Hd as [|[k v] [k' v'] d d' [Hk Hv] Hd IHd]; [done|].
      apply Forall_cons in IH as [IHv IH]. apply Forall_cons in Hwf as [Hwv Hwf].
      simpl in *. unfold sort_kv at 1 3; simpl. by rewrite Hk, (IHv v'), IHd. }
    apply merge_sort_perm; [|by apply Permutation_map].
    rewrite sort_kv_keys.
    assert (d'.*1 = d.*1) as ->; [|done].
    clear -Hd. induction Hd as [|?? d d' [Hk ?] Hd IHd]; [done|]. rewrite !fmap_cons. congruence. }
  all: by inversion Heq.
Qed.

Lemma json_finite_obj d : json_finite (JObj d) = forallb (fun kv => json_finite kv.2) d.
Proof. simpl. induction d as [|[] d IH]; simpl; congruence. Qed.

Lemma forallb_perm {A} (f : A → bool) l l' : l ≡ₚ l' → forallb f l = forallb f l'.
Proof.
  induction 1; simpl; try congruence.
  by rewrite !andb_assoc, (andb_comm (f x)).
Qed.

Lemma json_finite_sort_keys v : json_finite (sort_keys v) = json_finite v.
Proof.
  induction v as [| | | | |l IH|d IH] using JSON_ind'; try done.
  - simpl. induction IH as [|v l Hv Hl IHl]; simpl; congruence.
  - rewrite sort_keys_obj, !json_finite_obj, (forallb_perm _ _ _ (merge_sort_Permutation _ _)).
    induction IH as [|[k v] d Hv Hd IHd]; simpl in *; congruence.
Qed.

Lemma json_finite_eq v w : json_wf v → json_eq v w → json_finite v = json_finite w.
Proof.
  intros Hwf Heq. rewrite <- (json_finite_sort_keys v), <- (json_finite_sort_keys w).
  by rewrite (sort_keys_json_eq v w).
Qed.

Lemma canonical_json_ok `{PyStd} v s :
  canonical_json v = Ok s ↔ json_finite v = true ∧ s = print_json (sort_keys v).
Proof. unfold canonical_json. destruct (json_finite v); split; intros; destruct_and?; by simplify_eq. Qed.

Lemma clone_json_ok `{PyStd} v w :
  clone_json v = Ok w ↔ json_finite v = true ∧ w = sort_keys v.
Proof.
  unfold clone_json, canonical_json.
  destruct (json_finite v); simpl; split; intros; destruct_and?; by simplify_eq/=.
Qed.

(** ** Properties *)

(** The fingerprint of a command does not depend on the order in which its
    dictionaries were built: values equal as Python dictionaries have the same
    canonical text and the same hash. *)
Theorem fingerprint_key_order `{PyStd} (v w : JSON) (h : string) :
  json_wf v → json_eq v w → fingerprint v = Ok h →
  fingerprint w = Ok h ∧ canonical_json v = canonical_json w.
Proof.
  intros Hwf Heq. unfold fingerprint, canonical_json.
  rewrite <- (json_finite_eq v w), <- (sort_keys_json_eq v w) by done.
  by destruct (json_finite v).
Qed.

(** Detaching a value is idempotent and does not change its canonical text;
    it fails exactly on values that hold a non-finite float. *)
Theorem clone_json_canonical `{PyStd} (v : JSON) :
  json_wf v →
  match clone_json v with
  | Ok w => clone_json w = Ok w ∧ canonical_json w = canonical_json v
  | Err e => json_finite v = false ∧ exn_type_name e = "SerializationError"
  end.
Proof.
  intros Hwf. destruct (clone_json v) as [w|e] eqn:Hc.
  - apply clone_json_ok in Hc as [Hf ->].
    assert (json_finite (sort_keys v) = true) as Hf' by by rewrite json_finite_sort_keys.
    split; [|unfold canonical_json].
    + apply clone_json_ok. by rewrite sort_keys_idemp.
    + by rewrite Hf', Hf, sort_keys_idemp.
  - revert Hc. unfold clone_json, canonical_json. destruct (json_finite v); simpl; intros; by simplify_eq/=.
Qed.
