(* ===== verification/Floats.v ===== *)
(** * Random fractions in binary64

    [random] markers are quotients [k / 2**53] with [0 <= k < 2**53]: the
    division is exact, so the value is in [0, 1) and a JSON number keeps it. *)
From S2P Require Import Prelude Python Serialization.
From Stdlib Require Import Lia.

Lemma digits2_shift p n : digits2_pos (Pos.iter xO p n) = (digits2_pos p + n)%positive.
Proof.
  revert p. induction n as [|n IH] using Pos.peano_ind; intros p; [simpl; lia|].
  rewrite Pos.iter_succ. simpl. rewrite IH. lia.
Qed.

Lemma digits2_bound p : (2 ^ (Zpos (digits2_pos p) - 1) ≤ Zpos p < 2 ^ Zpos (digits2_pos p))%Z.
Proof.
  induction p as [p IH|p IH|]; simpl digits2_pos; [| |done];
    rewrite Pos2Z.inj_succ; replace (Z.succ (Z.pos (digits2_pos p)) - 1)%Z
      with (Z.succ (Z.pos (digits2_pos p) - 1)) by lia;
    rewrite !Z.pow_succ_r by lia; lia.
Qed.

(** A mantissa of 53 digits is kept as it is. *)
Lemma round_exact m e :
  digits2_pos m = 53%positive → (-1074 ≤ e ≤ 971)%Z →
  binary_round_aux prec emax false (Zpos m) e loc_Exact = S754_finite false m e.
Proof.
  intros Hm He. unfold binary_round_aux, shr_fexp.
  assert (fexp prec emax (Zdigits2 (Zpos m) + e) - e = 0)%Z as Hs.
  { unfold Zdigits2. rewrite Hm. unfold fexp, emin, prec, emax. lia. }
  rewrite Hs. simpl. fold (Zdigits2 (Zpos m)).
  change (Z.pos (digits2_pos m)) with (Zdigits2 (Zpos m)). rewrite Hs. simpl.
  unfold emax, prec. destruct (Z.leb_spec e (1024 - 53)); [done|lia].
Qed.

(** One digit more, which is zero, is shifted out. *)
Lemma round_even m e :
  digits2_pos m = 53%positive → (-1074 ≤ e ≤ 900)%Z →
  binary_round_aux prec emax false (Zpos m~0) e loc_Exact = S754_finite false m (e + 1).
Proof.
  intros Hm He. unfold binary_round_aux, shr_fexp.
  assert (fexp prec emax (Zdigits2 (Zpos m~0) + e) - e = 1)%Z as Hs.
  { unfold Zdigits2. simpl digits2_pos. rewrite Hm. unfold fexp, emin, prec, emax. lia. }
  rewrite Hs.
  assert (fexp prec emax (Zdigits2 (Zpos m) + (e + 1)) - (e + 1) = 0)%Z as Hs'.
  { unfold Zdigits2. rewrite Hm. unfold fexp, emin, prec, emax. lia. }
  simpl. change (Z.pos (digits2_pos m)) with (Zdigits2 (Zpos m)). rewrite Hs'. simpl.
  unfold emax, prec. destruct (Z.leb_spec (e + 1) (1024 - 53)); [done|lia].
Qed.

Lemma float_of_pos p :
  (Zpos p < 2 ^ 53)%Z →
  ∃ m e, float_of_Z (Zpos p) = S754_finite false m e ∧ digits2_pos m = 53%positive ∧ (-53 ≤ e ≤ 0)%Z.
Proof.
  intros Hp. pose proof (digits2_bound p) as [Hd _].
  assert (Zpos (digits2_pos p) ≤ 53)%Z as Hd53.
  { destruct (Z.le_gt_cases (Zpos (digits2_pos p)) 53) as [|Hgt]; [done|].
    assert (2 ^ 53 ≤ 2 ^ (Zpos (digits2_pos p) - 1))%Z; [apply Z.pow_le_mono_r; lia|lia]. }
  unfold float_of_Z, binary_normalize, binary_round.
  assert (fexp prec emax (Z.pos (digits2_pos p) + 0) = Zpos (digits2_pos p) - 53)%Z as ->.
  { unfold fexp, emin, prec, emax. lia. }
  unfold shl_align. destruct (Zpos (digits2_pos p) - 53 - 0)%Z as [|q|q] eqn:Hq; [|lia|].
  - exists p, 0%Z. rewrite round_exact; [|lia|lia]. split_and!; [done|lia|lia|lia].
  - eexists (Pos.iter xO p q), _. rewrite round_exact; [|rewrite digits2_shift; lia|lia].
    split_and!; [done|rewrite digits2_shift; lia|lia|lia].
Qed.

Lemma two53 : float_of_Z (2 ^ 53) = S754_finite false 4503599627370496 1.
Proof. by vm_compute. Qed.

(** [k / 2**53], for [0 < k < 2**53]. *)
Lemma random_fraction p :
  (Zpos p < 2 ^ 53)%Z →
  ∃ m e, float_div (float_of_Z (Zpos p)) (float_of_Z (2 ^ 53)) = S754_finite false m e ∧ (e ≤ -53)%Z.
Proof.
  intros Hp. destruct (float_of_pos p Hp) as (m & e & -> & Hm & He). rewrite two53.
  exists m, (e - 53)%Z. split; [|lia]. unfold float_div, SFdiv, SFdiv_core_binary.
  assert (Zdigits2 (Z.pos m) = 53%Z) as -> by (unfold Zdigits2; by rewrite Hm).
  change (Zdigits2 4503599627370496) with 53%Z.
  assert (Z.min (fexp prec emax (53 + e - (53 + 1))) (e - 1) = e - 54)%Z as ->.
  { unfold fexp, emin, prec, emax. lia. }
  replace (e - 1 - (e - 54))%Z with 53%Z by lia.
  rewrite Z.shiftl_mul_pow2 by lia.
  assert (Z.div_eucl (Z.pos m * 2 ^ 53) 4503599627370496 = (Z.pos m~0, 0)%Z) as ->.
  { assert (Z.pos m * 2 ^ 53 = 4503599627370496 * Z.pos m~0)%Z as Heq by lia.
    assert (Z.pos m * 2 ^ 53 / 4503599627370496 = Z.pos m~0)%Z as Hq.
    { rewrite Heq, Z.mul_comm. by apply Z.div_mul. }
    assert ((Z.pos m * 2 ^ 53) mod 4503599627370496 = 0)%Z as Hr.
    { rewrite Heq, Z.mul_comm. by apply Z.mod_mul. }
    unfold Z.div, Z.modulo in Hq, Hr. destruct (Z.div_eucl _ _). by simplify_eq. }
  change (new_location 4503599627370496 0) with loc_Exact. simpl xorb.
  rewrite round_even by (done || lia). f_equal. lia.
Qed.

(** A derived random value is a fraction that JSON keeps. *)
Lemma random_valid k :
  (0 ≤ k < 2 ^ 53)%Z →
  let f := float_div (float_of_Z k) (float_of_Z (2 ^ 53)) in
  SFleb (S754_zero false) f && SFltb f (float_of_Z 1) = true ∧ jsonb_float f = JFloat f.
Proof.
  intros Hk f. destruct k as [|p|p]; [by vm_compute| |lia].
  destruct (random_fraction p) as (m & e & Hf & He); [lia|]. unfold f. rewrite Hf.
  assert (∃ m1, float_of_Z 1 = S754_finite false m1 (-52)) as [m1 ->] by by vm_compute; eexists.
  assert (∃ m2, float_of_Z (10 ^ 16) = S754_finite false m2 1) as [m2 Hbig] by by vm_compute; eexists.
  unfold jsonb_float. rewrite Hbig. unfold SFleb, SFltb, SFabs, SFcompare. split.
  - destruct (Z.compare_spec e (-52)); [lia|done|lia].
  - destruct (Z.compare_spec 1 e); [lia|lia|done].
Qed.
