(* ===== verification/History.v ===== *)
(** * Workflow history and its replay index (engine/runtime/history.py)

    [HistoryEvent] is a row of a workflow's history; [HistoryIndex] builds the
    lookup tables replay uses and rejects a history that violates an engine
    invariant, in the order of the checks of [HistoryIndex.__init__]. *)
From S2P Require Import Prelude Python Serialization.

(** ** Event types

    The event types the engine writes; any other text is [OtherEvent]. *)
Inductive EventType : Type :=
| WorkflowExecutionStarted
| ActivityScheduled
| ActivityStarted
| ActivityCompleted
| ActivityFailed
| ActivityTimedOut
| TimerStarted
| TimerFired
| TimerCanceled
| SignalReceived
| MarkerRecorded
| ChildWorkflowStarted
| ChildWorkflowCompleted
| ChildWorkflowFailed
| ChildWorkflowTerminated
| WorkflowUpdateReceived
| WorkflowUpdateResolved
| WorkflowExecutionContinuedAsNew
| WorkflowExecutionCompleted
| WorkflowExecutionFailed
| WorkflowExecutionTerminated
| WorkflowCancellationRequested
| WorkflowExecutionPaused
| WorkflowExecutionResumed
| OtherEvent (name : string).

#[export] Instance EventType_eq_dec : EqDecision EventType.
Proof. solve_decision. Defined.

(** The stored text of an event type. *)
Definition event_type_name (t : EventType) : string :=
  match t with
  | WorkflowExecutionStarted => "WorkflowExecutionStarted"
  | ActivityScheduled => "ActivityScheduled"
  | ActivityStarted => "ActivityStarted"
  | ActivityCompleted => "ActivityCompleted"
  | ActivityFailed => "ActivityFailed"
  | ActivityTimedOut => "ActivityTimedOut"
  | TimerStarted => "TimerStarted"
  | TimerFired => "TimerFired"
  | TimerCanceled => "TimerCanceled"
  | SignalReceived => "SignalReceived"
  | MarkerRecorded => "MarkerRecorded"
  | ChildWorkflowStarted => "ChildWorkflowStarted"
  | ChildWorkflowCompleted => "ChildWorkflowCompleted"
  | ChildWorkflowFailed => "ChildWorkflowFailed"
  | ChildWorkflowTerminated => "ChildWorkflowTerminated"
  | WorkflowUpdateReceived => "WorkflowUpdateReceived"
  | WorkflowUpdateResolved => "WorkflowUpdateResolved"
  | WorkflowExecutionContinuedAsNew => "WorkflowExecutionContinuedAsNew"
  | WorkflowExecutionCompleted => "WorkflowExecutionCompleted"
  | WorkflowExecutionFailed => "WorkflowExecutionFailed"
  | WorkflowExecutionTerminated => "WorkflowExecutionTerminated"
  | WorkflowCancellationRequested => "WorkflowCancellationRequested"
  | WorkflowExecutionPaused => "WorkflowExecutionPaused"
  | WorkflowExecutionResumed => "WorkflowExecutionResumed"
  | OtherEvent s => s
  end.

(** engine/runtime/history.py, lines 10-19 *)
Definition SCHEDULE_EVENT_TYPES (t : EventType) : bool :=
  match t with
  | ActivityScheduled | TimerStarted | MarkerRecorded | ChildWorkflowStarted
  | WorkflowUpdateResolved | WorkflowExecutionContinuedAsNew => true
  | _ => false
  end.

(** engine/runtime/history.py, lines 20-22 *)
Definition ACTIVITY_TERMINAL_EVENT_TYPES (t : EventType) : bool :=
  match t with ActivityCompleted | ActivityFailed | ActivityTimedOut => true | _ => false end.

(** engine/runtime/history.py, line 23 *)
Definition TIMER_TERMINAL_EVENT_TYPES (t : EventType) : bool :=
  match t with TimerFired | TimerCanceled => true | _ => false end.

(** engine/runtime/history.py, lines 24-26 *)
Definition CHILD_TERMINAL_EVENT_TYPES (t : EventType) : bool :=
  match t with
  | ChildWorkflowCompleted | ChildWorkflowFailed | ChildWorkflowTerminated => true
  | _ => false
  end.

(** engine/runtime/history.py, lines 27-33 *)
Definition WORKFLOW_TERMINAL_EVENT_TYPES (t : EventType) : bool :=
  match t with
  | WorkflowExecutionCompleted | WorkflowExecutionFailed | WorkflowExecutionTerminated => true
  | _ => false
  end.

(** The schedule events that must carry an entity identity (lines 86-91). *)
Definition needs_entity (t : EventType) : bool :=
  match t with
  | ActivityScheduled | TimerStarted | ChildWorkflowStarted
  | WorkflowExecutionContinuedAsNew => true
  | _ => false
  end.

(** engine/runtime/history.py, lines 36-43 *)
Record HistoryEvent : Type := mk_event {
  event_seq : Z;
  event_type : EventType;
  attributes : dict;
  command_id : option Z;
  entity_id : option UUID;
  external_id : option string
}.
#[export] Instance HistoryEvent_eq_dec : EqDecision HistoryEvent.
Proof. solve_decision. Defined.

(** [event.attributes.get(k)]. *)
Definition attr (k : string) (e : HistoryEvent) : JSON := dict_get_json k (attributes e).

(** [event.attributes.get("final", True)], as a condition. *)
Definition is_final_attr (e : HistoryEvent) : bool :=
  match dict_get "final" (attributes e) with Some v => truthy v | None => true end.

(** [isinstance(v, str) and v]. *)
Definition nonempty_str (v : JSON) : bool :=
  match v with JStr s => negb (String.eqb s "") | _ => false end.

(** ** The index *)

(** engine/runtime/history.py, lines 54-64: the fields of the index, and the
    loop variable [previous_seq]. *)
Record HistoryIndex : Type := mk_index {
  events : list HistoryEvent;
  scheduled : gmap Z HistoryEvent;
  scheduled_entities : gmap UUID HistoryEvent;
  activity_terminal : gmap UUID HistoryEvent;
  timer_terminal : gmap UUID HistoryEvent;
  child_terminal : gmap UUID HistoryEvent;
  signals : list HistoryEvent;
  updates : list HistoryEvent;
  cancellation_requested : option HistoryEvent;
  workflow_terminal : option HistoryEvent;
  previous_seq : Z
}.

Definition empty_index : HistoryIndex :=
  mk_index [] ∅ ∅ ∅ ∅ ∅ [] [] None None 0.

Definition invalid {A : Type} (msg : string) : Py A := Err (InvalidHistoryError msg).

(** engine/runtime/history.py, lines 66-78: sequence, terminal and start checks. *)
Definition index_header (i : HistoryIndex) (e : HistoryEvent) : Py HistoryIndex :=
  if negb (event_seq e =? previous_seq i + 1)%Z then invalid "history sequence must be contiguous"
  else if bool_decide (is_Some (workflow_terminal i)) then invalid "event appears after terminal"
  else if bool_decide (event_type e = WorkflowExecutionStarted) && negb (event_seq e =? 1)%Z then
    invalid "WorkflowExecutionStarted appears more than once"
  else Ok (mk_index (events i ++ [e]) (scheduled i) (scheduled_entities i) (activity_terminal i)
             (timer_terminal i) (child_terminal i) (signals i) (updates i)
             (cancellation_requested i) (workflow_terminal i) (event_seq e)).

(** engine/runtime/history.py, lines 79-103 *)
Definition index_schedule (i : HistoryIndex) (e : HistoryEvent) : Py HistoryIndex :=
  if SCHEDULE_EVENT_TYPES (event_type e) then
    match command_id e with
    | None => invalid "event lacks command identity"
    | Some c =>
      if needs_entity (event_type e) && bool_decide (entity_id e = None) then
        invalid "event lacks entity identity"
      else match scheduled i !! c with
      | Some _ => invalid "command was scheduled twice"
      | None =>
        match entity_id e with
        | Some n =>
          match scheduled_entities i !! n with
          | Some _ => invalid "entity was scheduled twice"
          | None =>
            Ok (mk_index (events i) (<[c := e]> (scheduled i)) (<[n := e]> (scheduled_entities i))
                  (activity_terminal i) (timer_terminal i) (child_terminal i) (signals i)
                  (updates i) (cancellation_requested i) (workflow_terminal i) (previous_seq i))
          end
        | None =>
          Ok (mk_index (events i) (<[c := e]> (scheduled i)) (scheduled_entities i)
                (activity_terminal i) (timer_terminal i) (child_terminal i) (signals i)
                (updates i) (cancellation_requested i) (workflow_terminal i) (previous_seq i))
        end
      end
    end
  else Ok i.

(** [scheduled is None or scheduled.event_type != t] is the failure case. *)
Definition scheduled_as (i : HistoryIndex) (n : UUID) (t : EventType) : bool :=
  match scheduled_entities i !! n with
  | Some s => bool_decide (event_type s = t)
  | None => false
  end.

(** engine/runtime/history.py, lines 104-120 *)
Definition index_activity_terminal (i : HistoryIndex) (e : HistoryEvent) : Py HistoryIndex :=
  if ACTIVITY_TERMINAL_EVENT_TYPES (event_type e) then
    match entity_id e with
    | None => invalid "event lacks entity identity"
    | Some n =>
      if bool_decide (is_Some (activity_terminal i !! n)) then
        invalid "entity has multiple terminal events"
      else if negb (scheduled_as i n ActivityScheduled) then
        invalid "event has no prior activity schedule"
      else if bool_decide (event_type e = ActivityCompleted) || is_final_attr e then
        Ok (mk_index (events i) (scheduled i) (scheduled_entities i)
              (<[n := e]> (activity_terminal i)) (timer_terminal i) (child_terminal i) (signals i)
              (updates i) (cancellation_requested i) (workflow_terminal i) (previous_seq i))
      else Ok i
    end
  else Ok i.

(** engine/runtime/history.py, lines 121-135 *)
Definition index_timer_terminal (i : HistoryIndex) (e : HistoryEvent) : Py HistoryIndex :=
  if TIMER_TERMINAL_EVENT_TYPES (event_type e) then
    match entity_id e with
    | None => invalid "event lacks entity identity"
    | Some n =>
      if negb (scheduled_as i n TimerStarted) then invalid "event has no prior timer start"
      else if bool_decide (is_Some (timer_terminal i !! n)) then
        invalid "timer has multiple terminal events"
      else
        Ok (mk_index (events i) (scheduled i) (scheduled_entities i) (activity_terminal i)
              (<[n := e]> (timer_terminal i)) (child_terminal i) (signals i)
              (updates i) (cancellation_requested i) (workflow_terminal i) (previous_seq i))
    end
  else Ok i.

(** engine/runtime/history.py, lines 136-150 *)
Definition index_child_terminal (i : HistoryIndex) (e : HistoryEvent) : Py HistoryIndex :=
  if CHILD_TERMINAL_EVENT_TYPES (event_type e) then
    match entity_id e with
    | None => invalid "event lacks child identity"
    | Some n =>
      if negb (scheduled_as i n ChildWorkflowStarted) then invalid "event has no prior start"
      else if bool_decide (is_Some (child_terminal i !! n)) then
        invalid "child has multiple terminal events"
      else
        Ok (mk_index (events i) (scheduled i) (scheduled_entities i) (activity_terminal i)
              (timer_terminal i) (<[n := e]> (child_terminal i)) (signals i)
              (updates i) (cancellation_requested i) (workflow_terminal i) (previous_seq i))
    end
  else Ok i.

(** engine/runtime/history.py, lines 151-173 *)
Definition index_message (i : HistoryIndex) (e : HistoryEvent) : Py HistoryIndex :=
  match event_type e with
  | SignalReceived =>
    if negb (nonempty_str (attr "name" e)) then invalid "SignalReceived has no signal name"
    else if bool_decide (external_id e = None) then
      invalid "SignalReceived has no external identity"
    else Ok (mk_index (events i) (scheduled i) (scheduled_entities i) (activity_terminal i)
               (timer_terminal i) (child_terminal i) (signals i ++ [e]) (updates i)
               (cancellation_requested i) (workflow_terminal i) (previous_seq i))
  | WorkflowUpdateReceived =>
    if negb (nonempty_str (attr "name" e)) then invalid "WorkflowUpdateReceived has no name"
    else if negb (nonempty_str (attr "update_id" e)) then
      invalid "WorkflowUpdateReceived has no update ID"
    else Ok (mk_index (events i) (scheduled i) (scheduled_entities i) (activity_terminal i)
               (timer_terminal i) (child_terminal i) (signals i) (updates i ++ [e])
               (cancellation_requested i) (workflow_terminal i) (previous_seq i))
  | _ => Ok i
  end.

(** engine/runtime/history.py, lines 174-179 *)
Definition index_closing (i : HistoryIndex) (e : HistoryEvent) : Py HistoryIndex :=
  match event_type e with
  | WorkflowCancellationRequested =>
    match cancellation_requested i with
    | Some _ => invalid "workflow cancellation was requested more than once"
    | None =>
      Ok (mk_index (events i) (scheduled i) (scheduled_entities i) (activity_terminal i)
            (timer_terminal i) (child_terminal i) (signals i) (updates i) (Some e)
            (workflow_terminal i) (previous_seq i))
    end
  | t =>
    if WORKFLOW_TERMINAL_EVENT_TYPES t then
      Ok (mk_index (events i) (scheduled i) (scheduled_entities i) (activity_terminal i)
            (timer_terminal i) (child_terminal i) (signals i) (updates i)
            (cancellation_requested i) (Some e) (previous_seq i))
    else Ok i
  end.

(** engine/runtime/history.py, lines 65-179: one iteration of the loop. *)
Definition index_event (i : HistoryIndex) (e : HistoryEvent) : Py HistoryIndex :=
  i ← index_header i e;
  i ← index_schedule i e;
  i ← index_activity_terminal i e;
  i ← index_timer_terminal i e;
  i ← index_child_terminal i e;
  i ← index_message i e;
  index_closing i e.

(** engine/runtime/history.py, lines 51-64: [HistoryIndex(events)]. *)
Definition build_index (es : list HistoryEvent) : Py HistoryIndex :=
  match es with
  | [] => invalid "history must begin with WorkflowExecutionStarted"
  | e :: _ =>
    if bool_decide (event_type e = WorkflowExecutionStarted) then foldM index_event empty_index es
    else invalid "history must begin with WorkflowExecutionStarted"
  end.

(** [min(l, key=f)]: the first element of least key. *)
Fixpoint min_by {A : Type} (f : A → Z) (l : list A) : option A :=
  match l with
  | [] => None
  | x :: l =>
    match min_by f l with
    | Some y => if (f y <? f x)%Z then Some y else Some x
    | None => Some x
    end
  end.

(** engine/runtime/history.py, lines 181-185 *)
Definition first_unvisited_command (i : HistoryIndex) (next_command_id : Z) : option HistoryEvent :=
  let remaining :=
    (filter (fun kv : Z * HistoryEvent => (next_command_id ≤ kv.1)%Z) (map_to_list (scheduled i))).*2 in
  min_by (fun e => default 0%Z (command_id e)) remaining.
