(* ===== verification/HistoryTheory.v ===== *)
(** * What the history index is of its events

    An event changes at most one entry of each table of the index, so an index
    only grows: [index_ext].  [index_wf] collects what every accepted index
    satisfies. *)
From S2P Require Import Prelude Python Serialization History.

(** Table [m'] is [m], or [m] with a new key bound to [e]. *)
Definition table_step {K} `{Countable K} (e : HistoryEvent) (m m' : gmap K HistoryEvent) : Prop :=
  m' = m ∨ ∃ k, m !! k = None ∧ m' = <[k := e]> m.

(** List [l'] is [l], or [l] with [e] appended. *)
Definition list_step (e : HistoryEvent) (l l' : list HistoryEvent) : Prop :=
  l' = l ∨ l' = l ++ [e].

Record indexed (i : HistoryIndex) (e : HistoryEvent) (i' : HistoryIndex) : Prop := {
  ix_seq : event_seq e = (previous_seq i + 1)%Z;
  ix_previous : previous_seq i' = event_seq e;
  ix_events : events i' = events i ++ [e];
  ix_open : workflow_terminal i = None;
  ix_scheduled :
    if SCHEDULE_EVENT_TYPES (event_type e) then
      ∃ c, command_id e = Some c ∧ scheduled i !! c = None ∧
           scheduled i' = <[c := e]> (scheduled i)
    else scheduled i' = scheduled i;
  ix_activity : table_step e (activity_terminal i) (activity_terminal i');
  ix_timer : table_step e (timer_terminal i) (timer_terminal i');
  ix_child : table_step e (child_terminal i) (child_terminal i');
  ix_signals : list_step e (signals i) (signals i');
  ix_updates : updates i' = updates i ∨
    (updates i' = updates i ++ [e] ∧ nonempty_str (attr "update_id" e) = true)
}.

(** ** One stage of [index_event] at a time *)
Section stages.
Context (i : HistoryIndex) (e : HistoryEvent).

Lemma index_header_ok i' :
  index_header i e = Ok i' →
  event_seq e = (previous_seq i + 1)%Z ∧ workflow_terminal i = None ∧
  i' = mk_index (events i ++ [e]) (scheduled i) (scheduled_entities i) (activity_terminal i)
         (timer_terminal i) (child_terminal i) (signals i) (updates i)
         (cancellation_requested i) (workflow_terminal i) (event_seq e).
Proof.
  unfold index_header, invalid. destruct (negb _) eqn:Hs; [done|].
  destruct (bool_decide_reflect (is_Some (workflow_terminal i))) as [|Ht]; [done|].
  case_match; [done|]. intros [= <-]. split_and!; [lia|by apply eq_None_not_Some|done].
Qed.

Lemma index_schedule_ok i' :
  index_schedule i e = Ok i' →
  ∃ m m', i' = mk_index (events i) m m' (activity_terminal i)
         (timer_terminal i) (child_terminal i) (signals i) (updates i)
         (cancellation_requested i) (workflow_terminal i) (previous_seq i) ∧
    if SCHEDULE_EVENT_TYPES (event_type e) then
      ∃ c, command_id e = Some c ∧ scheduled i !! c = None ∧ m = <[c := e]> (scheduled i)
    else m = scheduled i.
Proof.
  unfold index_schedule, invalid. destruct (SCHEDULE_EVENT_TYPES _).
  - destruct (command_id e) as [c|]; [|done]. destruct (_ && _); [done|].
    destruct (scheduled i !! c) eqn:Hc; [done|].
    destruct (entity_id e) as [n|]; [destruct (scheduled_entities i !! n); [done|]|];
      intros [= <-]; eauto 10.
  - intros [= <-]. destruct i; simpl. eauto.
Qed.

Lemma index_activity_terminal_ok i' :
  index_activity_terminal i e = Ok i' →
  ∃ m, i' = mk_index (events i) (scheduled i) (scheduled_entities i) m
         (timer_terminal i) (child_terminal i) (signals i) (updates i)
         (cancellation_requested i) (workflow_terminal i) (previous_seq i) ∧
    table_step e (activity_terminal i) m.
Proof.
  unfold index_activity_terminal, invalid, table_step.
  destruct (ACTIVITY_TERMINAL_EVENT_TYPES _); [|intros [= <-]; destruct i; simpl; eauto].
  destruct (entity_id e) as [n|]; [|done].
  destruct (bool_decide_reflect (is_Some (activity_terminal i !! n))) as [|Hn]; [done|].
  apply eq_None_not_Some in Hn. destruct (negb _); [done|].
  case_match; intros [= <-]; [eauto 10|destruct i; simpl; eauto].
Qed.

Lemma index_timer_terminal_ok i' :
  index_timer_terminal i e = Ok i' →
  ∃ m, i' = mk_index (events i) (scheduled i) (scheduled_entities i) (activity_terminal i)
         m (child_terminal i) (signals i) (updates i)
         (cancellation_requested i) (workflow_terminal i) (previous_seq i) ∧
    table_step e (timer_terminal i) m.
Proof.
  unfold index_timer_terminal, invalid, table_step.
  destruct (TIMER_TERMINAL_EVENT_TYPES _); [|intros [= <-]; destruct i; simpl; eauto].
  destruct (entity_id e) as [n|]; [|done]. destruct (negb _); [done|].
  destruct (bool_decide_reflect (is_Some (timer_terminal i !! n))) as [|Hn]; [done|].
  apply eq_None_not_Some in Hn. intros [= <-]. eauto 10.
Qed.

Lemma index_child_terminal_ok i' :
  index_child_terminal i e = Ok i' →
  ∃ m, i' = mk_index (events i) (scheduled i) (scheduled_entities i) (activity_terminal i)
         (timer_terminal i) m (signals i) (updates i)
         (cancellation_requested i) (workflow_terminal i) (previous_seq i) ∧
    table_step e (child_terminal i) m.
Proof.
  unfold index_child_terminal, invalid, table_step.
  destruct (CHILD_TERMINAL_EVENT_TYPES _); [|intros [= <-]; destruct i; simpl; eauto].
  destruct (entity_id e) as [n|]; [|done]. destruct (negb _); [done|].
  destruct (bool_decide_reflect (is_Some (child_terminal i !! n))) as [|Hn]; [done|].
  apply eq_None_not_Some in Hn. intros [= <-]. eauto 10.
Qed.

Lemma index_message_ok i' :
  index_message i e = Ok i' →
  ∃ ss us, i' = mk_index (events i) (scheduled i) (scheduled_entities i) (activity_terminal i)
         (timer_terminal i) (child_terminal i) ss us
         (cancellation_requested i) (workflow_terminal i) (previous_seq i) ∧
    list_step e (signals i) ss ∧
    (us = updates i ∨ (us = updates i ++ [e] ∧ nonempty_str (attr "update_id" e) = true)).
Proof.
  unfold index_message, invalid, list_step.
  assert (∀ i', (Ok i : Py HistoryIndex) = Ok i' → ∃ ss us, i' = mk_index (events i) (scheduled i)
         (scheduled_entities i) (activity_terminal i) (timer_terminal i) (child_terminal i) ss us
         (cancellation_requested i) (workflow_terminal i) (previous_seq i) ∧
    (ss = signals i ∨ ss = signals i ++ [e]) ∧
    (us = updates i ∨ (us = updates i ++ [e] ∧ nonempty_str (attr "update_id" e) = true)))
    as Hsame by (intros ? [= <-]; destruct i; simpl; eauto 10).
  destruct (event_type e); auto; destruct (negb _); try done.
  - destruct (bool_decide _); [done|]. intros [= <-]. eauto 10.
  - destruct (nonempty_str (attr "update_id" e)) eqn:Hid; [|done]. intros [= <-]. eauto 10.
Qed.

Lemma index_closing_ok i' :
  index_closing i e = Ok i' →
  ∃ c t, i' = mk_index (events i) (scheduled i) (scheduled_entities i) (activity_terminal i)
         (timer_terminal i) (child_terminal i) (signals i) (updates i) c t (previous_seq i).
Proof.
  unfold index_closing, invalid. intros Hc.
  assert (∀ i', (Ok i : Py HistoryIndex) = Ok i' → ∃ c t, i' = mk_index (events i) (scheduled i)
         (scheduled_entities i) (activity_terminal i) (timer_terminal i) (child_terminal i)
         (signals i) (updates i) c t (previous_seq i)) as Hsame
    by (intros ? [= <-]; destruct i; simpl; eauto).
  destruct (event_type e); try by apply Hsame.
  1-3: injection Hc as <-; eauto.
  destruct (cancellation_requested i); [done|]. injection Hc as <-. eauto.
Qed.
End stages.

Lemma index_event_indexed i e i' : index_event i e = Ok i' → indexed i e i'.
Proof.
  unfold index_event, mbind, Result_bind.
  destruct (index_header i e) as [i1|] eqn:E1; [|done].
  destruct (index_schedule i1 e) as [i2|] eqn:E2; [|done].
  destruct (index_activity_terminal i2 e) as [i3|] eqn:E3; [|done].
  destruct (index_timer_terminal i3 e) as [i4|] eqn:E4; [|done].
  destruct (index_child_terminal i4 e) as [i5|] eqn:E5; [|done].
  destruct (index_message i5 e) as [i6|] eqn:E6; [|done]. intros E7.
  apply index_header_ok in E1 as (Hseq & Hopen & ->).
  apply index_schedule_ok in E2 as (m & m' & -> & Hm). cbn in E3, Hm.
  apply index_activity_terminal_ok in E3 as (m3 & -> & Hm3). cbn in E4, Hm3.
  apply index_timer_terminal_ok in E4 as (m4 & -> & Hm4). cbn in E5, Hm4.
  apply index_child_terminal_ok in E5 as (m5 & -> & Hm5). cbn in E6, Hm5.
  apply index_message_ok in E6 as (ss & us & -> & Hss & Hus). cbn in E7, Hss, Hus.
  apply index_closing_ok in E7 as (c & t & ->).
  split; cbn; first [assumption | reflexivity].
Qed.

(** ** Extension *)
Record index_ext (i i' : HistoryIndex) : Prop := {
  ext_scheduled : scheduled i ⊆ scheduled i';
  ext_activity : activity_terminal i ⊆ activity_terminal i';
  ext_timer : timer_terminal i ⊆ timer_terminal i';
  ext_timer_new n e : timer_terminal i' !! n = Some e →
    timer_terminal i !! n = Some e ∨ (previous_seq i < event_seq e)%Z;
  ext_child : child_terminal i ⊆ child_terminal i';
  ext_signals : ∃ l, signals i' = signals i ++ l ∧ Forall (fun e => (previous_seq i < event_seq e)%Z) l;
  ext_updates : ∃ l, updates i' = updates i ++ l;
  ext_first : head (events i') = head (events i);
  ext_previous : (previous_seq i ≤ previous_seq i')%Z
}.

Record index_wf (i : HistoryIndex) : Prop := {
  ixwf_nonempty : events i ≠ [];
  ixwf_scheduled c e : scheduled i !! c = Some e → command_id e = Some c;
  ixwf_signals : Forall (fun e => (event_seq e ≤ previous_seq i)%Z) (signals i);
  ixwf_timers n e : timer_terminal i !! n = Some e → (event_seq e ≤ previous_seq i)%Z;
  ixwf_updates : Forall (fun e => nonempty_str (attr "update_id" e) = true) (updates i)
}.

Lemma index_ext_refl i : index_ext i i.
Proof. split; try done; [by left|exists []; by rewrite app_nil_r|exists []; by rewrite app_nil_r]. Qed.

Lemma index_ext_trans i1 i2 i3 : index_ext i1 i2 → index_ext i2 i3 → index_ext i1 i3.
Proof.
  intros [A1 A2 A3 A4 A5 (l1 & A6 & A6') (u1 & A7) A8 A9]
         [B1 B2 B3 B4 B5 (l2 & B6 & B6') (u2 & B7) B8 B9].
  split; try (by etrans).
  - intros n e [He|He]%B4; [by apply A4|right; lia].
  - exists (l1 ++ l2). rewrite B6, A6, (assoc_L (++)). split; [done|].
    apply Forall_app. split; [done|]. eapply Forall_impl; [done|]. simpl. lia.
  - exists (u1 ++ u2). by rewrite B7, A7, (assoc_L (++)).
Qed.

Lemma table_step_subseteq {K} `{Countable K} e (m m' : gmap K HistoryEvent) :
  table_step e m m' → m ⊆ m'.
Proof. intros [->|(k & Hk & ->)]; [done|]. by apply insert_subseteq. Qed.

Lemma table_step_lookup {K} `{Countable K} e (m m' : gmap K HistoryEvent) k x :
  table_step e m m' → m' !! k = Some x → m !! k = Some x ∨ x = e.
Proof.
  intros [->|(k' & Hk & ->)]; [by left|].
  intros [[_ ->]|[_ ?]]%lookup_insert_Some; [by right|by left].
Qed.

Lemma indexed_ext i e i' : events i ≠ [] → indexed i e i' → index_ext i i'.
Proof.
  intros Hne [H1 H2 H3 H4 H5 H6 H7 H8 H9 H10].
  split; eauto using table_step_subseteq.
  - destruct (SCHEDULE_EVENT_TYPES _); [|by rewrite H5].
    destruct H5 as (c & _ & Hc & ->). by apply insert_subseteq.
  - intros n x Hx. destruct (table_step_lookup _ _ _ _ _ H7 Hx); subst; [by left|right; lia].
  - destruct H9 as [-> | ->]; [exists []; by rewrite app_nil_r|].
    exists [e]. split; [done|]. apply Forall_singleton. lia.
  - destruct H10 as [-> | [-> _]]; [exists []; by rewrite app_nil_r|by exists [e]].
  - rewrite H3. by destruct (events i).
  - lia.
Qed.

Lemma indexed_wf i e i' :
  (events i ≠ [] → index_wf i) → (events i = [] → i = empty_index) → indexed i e i' → index_wf i'.
Proof.
  intros Hwf He [H1 H2 H3 H4 H5 H6 H7 H8 H9 H10].
  assert (index_wf (mk_index (e :: events i) (scheduled i) ∅ ∅ (timer_terminal i) ∅ (signals i)
            (updates i) None None (previous_seq i))) as [_ W1 W2 W3 W4].
  { destruct (events i) as [|x l] eqn:Hev; [rewrite He by done; by split|].
    destruct Hwf as [_ ????]; [done|]. by split. }
  simpl in *. split.
  - rewrite H3. by destruct (events i).
  - intros c x Hx. destruct (SCHEDULE_EVENT_TYPES _); [|rewrite H5 in Hx; by apply W1].
    destruct H5 as (c' & Hc & _ & Hm). rewrite Hm in Hx.
    apply lookup_insert_Some in Hx as [[<- <-]|[_ Hx]]; [done|by apply W1].
  - assert (Forall (fun e => (event_seq e ≤ previous_seq i')%Z) (signals i)).
    { eapply Forall_impl; [exact W2|]. simpl. lia. }
    destruct H9 as [-> | ->]; [done|]. apply Forall_app. split; [done|].
    apply Forall_singleton. lia.
  - intros n x Hx. destruct (table_step_lookup _ _ _ _ _ H7 Hx) as [Hx' | ->]; [|lia].
    apply W3 in Hx'. lia.
  - destruct H10 as [-> | [-> ?]]; [done|]. apply Forall_app. split; [done|].
    by apply Forall_singleton.
Qed.

(** ** Whole histories *)
Lemma build_index_foldM es i :
  build_index es = Ok i → es ≠ [] ∧ foldM index_event empty_index es = Ok i.
Proof. destruct es as [|e es]; [done|]. unfold build_index. by case_bool_decide. Qed.

Lemma foldM_events es i : foldM index_event empty_index es = Ok i → events i = es.
Proof.
  intros Hf. apply (foldM_ind index_event (fun es i => events i = es) empty_index); [done| |done].
  intros d i0 x i1 <- Hx. by apply index_event_indexed in Hx as [_ _ -> _ _ _ _ _ _ _].
Qed.

(** Only a history numbered from 1 has an index. *)
Lemma build_index_numbered es i :
  build_index es = Ok i → ∀ k e, es !! k = Some e → event_seq e = (Z.of_nat k + 1)%Z.
Proof.
  intros [_ Hf]%build_index_foldM.
  apply (foldM_ind index_event (fun es i => previous_seq i = Z.of_nat (length es) ∧
    ∀ k e, es !! k = Some e → event_seq e = (Z.of_nat k + 1)%Z) empty_index) in Hf as [_ Hn]; [done|done|].
  intros d i0 x i1 [Hp Hn] Hx%index_event_indexed. destruct Hx as [Hs Hp1 _ _ _ _ _ _ _ _].
  rewrite length_app. simpl. split; [lia|]. intros k e [[_ Hk]|[-> <-]]%lookup_snoc_Some; [by apply Hn|lia].
Qed.

Lemma build_index_wf es i : build_index es = Ok i → index_wf i ∧ events i = es.
Proof.
  intros [Hne Hf]%build_index_foldM. pose proof (foldM_events _ _ Hf) as Hev. split; [|done].
  assert ((es ≠ [] → index_wf i) ∧ (es = [] → i = empty_index)) as [Hwf _]; [|by apply Hwf].
  apply (foldM_ind index_event (fun es i =>
    events i = es ∧ (es ≠ [] → index_wf i) ∧ (es = [] → i = empty_index)) empty_index); [done| |done].
  intros d i0 x i1 (<- & Hwf0 & He0) Hx. apply index_event_indexed in Hx. split_and!.
  - by destruct Hx.
  - intros _. by eapply indexed_wf.
  - by destruct (events i0).
Qed.

Lemma build_index_last es e i' :
  es ≠ [] → build_index (es ++ [e]) = Ok i' →
  ∃ i, build_index es = Ok i ∧ index_event i e = Ok i'.
Proof.
  intros Hne Hb. destruct es as [|e0 es]; [done|].
  apply build_index_foldM in Hb as Hb'. destruct Hb' as [_ Hf].
  unfold build_index in *. cbn [app] in Hb. case_bool_decide; [|done]. clear Hb.
  rewrite foldM_snoc in Hf.
  destruct (foldM index_event empty_index (e0 :: es)) as [i|]; [|done]. by exists i.
Qed.

Lemma build_index_snoc es e i' :
  es ≠ [] → build_index (es ++ [e]) = Ok i' →
  ∃ i, build_index es = Ok i ∧ indexed i e i'.
Proof.
  intros Hne (i & Hi & Hx)%build_index_last; [|done]. exists i. split; [done|].
  by apply index_event_indexed.
Qed.

Lemma build_index_app es l i' :
  es ≠ [] → build_index (es ++ l) = Ok i' → ∃ i, build_index es = Ok i ∧ index_ext i i'.
Proof.
  intros Hne. revert i'. induction l as [|e l IH] using rev_ind; intros i' Hb.
  { rewrite app_nil_r in Hb. eauto using index_ext_refl. }
  rewrite (assoc_L (++)) in Hb. apply build_index_snoc in Hb as (i1 & Hb & Hix); [|by destruct es].
  destruct (IH _ Hb) as (i & Hi & Hext). exists i. split; [done|].
  eapply index_ext_trans; [done|]. eapply indexed_ext; [|done].
  apply build_index_wf in Hb as [_ ->]. by destruct es.
Qed.

(** ** The one error of the index *)
Lemma index_event_error i e er : index_event i e = Err er → ∃ m, er = InvalidHistoryError m.
Proof.
  unfold index_event, mbind, Result_bind. intros Hb.
  repeat match type of Hb with
  | match ?x with Ok _ => _ | Err _ => _ end = _ =>
    let E := fresh "E" in destruct x eqn:E; [clear E|injection Hb as ->; rename E into Hb]
  end.
  all: unfold index_header, index_schedule, index_activity_terminal, index_timer_terminal,
         index_child_terminal, index_message, index_closing, invalid in Hb;
       repeat case_match; simplify_eq; eauto.
Qed.

Lemma build_index_error es er : build_index es = Err er → ∃ m, er = InvalidHistoryError m.
Proof.
  destruct es as [|e es]; [intros [= <-]; by eexists|]. unfold build_index, invalid.
  case_bool_decide; [|intros [= <-]; by eexists].
  generalize empty_index. generalize (e :: es). intros l. induction l as [|x l IH]; intros i; [done|].
  simpl. destruct (index_event i x) eqn:E; [apply IH|]. intros [= <-]. by eapply index_event_error.
Qed.
