(* ===== verification/Commands.v ===== *)
(** * Commands and activity policies
    (engine/runtime/commands.py, engine/sdk/policies.py) *)
From S2P Require Import Prelude Python Serialization.

(** ** Retry policies *)

(** engine/sdk/policies.py, lines 11-16 *)
Record RetryPolicy : Type := mk_retry_policy {
  max_attempts : Z;
  initial_interval : TimeDelta;
  backoff_coefficient : float;
  maximum_interval : option TimeDelta
}.

(** The defaults of the dataclass, lines 13-16. *)
Definition default_retry_policy : RetryPolicy :=
  mk_retry_policy 1 1000000 (float_of_Z 2) None.

(** engine/sdk/policies.py, lines 18-26 *)
Definition RetryPolicy_post_init (p : RetryPolicy) : Py RetryPolicy :=
  if (max_attempts p <? 1)%Z then Err (ValueError "max_attempts must be at least 1")
  else if SFltb (total_seconds (initial_interval p)) (S754_zero false) then
    Err (ValueError "initial_interval cannot be negative")
  else if SFltb (backoff_coefficient p) (float_of_Z 1) then
    Err (ValueError "backoff_coefficient must be at least 1")
  else match maximum_interval p with
  | Some m =>
    if SFltb (total_seconds m) (S754_zero false) then
      Err (ValueError "maximum_interval cannot be negative")
    else Ok p
  | None => Ok p
  end.

(** engine/sdk/policies.py, lines 28-36 *)
Definition RetryPolicy_to_json (p : RetryPolicy) : dict :=
  [("max_attempts", JInt (max_attempts p));
   ("initial_interval_seconds", JFloat (total_seconds (initial_interval p)));
   ("backoff_coefficient", JFloat (backoff_coefficient p));
   ("maximum_interval_seconds", json_opt_float (total_seconds <$> maximum_interval p))].

(** ** Commands *)

(** engine/runtime/commands.py, lines 11-21 *)
Record ScheduleActivity : Type := mk_schedule_activity {
  sa_command_id : Z;
  sa_entity_id : UUID;
  sa_activity_type : string;
  sa_input : dict;
  sa_retry_policy : dict;
  sa_schedule_to_start_seconds : option float;
  sa_start_to_close_seconds : option float;
  sa_heartbeat_timeout_seconds : option float;
  sa_fingerprint : string
}.

(** engine/runtime/commands.py, lines 24-31 *)
Record ScheduleTimer : Type := mk_schedule_timer {
  st_command_id : Z;
  st_entity_id : UUID;
  st_delay_seconds : float;
  st_purpose : string;
  st_signal_name : option string;
  st_fingerprint : string
}.

(** engine/runtime/commands.py, lines 34-39 *)
Record RecordMarker : Type := mk_record_marker {
  rm_command_id : Z;
  rm_marker_type : string;
  rm_value : JSON;
  rm_fingerprint : string
}.

(** engine/runtime/commands.py, lines 42-51 *)
Record StartChildWorkflow : Type := mk_start_child {
  sc_command_id : Z;
  sc_child_workflow_id : UUID;
  sc_workflow_type : string;
  sc_definition_version : Z;
  sc_input : JSON;
  sc_queue_name : option string;
  sc_parent_close_policy : string;
  sc_fingerprint : string
}.

(** engine/runtime/commands.py, lines 54-60 *)
Record ResolveWorkflowUpdate : Type := mk_resolve_update {
  ru_command_id : Z;
  ru_update_id : string;
  ru_accepted : bool;
  ru_outcome : JSON;
  ru_fingerprint : string
}.

(** engine/runtime/commands.py, lines 63-71 *)
Record ContinueAsNew : Type := mk_continue_as_new {
  ca_command_id : Z;
  ca_new_workflow_id : UUID;
  ca_workflow_type : string;
  ca_definition_version : Z;
  ca_input : JSON;
  ca_queue_name : option string;
  ca_fingerprint : string
}.

(** engine/runtime/commands.py, lines 74-81 *)
Inductive Command : Type :=
| CContinueAsNew (c : ContinueAsNew)
| CRecordMarker (c : RecordMarker)
| CResolveWorkflowUpdate (c : ResolveWorkflowUpdate)
| CScheduleActivity (c : ScheduleActivity)
| CScheduleTimer (c : ScheduleTimer)
| CStartChildWorkflow (c : StartChildWorkflow).

(** The [command_id] field every command has. *)
Definition cmd_command_id (c : Command) : Z :=
  match c with
  | CContinueAsNew c => ca_command_id c
  | CRecordMarker c => rm_command_id c
  | CResolveWorkflowUpdate c => ru_command_id c
  | CScheduleActivity c => sa_command_id c
  | CScheduleTimer c => st_command_id c
  | CStartChildWorkflow c => sc_command_id c
  end.

(** The [fingerprint] field every command has. *)
Definition cmd_fingerprint (c : Command) : string :=
  match c with
  | CContinueAsNew c => ca_fingerprint c
  | CRecordMarker c => rm_fingerprint c
  | CResolveWorkflowUpdate c => ru_fingerprint c
  | CScheduleActivity c => sa_fingerprint c
  | CScheduleTimer c => st_fingerprint c
  | CStartChildWorkflow c => sc_fingerprint c
  end.
