(* ===== verification/Context.v ===== *)
(** * The deterministic operations of workflow code (engine/sdk/context.py)

    [WorkflowContext] is the mutable object workflow code holds during one
    replay.  Each operation is a function in the monad [Ctx]: it reads and
    updates the context and returns, raises a Python exception, or suspends the
    replay with one of the [_ReplaySuspended] exceptions.  [ActivityCall]
    objects are mutable (their command identity is assigned when they are first
    evaluated) and may be awaited again or gathered twice, so the context keeps
    the calls it created and workflow code names them by reference. *)
From S2P Require Import Prelude Python Serialization History Commands.
From stdpp Require Import pretty.

(** engine/sdk/context.py, line 25 *)
Definition ENTITY_NAMESPACE : UUID := 0x590db7c21131489aa2b5a94c2e5bc424%N.

(** engine/sdk/context.py, lines 66-81 *)
Inductive Suspended : Type :=
| NewCommands (commands : list Command)
| Blocked
| ContinueAsNewRecorded (workflow_id : UUID).

(** engine/sdk/context.py, lines 84-94 *)
Record ActivityCall : Type := mk_activity_call {
  ac_activity_type : string;
  ac_args : list JSON;
  ac_kwargs : dict;
  ac_retry : option RetryPolicy;
  ac_schedule_to_start : option TimeDelta;
  ac_start_to_close : option TimeDelta;
  ac_heartbeat_timeout : option TimeDelta;
  ac_command_id : option Z
}.

(** engine/sdk/context.py, lines 103-109 *)
Record ChildWorkflowCall : Type := mk_child_call {
  cc_workflow_type : string;
  cc_definition_version : Z;
  cc_input : JSON;
  cc_queue_name : option string;
  cc_parent_close_policy : string
}.

(** engine/sdk/context.py, lines 59-63 *)
Record WorkflowUpdate : Type := mk_workflow_update {
  wu_id : string;
  wu_name : string;
  wu_payload : JSON
}.

(** engine/sdk/context.py, lines 118-124, with the [ActivityCall] objects
    created so far. *)
Record WorkflowContext : Type := mk_context {
  ctx_workflow_id : UUID;
  ctx_history : HistoryIndex;
  ctx_next_command_id : Z;
  ctx_consumed_signal_seqs : gset Z;
  ctx_consumed_update_seqs : gset Z;
  ctx_calls : list ActivityCall
}.

Definition init_context (wid : UUID) (i : HistoryIndex) : WorkflowContext :=
  mk_context wid i 0 ∅ ∅ [].

(** ** The monad of context operations *)
Inductive Outcome (A : Type) : Type :=
| OReturn (a : A)
| ORaise (e : PyError)
| OSuspend (s : Suspended).
Arguments OReturn {A} a.
Arguments ORaise {A} e.
Arguments OSuspend {A} s.

Definition Ctx (A : Type) : Type := WorkflowContext → Outcome A * WorkflowContext.

#[export] Instance Ctx_ret : MRet Ctx := fun A a c => (OReturn a, c).
#[export] Instance Ctx_bind : MBind Ctx := fun A B k m c =>
  match m c with
  | (OReturn a, c) => k a c
  | (ORaise e, c) => (ORaise e, c)
  | (OSuspend s, c) => (OSuspend s, c)
  end.

Definition raise {A : Type} (e : PyError) : Ctx A := fun c => (ORaise e, c).
Definition suspend {A : Type} (s : Suspended) : Ctx A := fun c => (OSuspend s, c).
Definition lift {A : Type} (r : Py A) : Ctx A := fun c =>
  match r with Ok a => (OReturn a, c) | Err e => (ORaise e, c) end.
Definition get_index : Ctx HistoryIndex := fun c => (OReturn (ctx_history c), c).
Definition get_context : Ctx WorkflowContext := fun c => (OReturn c, c).

(** [command_id = self._next_command_id; self._next_command_id += 1]. *)
Definition alloc_command_id : Ctx Z := fun c =>
  (OReturn (ctx_next_command_id c),
   mk_context (ctx_workflow_id c) (ctx_history c) (ctx_next_command_id c + 1)
     (ctx_consumed_signal_seqs c) (ctx_consumed_update_seqs c) (ctx_calls c)).

Definition set_calls (f : list ActivityCall → list ActivityCall) : Ctx unit := fun c =>
  (OReturn tt,
   mk_context (ctx_workflow_id c) (ctx_history c) (ctx_next_command_id c)
     (ctx_consumed_signal_seqs c) (ctx_consumed_update_seqs c) (f (ctx_calls c))).

(** [self._consumed_signal_seqs.add(seq)]. *)
Definition consume_signal (s : Z) : Ctx unit := fun c =>
  (OReturn tt,
   mk_context (ctx_workflow_id c) (ctx_history c) (ctx_next_command_id c)
     ({[s]} ∪ ctx_consumed_signal_seqs c) (ctx_consumed_update_seqs c) (ctx_calls c)).

(** [self._consumed_update_seqs.add(seq)]. *)
Definition consume_update (s : Z) : Ctx unit := fun c =>
  (OReturn tt,
   mk_context (ctx_workflow_id c) (ctx_history c) (ctx_next_command_id c)
     (ctx_consumed_signal_seqs c) ({[s]} ∪ ctx_consumed_update_seqs c) (ctx_calls c)).

(** [event.attributes.get("fingerprint") != command_fingerprint] is the failure
    case. *)
Definition fingerprint_matches (e : HistoryEvent) (fp : string) : bool :=
  bool_decide (attr "fingerprint" e = JStr fp).

Section Context_ops.
Context `{PyStd}.

(** [uuid5(ENTITY_NAMESPACE, f"{workflow_id}:{kind}:{command_id}")]. *)
Definition entity_uuid (wid : UUID) (kind : string) (command_id : Z) : UUID :=
  uuid5 ENTITY_NAMESPACE (uuid_str wid +:+ ":" +:+ kind +:+ ":" +:+ pretty command_id).

(** The common shape of a durable command: the recorded command of this
    identity, or the suspension that emits a new one; a recorded command of
    another type or fingerprint, or without an entity, is non-determinism. *)
Definition nondeterminism {A : Type} (command_id : Z) (detail : string) : Ctx A :=
  raise (NonDeterminismError command_id detail).

(** engine/sdk/context.py, lines 135-154: [ctx.activity(...)] creates a call. *)
Definition activity (call : ActivityCall) : Ctx nat := fun c =>
  (OReturn (length (ctx_calls c)),
   mk_context (ctx_workflow_id c) (ctx_history c) (ctx_next_command_id c)
     (ctx_consumed_signal_seqs c) (ctx_consumed_update_seqs c)
     (ctx_calls c ++
        [mk_activity_call (ac_activity_type call) (ac_args call) (ac_kwargs call) (ac_retry call)
           (ac_schedule_to_start call) (ac_start_to_close call) (ac_heartbeat_timeout call) None])).

(** engine/sdk/context.py, lines 156-175 *)
Definition child_workflow (workflow_type : string) (definition_version : Z) (input : JSON)
    (queue_name : option string) (parent_close_policy : string) : Ctx ChildWorkflowCall :=
  if negb (String.eqb parent_close_policy "terminate" || String.eqb parent_close_policy "abandon")
  then raise (ValueError "parent_close_policy must be 'terminate' or 'abandon'")
  else if bool_decide (queue_name = Some "") then
    raise (ValueError "child queue_name cannot be empty")
  else
    input ← lift (clone_json input);
    mret (mk_child_call workflow_type definition_version input queue_name parent_close_policy).

(** engine/sdk/context.py, lines 177-225 *)
Definition continue_as_new (workflow_type : string) (definition_version : Z) (input : JSON)
    (queue_name : option string) : Ctx unit :=
  if bool_decide (queue_name = Some "") then
    raise (ValueError "continuation queue_name cannot be empty")
  else
    command_id ← alloc_command_id;
    detached_input ← lift (clone_json input);
    command_fingerprint ← lift (fingerprint (JObj
      [("command_type", JStr "continue_as_new");
       ("workflow_type", JStr workflow_type);
       ("definition_version", JInt definition_version);
       ("input", detached_input);
       ("queue_name", json_opt_str queue_name)]));
    c ← get_context;
    match scheduled (ctx_history c) !! command_id with
    | None =>
      suspend (NewCommands
        [CContinueAsNew (mk_continue_as_new command_id
           (entity_uuid (ctx_workflow_id c) "continue-as-new" command_id)
           workflow_type definition_version detached_input queue_name command_fingerprint)])
    | Some recorded =>
      if negb (bool_decide (event_type recorded = WorkflowExecutionContinuedAsNew)) then
        nondeterminism command_id
          ("expected continue-as-new, history contains " +:+
             event_type_name (event_type recorded))
      else if negb (fingerprint_matches recorded command_fingerprint) then
        nondeterminism command_id "continue-as-new command changed"
      else match entity_id recorded with
      | None => nondeterminism command_id "continuation has no execution identity"
      | Some n => suspend (ContinueAsNewRecorded n)
      end
    end.

(** engine/sdk/context.py, lines 227-275 *)
Definition _evaluate_child_workflow (call : ChildWorkflowCall) : Ctx JSON :=
  command_id ← alloc_command_id;
  command_fingerprint ← lift (fingerprint (JObj
    [("command_type", JStr "child_workflow");
     ("workflow_type", JStr (cc_workflow_type call));
     ("definition_version", JInt (cc_definition_version call));
     ("input", cc_input call);
     ("queue_name", json_opt_str (cc_queue_name call));
     ("parent_close_policy", JStr (cc_parent_close_policy call))]));
  c ← get_context;
  match scheduled (ctx_history c) !! command_id with
  | None =>
    input ← lift (clone_json (cc_input call));
    suspend (NewCommands
      [CStartChildWorkflow (mk_start_child command_id
         (entity_uuid (ctx_workflow_id c) "child" command_id)
         (cc_workflow_type call) (cc_definition_version call) input (cc_queue_name call)
         (cc_parent_close_policy call) command_fingerprint)])
  | Some s =>
    if negb (bool_decide (event_type s = ChildWorkflowStarted)) then
      nondeterminism command_id
        ("expected child workflow, history contains " +:+ event_type_name (event_type s))
    else if negb (fingerprint_matches s command_fingerprint) then
      nondeterminism command_id "child workflow command changed"
    else match entity_id s with
    | None => nondeterminism command_id "recorded child workflow has no identity"
    | Some n =>
      match child_terminal (ctx_history c) !! n with
      | None => suspend Blocked
      | Some t =>
        if bool_decide (event_type t = ChildWorkflowCompleted) then
          lift (clone_json (attr "result" t))
        else
          failure ← lift (clone_json (py_or (attr "failure" t) (attr "reason" t)));
          raise (ChildWorkflowError (cc_workflow_type call) failure)
      end
    end
  end.

(** Midnight of 2020-01-01 UTC, in microseconds. *)
Definition epoch_2020 : Z := 1577836800000000.

(** engine/sdk/context.py, lines 277-297 *)
Definition _derived_marker_value (c : WorkflowContext) (marker_type : string) (command_id : Z)
    : Py JSON :=
  let seed := uuid_str (ctx_workflow_id c) +:+ ":" +:+ marker_type +:+ ":" +:+ pretty command_id in
  let digest := sha256 seed in
  if String.eqb marker_type "now" then
    let started_at := from_option (attr "started_at") JNull (head (events (ctx_history c))) in
    let base :=
      match started_at with
      | JStr s => default (mk_datetime epoch_2020 (Some 0%Z)) (fromisoformat s)
      | _ =>
        let stable_seconds := (Z.of_N (N.shiftr digest 224) mod (366 * 24 * 60 * 60))%Z in
        mk_datetime (epoch_2020 + stable_seconds * 1000000) (Some 0%Z)
      end in
    let base := mk_datetime (dt_wall base) (Some (default 0%Z (dt_offset base))) in
    if (datetime_end <=? dt_wall base + command_id)%Z then
      Err (OverflowError "date value out of range")
    else Ok (JStr (isoformat (mk_datetime (dt_wall base + command_id) (dt_offset base))))
  else if String.eqb marker_type "random" then
    Ok (JFloat (float_div (float_of_Z (Z.of_N (N.shiftr (N.shiftr digest 192) 11)))
                  (float_of_Z (2 ^ 53))))
  else if String.eqb marker_type "uuid" then
    Ok (JStr (uuid_str (uuid5 ENTITY_NAMESPACE seed)))
  else Err (ValueError ("unknown deterministic marker type " +:+ py_repr (JStr marker_type))).

(** engine/sdk/context.py, lines 299-329 *)
Definition _marker (marker_type : string) : Ctx JSON :=
  command_id ← alloc_command_id;
  command_fingerprint ← lift (fingerprint (JObj
    [("command_type", JStr "marker"); ("marker_type", JStr marker_type)]));
  c ← get_context;
  match scheduled (ctx_history c) !! command_id with
  | None =>
    value ← lift (_derived_marker_value c marker_type command_id);
    suspend (NewCommands
      [CRecordMarker (mk_record_marker command_id marker_type value command_fingerprint)])
  | Some s =>
    if negb (bool_decide (event_type s = MarkerRecorded)) then
      nondeterminism command_id
        ("expected " +:+ marker_type +:+ " marker, history contains " +:+
           event_type_name (event_type s))
    else if negb (bool_decide (attr "marker_type" s = JStr marker_type))
            || negb (fingerprint_matches s command_fingerprint) then
      nondeterminism command_id ("deterministic " +:+ marker_type +:+ " call changed")
    else lift (clone_json (attr "value" s))
  end.

(** [raise NonDeterminismError(self._next_command_id - 1, detail)]. *)
Definition last_nondeterminism {A : Type} (detail : string) : Ctx A :=
  c ← get_context; nondeterminism (ctx_next_command_id c - 1) detail.

(** engine/sdk/context.py, lines 331-344 *)
Definition now : Ctx Datetime :=
  value ← _marker "now";
  match value with
  | JStr s =>
    match fromisoformat s with
    | None => last_nondeterminism "now marker is not a timestamp"
    | Some parsed =>
      match dt_offset parsed with
      | None => last_nondeterminism "now marker has no timezone"
      | Some _ => mret parsed
      end
    end
  | _ => last_nondeterminism "now marker is not a timestamp"
  end.

(** engine/sdk/context.py, lines 346-351 *)
Definition random : Ctx float :=
  value ← _marker "random";
  match value with
  | JFloat f =>
    if SFleb (S754_zero false) f && SFltb f (float_of_Z 1) then mret f
    else last_nondeterminism "random marker is invalid"
  | _ => last_nondeterminism "random marker is invalid"
  end.

(** engine/sdk/context.py, lines 353-363 *)
Definition uuid : Ctx UUID :=
  value ← _marker "uuid";
  match value with
  | JStr s =>
    match uuid_parse s with
    | Some u => mret u
    | None => last_nondeterminism "UUID marker is invalid"
    end
  | _ => last_nondeterminism "UUID marker is invalid"
  end.

(** engine/sdk/context.py, lines 386-392: a timeout option must be positive. *)
Fixpoint check_positive (options : list (string * option float)) : Py unit :=
  match options with
  | [] => Ok tt
  | (option_name, Some seconds) :: options =>
    if SFleb seconds (S754_zero false) then
      Err (ValueError (option_name +:+ " must be positive"))
    else check_positive options
  | (_, None) :: options => check_positive options
  end.

(** engine/sdk/context.py, lines 368-371: the identity of a call is assigned at
    its first evaluation and kept. *)
Definition call_command_id (ref : nat) (call : ActivityCall) : Ctx Z :=
  match ac_command_id call with
  | Some command_id => mret command_id
  | None =>
    command_id ← alloc_command_id;
    _ ← set_calls (fun calls => <[ref :=
           mk_activity_call (ac_activity_type call) (ac_args call) (ac_kwargs call)
             (ac_retry call) (ac_schedule_to_start call) (ac_start_to_close call)
             (ac_heartbeat_timeout call) (Some command_id)]> calls);
    mret command_id
  end.

(** engine/sdk/context.py, lines 372-402: the detached input and the
    fingerprint of an activity command. *)
Definition activity_identity (call : ActivityCall) : Py (dict * string) :=
  let policy := default default_retry_policy (ac_retry call) in
  args ← clone_json (JList (ac_args call));
  kwargs ← clone_json (JObj (ac_kwargs call));
  let command_input : dict := [("args", args); ("kwargs", kwargs)] in
  let schedule_to_start_seconds := total_seconds <$> ac_schedule_to_start call in
  let start_to_close_seconds := total_seconds <$> ac_start_to_close call in
  let heartbeat_timeout_seconds := total_seconds <$> ac_heartbeat_timeout call in
  _ ← check_positive
        [("schedule_to_start", schedule_to_start_seconds);
         ("start_to_close", start_to_close_seconds);
         ("heartbeat_timeout", heartbeat_timeout_seconds)];
  command_fingerprint ← fingerprint (JObj
    [("command_type", JStr "activity");
     ("activity_type", JStr (ac_activity_type call));
     ("input", JObj command_input);
     ("retry_policy", JObj (RetryPolicy_to_json policy));
     ("schedule_to_start_seconds", json_opt_float schedule_to_start_seconds);
     ("start_to_close_seconds", json_opt_float start_to_close_seconds);
     ("heartbeat_timeout_seconds", json_opt_float heartbeat_timeout_seconds)]);
  Ok (command_input, command_fingerprint).

(** engine/sdk/context.py, lines 403-440: the recorded outcome of a command. *)
Definition resolve_activity (call : ActivityCall) (command_id : Z) (command_input : dict)
    (command_fingerprint : string) : Ctx JSON :=
  c ← get_context;
  match scheduled (ctx_history c) !! command_id with
  | None =>
    suspend (NewCommands
      [CScheduleActivity (mk_schedule_activity command_id
         (entity_uuid (ctx_workflow_id c) "activity" command_id)
         (ac_activity_type call) command_input
         (RetryPolicy_to_json (default default_retry_policy (ac_retry call)))
         (total_seconds <$> ac_schedule_to_start call)
         (total_seconds <$> ac_start_to_close call)
         (total_seconds <$> ac_heartbeat_timeout call)
         command_fingerprint)])
  | Some s =>
    if negb (bool_decide (event_type s = ActivityScheduled)) then
      nondeterminism command_id
        ("expected activity, history contains " +:+ event_type_name (event_type s))
    else if negb (fingerprint_matches s command_fingerprint) then
      nondeterminism command_id
        ("activity command changed (recorded " +:+ py_repr (attr "fingerprint" s) +:+
           ", replayed " +:+ py_repr (JStr command_fingerprint) +:+ ")")
    else match entity_id s with
    | None => nondeterminism command_id "recorded activity has no entity ID"
    | Some n =>
      match activity_terminal (ctx_history c) !! n with
      | None => suspend Blocked
      | Some t =>
        if bool_decide (event_type t = ActivityCompleted) then lift (clone_json (attr "result" t))
        else
          failure ← lift (clone_json (attr "failure" t));
          raise (ActivityError (ac_activity_type call) failure)
      end
    end
  end.

(** engine/sdk/context.py, lines 365-440 *)
Definition _evaluate_activity (ref : nat) : Ctx JSON :=
  c ← get_context;
  match ctx_calls c !! ref with
  | None => raise (ValueError "activity call belongs to a different workflow context")
  | Some call =>
    command_id ← call_command_id ref call;
    '(command_input, command_fingerprint) ← lift (activity_identity call);
    resolve_activity call command_id command_input command_fingerprint
  end.

(** engine/sdk/context.py, lines 449-457: the loop of [gather]; a suspension of
    one call is recorded, an exception leaves the loop. *)
Fixpoint gather_loop (refs : list nat) (results : list JSON) (missing : list Command)
    (blocked : bool) : Ctx (list JSON * list Command * bool) := fun c =>
  match refs with
  | [] => (OReturn (results, missing, blocked), c)
  | ref :: refs =>
    match _evaluate_activity ref c with
    | (OReturn v, c) => gather_loop refs (results ++ [v]) missing blocked c
    | (OSuspend (NewCommands commands), c) =>
      gather_loop refs (results ++ [JNull]) (missing ++ commands) blocked c
    | (OSuspend Blocked, c) => gather_loop refs (results ++ [JNull]) missing true c
    | (OSuspend s, c) => (OSuspend s, c)
    | (ORaise e, c) => (ORaise e, c)
    end
  end.

(** engine/sdk/context.py, lines 442-462 *)
Definition gather (refs : list nat) : Ctx (list JSON) :=
  '(results, missing, blocked) ← gather_loop refs [] [] false;
  match missing with
  | _ :: _ => suspend (NewCommands missing)
  | [] => if (blocked : bool) then suspend Blocked else mret results
  end.

(** engine/sdk/context.py, lines 464-504 *)
Definition sleep (duration : TimeDelta) : Ctx unit :=
  command_id ← alloc_command_id;
  let delay_seconds := total_seconds duration in
  if SFltb delay_seconds (S754_zero false) then
    raise (ValueError "sleep duration cannot be negative")
  else
    command_fingerprint ← lift (fingerprint (JObj
      [("command_type", JStr "timer"); ("delay_seconds", JFloat delay_seconds)]));
    c ← get_context;
    match scheduled (ctx_history c) !! command_id with
    | None =>
      suspend (NewCommands
        [CScheduleTimer (mk_schedule_timer command_id
           (entity_uuid (ctx_workflow_id c) "timer" command_id)
           delay_seconds "sleep" None command_fingerprint)])
    | Some s =>
      if negb (bool_decide (event_type s = TimerStarted)) then
        nondeterminism command_id
          ("expected timer, history contains " +:+ event_type_name (event_type s))
      else if negb (fingerprint_matches s command_fingerprint) then
        nondeterminism command_id
          ("timer command changed (recorded " +:+ py_repr (attr "fingerprint" s) +:+
             ", replayed " +:+ py_repr (JStr command_fingerprint) +:+ ")")
      else match entity_id s with
      | None => nondeterminism command_id "recorded timer has no entity ID"
      | Some n =>
        match timer_terminal (ctx_history c) !! n with
        | None => suspend Blocked
        | Some t =>
          if bool_decide (event_type t = TimerCanceled) then
            raise (RuntimeError "timer was canceled")
          else mret tt
        end
      end
    end.

(** engine/sdk/context.py, lines 510-516: the earliest unconsumed signal of a
    name. *)
Definition matching_signal (c : WorkflowContext) (name : string) : option HistoryEvent :=
  head (filter (fun e => (event_seq e ∉ ctx_consumed_signal_seqs c) ∧ attr "name" e = JStr name)
          (signals (ctx_history c))).

(** engine/sdk/context.py, lines 518-520 and 566-567 *)
Definition deliver_signal (e : HistoryEvent) : Ctx JSON :=
  _ ← consume_signal (event_seq e);
  lift (clone_json (attr "payload" e)).

(** engine/sdk/context.py, lines 523-570: a wait with a timeout is a durable
    timer that races the signal; the order of the recorded events decides. *)
Definition wait_signal_timeout (name : string) (timeout : TimeDelta)
    (matching : option HistoryEvent) : Ctx JSON :=
  command_id ← alloc_command_id;
  let delay_seconds := total_seconds timeout in
  if SFltb delay_seconds (S754_zero false) then
    raise (ValueError "signal timeout cannot be negative")
  else
    command_fingerprint ← lift (fingerprint (JObj
      [("command_type", JStr "signal_timeout");
       ("signal_name", JStr name);
       ("delay_seconds", JFloat delay_seconds)]));
    c ← get_context;
    match scheduled (ctx_history c) !! command_id with
    | None =>
      suspend (NewCommands
        [CScheduleTimer (mk_schedule_timer command_id
           (entity_uuid (ctx_workflow_id c) "signal-timeout" command_id)
           delay_seconds "signal_timeout" (Some name) command_fingerprint)])
    | Some s =>
      if negb (bool_decide (event_type s = TimerStarted)) then
        nondeterminism command_id
          ("expected signal timeout, history contains " +:+ event_type_name (event_type s))
      else if negb (fingerprint_matches s command_fingerprint) then
        nondeterminism command_id
          ("signal timeout for " +:+ py_repr (JStr name) +:+ " changed")
      else match entity_id s with
      | None => nondeterminism command_id "recorded signal timeout has no entity ID"
      | Some n =>
        let timer := timer_terminal (ctx_history c) !! n in
        let timed_out :=
          match timer with
          | Some t =>
            if bool_decide (event_type t = TimerFired) then raise (SignalTimeoutError name)
            else suspend Blocked
          | None => suspend Blocked
          end in
        match matching with
        | Some e =>
          if match timer with None => true | Some t => (event_seq e <? event_seq t)%Z end
          then deliver_signal e else timed_out
        | None => timed_out
        end
      end
    end.

(** engine/sdk/context.py, lines 506-570 *)
Definition wait_signal (name : string) (timeout : option TimeDelta) : Ctx JSON :=
  if String.eqb name "" then raise (ValueError "signal name cannot be empty")
  else
    c ← get_context;
    let matching := matching_signal c name in
    match timeout with
    | None =>
      match matching with
      | Some e => deliver_signal e
      | None => suspend Blocked
      end
    | Some timeout => wait_signal_timeout name timeout matching
    end.

(** engine/sdk/context.py, lines 576-580: the earliest unconsumed update of a
    name. *)
Definition matching_update (c : WorkflowContext) (name : string) : option HistoryEvent :=
  head (filter (fun e => (event_seq e ∉ ctx_consumed_update_seqs c) ∧ attr "name" e = JStr name)
          (updates (ctx_history c))).

(** engine/sdk/context.py, lines 572-590 *)
Definition wait_update (name : string) : Ctx WorkflowUpdate :=
  if String.eqb name "" then raise (ValueError "update name cannot be empty")
  else
    c ← get_context;
    match matching_update c name with
    | None => suspend Blocked
    | Some e =>
      match attr "update_id" e with
      | JStr update_id =>
        _ ← consume_update (event_seq e);
        payload ← lift (clone_json (attr "payload" e));
        mret (mk_workflow_update update_id name payload)
      | _ => nondeterminism (ctx_next_command_id c) "update has no identity"
      end
    end.

(** engine/sdk/context.py, lines 592-629 *)
Definition resolve_update (update : WorkflowUpdate) (outcome : JSON) (accepted : bool) : Ctx unit :=
  command_id ← alloc_command_id;
  detached_outcome ← lift (clone_json outcome);
  command_fingerprint ← lift (fingerprint (JObj
    [("command_type", JStr "resolve_update");
     ("update_id", JStr (wu_id update));
     ("accepted", JBool accepted);
     ("outcome", detached_outcome)]));
  c ← get_context;
  match scheduled (ctx_history c) !! command_id with
  | None =>
    suspend (NewCommands
      [CResolveWorkflowUpdate (mk_resolve_update command_id (wu_id update) accepted
         detached_outcome command_fingerprint)])
  | Some recorded =>
    if negb (bool_decide (event_type recorded = WorkflowUpdateResolved)) then
      nondeterminism command_id
        ("expected update resolution, history contains " +:+
           event_type_name (event_type recorded))
    else if negb (fingerprint_matches recorded command_fingerprint) then
      nondeterminism command_id "workflow update resolution changed"
    else mret tt
  end.

(** engine/sdk/context.py, lines 130-133: the property of the same name. *)
Definition ctx_cancellation_requested : Ctx bool :=
  i ← get_index; mret (bool_decide (is_Some (cancellation_requested i))).

(** engine/sdk/context.py, lines 126-128: the property [next_command_id]. *)
Definition next_command_id : Ctx Z := c ← get_context; mret (ctx_next_command_id c).

End Context_ops.
