(* ===== verification/Durability.v ===== *)
(** * Durable operations

    Each command of workflow code looks up the recorded event of its identity
    in the index.  An outcome that is not a suspension does not change when the
    index grows, and one that is never becomes non-determinism, whether the
    history grew by outcomes or by the commands the suspension emitted. *)
From S2P Require Import Prelude Python Serialization Floats History HistoryTheory Commands.
From S2P Require Import Context.
From stdpp Require Import pretty.

(** ** What is recorded of a command *)
Definition command_event_type (c : Command) : EventType :=
  match c with
  | CContinueAsNew _ => WorkflowExecutionContinuedAsNew
  | CRecordMarker _ => MarkerRecorded
  | CResolveWorkflowUpdate _ => WorkflowUpdateResolved
  | CScheduleActivity _ => ActivityScheduled
  | CScheduleTimer _ => TimerStarted
  | CStartChildWorkflow _ => ChildWorkflowStarted
  end.

Definition command_entity (c : Command) : option UUID :=
  match c with
  | CContinueAsNew c => Some (ca_new_workflow_id c)
  | CRecordMarker _ | CResolveWorkflowUpdate _ => None
  | CScheduleActivity c => Some (sa_entity_id c)
  | CScheduleTimer c => Some (st_entity_id c)
  | CStartChildWorkflow c => Some (sc_child_workflow_id c)
  end.

(** The event [e] records the command [c]. *)
Record records `{PyStd} (c : Command) (e : HistoryEvent) : Prop := {
  rec_type : event_type e = command_event_type c;
  rec_command : command_id e = Some (cmd_command_id c);
  rec_entity : entity_id e = command_entity c;
  rec_fingerprint : attr "fingerprint" e = JStr (cmd_fingerprint c);
  rec_marker m : c = CRecordMarker m →
    attr "marker_type" e = JStr (rm_marker_type m) ∧ to_jsonb (rm_value m) = Ok (attr "value" e)
}.

(** The outcome is an engine non-determinism error. *)
Definition nondet (e : PyError) : bool :=
  match e with NonDeterminismError _ _ => true | _ => false end.
Definition nd {A : Type} (o : Outcome A) : bool :=
  match o with ORaise e => nondet e | _ => false end.
Definition suspends {A : Type} (o : Outcome A) : bool :=
  match o with OSuspend _ => true | _ => false end.

(** The commands a suspension emits. *)
Definition emitted (s : Suspended) : list Command :=
  match s with NewCommands cs => cs | _ => [] end.

(** Index [i'] has at [id] what [i] has, or the record of a command of [cs] where
    [i] has nothing. *)
Definition agrees_at `{PyStd} (cs : list Command) (i i' : HistoryIndex) (id : Z) : Prop :=
  scheduled i' !! id = scheduled i !! id ∨
  (scheduled i !! id = None ∧
   ∃ c e, c ∈ cs ∧ cmd_command_id c = id ∧ scheduled i' !! id = Some e ∧ records c e).

(** ** Outcomes of one command *)
Section outcomes.
Context `{PyStd}.

(** What a command of identity [id] does, as a function of the workflow, the
    index and the identity. *)
Abbreviation outcome_fn A := (UUID → HistoryIndex → Z → Outcome A) (only parsing).

Record durable_fn {A : Type} (f : outcome_fn A) : Prop := {
  dur_stable w i i' id :
    index_wf i → index_ext i i' → scheduled i' !! id = scheduled i !! id →
    suspends (f w i id) = false → f w i' id = f w i id;
  dur_suspends w i i' id s :
    (0 ≤ id)%Z → index_wf i → index_ext i i' → agrees_at (emitted s) i i' id →
    f w i id = OSuspend s → nd (f w i' id) = false;
  dur_fresh w i id :
    index_wf i → scheduled i !! id = None → nd (f w i id) = false;
  dur_emits w i id s c :
    index_wf i → f w i id = OSuspend s → c ∈ emitted s →
    cmd_command_id c = id ∧ scheduled i !! id = None;
  dur_same_commands w i i' id s :
    index_wf i → index_ext i i' → scheduled i' !! id = None →
    f w i id = OSuspend s → f w i' id = OSuspend s;
  dur_covers w i id s :
    index_wf i → f w i id = OSuspend s → scheduled i !! id = None →
    ∃ c, c ∈ emitted s ∧ cmd_command_id c = id
}.

(** ** Errors that are not non-determinism *)
Lemma canonical_json_nd v e : canonical_json v = Err e → nondet e = false.
Proof. unfold canonical_json. case_match; [done|]. by intros [= <-]. Qed.
Lemma clone_json_nd v e : clone_json v = Err e → nondet e = false.
Proof.
  unfold clone_json, mbind, Result_bind. destruct (canonical_json v) eqn:E; [done|].
  intros [= <-]. by eapply canonical_json_nd.
Qed.
Lemma fingerprint_nd v e : fingerprint v = Err e → nondet e = false.
Proof.
  unfold fingerprint, mbind, Result_bind. destruct (canonical_json v) eqn:E; [done|].
  intros [= <-]. by eapply canonical_json_nd.
Qed.
Lemma check_positive_nd l e : check_positive l = Err e → nondet e = false.
Proof.
  induction l as [|[n [f|]] l IH]; simpl; [done| |done]. case_match; [|done]. by intros [= <-].
Qed.

Definition of_py {A : Type} (r : Py A) : Outcome A :=
  match r with Ok a => OReturn a | Err e => ORaise e end.

Lemma of_py_clone_nd v : nd (of_py (clone_json v)) = false.
Proof. destruct (clone_json v) eqn:E; [done|]. by apply clone_json_nd in E. Qed.

(** The common shape of a command: a check of its arguments that gives its
    fingerprint, the suspension that emits it, and what a recorded event means. *)
Record command_spec (F A : Type) : Type := mk_spec {
  spec_check : Py F;
  spec_missing : UUID → HistoryIndex → Z → F → Outcome A;
  spec_found : HistoryIndex → Z → F → HistoryEvent → Outcome A
}.
Arguments mk_spec {F A}.
Arguments spec_check {F A}.
Arguments spec_missing {F A}.
Arguments spec_found {F A}.

Definition command_outcome {F A : Type} (k : command_spec F A) : outcome_fn A := fun w i id =>
  match spec_check k with
  | Err e => ORaise e
  | Ok fp =>
    match scheduled i !! id with
    | None => spec_missing k w i id fp
    | Some s => spec_found k i id fp s
    end
  end.

Record spec_ok {F A : Type} (k : command_spec F A) : Prop := {
  sp_check e : spec_check k = Err e → nondet e = false;
  sp_missing w i i' id fp :
    index_wf i → index_ext i i' → spec_missing k w i' id fp = spec_missing k w i id fp;
  sp_emits w i id fp :
    (∃ c, spec_missing k w i id fp = OSuspend (NewCommands [c]) ∧ cmd_command_id c = id) ∨
    (∃ e, spec_missing k w i id fp = ORaise e ∧ nondet e = false);
  sp_found i i' id fp s :
    index_wf i → index_ext i i' → suspends (spec_found k i id fp s) = false →
    spec_found k i' id fp s = spec_found k i id fp s;
  sp_waits i i' id fp s x :
    index_wf i → index_ext i i' → spec_found k i id fp s = OSuspend x →
    emitted x = [] ∧ nd (spec_found k i' id fp s) = false;
  sp_recorded w i i' id fp c e :
    (0 ≤ id)%Z → index_wf i → index_ext i i' → spec_check k = Ok fp →
    spec_missing k w i id fp = OSuspend (NewCommands [c]) → records c e →
    nd (spec_found k i' id fp e) = false
}.

Lemma command_durable {F A} (k : command_spec F A) : spec_ok k → durable_fn (command_outcome k).
Proof.
  intros Hk. unfold command_outcome. split; destruct (spec_check k) as [fp|e0] eqn:Hck; simpl; try done.
  - intros w i i' id Hwf Hext ->. destruct (scheduled i !! id) as [s|].
    + intros. by apply (sp_found _ Hk).
    + intros. by apply (sp_missing _ Hk).
  - intros w i i' id s Hid Hwf Hext [Hsame|(Hnone & c & e & Hin & Hc & He & Hrec)].
    + rewrite Hsame. destruct (scheduled i !! id) as [x|] eqn:Hs.
      * intros Hf. by eapply (sp_waits _ Hk).
      * intros Hf. rewrite (sp_missing _ Hk w i i') by done. by rewrite Hf.
    + rewrite Hnone, He. intros Hf. destruct (sp_emits _ Hk w i id fp) as [(c' & Hc' & _)|(?&?&_)];
        [|congruence].
      rewrite Hc' in Hf. simplify_eq/=. apply list_elem_of_singleton in Hin as ->.
      by eapply (sp_recorded _ Hk).
  - intros w i id Hwf ->. by destruct (sp_emits _ Hk w i id fp) as [(c & -> & _)|(e & -> & ?)].
  - intros w i id Hwf _. by eapply (sp_check _ Hk).
  - intros w i id s c Hwf Hf Hin. destruct (scheduled i !! id) as [x|] eqn:Hs.
    + assert (emitted s = []) as He by by eapply (sp_waits _ Hk), Hf; [|apply index_ext_refl].
      by rewrite He in Hin; apply not_elem_of_nil in Hin.
    + destruct (sp_emits _ Hk w i id fp) as [(c' & Hc' & Hid)|(?&?&_)]; [|congruence].
      rewrite Hc' in Hf. simplify_eq/=. by apply list_elem_of_singleton in Hin as ->.
  - intros w i i' id s Hwf Hext Hnone Hf. rewrite Hnone.
    destruct (scheduled i !! id) as [x|] eqn:Hs.
    + exfalso. pose proof (ext_scheduled _ _ Hext) as Hsub.
      eapply lookup_weaken in Hs; [|exact Hsub]. congruence.
    + by rewrite (sp_missing _ Hk w i i').
  - intros w i id s Hwf Hf Hn. rewrite Hn in Hf.
    destruct (sp_emits _ Hk w i id fp) as [(c & Hc & Hid)|(?&?&_)]; [|congruence].
    rewrite Hc in Hf. injection Hf as <-. exists c. split; [by left|done].
Qed.

(** A recorded event is checked for its type, its fingerprint and its entity,
    whose result the index may have. *)
Definition entity_found {F A : Type} (ty : EventType) (fp_of : F → string)
    (d1 : HistoryEvent → string) (d2 : F → HistoryEvent → string) (d3 : string)
    (result : HistoryIndex → UUID → Outcome A)
    : HistoryIndex → Z → F → HistoryEvent → Outcome A := fun i id f s =>
  if negb (bool_decide (event_type s = ty)) then ORaise (NonDeterminismError id (d1 s))
  else if negb (fingerprint_matches s (fp_of f)) then ORaise (NonDeterminismError id (d2 f s))
  else match entity_id s with
  | None => ORaise (NonDeterminismError id d3)
  | Some n => result i n
  end.

(** The result of an entity, which waits until the index has it. *)
Record result_ok {A : Type} (result : HistoryIndex → UUID → Outcome A) : Prop := {
  res_stable i i' n :
    index_wf i → index_ext i i' → suspends (result i n) = false → result i' n = result i n;
  res_nd i n : nd (result i n) = false;
  res_waits i n x : result i n = OSuspend x → emitted x = []
}.

Lemma fingerprint_matches_refl e fp : attr "fingerprint" e = JStr fp → fingerprint_matches e fp = true.
Proof. unfold fingerprint_matches. intros ->. by apply bool_decide_eq_true. Qed.

Section entity_found.
Context {F A : Type} (ty : EventType) (fp_of : F → string) (d1 : HistoryEvent → string).
Context (d2 : F → HistoryEvent → string) (d3 : string) (result : HistoryIndex → UUID → Outcome A).
Context (Hres : result_ok result).
Abbreviation found := (entity_found ty fp_of d1 d2 d3 result).

Lemma entity_found_stable i i' id f s :
  index_wf i → index_ext i i' → suspends (found i id f s) = false → found i' id f s = found i id f s.
Proof.
  unfold entity_found. intros Hwf Hext. do 2 (case_match; [done|]).
  destruct (entity_id s) as [n|]; [|done]. by apply (res_stable _ Hres).
Qed.

Lemma entity_found_waits i i' id f s x :
  found i id f s = OSuspend x → emitted x = [] ∧ nd (found i' id f s) = false.
Proof.
  unfold entity_found. do 2 (case_match; [done|]). destruct (entity_id s) as [n|]; [|done].
  intros Hx. split; [by eapply (res_waits _ Hres)|apply (res_nd _ Hres)].
Qed.

Lemma entity_found_recorded i id f s n :
  event_type s = ty → attr "fingerprint" s = JStr (fp_of f) → entity_id s = Some n →
  nd (found i id f s) = false.
Proof.
  unfold entity_found. intros Ht Hfp ->. rewrite bool_decide_eq_true_2 by done.
  rewrite fingerprint_matches_refl by done. apply (res_nd _ Hres).
Qed.
End entity_found.

(** ** The commands *)
Definition child_result (call : ChildWorkflowCall) (i : HistoryIndex) (n : UUID) : Outcome JSON :=
  match child_terminal i !! n with
  | None => OSuspend Blocked
  | Some t =>
    if bool_decide (event_type t = ChildWorkflowCompleted) then of_py (clone_json (attr "result" t))
    else
      match clone_json (py_or (attr "failure" t) (attr "reason" t)) with
      | Ok failure => ORaise (ChildWorkflowError (cc_workflow_type call) failure)
      | Err e => ORaise e
      end
  end.

Definition child_spec (call : ChildWorkflowCall) : command_spec string JSON :=
  mk_spec
    (fingerprint (JObj
      [("command_type", JStr "child_workflow");
       ("workflow_type", JStr (cc_workflow_type call));
       ("definition_version", JInt (cc_definition_version call));
       ("input", cc_input call);
       ("queue_name", json_opt_str (cc_queue_name call));
       ("parent_close_policy", JStr (cc_parent_close_policy call))]))
    (fun w i id fp =>
      match clone_json (cc_input call) with
      | Ok input =>
        OSuspend (NewCommands
          [CStartChildWorkflow (mk_start_child id (entity_uuid w "child" id)
             (cc_workflow_type call) (cc_definition_version call) input (cc_queue_name call)
             (cc_parent_close_policy call) fp)])
      | Err e => ORaise e
      end)
    (entity_found ChildWorkflowStarted id
      (fun s => "expected child workflow, history contains " +:+ event_type_name (event_type s))
      (fun _ _ => "child workflow command changed") "recorded child workflow has no identity"
      (child_result call)).

Definition activity_result (call : ActivityCall) (i : HistoryIndex) (n : UUID) : Outcome JSON :=
  match activity_terminal i !! n with
  | None => OSuspend Blocked
  | Some t =>
    if bool_decide (event_type t = ActivityCompleted) then of_py (clone_json (attr "result" t))
    else
      match clone_json (attr "failure" t) with
      | Ok failure => ORaise (ActivityError (ac_activity_type call) failure)
      | Err e => ORaise e
      end
  end.

Definition activity_spec (call : ActivityCall) : command_spec (dict * string) JSON :=
  mk_spec (activity_identity call)
    (fun w i id f =>
      OSuspend (NewCommands
        [CScheduleActivity (mk_schedule_activity id (entity_uuid w "activity" id)
           (ac_activity_type call) f.1
           (RetryPolicy_to_json (default default_retry_policy (ac_retry call)))
           (total_seconds <$> ac_schedule_to_start call)
           (total_seconds <$> ac_start_to_close call)
           (total_seconds <$> ac_heartbeat_timeout call) f.2)]))
    (entity_found ActivityScheduled snd
      (fun s => "expected activity, history contains " +:+ event_type_name (event_type s))
      (fun f s => "activity command changed (recorded " +:+ py_repr (attr "fingerprint" s) +:+
                    ", replayed " +:+ py_repr (JStr f.2) +:+ ")")
      "recorded activity has no entity ID" (activity_result call)).

Definition sleep_result (i : HistoryIndex) (n : UUID) : Outcome unit :=
  match timer_terminal i !! n with
  | None => OSuspend Blocked
  | Some t =>
    if bool_decide (event_type t = TimerCanceled) then ORaise (RuntimeError "timer was canceled")
    else OReturn tt
  end.

Definition sleep_spec (duration : TimeDelta) : command_spec string unit :=
  let delay_seconds := total_seconds duration in
  mk_spec
    (if SFltb delay_seconds (S754_zero false) then
       Err (ValueError "sleep duration cannot be negative")
     else fingerprint (JObj
       [("command_type", JStr "timer"); ("delay_seconds", JFloat delay_seconds)]))
    (fun w i id fp =>
      OSuspend (NewCommands
        [CScheduleTimer (mk_schedule_timer id (entity_uuid w "timer" id)
           delay_seconds "sleep" None fp)]))
    (entity_found TimerStarted id
      (fun s => "expected timer, history contains " +:+ event_type_name (event_type s))
      (fun fp s => "timer command changed (recorded " +:+ py_repr (attr "fingerprint" s) +:+
                     ", replayed " +:+ py_repr (JStr fp) +:+ ")")
      "recorded timer has no entity ID" sleep_result).

Definition continue_spec (workflow_type : string) (version : Z) (input : JSON)
    (queue_name : option string) : command_spec (JSON * string) unit :=
  mk_spec
    (detached_input ← clone_json input;
     fp ← fingerprint (JObj
       [("command_type", JStr "continue_as_new");
        ("workflow_type", JStr workflow_type);
        ("definition_version", JInt version);
        ("input", detached_input);
        ("queue_name", json_opt_str queue_name)]);
     Ok (detached_input, fp))
    (fun w i id f =>
      OSuspend (NewCommands
        [CContinueAsNew (mk_continue_as_new id (entity_uuid w "continue-as-new" id)
           workflow_type version f.1 queue_name f.2)]))
    (entity_found WorkflowExecutionContinuedAsNew snd
      (fun s => "expected continue-as-new, history contains " +:+ event_type_name (event_type s))
      (fun _ _ => "continue-as-new command changed") "continuation has no execution identity"
      (fun i n => OSuspend (ContinueAsNewRecorded n))).

Definition resolve_spec (update : WorkflowUpdate) (outcome : JSON) (accepted : bool)
    : command_spec (JSON * string) unit :=
  mk_spec
    (detached_outcome ← clone_json outcome;
     fp ← fingerprint (JObj
       [("command_type", JStr "resolve_update");
        ("update_id", JStr (wu_id update));
        ("accepted", JBool accepted);
        ("outcome", detached_outcome)]);
     Ok (detached_outcome, fp))
    (fun w i id f =>
      OSuspend (NewCommands
        [CResolveWorkflowUpdate (mk_resolve_update id (wu_id update) accepted f.1 f.2)]))
    (fun i id f s =>
      if negb (bool_decide (event_type s = WorkflowUpdateResolved)) then
        ORaise (NonDeterminismError id
          ("expected update resolution, history contains " +:+ event_type_name (event_type s)))
      else if negb (fingerprint_matches s f.2) then
        ORaise (NonDeterminismError id "workflow update resolution changed")
      else OReturn tt).

(** The derived value of a marker, which only reads the workflow's identity and
    the first event. *)
Definition derived (w : UUID) (i : HistoryIndex) (marker_type : string) (id : Z) : Py JSON :=
  _derived_marker_value (mk_context w i 0 ∅ ∅ []) marker_type id.

Definition marker_spec {A : Type} (marker_type : string) (post : Z → JSON → Outcome A)
    : command_spec string A :=
  mk_spec
    (fingerprint (JObj [("command_type", JStr "marker"); ("marker_type", JStr marker_type)]))
    (fun w i id fp =>
      match derived w i marker_type id with
      | Ok value => OSuspend (NewCommands [CRecordMarker (mk_record_marker id marker_type value fp)])
      | Err e => ORaise e
      end)
    (fun i id fp s =>
      if negb (bool_decide (event_type s = MarkerRecorded)) then
        ORaise (NonDeterminismError id
          ("expected " +:+ marker_type +:+ " marker, history contains " +:+
             event_type_name (event_type s)))
      else if negb (bool_decide (attr "marker_type" s = JStr marker_type))
              || negb (fingerprint_matches s fp) then
        ORaise (NonDeterminismError id ("deterministic " +:+ marker_type +:+ " call changed"))
      else match clone_json (attr "value" s) with
           | Ok value => post id value
           | Err e => ORaise e
           end).

Definition now_post (id : Z) (value : JSON) : Outcome Datetime :=
  match value with
  | JStr s =>
    match fromisoformat s with
    | None => ORaise (NonDeterminismError id "now marker is not a timestamp")
    | Some parsed =>
      match dt_offset parsed with
      | None => ORaise (NonDeterminismError id "now marker has no timezone")
      | Some _ => OReturn parsed
      end
    end
  | _ => ORaise (NonDeterminismError id "now marker is not a timestamp")
  end.

Definition random_post (id : Z) (value : JSON) : Outcome float :=
  match value with
  | JFloat f =>
    if SFleb (S754_zero false) f && SFltb f (float_of_Z 1) then OReturn f
    else ORaise (NonDeterminismError id "random marker is invalid")
  | _ => ORaise (NonDeterminismError id "random marker is invalid")
  end.

Definition uuid_post (id : Z) (value : JSON) : Outcome UUID :=
  match value with
  | JStr s =>
    match uuid_parse s with
    | Some u => OReturn u
    | None => ORaise (NonDeterminismError id "UUID marker is invalid")
    end
  | _ => ORaise (NonDeterminismError id "UUID marker is invalid")
  end.

(** [command_id = next; next += 1]. *)
Definition bump (c : WorkflowContext) : WorkflowContext :=
  mk_context (ctx_workflow_id c) (ctx_history c) (ctx_next_command_id c + 1)
    (ctx_consumed_signal_seqs c) (ctx_consumed_update_seqs c) (ctx_calls c).

Ltac ctx_unfold :=
  unfold mbind, Ctx_bind, alloc_command_id, lift, get_context, raise, suspend, nondeterminism,
    mret, Ctx_ret, of_py in *.
Ltac shape := ctx_unfold; unfold bump; simpl; repeat (case_match; simplify_eq/=; try done).

Lemma child_shape call c :
  _evaluate_child_workflow call c =
  (command_outcome (child_spec call) (ctx_workflow_id c) (ctx_history c) (ctx_next_command_id c),
   bump c).
Proof.
  unfold _evaluate_child_workflow, command_outcome, child_spec, entity_found, child_result. shape.
Qed.

(** A table lookup that succeeds keeps succeeding. *)
Lemma ext_lookup {K} `{Countable K} (m m' : gmap K HistoryEvent) k e :
  m ⊆ m' → m !! k = Some e → m' !! k = Some e.
Proof. intros Hsub Hk. by eapply lookup_weaken. Qed.

Lemma of_py_waits {A} (r : Py A) x : of_py r ≠ OSuspend x.
Proof. by destruct r. Qed.

Lemma child_result_ok call : result_ok (child_result call).
Proof.
  unfold child_result. split.
  - intros i i' n _ Hext. destruct (child_terminal i !! n) as [t|] eqn:Ht; [|done].
    by rewrite (ext_lookup _ _ _ _ (ext_child _ _ Hext) Ht).
  - intros i n. destruct (child_terminal i !! n) as [t|]; [|done].
    case_match; [apply of_py_clone_nd|]. case_match eqn:E; [done|]. by eapply clone_json_nd.
  - intros i n x. destruct (child_terminal i !! n) as [t|]; [|by intros [= <-]].
    case_match; [by intros ?%of_py_waits|]. by case_match.
Qed.

Lemma child_ok call : spec_ok (child_spec call).
Proof.
  split; simpl; eauto using fingerprint_nd, entity_found_stable, entity_found_waits, child_result_ok.
  - intros w i id fp. destruct (clone_json (cc_input call)) eqn:E; [left; eauto|].
    right. apply clone_json_nd in E. eauto.
  - intros w i i' id fp c e _ _ _ _ Hm [Ht _ Hn Hfp _]. destruct (clone_json (cc_input call)); simplify_eq/=.
    by eapply entity_found_recorded; [apply child_result_ok|..].
Qed.

(** ** The operations are their specifications *)
Lemma resolve_activity_shape call id f c :
  activity_identity call = Ok f →
  resolve_activity call id f.1 f.2 c =
  (command_outcome (activity_spec call) (ctx_workflow_id c) (ctx_history c) id, c).
Proof.
  unfold resolve_activity, command_outcome. simpl. intros ->.
  unfold entity_found, activity_result. shape.
Qed.

Lemma sleep_shape d c :
  sleep d c =
  (command_outcome (sleep_spec d) (ctx_workflow_id c) (ctx_history c) (ctx_next_command_id c), bump c).
Proof. unfold sleep, command_outcome, sleep_spec, entity_found, sleep_result. shape. Qed.

Lemma continue_shape t v i q c :
  q ≠ Some "" →
  continue_as_new t v i q c =
  (command_outcome (continue_spec t v i q) (ctx_workflow_id c) (ctx_history c)
     (ctx_next_command_id c), bump c).
Proof.
  intros Hq. unfold continue_as_new, command_outcome, continue_spec, entity_found.
  rewrite bool_decide_eq_false_2 by done. shape.
Qed.

Lemma resolve_shape u o a c :
  resolve_update u o a c =
  (command_outcome (resolve_spec u o a) (ctx_workflow_id c) (ctx_history c)
     (ctx_next_command_id c), bump c).
Proof. unfold resolve_update, command_outcome, resolve_spec. shape. Qed.

Lemma derived_context c marker_type id :
  _derived_marker_value c marker_type id =
  derived (ctx_workflow_id c) (ctx_history c) marker_type id.
Proof. done. Qed.

Lemma marker_shape {A} mt (post : Z → JSON → Outcome A) (k : JSON → Ctx A) c :
  (∀ v c, k v c = (post (ctx_next_command_id c - 1)%Z v, c)) →
  (value ← _marker mt; k value) c =
  (command_outcome (marker_spec mt post) (ctx_workflow_id c) (ctx_history c)
     (ctx_next_command_id c), bump c).
Proof.
  intros Hk. unfold _marker, command_outcome, marker_spec. cbn [spec_check].
  generalize (fingerprint (JObj [("command_type", JStr "marker"); ("marker_type", JStr mt)])).
  intros fp. unfold nondeterminism, mbind, Ctx_bind, alloc_command_id, lift, get_context, raise,
    suspend, bump; simpl. destruct fp as [fp|]; [|done].
  repeat (case_match; simplify_eq/=; try done);
    first [rewrite Hk; simpl; by rewrite Z.add_simpl_r
          | rewrite derived_context in *; simpl in *; congruence].
Qed.

Lemma now_shape c :
  now c = (command_outcome (marker_spec "now" now_post) (ctx_workflow_id c) (ctx_history c)
             (ctx_next_command_id c), bump c).
Proof.
  apply (marker_shape "now" now_post). intros v c'. unfold now_post, last_nondeterminism. by shape.
Qed.
Lemma random_shape c :
  random c = (command_outcome (marker_spec "random" random_post) (ctx_workflow_id c) (ctx_history c)
                (ctx_next_command_id c), bump c).
Proof.
  apply (marker_shape "random" random_post). intros v c'. unfold random_post, last_nondeterminism.
  by shape.
Qed.
Lemma uuid_shape c :
  uuid c = (command_outcome (marker_spec "uuid" uuid_post) (ctx_workflow_id c) (ctx_history c)
              (ctx_next_command_id c), bump c).
Proof.
  apply (marker_shape "uuid" uuid_post). intros v c'. unfold uuid_post, last_nondeterminism. by shape.
Qed.

(** ** Every command is durable *)
Lemma activity_identity_nd call e : activity_identity call = Err e → nondet e = false.
Proof.
  unfold activity_identity, mbind, Result_bind.
  destruct (clone_json (JList _)) eqn:E1; [|intros [= <-]; by eapply clone_json_nd].
  destruct (clone_json (JObj _)) eqn:E2; [|intros [= <-]; by eapply clone_json_nd].
  destruct (check_positive _) eqn:E3; [|intros [= <-]; by eapply check_positive_nd].
  destruct (fingerprint _) eqn:E4; [done|]. intros [= <-]. by eapply fingerprint_nd.
Qed.

Lemma activity_result_ok call : result_ok (activity_result call).
Proof.
  unfold activity_result. split.
  - intros i i' n _ Hext. destruct (activity_terminal i !! n) as [t|] eqn:Ht; [|done].
    by rewrite (ext_lookup _ _ _ _ (ext_activity _ _ Hext) Ht).
  - intros i n. destruct (activity_terminal i !! n) as [t|]; [|done].
    case_match; [apply of_py_clone_nd|]. case_match eqn:E; [done|]. by eapply clone_json_nd.
  - intros i n x. destruct (activity_terminal i !! n) as [t|]; [|by intros [= <-]].
    case_match; [by intros ?%of_py_waits|]. by case_match.
Qed.

Lemma sleep_result_ok : result_ok sleep_result.
Proof.
  unfold sleep_result. split.
  - intros i i' n _ Hext. destruct (timer_terminal i !! n) as [t|] eqn:Ht; [|done].
    by rewrite (ext_lookup _ _ _ _ (ext_timer _ _ Hext) Ht).
  - intros i n. destruct (timer_terminal i !! n); [|done]. by case_match.
  - intros i n x. destruct (timer_terminal i !! n); [|by intros [= <-]]. by case_match.
Qed.

Lemma activity_ok call : spec_ok (activity_spec call).
Proof.
  split; simpl;
    eauto using activity_identity_nd, entity_found_stable, entity_found_waits, activity_result_ok.
  intros w i i' id f c e _ _ _ _ Hm [Ht _ Hn Hfp _]. simplify_eq/=.
  by eapply entity_found_recorded; [apply activity_result_ok|..].
Qed.

Lemma sleep_ok d : spec_ok (sleep_spec d).
Proof.
  split; simpl; eauto using entity_found_stable, entity_found_waits, sleep_result_ok.
  - intros e. case_match; [by intros [= <-]|]. apply fingerprint_nd.
  - intros w i i' id f c e _ _ _ _ Hm [Ht _ Hn Hfp _]. simplify_eq/=.
    by eapply entity_found_recorded; [apply sleep_result_ok|..].
Qed.

Lemma continue_ok t v i q : spec_ok (continue_spec t v i q).
Proof.
  assert (result_ok (fun (i : HistoryIndex) (n : UUID) =>
            OSuspend (ContinueAsNewRecorded n) : Outcome unit)) as Hres
    by (split; [done|done|by intros ??? [= <-]]).
  split; simpl; eauto using entity_found_stable, entity_found_waits.
  - intros e. unfold mbind, Result_bind.
    destruct (clone_json i) eqn:E1; [|intros [= <-]; by eapply clone_json_nd].
    destruct (fingerprint _) eqn:E2; [done|]. intros [= <-]. by eapply fingerprint_nd.
  - intros w i0 i' id f c e _ _ _ _ Hm [Ht _ Hn Hfp _]. simplify_eq/=.
    by eapply entity_found_recorded.
Qed.

Lemma resolve_ok u o a : spec_ok (resolve_spec u o a).
Proof.
  split; simpl; eauto.
  - intros e. unfold mbind, Result_bind.
    destruct (clone_json o) eqn:E1; [|intros [= <-]; by eapply clone_json_nd].
    destruct (fingerprint _) eqn:E2; [done|]. intros [= <-]. by eapply fingerprint_nd.
  - intros i i' id f s x _ _. by repeat case_match.
  - intros w i i' id f c e _ _ _ _ Hm [Ht _ _ Hfp _]. simplify_eq/=.
    rewrite bool_decide_eq_true_2 by done. by rewrite fingerprint_matches_refl.
Qed.

Lemma derived_nd w i mt id e : derived w i mt id = Err e → nondet e = false.
Proof.
  unfold derived, _derived_marker_value. cbv zeta.
  destruct (String.eqb mt "now").
  { destruct (_ <=? _)%Z; [|done]. intros Heq. by injection Heq as <-. }
  destruct (String.eqb mt "random"); [done|]. destruct (String.eqb mt "uuid"); [done|].
  intros Heq. by injection Heq as <-.
Qed.

Lemma derived_ext w i i' mt id : index_ext i i' → derived w i' mt id = derived w i mt id.
Proof.
  intros Hext. unfold derived, _derived_marker_value. cbn [ctx_history ctx_workflow_id].
  by rewrite (ext_first _ _ Hext).
Qed.

(** A marker whose derived value reads back as a valid one. *)
Lemma marker_ok {A} mt (post : Z → JSON → Outcome A) :
  (∀ id v x, post id v ≠ OSuspend x) →
  (∀ w i id v v' v'', (0 ≤ id)%Z → index_wf i → derived w i mt id = Ok v → to_jsonb v = Ok v' →
     clone_json v' = Ok v'' → nd (post id v'') = false) →
  spec_ok (marker_spec mt post).
Proof.
  intros Hsusp Hpost. split; simpl.
  - apply fingerprint_nd.
  - intros w i i' id fp _ Hext. by rewrite (derived_ext _ i i').
  - intros w i id fp. destruct (derived w i mt id) eqn:E; [left; eauto|].
    right. apply derived_nd in E. eauto.
  - done.
  - intros i i' id fp s x _ _. do 2 (case_match; [done|]).
    destruct (clone_json _); [|done]. by intros ?%Hsusp.
  - intros w i i' id fp c e Hid Hwf _ _ Hm [Ht _ _ Hfp Hmk].
    destruct (derived w i mt id) as [v|] eqn:Hv; [|done]. simplify_eq/=.
    destruct (Hmk _ eq_refl) as [Hty Hval]. simpl in *.
    rewrite bool_decide_eq_true_2 by done. rewrite bool_decide_eq_true_2 by done.
    rewrite fingerprint_matches_refl by done. simpl.
    destruct (clone_json (attr "value" e)) as [v''|] eqn:Hcl; [by eapply Hpost|].
    by eapply clone_json_nd.
Qed.

(** The values the engine derives read back as valid ones. *)
Lemma clone_to_jsonb_str s v v' :
  to_jsonb (JStr s) = Ok v → clone_json v = Ok v' → v' = JStr s.
Proof. intros [= <-] [= <-]. done. Qed.

Context `{!PyStdLaws}.

Lemma derived_now w i id v :
  (0 ≤ id)%Z → derived w i "now" id = Ok v →
  ∃ d z, v = JStr (isoformat d) ∧ datetime_ok d ∧ dt_offset d = Some z.
Proof.
  intros Hid. unfold derived, _derived_marker_value. cbv zeta.
  change (String.eqb "now" "now") with true. cbv iota.
  set (base := match from_option _ _ _ with JStr _ => _ | _ => _ end).
  assert ((datetime_begin ≤ dt_wall base)%Z ∧
    (- day_us < default 0 (dt_offset base) < day_us)%Z) as [Hb Ho].
  { unfold base. set (o := from_option _ _ _).
    assert (∀ k, (0 ≤ k)%Z → (datetime_begin ≤ epoch_2020 + k * 1000000)%Z) as Hsec.
    { intros k Hk. unfold datetime_begin, epoch_2020. lia. }
    assert (∀ k, (0 ≤ k)%Z →
      (datetime_begin ≤ dt_wall (mk_datetime (epoch_2020 + k * 1000000) (Some 0%Z)))%Z ∧
      (- day_us < default 0 (dt_offset (mk_datetime (epoch_2020 + k * 1000000) (Some 0%Z))) < day_us)%Z)
      as Hsec'.
    { intros k Hk. split; [by apply Hsec|]. unfold day_us, from_option, Datatypes.id, dt_offset. lia. }
    clearbody o. destruct o as [|?|?|?|s|?|?]; try (apply Hsec'; by apply Z.mod_pos_bound).
    destruct (fromisoformat s) as [d|] eqn:Hd; cbn [default dt_wall dt_offset].
    - apply iso_range in Hd as [[? _] Hz]. split; [done|].
      unfold from_option, Datatypes.id; cbn. destruct (dt_offset d); [done|unfold day_us; lia].
    - unfold datetime_begin, epoch_2020, day_us, from_option, Datatypes.id; cbn; lia. }
  cbn [dt_wall dt_offset]. destruct (Z.leb_spec datetime_end (dt_wall base + id)); [done|].
  intros Heq. injection Heq as <-. eexists _, _. split_and!; [done| |done].
  unfold datetime_ok. cbn [dt_wall dt_offset]. split; [lia|done].
Qed.

Lemma now_ok : spec_ok (marker_spec "now" now_post).
Proof.
  apply marker_ok.
  - intros id v x. unfold now_post. by repeat case_match.
  - intros w i id v v' v'' Hid _ Hv Hj Hc.
    destruct (derived_now _ _ _ _ Hid Hv) as (d & z & -> & Hd & Hz).
    rewrite (clone_to_jsonb_str _ _ _ Hj Hc). unfold now_post. by rewrite iso_roundtrip, Hz.
Qed.

Lemma uuid_ok : spec_ok (marker_spec "uuid" uuid_post).
Proof.
  apply marker_ok.
  - intros id v x. unfold uuid_post. by repeat case_match.
  - intros w i id v v' v'' Hid _ Hv Hj Hc. injection Hv as <-.
    rewrite (clone_to_jsonb_str _ _ _ Hj Hc). unfold uuid_post.
    rewrite uuid_roundtrip by apply uuid5_range. done.
Qed.

Lemma random_ok : spec_ok (marker_spec "random" random_post).
Proof.
  apply marker_ok.
  - intros id v x. unfold random_post. by repeat case_match.
  - intros w i id v v' v'' Hid _ Hv Hj Hc.
    unfold derived, _derived_marker_value in Hv. cbv zeta in Hv.
    change (String.eqb "random" "now") with false in Hv.
    change (String.eqb "random" "random") with true in Hv. cbv iota in Hv.
    set (k := Z.of_N (N.shiftr (N.shiftr _ 192) 11)) in Hv.
    assert (0 ≤ k < 2 ^ 53)%Z as Hk.
    { unfold k. rewrite N.shiftr_shiftr, N.shiftr_div_pow2. split; [apply N2Z.is_nonneg|].
      match goal with |- context [sha256 ?s] => pose proof (sha256_range s) as Hr end.
      change (2 ^ 53)%Z with (Z.of_N (2 ^ 53)). apply N2Z.inj_lt.
      apply N.Div0.div_lt_upper_bound. rewrite <- N.pow_add_r. exact Hr. }
    destruct (random_valid k Hk) as [Hval Hjson].
    set (f := float_div (float_of_Z k) (float_of_Z (2 ^ 53))) in *. clearbody f.
    injection Hv as <-.
    unfold to_jsonb, clone_json, canonical_json, mbind, Result_bind in *.
    cbn [json_finite sort_keys jsonb] in Hj. destruct (is_finite f); [|done].
    injection Hj as <-. rewrite Hjson in Hc. cbn [json_finite sort_keys] in Hc.
    destruct (is_finite f); [|done]. injection Hc as <-. unfold random_post. by rewrite Hval.
Qed.

End outcomes.

Arguments mk_spec {F A}.
Arguments spec_check {F A}.
Arguments spec_missing {F A}.
Arguments spec_found {F A}.
