(* ===== verification/Operations.v ===== *)
(** * Operations of the context are durable

    [op_durable live m]: the operation [m] of a context keeps its outcome when
    the index grows ([live] outcomes are those workflow code can go on from), a
    suspension never turns into non-determinism, nothing recorded beyond the
    identities allocated so far means no non-determinism, and the commands of a
    suspension are new. *)
From S2P Require Import Prelude Python Serialization Floats History HistoryTheory Commands.
From S2P Require Import Context Durability.

Definition reindex (i : HistoryIndex) (c : WorkflowContext) : WorkflowContext :=
  mk_context (ctx_workflow_id c) i (ctx_next_command_id c) (ctx_consumed_signal_seqs c)
    (ctx_consumed_update_seqs c) (ctx_calls c).

(** The indices have the same records for the identities below [n]. *)
Definition agree_below (n : Z) (i i' : HistoryIndex) : Prop :=
  ∀ id, (id < n)%Z → scheduled i' !! id = scheduled i !! id.

Section operations.
Context `{PyStd}.

Definition agree_with (cs : list Command) (n : Z) (i i' : HistoryIndex) : Prop :=
  ∀ id, (id < n)%Z → agrees_at cs i i' id.

(** An activity call whose identity is assigned is neither non-deterministic
    nor waiting to be scheduled. *)
Definition call_ok (w : UUID) (i : HistoryIndex) (call : ActivityCall) (id : Z) : Prop :=
  nd (command_outcome (activity_spec call) w i id) = false ∧
  ∀ s, command_outcome (activity_spec call) w i id = OSuspend s → emitted s = [].

Record ctx_wf (c : WorkflowContext) : Prop := {
  cw_index : index_wf (ctx_history c);
  cw_next : (0 ≤ ctx_next_command_id c)%Z;
  cw_range ref call id :
    ctx_calls c !! ref = Some call → ac_command_id call = Some id →
    (0 ≤ id < ctx_next_command_id c)%Z;
  cw_unique ref ref' call call' id :
    ctx_calls c !! ref = Some call → ac_command_id call = Some id →
    ctx_calls c !! ref' = Some call' → ac_command_id call' = Some id → ref = ref'
}.

(** Every assigned call is settled. *)
Definition calls_ok (c : WorkflowContext) : Prop :=
  ∀ ref call id, ctx_calls c !! ref = Some call → ac_command_id call = Some id →
    call_ok (ctx_workflow_id c) (ctx_history c) call id.

Definition ctx_ok (c : WorkflowContext) : Prop := ctx_wf c ∧ calls_ok c.

(** The outcomes workflow code goes on from: a return, and a raise when [b]. *)
Definition live {A : Type} (b : bool) (out : Outcome A) : Prop :=
  match out with OReturn _ => True | ORaise _ => b = true | OSuspend _ => False end.
#[export] Instance live_decision {A : Type} b (out : Outcome A) : Decision (live b out).
Proof. destruct out; simpl; apply _. Defined.

(** What index [i'] has recorded of identities below [n]: what the context's
    index has, or commands that [m] emitted on an earlier index. *)
Definition agrees_op {A : Type} (m : Ctx A) (c : WorkflowContext) (n : Z) (i' : HistoryIndex) : Prop :=
  ∀ id, (id < n)%Z →
    scheduled i' !! id = scheduled (ctx_history c) !! id ∨
    (scheduled (ctx_history c) !! id = None ∧
     ∃ i0 s c0 k e, ctx_ok (reindex i0 c) ∧ index_ext i0 (ctx_history c) ∧
       m (reindex i0 c) = (OSuspend s, c0) ∧ k ∈ emitted s ∧ cmd_command_id k = id ∧
       scheduled i' !! id = Some e ∧ records k e).

(** [live] outcomes workflow code goes on from are stable; a suspension may
    become any outcome but non-determinism; a raise workflow code does not
    survive ([b] is false) stays one. *)
Record op_durable {A : Type} (b : bool) (m : Ctx A) : Prop := {
  od_frame c out c' : m c = (out, c') →
    ctx_history c' = ctx_history c ∧ ctx_workflow_id c' = ctx_workflow_id c ∧
    (ctx_next_command_id c ≤ ctx_next_command_id c')%Z;
  od_wf c out c' : ctx_ok c → m c = (out, c') → live b out → nd out = false → ctx_ok c';
  od_stable c out c' i' : ctx_ok c → m c = (out, c') → live b out →
    index_ext (ctx_history c) i' → agree_below (ctx_next_command_id c') (ctx_history c) i' →
    m (reindex i' c) = (out, reindex i' c');
  od_pending c out c' i' : ctx_ok c → m c = (out, c') → ¬ live b out → nd out = false →
    index_wf i' → index_ext (ctx_history c) i' → agrees_op m c (ctx_next_command_id c') i' →
    ∃ out2 c2, m (reindex i' c) = (out2, c2) ∧ nd out2 = false ∧
      (suspends out = false → suspends out2 = false ∧ ¬ live b out2) ∧
      (suspends out = true → live b out2 ∨ suspends out2 = true →
       ctx_next_command_id c2 = ctx_next_command_id c');
  od_fresh c out c' : ctx_ok c → m c = (out, c') →
    (∀ id, (ctx_next_command_id c ≤ id)%Z → scheduled (ctx_history c) !! id = None) →
    nd out = false;
  od_emits c s c' k : ctx_ok c → m c = (OSuspend s, c') → k ∈ emitted s →
    (ctx_next_command_id c ≤ cmd_command_id k < ctx_next_command_id c')%Z ∧
    scheduled (ctx_history c) !! cmd_command_id k = None;
  od_covers c s c' id : ctx_ok c → m c = (OSuspend s, c') →
    (ctx_next_command_id c ≤ id < ctx_next_command_id c')%Z →
    scheduled (ctx_history c) !! id = None → ∃ k, k ∈ emitted s ∧ cmd_command_id k = id;
  od_same c s c' i' : ctx_ok c → m c = (OSuspend s, c') → emitted s ≠ [] →
    index_ext (ctx_history c) i' → agree_below (ctx_next_command_id c') (ctx_history c) i' →
    m (reindex i' c) = (OSuspend s, reindex i' c') ∨
    ∃ out2 c2, m (reindex i' c) = (out2, c2) ∧ suspends out2 = false ∧ ¬ live b out2
}.

Lemma live_settled {A} (out : Outcome A) : live true out → suspends out = false.
Proof. by destruct out. Qed.

Lemma agrees_at_same cs i i' id : scheduled i' !! id = scheduled i !! id → agrees_at cs i i' id.
Proof. by left. Qed.

(** A context with the same calls, a later identity and the same index. *)
Lemma ctx_ok_later c c' :
  ctx_ok c → ctx_history c' = ctx_history c → ctx_workflow_id c' = ctx_workflow_id c →
  (ctx_next_command_id c ≤ ctx_next_command_id c')%Z →
  (∀ ref call id, ctx_calls c' !! ref = Some call → ac_command_id call = Some id →
     ctx_calls c !! ref = Some call) → ctx_ok c'.
Proof.
  intros [[H1 H2 H3 H4] H5] Hh Hw Hn Hc. split; [split|]; rewrite ?Hh, ?Hw; [done|lia|..].
  - intros ref call id Hr Hi. pose proof (H3 _ _ _ (Hc _ _ _ Hr Hi) Hi). lia.
  - intros r r' k k' id Hr Hk Hr' Hk'. apply (H4 r r' k k' id); eauto.
  - intros ref call id Hr Hi. rewrite Hh, Hw. by eapply H5; [eapply Hc|].
Qed.

(** ** Operations that read nothing of the index *)
Definition pure_like {A : Type} (m : Ctx A) : Prop := ∀ c out c', m c = (out, c') →
  suspends out = false ∧ nd out = false ∧
  ctx_history c' = ctx_history c ∧ ctx_workflow_id c' = ctx_workflow_id c ∧
  ctx_next_command_id c' = ctx_next_command_id c ∧
  (∀ ref call id, ctx_calls c' !! ref = Some call → ac_command_id call = Some id →
     ctx_calls c !! ref = Some call) ∧
  ∀ i', m (reindex i' c) = (out, reindex i' c').

Lemma settled_live {A} (out : Outcome A) : suspends out = false → live true out.
Proof. by destruct out. Qed.

Lemma pure_op {A} (m : Ctx A) : pure_like m → op_durable true m.
Proof.
  intros Hm. split.
  - intros c out c' E. apply Hm in E as (_ & _ & ? & ? & -> & _). by split_and!.
  - intros c out c' Hok E _ _. apply Hm in E as (_ & _ & Hh & Hw & Hn & Hc & _).
    eapply ctx_ok_later; [done|done|done|lia|done].
  - intros c out c' i' _ E _ _ _. by apply Hm in E as (_ & _ & _ & _ & _ & _ & ?).
  - intros c out c' i' _ E Hl. apply Hm in E as [Hs _]. by apply settled_live in Hs.
  - intros c out c' _ E _. by apply Hm in E as (_ & ? & _).
  - intros c s c' k _ E. by apply Hm in E as [? _].
  - intros c s c' id _ E. by apply Hm in E as [? _].
  - intros c s c' i' _ E. by apply Hm in E as [? _].
Qed.

(** ** Operations that allocate one identity *)
Section command_op.
Context {A B : Type} (f : WorkflowContext → UUID → HistoryIndex → Z → Outcome B) (k : B → Ctx A).
Context (m : Ctx A).
Context (Hreindex : ∀ c i', f (reindex i' c) = f c).
Context (Hf : ∀ c, durable_fn (f c)).
Context (Hk : ∀ x, pure_like (k x)).
Context (Hm : ∀ c, m c =
  match f c (ctx_workflow_id c) (ctx_history c) (ctx_next_command_id c) with
  | OReturn x => k x (bump c)
  | ORaise e => (ORaise e, bump c)
  | OSuspend s => (OSuspend s, bump c)
  end).

(** What the operation did, by the outcome of its command. *)
Lemma command_op_cases c out c' :
  m c = (out, c') →
  (∃ x, f c (ctx_workflow_id c) (ctx_history c) (ctx_next_command_id c) = OReturn x ∧
     k x (bump c) = (out, c') ∧ suspends out = false ∧ nd out = false) ∨
  (∃ e, f c (ctx_workflow_id c) (ctx_history c) (ctx_next_command_id c) = ORaise e ∧
     out = ORaise e ∧ c' = bump c) ∨
  (∃ s, f c (ctx_workflow_id c) (ctx_history c) (ctx_next_command_id c) = OSuspend s ∧
     out = OSuspend s ∧ c' = bump c).
Proof.
  rewrite Hm. destruct (f c _ _ _) as [x|e|s]; [|intros [= <- <-]; right; eauto 6..].
  intros E. left. exists x. pose proof (Hk x _ _ _ E) as (? & ? & _). by split_and!.
Qed.

Lemma command_op_frame c out c' : m c = (out, c') →
  ctx_history c' = ctx_history c ∧ ctx_workflow_id c' = ctx_workflow_id c ∧
  ctx_next_command_id c' = (ctx_next_command_id c + 1)%Z ∧
  (∀ ref call id, ctx_calls c' !! ref = Some call → ac_command_id call = Some id →
     ctx_calls c !! ref = Some call).
Proof.
  intros [(x & _ & E & _)|[(e & _ & _ & ->)|(s & _ & _ & ->)]]%command_op_cases; [|by split_and!..].
  by apply Hk in E as (_ & _ & -> & -> & -> & Hc & _).
Qed.

Lemma command_op_suspends c s c' : m c = (OSuspend s, c') →
  f c (ctx_workflow_id c) (ctx_history c) (ctx_next_command_id c) = OSuspend s ∧ c' = bump c.
Proof.
  intros [(x & _ & _ & ? & _)|[(e & _ & ? & _)|(s' & Hs & [= ->] & ->)]]%command_op_cases; done.
Qed.

Lemma command_op : op_durable true m.
Proof.
  split.
  - intros c out c' E. apply command_op_frame in E as (? & ? & -> & _). split_and!; [done|done|lia].
  - intros c out c' Hok E _ _. apply command_op_frame in E as (? & ? & Hn & Hc).
    eapply ctx_ok_later; [done|done|done|lia|done].
  - intros c out c' i' Hok E Hl Hext Hag.
    assert (scheduled i' !! ctx_next_command_id c = scheduled (ctx_history c) !! ctx_next_command_id c) as Hid.
    { apply Hag. apply command_op_frame in E as (_ & _ & -> & _). lia. }
    pose proof (dur_stable _ (Hf c) (ctx_workflow_id c) (ctx_history c) i' _ (cw_index _ (proj1 Hok))
      Hext Hid) as Hst.
    rewrite Hm, Hreindex. simpl.
    apply command_op_cases in E as [(x & Hx & E & _)|[(e & He & -> & ->)|(s & _ & -> & _)]]; [| |done].
    + rewrite Hst, Hx by by rewrite Hx. apply Hk in E as (_ & _ & _ & _ & _ & _ & E). exact (E i').
    + by rewrite Hst, He by by rewrite He.
  - intros c out c' i' Hok E Hl _ _ Hext Hag.
    destruct out as [|e|s]; [by destruct Hl|by destruct Hl|].
    apply command_op_suspends in E as [Hs ->].
    assert (agrees_at (emitted s) (ctx_history c) i' (ctx_next_command_id c)) as Hat.
    { destruct (Hag (ctx_next_command_id c)) as [Hsame|(Hn & i0 & s0 & c0 & k0 & e & Hok0 & Hext0 & E0 & Hin & Hk0 & He & Hrec)];
        [simpl; lia|by left|right].
      split; [done|]. exists k0, e. split_and!; try done.
      apply command_op_suspends in E0 as [Hs0 _]. rewrite Hreindex in Hs0. simpl in Hs0.
      eapply (dur_same_commands _ (Hf c)) in Hs0; [|apply Hok0|exact Hext0|exact Hn].
      rewrite Hs in Hs0. by injection Hs0 as ->. }
    pose proof (dur_suspends _ (Hf c) _ _ i' _ s (cw_next _ (proj1 Hok)) (cw_index _ (proj1 Hok))
      Hext Hat Hs) as Hnd.
    destruct (m (reindex i' c)) as [out2 c2] eqn:E2. exists out2, c2.
    pose proof (command_op_frame _ _ _ E2) as (_ & _ & Hn2 & _). split_and!; [done| |done|done].
    apply command_op_cases in E2 as [(x & _ & _ & _ & ?)|[(e & He & -> & _)|(s2 & _ & -> & _)]]; [done| |done].
    rewrite Hreindex in He. simpl in He. by rewrite He in Hnd.
  - intros c out c' Hok E Hfresh.
    pose proof (dur_fresh _ (Hf c) (ctx_workflow_id c) (ctx_history c) (ctx_next_command_id c)
      (cw_index _ (proj1 Hok)) (Hfresh _ (Z.le_refl _))) as Hnd.
    apply command_op_cases in E as [(x & _ & _ & _ & ?)|[(e & He & -> & _)|(s & _ & -> & _)]]; [done| |done].
    by rewrite He in Hnd.
  - intros c s c' k0 Hok [Hs ->]%command_op_suspends Hin.
    destruct (dur_emits _ (Hf c) _ _ _ _ k0 (cw_index _ (proj1 Hok)) Hs Hin) as [-> Hn].
    split; [simpl; lia|done].
  - intros c s c' id Hok [Hs ->]%command_op_suspends Hid Hn. simpl in Hid.
    assert (id = ctx_next_command_id c) as -> by lia.
    by apply (dur_covers _ (Hf c) _ _ _ _ (cw_index _ (proj1 Hok)) Hs).
  - intros c s c' i' Hok [Hs ->]%command_op_suspends He Hext Hag. left.
    assert (scheduled (ctx_history c) !! ctx_next_command_id c = None) as Hn.
    { destruct (emitted s) as [|k0 ks] eqn:Hem; [done|].
      destruct (dur_emits _ (Hf c) _ _ _ _ k0 (cw_index _ (proj1 Hok)) Hs) as [Hk0 Hn];
        [rewrite Hem; by left|done]. }
    rewrite Hm, Hreindex. simpl.
    assert (scheduled i' !! ctx_next_command_id c = None) as Hn'.
    { rewrite Hag; [done|simpl; lia]. }
    by rewrite (dur_same_commands _ (Hf c) _ _ i' _ s (cw_index _ (proj1 Hok)) Hext Hn' Hs).
Qed.
End command_op.

(** An operation that is its command. *)
Lemma pure_ret {A} (x : A) : pure_like (mret x).
Proof. intros c out c' [= <- <-]. by split_and!. Qed.

Lemma simple_op {A} (f : UUID → HistoryIndex → Z → Outcome A) (m : Ctx A) :
  durable_fn f →
  (∀ c, m c = (f (ctx_workflow_id c) (ctx_history c) (ctx_next_command_id c), bump c)) →
  op_durable true m.
Proof.
  intros Hf Hm. apply (command_op (fun _ => f) mret); [done|done|apply pure_ret|].
  intros c. rewrite Hm. by destruct (f _ _ _).
Qed.

(** ** Mapping the result *)
Definition map_out {A B : Type} (g : A → B) (out : Outcome A) : Outcome B :=
  match out with OReturn a => OReturn (g a) | ORaise e => ORaise e | OSuspend s => OSuspend s end.

Section map_op.
Context {A B : Type} (b : bool) (g : A → B) (m : Ctx A).
Abbreviation mapped := (x ← m; mret (g x)).

Lemma map_out_eq c : mapped c = let '(out, c') := m c in (map_out g out, c').
Proof. unfold mbind, Ctx_bind, mret, Ctx_ret. by destruct (m c) as [[]]. Qed.
Lemma map_out_inv c out c' : mapped c = (out, c') → ∃ out0, m c = (out0, c') ∧ out = map_out g out0.
Proof. rewrite map_out_eq. destruct (m c) as [out0 c0]. intros [= <- <-]. eauto. Qed.
Lemma map_out_live out : live b (map_out g out) ↔ live b out. Proof. by destruct out. Qed.
Lemma map_out_nd out : nd (map_out g out) = nd out. Proof. by destruct out. Qed.
Lemma map_out_suspends out : suspends (map_out g out) = suspends out. Proof. by destruct out. Qed.
Lemma map_out_suspend c s c' : mapped c = (OSuspend s, c') → m c = (OSuspend s, c').
Proof. intros ([] & E & Ho)%map_out_inv; simplify_eq/=; done. Qed.

Lemma map_op : op_durable b m → op_durable b mapped.
Proof.
  intros [F1 F2 F3 F4 F5 F6 F7 F8]. split.
  - intros c out c' (out0 & E & ->)%map_out_inv. by apply F1 in E.
  - intros c out c' Hok (out0 & E & ->)%map_out_inv Hl Hn. rewrite map_out_nd in Hn.
    apply map_out_live in Hl. by eapply F2; eauto.
  - intros c out c' i' Hok (out0 & E & ->)%map_out_inv Hl Hext Hag. apply map_out_live in Hl.
    by rewrite map_out_eq, (F3 _ _ _ _ Hok E Hl Hext Hag).
  - intros c out c' i' Hok (out0 & E & ->)%map_out_inv Hl Hn Hwf Hext Hag.
    rewrite map_out_live in Hl. rewrite map_out_nd in Hn. rewrite map_out_suspends.
    destruct (F4 _ _ _ i' Hok E Hl Hn Hwf Hext) as (out2 & c2 & E2 & Hn2 & Hdead & Hnext).
    { intros id Hid. destruct (Hag id Hid) as [?|(? & i0 & s & c0 & k & e & ? & ? & Hs & ?)]; [by left|].
      right. split; [done|]. exists i0, s, c0, k, e. apply map_out_suspend in Hs. tauto. }
    exists (map_out g out2), c2. rewrite map_out_eq, E2, map_out_nd, map_out_live, map_out_suspends.
    by split_and!.
  - intros c out c' Hok (out0 & E & ->)%map_out_inv Hf. rewrite map_out_nd. by eapply F5.
  - intros c s c' k Hok E%map_out_suspend. by apply F6.
  - intros c s c' id Hok E%map_out_suspend. by apply F7.
  - intros c s c' i' Hok E%map_out_suspend He Hext Hag.
    rewrite map_out_eq. destruct (F8 _ _ _ _ Hok E He Hext Hag) as [->|(o2 & c2 & -> & Hx & Hl)];
      [by left|right]. exists (map_out g o2), c2. by rewrite map_out_suspends, map_out_live.
Qed.
End map_op.

End operations.
