(* ===== verification/Calls.v ===== *)
(** * Activity calls and [gather] are durable

    A call is assigned its identity at its first evaluation and keeps it, so the
    identities of a [gather] do not depend on the history, and each call's
    outcome is the outcome of its command.  A [gather] ends at its first failed
    call, without evaluating the later ones: its failure is a raise workflow
    code does not survive (see [op_durable]). *)
From S2P Require Import Prelude Python Serialization History HistoryTheory Commands Context.
From S2P Require Import Durability Operations.

Section calls.
Context `{PyStd}.

(** ** Activities *)
Definition with_id (call : ActivityCall) (id : Z) : ActivityCall :=
  mk_activity_call (ac_activity_type call) (ac_args call) (ac_kwargs call)
    (ac_retry call) (ac_schedule_to_start call) (ac_start_to_close call)
    (ac_heartbeat_timeout call) (Some id).

(** The identity of a call, and the context once it is assigned. *)
Definition assign (ref : nat) (call : ActivityCall) (c : WorkflowContext) : Z * WorkflowContext :=
  match ac_command_id call with
  | Some id => (id, c)
  | None =>
    (ctx_next_command_id c,
     mk_context (ctx_workflow_id c) (ctx_history c) (ctx_next_command_id c + 1)
       (ctx_consumed_signal_seqs c) (ctx_consumed_update_seqs c)
       (<[ref := with_id call (ctx_next_command_id c)]> (ctx_calls c)))
  end.

Lemma activity_shape ref c :
  _evaluate_activity ref c =
  match ctx_calls c !! ref with
  | None => (ORaise (ValueError "activity call belongs to a different workflow context"), c)
  | Some call =>
    let '(id, c') := assign ref call c in
    (command_outcome (activity_spec call) (ctx_workflow_id c) (ctx_history c) id, c')
  end.
Proof.
  unfold _evaluate_activity, get_context, mbind, Ctx_bind at 1.
  destruct (ctx_calls c !! ref) as [call|]; [|done].
  unfold call_command_id, assign. destruct (ac_command_id call) as [id|].
  - unfold mret, Ctx_ret, Ctx_bind at 1, lift, command_outcome. cbn [activity_spec spec_check].
    destruct (activity_identity call) as [[input fp]|] eqn:E; [|done].
    pose proof (resolve_activity_shape call id (input, fp) c E) as Hr.
    unfold command_outcome in Hr. cbn [activity_spec spec_check] in Hr. by rewrite E in Hr.
  - unfold alloc_command_id, set_calls, mret, Ctx_ret, Ctx_bind, lift, command_outcome.
    cbn [activity_spec spec_check].
    destruct (activity_identity call) as [[input fp]|] eqn:E; [|done].
    pose proof (resolve_activity_shape call (ctx_next_command_id c) (input, fp)
      (mk_context (ctx_workflow_id c) (ctx_history c) (ctx_next_command_id c + 1)
         (ctx_consumed_signal_seqs c) (ctx_consumed_update_seqs c)
         (<[ref := with_id call (ctx_next_command_id c)]> (ctx_calls c))) E) as Hr.
    unfold command_outcome in Hr. cbn [activity_spec spec_check] in Hr. rewrite E in Hr. exact Hr.
Qed.

(** ** The outcome of an activity call *)

(** Without a record a call is scheduled, so it suspends or its arguments are
    refused. *)
Lemma activity_unscheduled call w i id :
  scheduled i !! id = None →
  (∃ e, ∀ i', command_outcome (activity_spec call) w i' id = ORaise e) ∨
  (∃ k, command_outcome (activity_spec call) w i id = OSuspend (NewCommands [k])).
Proof.
  intros Hn. unfold command_outcome. cbn [activity_spec spec_check spec_missing].
  destruct (activity_identity call) as [f|e]; [|left; eauto].
  rewrite Hn. right. eauto.
Qed.

Lemma activity_recorded call w i id x s :
  scheduled i !! id = Some x → command_outcome (activity_spec call) w i id = OSuspend s → s = Blocked.
Proof.
  intros Hx. unfold command_outcome. cbn [activity_spec spec_check spec_found]. rewrite Hx.
  destruct (activity_identity call) as [f|e]; [|done]. unfold entity_found, activity_result.
  intros Heq. repeat (case_match; simplify_eq/=; try done).
  all: unfold of_py in *; repeat (case_match; simplify_eq/=; try done).
Qed.

Lemma activity_found_waits call w i id s :
  command_outcome (activity_spec call) w i id = OSuspend s →
  (∃ k, s = NewCommands [k]) ∨ s = Blocked.
Proof.
  destruct (scheduled i !! id) as [x|] eqn:Hx.
  - intros ->%(activity_recorded _ _ _ _ x); auto.
  - destruct (activity_unscheduled call w i id Hx) as [(e & He)|(k & Hk)]; [by rewrite He|].
    rewrite Hk. intros [= <-]. eauto.
Qed.

(** An outcome that is no suspension is final, whatever is recorded later. *)
Lemma activity_stable call w i i' id :
  index_wf i → index_ext i i' → suspends (command_outcome (activity_spec call) w i id) = false →
  command_outcome (activity_spec call) w i' id = command_outcome (activity_spec call) w i id.
Proof.
  intros Hwf Hext Hs. destruct (scheduled i !! id) as [x|] eqn:Hx.
  - apply (dur_stable _ (command_durable _ (activity_ok call))); [done|done| |done].
    rewrite Hx. by apply (ext_lookup _ _ _ _ (ext_scheduled _ _ Hext)).
  - destruct (activity_unscheduled call w i id Hx) as [(e & He)|(k & Hk)]; [by rewrite !He|].
    by rewrite Hk in Hs.
Qed.

Lemma call_ok_ext w i i' call id :
  (0 ≤ id)%Z → index_wf i → index_wf i' → index_ext i i' → call_ok w i call id →
  call_ok w i' call id.
Proof.
  intros Hid Hwf Hwf' Hext [Hnd He]. set (o := command_outcome (activity_spec call) w i id) in *.
  destruct (suspends o) eqn:Hs.
  - destruct o as [| |s] eqn:Ho; try done. subst o.
    assert (is_Some (scheduled i !! id)) as [x Hx].
    { apply not_eq_None_Some. intros Hn.
      destruct (dur_covers _ (command_durable _ (activity_ok call)) _ _ _ _ Hwf Ho Hn) as (c & Hc & _).
      rewrite (He _ eq_refl) in Hc. by apply not_elem_of_nil in Hc. }
    pose proof (ext_lookup _ _ _ _ (ext_scheduled _ _ Hext) Hx) as Hx'. split.
    + eapply (dur_suspends _ (command_durable _ (activity_ok call))); [done|exact Hwf|done|left; by rewrite Hx|done].
    + intros s' Hs'. destruct (emitted s') as [|k l] eqn:Hem; [done|].
      eapply (dur_emits _ (command_durable _ (activity_ok call)) w i' id s' k) in Hs' as [_ Hn].
      * congruence.
      * done.
      * rewrite Hem. by left.
  - subst o. pose proof (activity_stable _ _ _ _ _ Hwf Hext Hs) as Heq. split; rewrite Heq; [done|].
    intros s Hs'. by rewrite Hs' in Hs.
Qed.

Lemma ctx_ok_reindex c i' :
  ctx_ok c → index_wf i' → index_ext (ctx_history c) i' → ctx_ok (reindex i' c).
Proof.
  intros [[H1 H2 H3 H4] H5] Hwf Hext. split; [by split|].
  intros ref call id Hr Hi. simpl in *. destruct (H3 _ _ _ Hr Hi).
  eapply call_ok_ext; [done|exact H1|done|done|]. by eapply H5.
Qed.

(** ** Assigning identities *)
Definition assign_ref (c : WorkflowContext) (ref : nat) : WorkflowContext :=
  match ctx_calls c !! ref with None => c | Some call => (assign ref call c).2 end.
Definition assign_all (refs : list nat) (c : WorkflowContext) : WorkflowContext :=
  foldl assign_ref c refs.

(** What the call of a reference does on index [i], once it is assigned. *)
Definition outcome_of (c : WorkflowContext) (i : HistoryIndex) (ref : nat) : Outcome JSON :=
  match ctx_calls c !! ref with
  | None => ORaise (ValueError "activity call belongs to a different workflow context")
  | Some call => command_outcome (activity_spec call) (ctx_workflow_id c) i (default 0%Z (ac_command_id call))
  end.

(** Context [c'] is [c] with more calls assigned, the identities of [ids]. *)
Record assigned (c c' : WorkflowContext) (refs : list nat) : Prop := {
  as_history : ctx_history c' = ctx_history c;
  as_workflow : ctx_workflow_id c' = ctx_workflow_id c;
  as_next : (ctx_next_command_id c ≤ ctx_next_command_id c')%Z;
  as_none ref : ctx_calls c !! ref = None → ctx_calls c' !! ref = None;
  as_kept ref call : ctx_calls c !! ref = Some call → is_Some (ac_command_id call) →
    ctx_calls c' !! ref = Some call;
  as_fresh ref call : ctx_calls c !! ref = Some call → ac_command_id call = None →
    ctx_calls c' !! ref = Some call ∨
    (ref ∈ refs ∧ ∃ id, ctx_calls c' !! ref = Some (with_id call id) ∧
       (ctx_next_command_id c ≤ id < ctx_next_command_id c')%Z);
  as_done ref call : ref ∈ refs → ctx_calls c' !! ref = Some call → is_Some (ac_command_id call);
  as_all id : (ctx_next_command_id c ≤ id < ctx_next_command_id c')%Z →
    ∃ ref call, ref ∈ refs ∧ ctx_calls c' !! ref = Some call ∧ ac_command_id call = Some id
}.

Lemma assigned_nil c : assigned c c [].
Proof.
  split; [done|done|done|done|done| | |].
  - auto.
  - intros ref call Hin. by apply not_elem_of_nil in Hin.
  - lia.
Qed.

Lemma assigned_step c c1 refs ref :
  assigned c c1 refs → assigned c (assign_ref c1 ref) (refs ++ [ref]).
Proof.
  intros [A1 A2 A3 A4 A5 A6 A7 A8]. unfold assign_ref.
  destruct (ctx_calls c1 !! ref) as [call1|] eqn:Hcall.
  2:{ split; try done.
      - intros r call Hr Hi. destruct (A6 _ _ Hr Hi) as [?|(? & ?)]; [by left|right].
        split; [apply elem_of_app; auto|done].
      - intros r call [Hin|Hin%list_elem_of_singleton]%elem_of_app Hr; [by eapply A7|congruence].
      - intros id Hid. destruct (A8 id Hid) as (r & call & ? & ?). exists r, call.
        split; [apply elem_of_app; auto|done]. }
  unfold assign. destruct (ac_command_id call1) as [id1|] eqn:Hid1; simpl.
  { split; try done.
      - intros r call Hr Hi. destruct (A6 _ _ Hr Hi) as [?|(? & ?)]; [by left|right].
        split; [apply elem_of_app; auto|done].
      - intros r call [Hin|Hin%list_elem_of_singleton]%elem_of_app Hr; [by eapply A7|].
        subst r. rewrite Hcall in Hr. injection Hr as <-. by rewrite Hid1.
      - intros id Hid. destruct (A8 id Hid) as (r & call & ? & ?). exists r, call.
        split; [apply elem_of_app; auto|done]. }
  set (n := ctx_next_command_id c1).
  assert (∀ r, r ≠ ref → <[ref:=with_id call1 n]> (ctx_calls c1) !! r = ctx_calls c1 !! r) as Hne.
  { intros r Hr. by apply list_lookup_insert_ne. }
  assert (<[ref:=with_id call1 n]> (ctx_calls c1) !! ref = Some (with_id call1 n)) as Heq.
  { apply list_lookup_insert_eq. by apply lookup_lt_Some in Hcall. }
  split; simpl; [done|done|lia| | | | |].
  - intros r Hr. destruct (decide (r = ref)) as [->|?]; [|rewrite Hne; auto].
    apply A4 in Hr. congruence.
  - intros r call Hr Hi. destruct (decide (r = ref)) as [->|?]; [|rewrite Hne; auto].
    apply A5 in Hr; [|done]. rewrite Hcall in Hr. injection Hr as ->. rewrite Hid1 in Hi. by destruct Hi.
  - intros r call Hr Hi. destruct (decide (r = ref)) as [->|?].
    + right. split; [apply elem_of_app; right; by left|]. exists n. rewrite Heq. split; [|lia].
      destruct (A6 _ _ Hr Hi) as [Hr'|(_ & id & Hr' & _)]; rewrite Hcall in Hr'; injection Hr' as ->; done.
    + rewrite Hne by done. destruct (A6 _ _ Hr Hi) as [Hr'|(? & id & Hr' & ?)]; [by left|right].
      split; [apply elem_of_app; auto|]. exists id. split; [done|lia].
  - intros r call Hin Hr. destruct (decide (r = ref)) as [->|?].
    + rewrite Heq in Hr. injection Hr as <-. done.
    + rewrite Hne in Hr by done. apply (A7 r); [|done].
      by apply elem_of_app in Hin as [?|?%list_elem_of_singleton].
  - intros id Hid. destruct (decide (id = n)) as [->|?].
    + exists ref, (with_id call1 n). split_and!; [apply elem_of_app; right; by left|done|done].
    + destruct (A8 id) as (r & call & Hin & Hr & Hi); [lia|]. exists r, call.
      split_and!; [apply elem_of_app; auto| |done]. rewrite Hne; [done|]. intros ->. congruence.
Qed.

Lemma assign_all_assigned refs c : assigned c (assign_all refs c) refs.
Proof.
  unfold assign_all. induction refs as [|ref refs IH] using rev_ind; [apply assigned_nil|].
  rewrite foldl_app. by apply assigned_step.
Qed.

Lemma assign_ref_reindex c i' ref : assign_ref (reindex i' c) ref = reindex i' (assign_ref c ref).
Proof.
  unfold assign_ref, assign. simpl. destruct (ctx_calls c !! ref) as [call|]; [|done].
  by destruct (ac_command_id call).
Qed.
Lemma assign_all_reindex refs c i' : assign_all refs (reindex i' c) = reindex i' (assign_all refs c).
Proof.
  unfold assign_all. revert c. induction refs as [|ref refs IH]; intros c; [done|]. simpl.
  by rewrite assign_ref_reindex, IH.
Qed.

Lemma assign_ref_wf c ref : ctx_wf c → ctx_wf (assign_ref c ref).
Proof.
  intros [H1 H2 H3 H4]. unfold assign_ref, assign.
  destruct (ctx_calls c !! ref) as [call1|] eqn:Hcall; [|by split].
  destruct (ac_command_id call1) as [id1|] eqn:Hid1; [by split|]. simpl.
  set (n := ctx_next_command_id c).
  assert (∀ r call id, <[ref:=with_id call1 n]> (ctx_calls c) !! r = Some call →
    ac_command_id call = Some id →
    (r = ref ∧ id = n) ∨ (r ≠ ref ∧ ctx_calls c !! r = Some call ∧ (0 ≤ id < n)%Z)) as Hcases.
  { intros r call id Hr Hi. destruct (decide (r = ref)) as [->|Hr'].
    - rewrite list_lookup_insert_eq in Hr by (by apply lookup_lt_Some in Hcall).
      injection Hr as <-. injection Hi as <-. by left.
    - rewrite list_lookup_insert_ne in Hr by done. right. split_and!; [done|done|..]; by eapply H3. }
  split; simpl; [done|lia| |].
  - intros r call id Hr Hi. destruct (Hcases _ _ _ Hr Hi) as [[_ ->]|(_ & _ & ?)]; lia.
  - intros r r' call call' id Hr Hi Hr' Hi'.
    destruct (Hcases _ _ _ Hr Hi) as [[-> ->]|(_ & Hr1 & ?)],
      (Hcases _ _ _ Hr' Hi') as [[-> ?]|(_ & Hr2 & ?)]; try lia.
    by apply (H4 r r' call call' id).
Qed.

Lemma assign_all_wf refs c : ctx_wf c → ctx_wf (assign_all refs c).
Proof.
  unfold assign_all. revert c. induction refs as [|ref refs IH]; intros c Hc; [done|]. simpl.
  by apply IH, assign_ref_wf.
Qed.

Lemma evaluate_eq ref c :
  _evaluate_activity ref c = (outcome_of (assign_ref c ref) (ctx_history c) ref, assign_ref c ref).
Proof.
  rewrite activity_shape. unfold assign_ref, outcome_of, assign.
  destruct (ctx_calls c !! ref) as [call|] eqn:Hc; [|by rewrite Hc].
  destruct (ac_command_id call) as [id|] eqn:Hi; simpl; [by rewrite Hc, Hi|].
  rewrite list_lookup_insert_eq by (by apply lookup_lt_Some in Hc). done.
Qed.

(** Later assignments do not change the outcome of an assigned call. *)
Lemma outcome_of_assigned c c' refs i ref :
  assigned c c' refs →
  (∀ call, ctx_calls c !! ref = Some call → is_Some (ac_command_id call)) →
  outcome_of c' i ref = outcome_of c i ref.
Proof.
  intros Ha Hid. unfold outcome_of. destruct (ctx_calls c !! ref) as [call|] eqn:Hc.
  - by rewrite (as_kept _ _ _ Ha _ _ Hc (Hid _ eq_refl)), (as_workflow _ _ _ Ha).
  - by rewrite (as_none _ _ _ Ha _ Hc).
Qed.

Lemma outcome_of_prefix l1 l2 c i ref :
  ref ∈ l1 → outcome_of (assign_all (l1 ++ l2) c) i ref = outcome_of (assign_all l1 c) i ref.
Proof.
  intros Hin. unfold assign_all. rewrite foldl_app. apply (outcome_of_assigned _ _ l2).
  - apply assign_all_assigned.
  - intros call. by apply (as_done _ _ _ (assign_all_assigned l1 c)).
Qed.

(** ** The facts of one assigned call *)
Section facts.
Context (c : WorkflowContext) (refs : list nat) (Hok : ctx_ok c).
Let cF := assign_all refs c.
Let w := ctx_workflow_id c.
Let i := ctx_history c.

(** The call of a reference and its identity. *)
Definition call_fact (ref : nat) (call : ActivityCall) (id : Z) : Prop :=
  ctx_calls cF !! ref = Some call ∧ ac_command_id call = Some id ∧
  (0 ≤ id < ctx_next_command_id cF)%Z ∧
  (∀ i', outcome_of cF i' ref = command_outcome (activity_spec call) w i' id) ∧
  ((id < ctx_next_command_id c)%Z → call_ok w i call id).

Lemma call_fact_of ref call : ref ∈ refs → ctx_calls cF !! ref = Some call →
  ∃ id, call_fact ref call id.
Proof.
  intros Hin Hc. pose proof (assign_all_assigned refs c) as Ha. fold cF in Ha.
  destruct (as_done _ _ _ Ha _ _ Hin Hc) as [id Hi]. exists id.
  split; [done|]. split; [done|]. split; [|split].
  - by apply (cw_range _ (assign_all_wf refs c (proj1 Hok)) ref call).
  - intros i'. unfold outcome_of. by rewrite Hc, Hi, (as_workflow _ _ _ Ha).
  - intros Hlt. destruct (ctx_calls c !! ref) as [call0|] eqn:Hc0;
      [|apply (as_none _ _ _ Ha) in Hc0; congruence].
    destruct (ac_command_id call0) as [id0|] eqn:Hi0.
    + pose proof (as_kept _ _ _ Ha _ _ Hc0 (ex_intro _ _ Hi0)) as Hk. rewrite Hc in Hk.
      injection Hk as <-. by eapply (proj2 Hok).
    + destruct (as_fresh _ _ _ Ha _ _ Hc0 Hi0) as [Hk|(_ & id' & Hk & ?)]; rewrite Hc in Hk;
        injection Hk as ->; [congruence|]. simpl in Hi. injection Hi as <-. lia.
Qed.

Lemma call_facts ref : ref ∈ refs →
  (∃ e, nondet e = false ∧ ∀ i', outcome_of cF i' ref = ORaise e) ∨
  ∃ call id, call_fact ref call id.
Proof.
  intros Hin. destruct (ctx_calls cF !! ref) as [call|] eqn:Hc.
  - right. exists call. by apply call_fact_of.
  - left. eexists. split; [|intros i'; unfold outcome_of; by rewrite Hc]. done.
Qed.

Lemma call_fact_unique r1 r2 k1 k2 id : call_fact r1 k1 id → call_fact r2 k2 id → r1 = r2.
Proof.
  intros (H1 & H1' & _) (H2 & H2' & _).
  by apply (cw_unique _ (assign_all_wf refs c (proj1 Hok)) r1 r2 k1 k2 id).
Qed.

Lemma outcome_stable i' ref : ref ∈ refs → index_ext i i' → suspends (outcome_of cF i ref) = false →
  outcome_of cF i' ref = outcome_of cF i ref.
Proof.
  intros Hin Hext Hs. destruct (call_facts ref Hin) as [(e & _ & He)|(call & id & Hf)]; [by rewrite !He|].
  destruct Hf as (_ & _ & _ & Ho & _). rewrite !Ho in *. apply activity_stable; [apply Hok|done|done].
Qed.

Lemma outcome_kinds i' ref s : ref ∈ refs → outcome_of cF i' ref = OSuspend s →
  (∃ k, s = NewCommands [k]) ∨ s = Blocked.
Proof.
  intros Hin Hs. destruct (call_facts ref Hin) as [(e & _ & He)|(call & id & Hf)];
    [by rewrite He in Hs|]. destruct Hf as (_ & _ & _ & Ho & _). rewrite Ho in Hs.
  by eapply activity_found_waits.
Qed.

(** The command a call emits has its identity, which is new. *)
Lemma outcome_emits ref s k : ref ∈ refs → outcome_of cF i ref = OSuspend s → k ∈ emitted s →
  ∃ call, call_fact ref call (cmd_command_id k) ∧ scheduled i !! cmd_command_id k = None ∧
    (ctx_next_command_id c ≤ cmd_command_id k)%Z.
Proof.
  intros Hin Hs Hk. destruct (call_facts ref Hin) as [(e & _ & He)|(call & id & Hf)];
    [by rewrite He in Hs|]. pose proof Hf as (_ & _ & _ & Ho & Hold). rewrite Ho in Hs.
  destruct (dur_emits _ (command_durable _ (activity_ok call)) _ _ _ _ k (cw_index _ (proj1 Hok)) Hs Hk)
    as [Hid Hn]. rewrite Hid. exists call. split_and!; [done|done|].
  destruct (Z.le_gt_cases (ctx_next_command_id c) id) as [?|Hlt]; [done|].
  destruct (Hold Hlt) as [_ He]. rewrite (He _ Hs) in Hk. by apply not_elem_of_nil in Hk.
Qed.

(** A waiting call is never non-determinism later. *)
Lemma outcome_pending i' ref s : ref ∈ refs → index_ext i i' → outcome_of cF i ref = OSuspend s →
  (∀ call id, call_fact ref call id → agrees_at (emitted s) i i' id) →
  nd (outcome_of cF i' ref) = false.
Proof.
  intros Hin Hext Hs Hag. destruct (call_facts ref Hin) as [(e & _ & He)|(call & id & Hf)];
    [by rewrite He in Hs|]. specialize (Hag _ _ Hf). destruct Hf as (_ & _ & Hr & Ho & _).
  rewrite Ho in *. eapply (dur_suspends _ (command_durable _ (activity_ok call))); [|apply Hok|done|done|done].
  lia.
Qed.

(** A call with a new identity is scheduled, or its arguments are refused. *)
Lemma outcome_new ref call id : ref ∈ refs → call_fact ref call id → scheduled i !! id = None →
  (∃ e, ∀ i', outcome_of cF i' ref = ORaise e) ∨
  (∃ k, outcome_of cF i ref = OSuspend (NewCommands [k]) ∧ cmd_command_id k = id).
Proof.
  intros Hin Hf Hn. destruct Hf as (_ & _ & _ & Ho & _).
  destruct (activity_unscheduled call w i id Hn) as [(e & He)|(k & Hk)].
  - left. exists e. intros i'. by rewrite Ho.
  - right. exists k. rewrite Ho. split; [done|].
    apply (dur_emits _ (command_durable _ (activity_ok call)) w i id (NewCommands [k]));
      [apply Hok|done|by left].
Qed.

Lemma outcome_same i' ref k : ref ∈ refs → index_ext i i' →
  outcome_of cF i ref = OSuspend (NewCommands [k]) → scheduled i' !! cmd_command_id k = None →
  outcome_of cF i' ref = OSuspend (NewCommands [k]).
Proof.
  intros Hin Hext Hs Hn. destruct (call_facts ref Hin) as [(e & _ & He)|(call & id & Hf)];
    [by rewrite He in Hs|]. destruct Hf as (_ & _ & _ & Ho & _). rewrite !Ho in *.
  destruct (dur_emits _ (command_durable _ (activity_ok call)) _ _ _ _ k (cw_index _ (proj1 Hok)) Hs)
    as [Hid _]; [by left|].
  eapply (dur_same_commands _ (command_durable _ (activity_ok call))); [apply Hok|done| |done].
  by rewrite <- Hid.
Qed.

Lemma outcome_fresh ref : ref ∈ refs →
  (∀ id, (ctx_next_command_id c ≤ id)%Z → scheduled i !! id = None) →
  nd (outcome_of cF i ref) = false.
Proof.
  intros Hin Hn. destruct (call_facts ref Hin) as [(e & Hnd & He)|(call & id & Hf)]; [by rewrite He|].
  destruct Hf as (_ & _ & _ & Ho & Hold). rewrite Ho.
  destruct (Z.le_gt_cases (ctx_next_command_id c) id) as [?|Hlt]; [|by apply Hold].
  apply (dur_fresh _ (command_durable _ (activity_ok call))); [apply Hok|by apply Hn].
Qed.

(** Every identity assigned here is the identity of a call. *)
Lemma assigned_fact id : (ctx_next_command_id c ≤ id < ctx_next_command_id cF)%Z →
  ∃ ref call, ref ∈ refs ∧ call_fact ref call id.
Proof.
  intros Hid. destruct (as_all _ _ _ (assign_all_assigned refs c) id Hid) as (ref & call & Hin & Hc & Hi).
  exists ref, call. split; [done|]. destruct (call_fact_of ref call Hin Hc) as [id' Hf].
  pose proof Hf as (_ & Hi' & _). rewrite Hi in Hi'. by injection Hi' as <-.
Qed.
End facts.

(** ** The loop of [gather] *)

(** A call that does not raise. *)
Definition calm (o : Outcome JSON) : bool :=
  match o with
  | OReturn _ | OSuspend Blocked | OSuspend (NewCommands _) => true
  | _ => false
  end.
Definition value_of (o : Outcome JSON) : JSON := match o with OReturn v => v | _ => JNull end.
Definition commands_of (o : Outcome JSON) : list Command :=
  match o with OSuspend s => emitted s | _ => [] end.
Definition is_blocked (o : Outcome JSON) : bool :=
  match o with OSuspend Blocked => true | _ => false end.

Definition summary (outs : list (Outcome JSON)) : Outcome (list JSON) :=
  match outs ≫= commands_of with
  | (_ :: _) as missing => OSuspend (NewCommands missing)
  | [] => if existsb is_blocked outs then OSuspend Blocked else OReturn (value_of <$> outs)
  end.

Lemma assign_all_cons ref refs c : assign_all (ref :: refs) c = assign_all refs (assign_ref c ref).
Proof. done. Qed.

Lemma assign_ref_done c ref call :
  ctx_calls (assign_ref c ref) !! ref = Some call → is_Some (ac_command_id call).
Proof.
  apply (as_done _ _ _ (assign_all_assigned [ref] c)). by left.
Qed.

Lemma outcome_of_cons ref refs c i :
  outcome_of (assign_all (ref :: refs) c) i ref = outcome_of (assign_ref c ref) i ref.
Proof. exact (outcome_of_prefix [ref] refs c i ref ltac:(by left)). Qed.

Lemma assign_ref_history c ref : ctx_history (assign_ref c ref) = ctx_history c.
Proof. apply (as_history _ _ _ (assign_all_assigned [ref] c)). Qed.

Lemma gather_loop_calm refs c results missing blocked :
  let g := outcome_of (assign_all refs c) (ctx_history c) in
  (∀ r, r ∈ refs → calm (g r) = true) →
  gather_loop refs results missing blocked c =
  (OReturn (results ++ (value_of ∘ g <$> refs), missing ++ (refs ≫= commands_of ∘ g),
            blocked || existsb (is_blocked ∘ g) refs), assign_all refs c).
Proof.
  revert c results missing blocked. induction refs as [|ref refs IH]; intros c results missing blocked g Hc.
  - simpl. by rewrite !app_nil_r, orb_false_r.
  - cbn [gather_loop]. rewrite evaluate_eq.
    assert (g ref = outcome_of (assign_ref c ref) (ctx_history c) ref) as Hg by apply outcome_of_cons.
    rewrite <- Hg. pose proof (Hc ref ltac:(by left)) as Href.
    assert (∀ r, r ∈ refs → calm (outcome_of (assign_all refs (assign_ref c ref))
        (ctx_history (assign_ref c ref)) r) = true) as Hc'.
    { intros r Hr. rewrite assign_ref_history. apply Hc. by right. }
    cbn [fmap list_fmap mbind list_bind existsb compose]. unfold compose.
    destruct (g ref) as [v|e|[ks| |n]] eqn:Hgr; try done; cbn [calm] in Href;
      rewrite (IH (assign_ref c ref)) by done; rewrite assign_ref_history; cbn;
      rewrite <- ?(assoc_L (++)); try done.
    by rewrite orb_true_r.
Qed.

Lemma gather_loop_raises l1 ref l2 c results missing blocked e :
  let g := outcome_of (assign_all (l1 ++ [ref]) c) (ctx_history c) in
  (∀ r, r ∈ l1 → calm (g r) = true) → g ref = ORaise e →
  gather_loop (l1 ++ ref :: l2) results missing blocked c = (ORaise e, assign_all (l1 ++ [ref]) c).
Proof.
  revert c results missing blocked. induction l1 as [|r1 l1 IH]; intros c results missing blocked g Hc Hg.
  - cbn [app gather_loop]. rewrite evaluate_eq.
    assert (g ref = outcome_of (assign_ref c ref) (ctx_history c) ref) as <- by apply outcome_of_cons.
    by rewrite Hg.
  - cbn [app gather_loop]. rewrite evaluate_eq.
    assert (g r1 = outcome_of (assign_ref c r1) (ctx_history c) r1) as <- by apply outcome_of_cons.
    pose proof (Hc r1 ltac:(by left)) as Hr1.
    assert (∀ results missing blocked, gather_loop (l1 ++ ref :: l2) results missing blocked (assign_ref c r1)
      = (ORaise e, assign_all ((r1 :: l1) ++ [ref]) c)) as Hrest.
    { intros. apply IH.
      - intros r Hr. rewrite assign_ref_history. apply Hc. by right.
      - by rewrite assign_ref_history. }
    destruct (g r1) as [v|e1|[ks| |n]] eqn:Hgr; try done; apply Hrest.
Qed.

(** Either no call raises, or there is a first one that does. *)
Lemma first_raise (g : nat → Outcome JSON) refs :
  (∀ r, r ∈ refs → calm (g r) = true) ∨
  ∃ l1 ref l2, refs = l1 ++ ref :: l2 ∧ (∀ r, r ∈ l1 → calm (g r) = true) ∧ calm (g ref) = false.
Proof.
  induction refs as [|ref refs IH]; [left; intros r Hr; by apply not_elem_of_nil in Hr|].
  destruct (calm (g ref)) eqn:Hg.
  - destruct IH as [IH|(l1 & r & l2 & -> & H1 & H2)].
    + left. intros r [->|Hr]%elem_of_cons; auto.
    + right. exists (ref :: l1), r, l2. split_and!; [done| |done].
      intros r' [->|Hr]%elem_of_cons; auto.
  - right. exists [], ref, refs. split_and!; [done| |done]. intros r Hr. by apply not_elem_of_nil in Hr.
Qed.

Lemma bind_fmap {A B C} (f : A → B) (h : B → list C) l : (f <$> l) ≫= h = l ≫= h ∘ f.
Proof. induction l as [|x l IH]; [done|]. by cbn; rewrite IH. Qed.
Lemma existsb_fmap {A B} (f : A → B) p l : existsb p (f <$> l) = existsb (p ∘ f) l.
Proof. induction l as [|x l IH]; [done|]. by cbn; rewrite IH. Qed.

Lemma bind_ext {A B} (f h : A → list B) l : (∀ x, x ∈ l → f x = h x) → l ≫= f = l ≫= h.
Proof.
  induction l as [|x l IH]; intros Hfh; [done|]. cbn. rewrite (Hfh x) by by left.
  f_equal. apply IH. intros y Hy. apply Hfh. by right.
Qed.

Lemma gather_calm refs c :
  let g := outcome_of (assign_all refs c) (ctx_history c) in
  (∀ r, r ∈ refs → calm (g r) = true) →
  gather refs c = (summary (g <$> refs), assign_all refs c).
Proof.
  intros g Hc. unfold gather, mbind, Ctx_bind. rewrite gather_loop_calm by done.
  cbn [app orb]. fold g. unfold summary.
  rewrite bind_fmap, existsb_fmap, <- list_fmap_compose. destruct (refs ≫= commands_of ∘ g); [|done].
  by destruct (existsb _ refs).
Qed.

Lemma gather_raises l1 ref l2 c e :
  let g := outcome_of (assign_all (l1 ++ [ref]) c) (ctx_history c) in
  (∀ r, r ∈ l1 → calm (g r) = true) → g ref = ORaise e →
  gather (l1 ++ ref :: l2) c = (ORaise e, assign_all (l1 ++ [ref]) c).
Proof.
  intros g Hc Hg. unfold gather, mbind, Ctx_bind. by rewrite (gather_loop_raises l1 ref l2 c [] [] false e).
Qed.

(** ** Both operations *)
Section refs.
Context (refs : list nat) (c : WorkflowContext) (Hok : ctx_ok c).
Let cF := assign_all refs c.
Let i := ctx_history c.

(** Once its calls are settled, the context is in order again. *)
Lemma settled_ctx_ok :
  (∀ r, r ∈ refs → suspends (outcome_of cF i r) = false ∧ nd (outcome_of cF i r) = false) →
  ctx_ok cF.
Proof.
  intros Hset. pose proof (assign_all_assigned refs c) as Ha. fold cF in Ha.
  split; [by apply assign_all_wf, Hok|]. intros ref call id Hr Hi.
  rewrite (as_history _ _ _ Ha), (as_workflow _ _ _ Ha).
  destruct (ctx_calls c !! ref) as [call0|] eqn:Hc0; [|apply (as_none _ _ _ Ha) in Hc0; congruence].
  destruct (ac_command_id call0) as [id0|] eqn:Hi0.
  - pose proof (as_kept _ _ _ Ha _ _ Hc0 (ex_intro _ _ Hi0)) as Hk. rewrite Hr in Hk.
    injection Hk as ->. by eapply (proj2 Hok).
  - destruct (as_fresh _ _ _ Ha _ _ Hc0 Hi0) as [Hk|(Hin & _)]; [congruence|].
    destruct (call_fact_of c refs Hok ref call Hin Hr) as (id' & _ & Hi' & _ & Ho & _).
    rewrite Hi in Hi'. injection Hi' as <-. destruct (Hset ref Hin) as [Hs Hnd].
    rewrite Ho in Hs, Hnd. split; [done|]. intros s Hsus. unfold i in Hs. by rewrite Hsus in Hs.
Qed.

(** A waiting call, when the commands recorded since are those of its operation. *)
Lemma pending_call {A} (m : Ctx A) n i' r s :
  (∀ i0 s0 c0 k, ctx_ok (reindex i0 c) → m (reindex i0 c) = (OSuspend s0, c0) → k ∈ emitted s0 →
     ∃ r0 s1, r0 ∈ refs ∧ outcome_of cF i0 r0 = OSuspend s1 ∧ k ∈ emitted s1) →
  index_ext i i' → agrees_op m c n i' →
  r ∈ refs → outcome_of cF i r = OSuspend s → (∀ call id, call_fact c refs r call id → (id < n)%Z) →
  nd (outcome_of cF i' r) = false.
Proof.
  intros Hem Hext Hag Hr Hs Hn. apply (outcome_pending c refs Hok i' r s); [done|done|done|].
  intros call id Hf. destruct (Hag id (Hn _ _ Hf)) as
    [?|(Hnone & i0 & s0 & c0 & k & e & Hok0 & Hext0 & E0 & Hk & Hid & He & Hrec)]; [by left|right].
  split; [done|]. exists k, e. split_and!; [|done..].
  destruct (Hem _ _ _ _ Hok0 E0 Hk) as (r0 & s1 & Hr0 & Hs1 & Hk1).
  assert (∀ x r', outcome_of (assign_all refs (reindex i0 c)) x r' = outcome_of cF x r') as Hsame.
  { intros. by rewrite assign_all_reindex. }
  destruct (outcome_emits (reindex i0 c) refs Hok0 r0 s1 k Hr0) as (call0 & Hf0 & _ & _);
    [by rewrite Hsame|done|].
  assert (r0 = r) as ->.
  { destruct Hf as (H1 & H1' & _), Hf0 as (H2 & H2' & _). rewrite assign_all_reindex in H2. simpl in H2.
    rewrite Hid in H2'. by apply (cw_unique _ (assign_all_wf refs c (proj1 Hok)) r0 r call0 call id). }
  assert (s1 = NewCommands [k]) as ->.
  { destruct (outcome_kinds c refs Hok i0 r s1 Hr Hs1) as [(k' & ->)| ->];
      [by apply list_elem_of_singleton in Hk1 as ->|by apply not_elem_of_nil in Hk1]. }
  pose proof (outcome_same (reindex i0 c) refs Hok0 i r k Hr) as Hst. rewrite !Hsame, Hid in Hst.
  rewrite Hst in Hs by done. injection Hs as <-. by left.
Qed.
End refs.

Lemma activity_op ref : op_durable true (_evaluate_activity ref).
Proof.
  pose proof (fun c => assign_all_assigned [ref] c) as Ha.
  assert (∀ r : nat, r ∈ [ref] → r = ref) as Hsing by by intros r ?%list_elem_of_singleton.
  assert (ref ∈ [ref]) as Hin by by left.
  split.
  - intros c out c' E. rewrite evaluate_eq in E. injection E as <- <-.
    destruct (Ha c). by split_and!.
  - intros c out c' Hok E Hl Hn. rewrite evaluate_eq in E. injection E as <- <-.
    apply (settled_ctx_ok [ref] c Hok). intros r ->%Hsing. split; [by apply live_settled|done].
  - intros c out c' i' Hok E Hl Hext _. rewrite evaluate_eq in *. injection E as <- <-.
    rewrite assign_ref_reindex. f_equal.
    exact (outcome_stable c [ref] Hok i' ref Hin Hext (live_settled _ Hl)).
  - intros c out c' i' Hok E Hl _ _ Hext Hag. rewrite evaluate_eq in *. injection E as <- <-.
    rewrite assign_ref_reindex. eexists _, _. split; [done|].
    destruct (outcome_of _ (ctx_history c) ref) as [|e|s] eqn:Hs; [by destruct Hl|by destruct Hl|].
    split; [|by split]. apply (pending_call [ref] c Hok (_evaluate_activity ref)
      (ctx_next_command_id (assign_ref c ref)) i' ref s); try done.
    + intros i0 s0 c0 k _ E Hk. rewrite evaluate_eq, assign_ref_reindex in E. injection E as E _.
      exists ref, s0. split_and!; [done|exact E|done].
    + intros call id (_ & _ & Hr & _). apply Hr.
  - intros c out c' Hok E Hf. rewrite evaluate_eq in E. injection E as <- <-.
    by apply (outcome_fresh c [ref] Hok ref Hin).
  - intros c s c' k Hok E Hk. rewrite evaluate_eq in E. injection E as Hs <-.
    destruct (outcome_emits c [ref] Hok ref s k Hin Hs Hk) as (call & (_ & _ & Hr & _) & Hn & Hle).
    split; [|done]. split; [done|apply Hr].
  - intros c s c' id Hok E Hid Hn. rewrite evaluate_eq in E. injection E as Hs <-.
    destruct (assigned_fact c [ref] Hok id Hid) as (r & call & ->%Hsing & Hf).
    destruct (outcome_new c [ref] Hok ref call id Hin Hf Hn) as [(e & He)|(k & Hk & Hkid)].
    + specialize (He (ctx_history c)). change (assign_all [ref] c) with (assign_ref c ref) in He. congruence.
    + change (assign_all [ref] c) with (assign_ref c ref) in Hk. rewrite Hs in Hk. injection Hk as ->.
      exists k. split; [by left|done].
  - intros c s c' i' Hok E Hem Hext Hag. rewrite evaluate_eq in *. injection E as Hs <-. left.
    rewrite assign_ref_reindex. f_equal.
    destruct (outcome_kinds c [ref] Hok _ ref s Hin Hs) as [(k & ->)| ->]; [|done].
    destruct (outcome_emits c [ref] Hok ref (NewCommands [k]) k Hin Hs) as (call & (_ & _ & Hr & _) & Hn & _);
      [by left|].
    apply (outcome_same c [ref] Hok i' ref k Hin Hext Hs). rewrite Hag; [done|apply Hr].
Qed.

(** ** [gather] *)
Lemma outcome_of_kinds c i r s : outcome_of c i r = OSuspend s → (∃ k, s = NewCommands [k]) ∨ s = Blocked.
Proof.
  unfold outcome_of. destruct (ctx_calls c !! r) as [call|]; [|done]. apply activity_found_waits.
Qed.

Lemma gather_cases refs c i' :
  let g := outcome_of (assign_all refs c) i' in
  ((∀ r, r ∈ refs → calm (g r) = true) ∧
   gather refs (reindex i' c) = (summary (g <$> refs), reindex i' (assign_all refs c))) ∨
  ∃ l1 ref l2 e, refs = l1 ++ ref :: l2 ∧ (∀ r, r ∈ l1 → calm (g r) = true) ∧ g ref = ORaise e ∧
    gather refs (reindex i' c) = (ORaise e, reindex i' (assign_all (l1 ++ [ref]) c)).
Proof.
  intros g.
  assert (∀ refs' r, outcome_of (assign_all refs' (reindex i' c)) i' r = outcome_of (assign_all refs' c) i' r)
    as Hre by (intros; by rewrite assign_all_reindex).
  destruct (first_raise g refs) as [Hc|(l1 & ref & l2 & Heq & Hc & Hr)].
  - left. split; [done|]. rewrite gather_calm; simpl.
    + rewrite assign_all_reindex. f_equal.
    + intros r Hr. rewrite Hre. by apply Hc.
  - right.
    assert (∃ e, g ref = ORaise e) as [e He].
    { destruct (g ref) as [v|e|s] eqn:Hg; [done|eauto|]. unfold g in Hg.
      destruct (outcome_of_kinds _ _ _ _ Hg) as [(k & ->)| ->]; done. }
    exists l1, ref, l2, e. split_and!; [done|done|done|]. rewrite Heq.
    assert (∀ r, r ∈ l1 ++ [ref] → outcome_of (assign_all (l1 ++ [ref]) (reindex i' c)) i' r = g r) as Hpre.
    { intros r Hin. rewrite Hre. unfold g. rewrite Heq.
      change (l1 ++ ref :: l2) with (l1 ++ [ref] ++ l2). rewrite (assoc_L (++)).
      by rewrite (outcome_of_prefix (l1 ++ [ref]) l2) by exact Hin. }
    rewrite (gather_raises l1 ref l2 _ e); simpl.
    + by rewrite assign_all_reindex.
    + intros r Hin. rewrite Hpre; [by apply Hc|]. apply elem_of_app; by left.
    + rewrite Hpre; [done|]. apply elem_of_app; right; by left.
Qed.

Lemma reindex_id c : reindex (ctx_history c) c = c. Proof. by destruct c. Qed.

Lemma summary_nd outs : nd (summary outs) = false.
Proof. unfold summary. repeat case_match; done. Qed.
Lemma summary_emitted outs s k : summary outs = OSuspend s → k ∈ emitted s ↔ k ∈ outs ≫= commands_of.
Proof.
  unfold summary. destruct (outs ≫= commands_of) as [|k0 ks]; [|by intros [= <-]].
  case_match; [|done]. intros [= <-]. done.
Qed.
Lemma summary_return outs vs :
  summary outs = OReturn vs → (∀ o, o ∈ outs → calm o = true) →
  (∀ o s, o ∈ outs → o = OSuspend s → (∃ k, s = NewCommands [k]) ∨ s = Blocked) →
  ∀ o, o ∈ outs → suspends o = false ∧ nd o = false.
Proof.
  unfold summary. destruct (outs ≫= commands_of) as [|k0 ks] eqn:Hcs; [|done].
  destruct (existsb is_blocked outs) eqn:Hb; [done|]. intros _ Hcalm Hkinds o Ho.
  pose proof (Hcalm o Ho) as Hc. destruct o as [v|e|s] eqn:Heq; [done|done|]. exfalso.
  destruct (Hkinds _ s Ho eq_refl) as [(k & ->)| ->].
  - assert (k ∈ outs ≫= commands_of) as Hin; [|rewrite Hcs in Hin; by apply not_elem_of_nil in Hin].
    apply list_elem_of_bind. eexists. split; [|exact Ho]. by left.
  - assert (existsb is_blocked outs = true) as Hb'; [|congruence].
    apply existsb_exists. exists (OSuspend Blocked). split; [by apply list_elem_of_In|done].
Qed.

Lemma prefix_range l1 l2 c r call id : ctx_ok c → r ∈ l1 → call_fact c (l1 ++ l2) r call id →
  (id < ctx_next_command_id (assign_all l1 c))%Z.
Proof.
  intros Hok Hin (Hc & Hi & _). pose proof (assign_all_assigned l2 (assign_all l1 c)) as Ha.
  assert (assign_all (l1 ++ l2) c = assign_all l2 (assign_all l1 c)) as Happ by apply foldl_app.
  rewrite Happ in Hc.
  destruct (ctx_calls (assign_all l1 c) !! r) as [call0|] eqn:Hc0; [|apply (as_none _ _ _ Ha) in Hc0; congruence].
  destruct (as_done _ _ _ (assign_all_assigned l1 c) _ _ Hin Hc0) as [id0 Hi0].
  pose proof (as_kept _ _ _ Ha _ _ Hc0 (ex_intro _ _ Hi0)) as Hk. rewrite Hc in Hk. injection Hk as <-.
  by apply (cw_range _ (assign_all_wf l1 c (proj1 Hok)) r call).
Qed.

(** The first failure on one index bounds the first failure on another. *)
Lemma first_failure_bound {A} (P : A → Prop) (l1 l2 l1' l2' : list A) x x' :
  l1 ++ x :: l2 = l1' ++ x' :: l2' → ¬ P x → (∀ y, y ∈ l1' → P y) → x' ∈ l1 ++ [x].
Proof.
  revert l1'. induction l1 as [|y l1 IH]; intros [|y' l1'] Heq Hx Hall; simpl in *; injection Heq as -> Heq.
  - by left.
  - exfalso. apply Hx, Hall. by left.
  - by left.
  - right. apply (IH l1'); [done|done|]. intros z Hz. apply Hall. by right.
Qed.

Section gather_op.
Context (refs : list nat).
Abbreviation g c i := (outcome_of (assign_all refs c) i).

(** The commands a gather emits are the commands of its calls. *)
Lemma gather_emits c i0 s c0 k :
  gather refs (reindex i0 c) = (OSuspend s, c0) → k ∈ emitted s →
  ∃ r s1, r ∈ refs ∧ g c i0 r = OSuspend s1 ∧ k ∈ emitted s1.
Proof.
  destruct (gather_cases refs c i0) as [[Hc ->]|(l1 & ref & l2 & e & _ & _ & _ & ->)]; [|done].
  intros Heq Hk. injection Heq as Hs _. apply (summary_emitted _ _ k Hs), list_elem_of_bind in Hk as (o & Hk & Ho).
  apply list_elem_of_fmap in Ho as (r & -> & Hr).
  destruct (g c i0 r) as [| |s1] eqn:Hg; [by apply not_elem_of_nil in Hk..|]. by exists r, s1.
Qed.

Lemma gather_suspends c s c' :
  gather refs c = (OSuspend s, c') →
  (∀ r, r ∈ refs → calm (g c (ctx_history c) r) = true) ∧ c' = assign_all refs c ∧
  summary (g c (ctx_history c) <$> refs) = OSuspend s.
Proof.
  intros E. destruct (gather_cases refs c (ctx_history c)) as [[Hc Heq]|(l1 & ref & l2 & e & _ & _ & _ & Heq)];
    rewrite reindex_id, E in Heq; [|done].
  injection Heq as Hs ->. split_and!; [done| |done].
  rewrite <- (as_history _ _ _ (assign_all_assigned refs c)). by rewrite reindex_id.
Qed.

Lemma gather_waits c i' n r :
  ctx_ok c → index_ext (ctx_history c) i' → agrees_op (gather refs) c n i' → r ∈ refs →
  (∀ call id, call_fact c refs r call id → (id < n)%Z) →
  nd (g c (ctx_history c) r) = false → nd (g c i' r) = false.
Proof.
  intros Hok Hext Hag Hr Hn Hnd. destruct (suspends (g c (ctx_history c) r)) eqn:Hs.
  - destruct (g c (ctx_history c) r) as [| |s] eqn:Hg; [done|done|].
    apply (pending_call refs c Hok (gather refs) n i' r s); try done.
    intros i0 s0 c0 k _. apply gather_emits.
  - by rewrite (outcome_stable c refs Hok i' r Hr Hext Hs).
Qed.

Lemma calm_nd o : calm o = true → nd o = false.
Proof. by destruct o. Qed.

Lemma gather_pending c out c' i' :
  ctx_ok c → gather refs c = (out, c') → ¬ live false out → nd out = false →
  index_ext (ctx_history c) i' → agrees_op (gather refs) c (ctx_next_command_id c') i' →
  ∃ out2 c2, gather refs (reindex i' c) = (out2, c2) ∧ nd out2 = false ∧
    (suspends out = false → suspends out2 = false ∧ ¬ live false out2) ∧
    (suspends out = true → live false out2 ∨ suspends out2 = true →
     ctx_next_command_id c2 = ctx_next_command_id c').
Proof.
  intros Hok E Hl Hnd Hext Hag.
  destruct (gather_cases refs c (ctx_history c)) as [[Hc Heq]|(l1 & ref & l2 & e & Hrefs & Hc & Hr & Heq)];
    rewrite reindex_id, E in Heq; injection Heq as -> ->; cbn [ctx_next_command_id reindex] in *.
  - assert (∀ r, r ∈ refs → nd (g c i' r) = false) as Hwait.
    { intros r Hr. apply (gather_waits c i' (ctx_next_command_id (assign_all refs c))); try done.
      - intros call id (_ & _ & ? & _). lia.
      - by apply calm_nd, Hc. }
    destruct (gather_cases refs c i') as [[Hc' ->]|(l1 & ref & l2 & e & Hrefs & _ & Hr & ->)].
    + eexists _, _. split; [done|]. split; [apply summary_nd|]. split; [|done].
      intros Hs. exfalso. destruct (summary _) as [|e|] eqn:Hsum; [by apply Hl| |done].
      unfold summary in Hsum. repeat case_match; done.
    + eexists _, _. split; [done|]. specialize (Hwait ref). rewrite Hr in Hwait.
      split; [apply Hwait; rewrite Hrefs; apply elem_of_app; right; by left|].
      split; [|intros _ [?|?]; done]. done.
  - assert (ref ∈ refs) as Href by (rewrite Hrefs; apply elem_of_app; right; by left).
    assert (∀ r, r ∈ l1 ++ [ref] → nd (g c i' r) = false) as Hwait.
    { intros r Hin. apply (gather_waits c i' (ctx_next_command_id (assign_all (l1 ++ [ref]) c))); try done.
      - rewrite Hrefs. apply elem_of_app in Hin as [? | ->%list_elem_of_singleton]; apply elem_of_app;
          [by left|right; by left].
      - intros call id Hf. apply (prefix_range (l1 ++ [ref]) l2 c r call); [done|done|].
        by rewrite <- (assoc_L (++)); simpl; rewrite <- Hrefs.
      - apply elem_of_app in Hin as [? | ->%list_elem_of_singleton]; [by apply calm_nd, Hc|by rewrite Hr]. }
    assert (g c i' ref = ORaise e) as Hr'.
    { rewrite (outcome_stable c refs Hok i' ref Href Hext); [done|]. by rewrite Hr. }
    destruct (gather_cases refs c i') as [[Hc' _]|(l1' & ref' & l2' & e' & Hrefs' & Hc' & Hr2 & ->)].
    { specialize (Hc' ref Href). by rewrite Hr' in Hc'. }
    assert (ref' ∈ l1 ++ [ref]) as Hin.
    { rewrite Hrefs in Hrefs'.
      apply (first_failure_bound (fun r => calm (g c i' r) = true) l1 l2 l1' l2'); [done| |done].
      by rewrite Hr'. }
    eexists _, _. split; [done|]. specialize (Hwait _ Hin). rewrite Hr2 in Hwait.
    by split_and!.
Qed.

Lemma gather_returns c vs c' :
  ctx_ok c → gather refs c = (OReturn vs, c') →
  c' = assign_all refs c ∧ summary (g c (ctx_history c) <$> refs) = OReturn vs ∧
  ∀ r, r ∈ refs → calm (g c (ctx_history c) r) = true ∧
    suspends (g c (ctx_history c) r) = false ∧ nd (g c (ctx_history c) r) = false.
Proof.
  intros Hok E. destruct (gather_cases refs c (ctx_history c)) as [[Hc Heq]|(l1 & ref & l2 & e & _ & _ & _ & Heq)];
    rewrite reindex_id, E in Heq; [|done].
  injection Heq as Hs ->. rewrite <- (as_history _ _ _ (assign_all_assigned refs c)) at 1.
  rewrite reindex_id. split_and!; [done|done|]. intros r Hr. split; [by apply Hc|].
  apply (summary_return (g c (ctx_history c) <$> refs) vs); [done| | |].
  - intros o (r' & -> & Hr')%list_elem_of_fmap. by apply Hc.
  - intros o s (r' & -> & Hr')%list_elem_of_fmap Ho. by eapply outcome_of_kinds.
  - apply list_elem_of_fmap. by exists r.
Qed.

Lemma gather_op : op_durable false (gather refs).
Proof.
  split.
  - intros c out c' E.
    destruct (gather_cases refs c (ctx_history c)) as [[_ Heq]|(l1 & ref & l2 & e & _ & _ & _ & Heq)];
      rewrite reindex_id, E in Heq; injection Heq as -> ->; simpl;
      (split; [done|split; [apply (as_workflow _ _ _ (assign_all_assigned _ c))
                           |apply (as_next _ _ _ (assign_all_assigned _ c))]]).
  - intros c out c' Hok E Hl _. destruct out as [vs|e|s]; [|done|done].
    destruct (gather_returns _ _ _ Hok E) as (-> & _ & Hr). apply settled_ctx_ok; [done|].
    intros r Hin. by apply Hr.
  - intros c out c' i' Hok E Hl Hext _. destruct out as [vs|e|s]; [|done|done].
    destruct (gather_returns _ _ _ Hok E) as (-> & Hs & Hr).
    assert (∀ r, r ∈ refs → g c i' r = g c (ctx_history c) r) as Heq.
    { intros r Hin. apply (outcome_stable c refs Hok i' r Hin Hext). by apply Hr. }
    destruct (gather_cases refs c i') as [[_ ->]|(l1 & ref & l2 & e & Hrefs & _ & Hraise & _)].
    + rewrite <- Hs. f_equal. f_equal. by apply list_fmap_ext; intros j r Hj; apply Heq;
        apply list_elem_of_lookup; exists j.
    + exfalso. assert (ref ∈ refs) as Hin by (rewrite Hrefs; apply elem_of_app; right; by left).
      rewrite (Heq _ Hin) in Hraise. destruct (Hr _ Hin) as [Hcalm _]. by rewrite Hraise in Hcalm.
  - intros c out c' i' Hok E Hl Hnd _. by apply gather_pending.
  - intros c out c' Hok E Hf.
    destruct (gather_cases refs c (ctx_history c)) as [[_ Heq]|(l1 & ref & l2 & e & Hrefs & _ & Hr & Heq)];
      rewrite reindex_id, E in Heq; injection Heq as -> _; [apply summary_nd|].
    assert (ref ∈ refs) as Hin by (rewrite Hrefs; apply elem_of_app; right; by left).
    pose proof (outcome_fresh c refs Hok ref Hin Hf) as Hnd. by rewrite Hr in Hnd.
  - intros c s c' k Hok E Hk. destruct (gather_suspends _ _ _ E) as (_ & -> & _).
    rewrite <- (reindex_id c) in E at 1. destruct (gather_emits _ _ _ _ _ E Hk) as (r & s1 & Hr & Hs1 & Hk1).
    destruct (outcome_emits c refs Hok r s1 k Hr Hs1 Hk1) as (call & (_ & _ & Hrange & _) & Hn & Hle).
    split; [lia|done].
  - intros c s c' id Hok E Hid Hn. destruct (gather_suspends _ _ _ E) as (Hc & -> & Hs).
    destruct (assigned_fact c refs Hok id Hid) as (r & call & Hr & Hf).
    destruct (outcome_new c refs Hok r call id Hr Hf Hn) as [(e & He)|(k & Hk & Hkid)].
    + specialize (Hc r Hr). by rewrite He in Hc.
    + exists k. split; [|done]. apply (summary_emitted _ _ k Hs), list_elem_of_bind.
      exists (OSuspend (NewCommands [k])). split; [by left|]. apply list_elem_of_fmap. by exists r.
  - intros c s c' i' Hok E Hem Hext Hag. destruct (gather_suspends _ _ _ E) as (Hc & -> & Hs).
    destruct (gather_cases refs c i') as [[_ ->]|(l1 & ref & l2 & e & Hrefs & _ & Hraise & ->)];
      [left|right; eexists _, _; by split_and!].
    assert (∀ r, r ∈ refs → commands_of (g c i' r) = commands_of (g c (ctx_history c) r)) as Heq.
    { intros r Hr. destruct (suspends (g c (ctx_history c) r)) eqn:Hsr;
        [|by rewrite (outcome_stable c refs Hok i' r Hr Hext Hsr)].
      destruct (g c (ctx_history c) r) as [| |sr] eqn:Hg; [done|done|].
      destruct (outcome_of_kinds _ _ _ _ Hg) as [(k & ->)| ->].
      - destruct (outcome_emits c refs Hok r _ k Hr Hg) as (call & (_ & _ & Hrange & _) & Hn & _); [by left|].
        rewrite (outcome_same c refs Hok i' r k Hr Hext Hg); [done|]. rewrite Hag; [done|apply Hrange].
      - destruct (g c i' r) as [| |s'] eqn:Hg'; [done|done|].
        destruct (outcome_of_kinds _ _ _ _ Hg') as [(k & ->)| ->]; [|done]. exfalso.
        destruct (call_facts c refs Hok r Hr) as [(e & _ & He)|(call & id & Hf)]; [by rewrite He in Hg|].
        pose proof Hf as (_ & _ & _ & Ho & _).
        destruct (scheduled (ctx_history c) !! id) as [x|] eqn:Hx.
        + apply (ext_lookup _ _ _ _ (ext_scheduled _ _ Hext)) in Hx. rewrite Ho in Hg'.
          by apply (activity_recorded _ _ _ _ x) in Hg'.
        + destruct (outcome_new c refs Hok r call id Hr Hf Hx) as [(e & He)|(k' & Hk' & _)]; congruence. }
    f_equal. rewrite <- Hs. unfold summary.
    assert ((g c i' <$> refs) ≫= commands_of = (g c (ctx_history c) <$> refs) ≫= commands_of) as ->.
    { rewrite !bind_fmap. by apply bind_ext. }
    destruct ((g c (ctx_history c) <$> refs) ≫= commands_of) as [|k ks] eqn:Hcs; [|done]. exfalso.
    destruct (emitted s) as [|k ks] eqn:Hks; [done|].
    assert (k ∈ emitted s) as Hk by (rewrite Hks; by left).
    apply (summary_emitted _ _ k Hs) in Hk. rewrite Hcs in Hk. by apply not_elem_of_nil in Hk.
Qed.

End gather_op.

End calls.
