(* ===== verification/Replay.v ===== *)
(** * Replay of a workflow function (engine/runtime/replay.py)

    A workflow function is arbitrary Python code that awaits the operations of
    its [WorkflowContext].  It is modelled as a [Coroutine]: what the function
    does next is a function of its input and of the results the awaited
    operations returned so far.  The representation covers every deterministic
    function, loops included, and lets the function catch the exceptions an
    operation raised ([RExn] is handed to it like any result); the
    [_ReplaySuspended] exceptions derive from [BaseException] and end the
    replay. *)
From S2P Require Import Prelude Python Serialization History Commands Context.

(** What workflow code asks for: an operation of the context, or its own end. *)
Inductive Request : Type :=
| ReqActivity (call : ActivityCall)
| ReqAwaitActivity (ref : nat)
| ReqGather (refs : list nat)
| ReqChildWorkflow (workflow_type : string) (definition_version : Z) (input : JSON)
    (queue_name : option string) (parent_close_policy : string)
| ReqAwaitChild (call : ChildWorkflowCall)
| ReqContinueAsNew (workflow_type : string) (definition_version : Z) (input : JSON)
    (queue_name : option string)
| ReqNow
| ReqRandom
| ReqUuid
| ReqSleep (duration : TimeDelta)
| ReqWaitSignal (name : string) (timeout : option TimeDelta)
| ReqWaitUpdate (name : string)
| ReqResolveUpdate (update : WorkflowUpdate) (outcome : JSON) (accepted : bool)
| ReqCancellationRequested
| ReqNextCommandId
| ReqReturn (result : JSON)
| ReqRaise (e : PyError).

(** What an operation gave back to workflow code. *)
Inductive Response : Type :=
| RValue (v : JSON)
| RValues (vs : list JSON)
| RActivityCall (ref : nat)
| RChildCall (call : ChildWorkflowCall)
| RNone
| RDatetime (t : Datetime)
| RFloat (f : float)
| RUuid (u : UUID)
| RUpdate (u : WorkflowUpdate)
| RBool (b : bool)
| RInt (n : Z)
| RExn (e : PyError).

Definition Coroutine : Type := JSON → list Response → Request.

(** engine/runtime/replay.py, lines 22-26 *)
Inductive ReplayStatus : Type := COMMANDS | BLOCKED | COMPLETED | FAILED.
#[export] Instance ReplayStatus_eq_dec : EqDecision ReplayStatus.
Proof. solve_decision. Defined.

(** engine/runtime/replay.py, lines 29-34 *)
Record ReplayResult : Type := mk_replay_result {
  rr_status : ReplayStatus;
  rr_commands : list Command;
  rr_result : JSON;
  rr_failure : JSON
}.

Section Replay.
Context `{PyStd}.

(** One operation of the context; [None] for the end of the function. *)
Definition exec_request (r : Request) : option (Ctx Response) :=
  match r with
  | ReqActivity call => Some (n ← activity call; mret (RActivityCall n))
  | ReqAwaitActivity ref => Some (v ← _evaluate_activity ref; mret (RValue v))
  | ReqGather refs => Some (vs ← gather refs; mret (RValues vs))
  | ReqChildWorkflow t v i q p => Some (c ← child_workflow t v i q p; mret (RChildCall c))
  | ReqAwaitChild call => Some (v ← _evaluate_child_workflow call; mret (RValue v))
  | ReqContinueAsNew t v i q => Some (_ ← continue_as_new t v i q; mret RNone)
  | ReqNow => Some (t ← now; mret (RDatetime t))
  | ReqRandom => Some (f ← random; mret (RFloat f))
  | ReqUuid => Some (u ← uuid; mret (RUuid u))
  | ReqSleep d => Some (_ ← sleep d; mret RNone)
  | ReqWaitSignal n t => Some (v ← wait_signal n t; mret (RValue v))
  | ReqWaitUpdate n => Some (u ← wait_update n; mret (RUpdate u))
  | ReqResolveUpdate u o a => Some (_ ← resolve_update u o a; mret RNone)
  | ReqCancellationRequested => Some (b ← ctx_cancellation_requested; mret (RBool b))
  | ReqNextCommandId => Some (n ← next_command_id; mret (RInt n))
  | ReqReturn _ | ReqRaise _ => None
  end.

(** How a run of the function ended. *)
Inductive RunEnd : Type :=
| Returned (v : JSON)
| Raised (e : PyError)
| SuspendedBy (s : Suspended).

(** The function driven by the context: each request is executed and its
    response handed back.  [None]: the fuel, one unit per request, ran out. *)
Fixpoint run (fuel : nat) (co : list Response → Request) (rs : list Response)
    (c : WorkflowContext) : option (RunEnd * WorkflowContext) :=
  match fuel with
  | O => None
  | S fuel =>
    match co rs with
    | ReqReturn v => Some (Returned v, c)
    | ReqRaise e => Some (Raised e, c)
    | r =>
      match exec_request r with
      | None => None
      | Some op =>
        match op c with
        | (OReturn a, c) => run fuel co (rs ++ [a]) c
        | (ORaise e, c) => run fuel co (rs ++ [RExn e]) c
        | (OSuspend s, c) => Some (SuspendedBy s, c)
        end
      end
    end
  end.

(** engine/runtime/replay.py, lines 59-63 *)
Definition failed_result (e : PyError) : ReplayResult :=
  mk_replay_result FAILED [] JNull
    (JObj [("type", JStr (exn_type_name e)); ("message", JStr (exn_str e))]).

(** engine/runtime/replay.py, lines 46-73: the exception handlers around the
    function, and the check of a normal return. *)
Definition finish (index : HistoryIndex) (end_ : RunEnd) (context : WorkflowContext)
    : Py ReplayResult :=
  match end_ with
  | SuspendedBy (NewCommands commands) => Ok (mk_replay_result COMMANDS commands JNull JNull)
  | SuspendedBy Blocked => Ok (mk_replay_result BLOCKED [] JNull JNull)
  | SuspendedBy (ContinueAsNewRecorded workflow_id) =>
    Ok (mk_replay_result COMPLETED [] (JObj [("continued_to", JStr (uuid_str workflow_id))]) JNull)
  | Raised (NonDeterminismError c d) => Err (NonDeterminismError c d)
  | Raised e => Ok (failed_result e)
  | Returned result =>
    match first_unvisited_command index (ctx_next_command_id context) with
    | Some unvisited =>
      match command_id unvisited with
      | None => Err (NonDeterminismError 0 "unvisited command has no command ID")
      | Some c =>
        Err (NonDeterminismError c
               ("history contains unvisited " +:+ event_type_name (event_type unvisited)))
      end
    | None =>
      result ← clone_json result;
      Ok (mk_replay_result COMPLETED [] result JNull)
    end
  end.

(** engine/runtime/replay.py, lines 37-73 *)
Definition replay_workflow (fuel : nat) (function : Coroutine) (workflow_id : UUID)
    (workflow_input : JSON) (history : list HistoryEvent) : option (Py ReplayResult) :=
  match build_index history with
  | Err e => Some (Err e)
  | Ok index =>
    let context := init_context workflow_id index in
    match clone_json workflow_input with
    | Err e => Some (finish index (Raised e) context)
    | Ok input =>
      match run fuel (function input) [] context with
      | None => None
      | Some (end_, context) => Some (finish index end_ context)
      end
    end
  end.

End Replay.
