(* ===== verification/Requests.v ===== *)
(** * Every request of workflow code is durable

    Messages are delivered in the order of their events, each once: the earliest
    unconsumed signal of a name stays the earliest when the history grows, and a
    timeout that fired is not undone by a signal that came later. *)
From S2P Require Import Prelude Python Serialization History HistoryTheory Commands Context.
From S2P Require Import Durability Operations Calls Replay.

Section requests.
Context `{PyStd}.

(** ** Messages *)
Lemma head_filter_app {A} (P : A → Prop) `{∀ x, Decision (P x)} (l l2 : list A) x :
  head (filter P l) = Some x → head (filter P (l ++ l2)) = Some x.
Proof. rewrite filter_app. by destruct (filter P l). Qed.

Lemma matching_signal_ext c i' name e :
  index_ext (ctx_history c) i' → matching_signal c name = Some e →
  matching_signal (reindex i' c) name = Some e.
Proof.
  intros Hext. destruct (ext_signals _ _ Hext) as (l & Hl & _). unfold matching_signal. simpl.
  rewrite Hl. apply head_filter_app.
Qed.

Lemma matching_signal_new c i' name e :
  index_ext (ctx_history c) i' → matching_signal c name = None →
  matching_signal (reindex i' c) name = Some e → (previous_seq (ctx_history c) < event_seq e)%Z.
Proof.
  intros Hext. destruct (ext_signals _ _ Hext) as (l & Hl & Hnew). unfold matching_signal. simpl.
  rewrite Hl, filter_app. destruct (filter _ (signals (ctx_history c))); [|done]. intros _ Hh.
  apply head_Some_elem_of in Hh. apply list_elem_of_filter in Hh as [_ Hin].
  rewrite Forall_forall in Hnew. by apply Hnew.
Qed.

Lemma matching_signal_old c name e :
  index_wf (ctx_history c) → matching_signal c name = Some e →
  (event_seq e ≤ previous_seq (ctx_history c))%Z.
Proof.
  intros Hwf Hh%head_Some_elem_of. apply list_elem_of_filter in Hh as [_ Hin].
  pose proof (ixwf_signals _ Hwf) as Hs. rewrite Forall_forall in Hs. by apply Hs.
Qed.

Lemma matching_update_ext c i' name e :
  index_ext (ctx_history c) i' → matching_update c name = Some e →
  matching_update (reindex i' c) name = Some e.
Proof.
  intros Hext. destruct (ext_updates _ _ Hext) as (l & Hl). unfold matching_update. simpl.
  rewrite Hl. apply head_filter_app.
Qed.

Lemma matching_update_id c name e :
  index_wf (ctx_history c) → matching_update c name = Some e → ∃ u, attr "update_id" e = JStr u.
Proof.
  intros Hwf Hh%head_Some_elem_of. apply list_elem_of_filter in Hh as [_ Hin].
  pose proof (ixwf_updates _ Hwf) as Hs. rewrite Forall_forall in Hs. apply Hs in Hin.
  destruct (attr "update_id" e); try done. eauto.
Qed.

Lemma pure_deliver e : pure_like (deliver_signal e).
Proof.
  intros c out c'. unfold deliver_signal, consume_signal, lift, mbind, Ctx_bind.
  destruct (clone_json (attr "payload" e)) as [v|er] eqn:Hc; intros [= <- <-]; split_and!; try done.
  by apply clone_json_nd in Hc.
Qed.

(** An operation that waits for a message: it reads the index only for the
    message, and allocates no identity. *)
Section message_op.
Context {A X : Type} (q : WorkflowContext → option X) (k : X → Ctx A) (m : Ctx A).
Context (Hm : ∀ c, m c = match q c with Some x => k x c | None => (OSuspend Blocked, c) end).
Context (Hext : ∀ c i' x, index_ext (ctx_history c) i' → q c = Some x → q (reindex i' c) = Some x).
Context (Hframe : ∀ x c out c', k x c = (out, c') → ctx_history c' = ctx_history c ∧
  ctx_workflow_id c' = ctx_workflow_id c ∧ ctx_next_command_id c' = ctx_next_command_id c ∧
  suspends out = false).
Context (Hk : ∀ c x, index_wf (ctx_history c) → q c = Some x → pure_like (k x)).

Lemma message_suspends c s c' : m c = (OSuspend s, c') → q c = None ∧ s = Blocked ∧ c' = c.
Proof.
  rewrite Hm. destruct (q c) as [x|]; [|by intros [= <- <-]].
  intros E. by apply Hframe in E as (_ & _ & _ & ?).
Qed.

Lemma message_op : op_durable true m.
Proof.
  split.
  - intros c out c' E. rewrite Hm in E. destruct (q c); [|by injection E as <- <-].
    apply Hframe in E as (? & ? & -> & _). by split_and!.
  - intros c out c' Hok E Hl _. rewrite Hm in E. destruct (q c) as [x|] eqn:Hq.
    + apply (Hk c x (cw_index _ (proj1 Hok)) Hq) in E as (_ & _ & Hh & Hw & Hn & Hc & _).
      eapply ctx_ok_later; [done|done|done|lia|done].
    + by injection E as <- <-.
  - intros c out c' i' Hok E Hl Hx _. rewrite Hm in *. destruct (q c) as [x|] eqn:Hq.
    + rewrite (Hext c i' x Hx Hq). by apply (Hk c x (cw_index _ (proj1 Hok)) Hq) in E as (_&_&_&_&_&_&?).
    + by injection E as <- <-.
  - intros c out c' i' Hok E Hl _ Hwf Hx _. destruct out as [|e|s]; [by destruct Hl|by destruct Hl|].
    apply message_suspends in E as (Hq & -> & ->).
    destruct (m (reindex i' c)) as [out2 c2] eqn:E2. exists out2, c2. rewrite Hm in E2.
    destruct (q (reindex i' c)) as [x|] eqn:Hq2; [|by injection E2 as <- <-].
    apply (Hk (reindex i' c) x Hwf Hq2) in E2 as (Hs & Hn & _ & _ & -> & _). by split_and!.
  - intros c out c' Hok E _. rewrite Hm in E. destruct (q c) as [x|] eqn:Hq; [|by injection E as <- <-].
    by apply (Hk c x (cw_index _ (proj1 Hok)) Hq) in E as (_ & ? & _).
  - intros c s c' k0 Hok (_ & -> & _)%message_suspends Hin. by apply not_elem_of_nil in Hin.
  - intros c s c' id Hok (_ & _ & ->)%message_suspends. lia.
  - by intros c s c' i' Hok (_ & -> & _)%message_suspends.
Qed.
End message_op.

(** ** Waiting for a signal with a timeout *)
Definition signal_result (c : WorkflowContext) (name : string) (i : HistoryIndex) (n : UUID)
    : Outcome HistoryEvent :=
  let timer := timer_terminal i !! n in
  let timed_out :=
    match timer with
    | Some t => if bool_decide (event_type t = TimerFired) then ORaise (SignalTimeoutError name)
                else OSuspend Blocked
    | None => OSuspend Blocked
    end in
  match matching_signal (reindex i c) name with
  | Some e =>
    if match timer with None => true | Some t => (event_seq e <? event_seq t)%Z end
    then OReturn e else timed_out
  | None => timed_out
  end.

Definition signal_spec (c : WorkflowContext) (name : string) (timeout : TimeDelta)
    : command_spec string HistoryEvent :=
  let delay_seconds := total_seconds timeout in
  mk_spec
    (if SFltb delay_seconds (S754_zero false) then
       Err (ValueError "signal timeout cannot be negative")
     else fingerprint (JObj
       [("command_type", JStr "signal_timeout"); ("signal_name", JStr name);
        ("delay_seconds", JFloat delay_seconds)]))
    (fun w i id fp =>
      OSuspend (NewCommands
        [CScheduleTimer (mk_schedule_timer id (entity_uuid w "signal-timeout" id)
           delay_seconds "signal_timeout" (Some name) fp)]))
    (entity_found TimerStarted Datatypes.id
      (fun s => "expected signal timeout, history contains " +:+ event_type_name (event_type s))
      (fun _ _ => "signal timeout for " +:+ py_repr (JStr name) +:+ " changed")
      "recorded signal timeout has no entity ID" (signal_result c name)).

Lemma signal_result_ok c name : result_ok (signal_result c name).
Proof.
  split.
  - intros i i' n Hwf Hext. unfold signal_result.
    pose proof (fun e => matching_signal_ext (reindex i c) i' name e Hext) as Hm1.
    pose proof (fun e => matching_signal_new (reindex i c) i' name e Hext) as Hm2.
    pose proof (fun e => matching_signal_old (reindex i c) name e Hwf) as Hm3.
    change (reindex i' (reindex i c)) with (reindex i' c) in *. cbn [ctx_history reindex] in *.
    destruct (timer_terminal i !! n) as [t|] eqn:Ht.
    + rewrite (ext_lookup _ _ _ _ (ext_timer _ _ Hext) Ht).
      destruct (matching_signal (reindex i c) name) as [e|] eqn:He; [by rewrite (Hm1 _ eq_refl)|].
      destruct (matching_signal (reindex i' c) name) as [e|] eqn:He'; [|done].
      pose proof (Hm2 e eq_refl eq_refl). pose proof (ixwf_timers _ Hwf _ _ Ht).
      by rewrite (proj2 (Z.ltb_ge _ _)) by lia.
    + destruct (matching_signal (reindex i c) name) as [e|] eqn:He; [|done]. intros _.
      rewrite (Hm1 _ eq_refl). destruct (timer_terminal i' !! n) as [t|] eqn:Ht'; [|done].
      pose proof (Hm3 e eq_refl). destruct (ext_timer_new _ _ Hext _ _ Ht') as [?|?]; [congruence|].
      by rewrite (proj2 (Z.ltb_lt _ _)) by lia.
  - intros i n. unfold signal_result. repeat case_match; done.
  - intros i n x. unfold signal_result. repeat case_match; try done; by intros [= <-].
Qed.

Lemma signal_ok c name timeout : spec_ok (signal_spec c name timeout).
Proof.
  split; simpl; eauto using entity_found_stable, entity_found_waits, signal_result_ok.
  - intros e. case_match; [by intros [= <-]|]. apply fingerprint_nd.
  - intros w i i' id f k e _ _ _ _ Hm [Ht _ Hn Hfp _]. simplify_eq/=.
    by eapply entity_found_recorded; [apply signal_result_ok|..].
Qed.

Lemma signal_timeout_shape name timeout c :
  wait_signal_timeout name timeout (matching_signal c name) c =
  match command_outcome (signal_spec c name timeout) (ctx_workflow_id c) (ctx_history c)
          (ctx_next_command_id c) with
  | OReturn e => deliver_signal e (bump c)
  | ORaise e => (ORaise e, bump c)
  | OSuspend s => (OSuspend s, bump c)
  end.
Proof.
  unfold wait_signal_timeout, command_outcome, signal_spec, entity_found, signal_result.
  cbn [spec_check spec_missing spec_found]. rewrite reindex_id.
  unfold mbind at 1, Ctx_bind at 1, alloc_command_id.
  destruct (SFltb (total_seconds timeout) (S754_zero false)); [done|].
  unfold mbind at 1, Ctx_bind at 1, lift.
  destruct (fingerprint _) as [fp|e]; [|done].
  unfold mbind, Ctx_bind, get_context. cbn [ctx_history ctx_workflow_id].
  destruct (scheduled (ctx_history c) !! ctx_next_command_id c) as [s|]; [|done].
  destruct (negb _); [done|]. change (Datatypes.id fp) with fp.
  destruct (negb (fingerprint_matches s fp)); [done|].
  destruct (entity_id s) as [n|]; [|done].
  destruct (matching_signal c name) as [e|].
  - destruct (timer_terminal (ctx_history c) !! n) as [t|]; [|done].
    destruct (event_seq e <? event_seq t)%Z; [done|]. by destruct (bool_decide _).
  - destruct (timer_terminal (ctx_history c) !! n) as [t|]; [|done]. by destruct (bool_decide _).
Qed.

Lemma pure_raise {A} e : nondet e = false → pure_like (raise (A:=A) e).
Proof. intros He c out c' [= <- <-]. by split_and!. Qed.

Lemma wait_signal_op name timeout : op_durable true (wait_signal name timeout).
Proof.
  unfold wait_signal. destruct (String.eqb name ""); [by apply pure_op, pure_raise|].
  destruct timeout as [timeout|].
  - apply (command_op (fun c => command_outcome (signal_spec c name timeout)) deliver_signal).
    + done.
    + intros c. apply command_durable, signal_ok.
    + apply pure_deliver.
    + intros c. apply signal_timeout_shape.
  - apply (message_op (fun c => matching_signal c name) deliver_signal).
    + intros c. unfold mbind, Ctx_bind, get_context. by destruct (matching_signal c name).
    + intros c i' x. apply matching_signal_ext.
    + intros x c out c' E. apply pure_deliver in E. naive_solver.
    + intros c x _ _. apply pure_deliver.
Qed.

(** What [wait_update] does with the update it found. *)
Definition deliver_update (name : string) (e : HistoryEvent) : Ctx WorkflowUpdate :=
  match attr "update_id" e with
  | JStr update_id =>
    _ ← consume_update (event_seq e);
    payload ← lift (clone_json (attr "payload" e));
    mret (mk_workflow_update update_id name payload)
  | _ => fun c => nondeterminism (ctx_next_command_id c) "update has no identity" c
  end.

Lemma pure_deliver_update name e u : attr "update_id" e = JStr u → pure_like (deliver_update name e).
Proof.
  intros Hu c out c'. unfold deliver_update. rewrite Hu.
  unfold consume_update, lift, mbind, Ctx_bind.
  destruct (clone_json (attr "payload" e)) as [v|er] eqn:Hc; intros [= <- <-]; split_and!; try done.
  by apply clone_json_nd in Hc.
Qed.

Lemma wait_update_op name : op_durable true (wait_update name).
Proof.
  unfold wait_update. destruct (String.eqb name ""); [by apply pure_op, pure_raise|].
  apply (message_op (fun c => matching_update c name) (deliver_update name)).
  - intros c. unfold mbind at 1, Ctx_bind at 1, get_context.
    destruct (matching_update c name) as [e|]; [|done]. unfold deliver_update.
    by destruct (attr "update_id" e).
  - intros c i' x. apply matching_update_ext.
  - intros x c out c'. destruct (attr "update_id" x) as [| | | |u| |] eqn:Hu;
      try (unfold deliver_update; rewrite Hu; intros [= <- <-]; done).
    intros E. apply (pure_deliver_update _ _ u Hu) in E. naive_solver.
  - intros c x Hwf Hq. destruct (matching_update_id _ _ _ Hwf Hq) as [u Hu].
    by apply (pure_deliver_update _ _ u).
Qed.

(** ** The other operations *)
Lemma pure_activity call : pure_like (activity call).
Proof.
  intros c out c' [= <- <-]. split_and!; try done. simpl. intros ref call' id Hr Hi.
  apply lookup_app_Some in Hr as [?|[_ Hr]]; [done|].
  apply list_lookup_singleton_Some in Hr as [_ <-]. done.
Qed.

Lemma pure_child_workflow t v i q p : pure_like (child_workflow t v i q p).
Proof.
  unfold child_workflow. do 2 (case_match; [by apply pure_raise|]).
  intros c out c'. unfold lift, mbind, Ctx_bind.
  destruct (clone_json i) as [x|e] eqn:Hc; intros [= <- <-]; split_and!; try done.
  by apply clone_json_nd in Hc.
Qed.

Lemma pure_next_command_id : pure_like next_command_id.
Proof. intros c out c' [= <- <-]. by split_and!. Qed.

Context `{!PyStdLaws}.

Lemma continue_op t v i q : op_durable true (continue_as_new t v i q).
Proof.
  destruct (decide (q = Some "")) as [->|Hq].
  - unfold continue_as_new. rewrite bool_decide_eq_true_2 by done. by apply pure_op, pure_raise.
  - apply (simple_op _ _ (command_durable _ (continue_ok t v i q))). intros c. by apply continue_shape.
Qed.

(** [b] for a request: a failed [gather] is the one raise workflow code must
    not survive. *)
Definition survives (r : Request) : bool := match r with ReqGather _ => false | _ => true end.

(** Every request but the reading of [ctx.cancellation_requested] is durable. *)
Theorem request_op r op :
  r ≠ ReqCancellationRequested → exec_request r = Some op → op_durable (survives r) op.
Proof.
  intros Hr. destruct r; cbn [exec_request survives]; intros Heq; try done; injection Heq as <-;
    apply map_op.
  - apply pure_op, pure_activity.
  - apply activity_op.
  - apply gather_op.
  - apply pure_op, pure_child_workflow.
  - apply (simple_op _ _ (command_durable _ (child_ok call))); apply child_shape.
  - apply continue_op.
  - apply (simple_op _ _ (command_durable _ now_ok)); apply now_shape.
  - apply (simple_op _ _ (command_durable _ random_ok)); apply random_shape.
  - apply (simple_op _ _ (command_durable _ uuid_ok)); apply uuid_shape.
  - apply (simple_op _ _ (command_durable _ (sleep_ok duration))); apply sleep_shape.
  - apply wait_signal_op.
  - apply wait_update_op.
  - apply (simple_op _ _ (command_durable _ (resolve_ok update outcome accepted))); apply resolve_shape.
  - apply pure_op, pure_next_command_id.
Qed.

End requests.
