(* ===== verification/Determinism.v ===== *)
(** * Replay is deterministic across the versions of a history

    A replay visits states: the responses workflow code has got and the context.
    [visit] steps a replay over the requests workflow code goes on from;
    [safe i] says no replay on index [i] meets non-determinism.  When a history
    grows -- by an outcome, or by the commands a possibly stale replay emitted --
    the states visited before stay visited, and the rest of the replay only
    allocates identities beyond everything recorded. *)
From S2P Require Import Prelude Python Serialization History HistoryTheory Commands Context.
From S2P Require Import Durability Operations Calls Replay Requests.

Section determinism.
Context `{PyStdLaws}.

(** What workflow code must respect: it does not branch on
    [ctx.cancellation_requested], a failed [gather] ends it, and it raises
    non-determinism only when an operation did. *)
Record disciplined (co : list Response → Request) : Prop := {
  dis_cancel rs : co rs ≠ ReqCancellationRequested;
  dis_gather rs refs e : co rs = ReqGather refs → ∃ e', co (rs ++ [RExn e]) = ReqRaise e';
  dis_raise rs e' :
    (∀ e, RExn e ∈ rs → nondet e = false) → co rs = ReqRaise e' → nondet e' = false
}.

Section one_function.
Context (co : list Response → Request) (Hco : disciplined co) (w : UUID).

(** ** Visited states *)
Definition State : Type := list Response * WorkflowContext.

Definition advance (st : State) : option State :=
  let '(rs, c) := st in
  match exec_request (co rs) with
  | None => None
  | Some op =>
    match op c with
    | (OReturn a, c) => Some (rs ++ [a], c)
    | (ORaise e, c) =>
      if survives (co rs) && negb (nondet e) then Some (rs ++ [RExn e], c) else None
    | (OSuspend _, _) => None
    end
  end.

Fixpoint visit (i : HistoryIndex) (n : nat) : option State :=
  match n with
  | O => Some ([], init_context w i)
  | S n => visit i n ≫= advance
  end.

Definition response (out : Outcome Response) : Response :=
  match out with OReturn a => a | ORaise e => RExn e | OSuspend _ => RNone end.

Lemma advance_some rs c rs' c' :
  advance (rs, c) = Some (rs', c') →
  ∃ op out, exec_request (co rs) = Some op ∧ op c = (out, c') ∧ live (survives (co rs)) out ∧
    nd out = false ∧ rs' = rs ++ [response out].
Proof.
  unfold advance. destruct (exec_request (co rs)) as [op|]; [|done].
  destruct (op c) as [[a|e|s] c1] eqn:E; [| |done].
  - intros [= <- <-]. by exists op, (OReturn a).
  - destruct (survives (co rs)) eqn:Hs; [|done]. destruct (nondet e) eqn:He; [done|].
    intros [= <- <-]. by exists op, (ORaise e).
Qed.

Lemma advance_live rs c op out c' :
  exec_request (co rs) = Some op → op c = (out, c') → live (survives (co rs)) out → nd out = false →
  advance (rs, c) = Some (rs ++ [response out], c').
Proof.
  unfold advance. intros -> ->. destruct out as [a|e|s]; [done| |done]. simpl. by intros -> ->.
Qed.

Lemma advance_stuck rs c op out c' :
  exec_request (co rs) = Some op → op c = (out, c') → ¬ live (survives (co rs)) out →
  advance (rs, c) = None.
Proof.
  unfold advance. intros -> ->. destruct out as [a|e|s]; [by intros []| |done]. simpl.
  by destruct (survives (co rs)).
Qed.

(** An operation never returns an exception. *)
Lemma exec_returns r op c a c' :
  exec_request r = Some op → op c = (OReturn a, c') → ∀ e, a ≠ RExn e.
Proof.
  intros Hop E e ->. destruct r; simpl in Hop; simplify_eq; rewrite map_out_eq in E;
    match type of E with context [match ?m with _ => _ end] => destruct m as [[]] end;
    discriminate E.
Qed.

Lemma op_of rs op : exec_request (co rs) = Some op → op_durable (survives (co rs)) op.
Proof. apply request_op, (dis_cancel _ Hco). Qed.

Lemma visit_succ i n st : visit i (S n) = Some st → ∃ st0, visit i n = Some st0 ∧ advance st0 = Some st.
Proof. simpl. destruct (visit i n) as [st0|]; [|done]. eauto. Qed.

(** Every visited context is in order. *)
Lemma visit_ok i n rs c :
  index_wf i → visit i n = Some (rs, c) →
  ctx_ok c ∧ ctx_history c = i ∧ ctx_workflow_id c = w ∧ (∀ e, RExn e ∈ rs → nondet e = false).
Proof.
  intros Hwf. revert rs c. induction n as [|n IH]; intros rs c Hv.
  - injection Hv as <- <-. split_and!; [|done|done|].
    + split; [split|]; simpl; try done; intros; by rewrite lookup_nil in *.
    + intros e He. by apply not_elem_of_nil in He.
  - apply visit_succ in Hv as ([rs0 c0] & Hv & Ha). destruct (IH _ _ Hv) as (Hok & Hh & Hw & Hn).
    apply advance_some in Ha as (op & out & Hop & E & Hl & Hnd & ->).
    pose proof (op_of _ _ Hop) as Hd. destruct (od_frame _ _ Hd _ _ _ E) as (Hh' & Hw' & _).
    split_and!; [by eapply (od_wf _ _ Hd)|congruence|congruence|].
    intros e He. apply elem_of_app in He as [He|He]; [by apply Hn|].
    apply list_elem_of_singleton in He. destruct out as [a|e'|s]; simpl in He; [|by injection He as ->|done].
    subst a. by destruct (exec_returns _ _ _ _ _ Hop E e).
Qed.

Lemma visit_next i n rs c rs' c' :
  index_wf i → visit i n = Some (rs, c) → visit i (S n) = Some (rs', c') →
  (ctx_next_command_id c ≤ ctx_next_command_id c')%Z.
Proof.
  intros Hwf Hv ([rs0 c0] & Hv0 & Ha)%visit_succ. rewrite Hv in Hv0. injection Hv0 as <- <-.
  apply advance_some in Ha as (op & out & Hop & E & _).
  by destruct (od_frame _ _ (op_of _ _ Hop) _ _ _ E) as (_ & _ & ?).
Qed.

Lemma visit_below i n m st : visit i n = Some st → m ≤ n → ∃ st', visit i m = Some st'.
Proof.
  intros Hv Hle. revert st Hv. induction Hle as [|n Hle IH]; intros st Hv; [by exists st|].
  apply visit_succ in Hv as (st0 & Hv & _). by eapply IH.
Qed.

Lemma visit_mono i n m rs c rs' c' :
  index_wf i → visit i m = Some (rs, c) → visit i n = Some (rs', c') → m ≤ n →
  (ctx_next_command_id c ≤ ctx_next_command_id c')%Z.
Proof.
  intros Hwf Hm Hn Hle. revert rs' c' Hn. induction Hle as [|n Hle IH]; intros rs' c' Hn.
  - rewrite Hm in Hn. by injection Hn as <- <-.
  - destruct (visit_succ _ _ _ Hn) as ([rs0 c0] & Hn0 & _).
    pose proof (IH _ _ Hn0). pose proof (visit_next _ _ _ _ _ _ Hwf Hn0 Hn). lia.
Qed.

(** A state the replay does not go on from is the last one. *)
Lemma visit_last i n m st st' :
  visit i n = Some st → advance st = None → visit i m = Some st' → m ≤ n.
Proof.
  intros Hn Hs Hm. destruct (Nat.le_gt_cases m n) as [?|Hlt]; [done|].
  destruct (visit_below _ _ (S n) _ Hm Hlt) as [st1 H1]. apply visit_succ in H1 as (st0 & H0' & Ha).
  congruence.
Qed.

(** ** Safe indices *)
Definition all_below (i : HistoryIndex) (n : Z) : Prop :=
  ∀ id, is_Some (scheduled i !! id) → (id < n)%Z.

Record safe (i : HistoryIndex) : Prop := {
  safe_op n rs c op out c' : visit i n = Some (rs, c) → exec_request (co rs) = Some op →
    op c = (out, c') → nd out = false;
  safe_suspends n rs c op s c' : visit i n = Some (rs, c) → exec_request (co rs) = Some op →
    op c = (OSuspend s, c') → all_below i (ctx_next_command_id c');
  safe_return n rs c v : visit i n = Some (rs, c) → co rs = ReqReturn v →
    all_below i (ctx_next_command_id c)
}.

(** The states visited on [i] are visited on [i'], whose records of their
    identities are the same. *)
Record simulates (i i' : HistoryIndex) : Prop := {
  sim_wf : index_wf i;
  sim_ext : index_ext i i';
  sim_visit n rs c : visit i n = Some (rs, c) → visit i' n = Some (rs, reindex i' c);
  sim_agree n rs c : visit i n = Some (rs, c) → agree_below (ctx_next_command_id c) i i'
}.

Lemma simulates_refl i : index_wf i → simulates i i.
Proof.
  intros Hwf. split; [done|apply index_ext_refl| |done].
  intros n rs c Hv. destruct (visit_ok _ _ _ _ Hwf Hv) as (_ & <- & _). by rewrite reindex_id.
Qed.

Lemma simulates_trans i1 i2 i3 : simulates i1 i2 → simulates i2 i3 → simulates i1 i3.
Proof.
  intros [A1 A2 A3 A4] [B1 B2 B3 B4]. split; [done|by eapply index_ext_trans| |].
  - intros n rs c Hv. by apply A3, B3 in Hv.
  - intros n rs c Hv id Hid. rewrite (B4 _ _ _ (A3 _ _ _ Hv) id Hid). by apply (A4 _ _ _ Hv).
Qed.

(** ** Growth of an index *)

(** What was recorded since fits the replay on [i]: nothing below the
    identities of its visited states, and where it stopped only commands of the
    operation it stopped at. *)
Record grows_ok (i i' : HistoryIndex) : Prop := {
  gr_wf : index_wf i;
  gr_wf' : index_wf i';
  gr_ext : index_ext i i';
  gr_visited n rs c : visit i n = Some (rs, c) → agree_below (ctx_next_command_id c) i i';
  gr_stop n rs c op out c' : visit i n = Some (rs, c) → exec_request (co rs) = Some op →
    op c = (out, c') → ¬ live (survives (co rs)) out →
    agrees_op op c (ctx_next_command_id c') i' ∧
    (suspends out = true → all_below i' (ctx_next_command_id c'));
  gr_return n rs c v : visit i n = Some (rs, c) → co rs = ReqReturn v →
    all_below i' (ctx_next_command_id c)
}.

Lemma grows_visit i i' n rs c :
  grows_ok i i' → visit i n = Some (rs, c) → visit i' n = Some (rs, reindex i' c).
Proof.
  intros Hg. revert rs c. induction n as [|n IH]; intros rs c Hv.
  - injection Hv as <- <-. done.
  - pose proof Hv as Hv'. apply visit_succ in Hv as ([rs0 c0] & Hv & Ha).
    destruct (visit_ok _ _ _ _ (gr_wf _ _ Hg) Hv) as (Hok & Hh & _).
    apply advance_some in Ha as (op & out & Hop & E & Hl & Hnd & ->).
    simpl. rewrite (IH _ _ Hv). simpl.
    apply (advance_live _ _ op out); [done| |done|done].
    apply (od_stable _ _ (op_of _ _ Hop)); [done|done|done|rewrite Hh; apply Hg|].
    rewrite Hh. by apply (gr_visited _ _ Hg _ _ _ Hv').
Qed.

Lemma grows_simulates i i' : grows_ok i i' → simulates i i'.
Proof.
  intros Hg. split; [apply Hg|apply Hg| |].
  - intros n rs c. by apply grows_visit.
  - intros n rs c. by apply (gr_visited _ _ Hg).
Qed.

(** A context whose next identity is beyond everything recorded. *)
Definition fresh (c : WorkflowContext) : Prop :=
  all_below (ctx_history c) (ctx_next_command_id c).

Lemma fresh_op rs c op out c' :
  exec_request (co rs) = Some op → op c = (out, c') → ctx_ok c → fresh c →
  nd out = false ∧ fresh c'.
Proof.
  intros Hop E Hok Hf. pose proof (op_of _ _ Hop) as Hd.
  destruct (od_frame _ _ Hd _ _ _ E) as (Hh & _ & Hn). split.
  - apply (od_fresh _ _ Hd _ _ _ Hok E). intros id Hid.
    destruct (scheduled (ctx_history c) !! id) eqn:Hs; [|done].
    pose proof (Hf id ltac:(eauto)). lia.
  - intros id. rewrite Hh. intros Hs%Hf. lia.
Qed.

(** A state visited on [i'] was visited on [i], or is beyond what was recorded. *)
Lemma grows_classify i i' n rs c :
  safe i → grows_ok i i' → visit i' n = Some (rs, c) →
  (∃ c0, visit i n = Some (rs, c0) ∧ c = reindex i' c0) ∨ fresh c.
Proof.
  intros Hsafe Hg. revert rs c. induction n as [|n IH]; intros rs c Hv.
  - left. injection Hv as <- <-. by eexists.
  - apply visit_succ in Hv as ([rs0 c1] & Hv & Ha).
    destruct (visit_ok _ _ _ _ (gr_wf' _ _ Hg) Hv) as (Hok1 & Hh1 & _).
    apply advance_some in Ha as (op & out & Hop & E & Hl & Hnd & ->).
    pose proof (op_of _ _ Hop) as Hd. destruct (od_frame _ _ Hd _ _ _ E) as (Hh & _ & _).
    destruct (IH _ _ Hv) as [(c0 & Hv0 & ->)|Hf]; [|by right; eapply fresh_op].
    destruct (visit_ok _ _ _ _ (gr_wf _ _ Hg) Hv0) as (Hok0 & Hh0 & _).
    destruct (op c0) as [out0 c0'] eqn:E0.
    destruct (decide (live (survives (co rs0)) out0)) as [Hl0|Hl0].
    + left. pose proof (safe_op _ Hsafe _ _ _ _ _ _ Hv0 Hop E0) as Hnd0.
      pose proof (advance_live _ _ _ _ _ Hop E0 Hl0 Hnd0) as Ha0.
      assert (visit i (S n) = Some (rs0 ++ [response out0], c0')) as Hv0' by (simpl; by rewrite Hv0).
      pose proof (od_stable _ _ Hd _ _ _ i' Hok0 E0 Hl0) as Hst. rewrite Hh0 in Hst.
      rewrite Hst in E; [|apply Hg|by apply (gr_visited _ _ Hg _ _ _ Hv0')].
      injection E as <- <-. by exists c0'.
    + right. pose proof (safe_op _ Hsafe _ _ _ _ _ _ Hv0 Hop E0) as Hnd0.
      destruct (gr_stop _ _ Hg _ _ _ _ _ _ Hv0 Hop E0 Hl0) as [Hag Hbelow].
      destruct (od_pending _ _ Hd _ _ _ i' Hok0 E0 Hl0 Hnd0) as (out2 & c2 & E2 & _ & Hdead & Hnext);
        [apply Hg|rewrite Hh0; apply Hg|done|].
      rewrite E in E2. injection E2 as <- <-.
      destruct (suspends out0) eqn:Hs; [|by destruct (Hdead eq_refl)].
      unfold fresh. rewrite Hh, Hh1. rewrite (Hnext eq_refl (or_introl Hl)). by apply Hbelow.
Qed.

Lemma grows_safe i i' : safe i → grows_ok i i' → safe i'.
Proof.
  intros Hsafe Hg. split.
  - intros n rs c op out c' Hv Hop E. pose proof (op_of _ _ Hop) as Hd.
    destruct (visit_ok _ _ _ _ (gr_wf' _ _ Hg) Hv) as (Hok & Hh & _).
    destruct (grows_classify _ _ _ _ _ Hsafe Hg Hv) as [(c0 & Hv0 & ->)|Hf]; [|by eapply fresh_op].
    destruct (visit_ok _ _ _ _ (gr_wf _ _ Hg) Hv0) as (Hok0 & Hh0 & _).
    destruct (op c0) as [out0 c0'] eqn:E0.
    pose proof (safe_op _ Hsafe _ _ _ _ _ _ Hv0 Hop E0) as Hnd0.
    destruct (decide (live (survives (co rs)) out0)) as [Hl0|Hl0].
    + pose proof (advance_live _ _ _ _ _ Hop E0 Hl0 Hnd0) as Ha0.
      assert (visit i (S n) = Some (rs ++ [response out0], c0')) as Hv0' by (simpl; by rewrite Hv0).
      pose proof (od_stable _ _ Hd _ _ _ i' Hok0 E0 Hl0) as Hst. rewrite Hh0 in Hst.
      rewrite Hst in E; [|apply Hg|by apply (gr_visited _ _ Hg _ _ _ Hv0')]. by injection E as <- <-.
    + destruct (gr_stop _ _ Hg _ _ _ _ _ _ Hv0 Hop E0 Hl0) as [Hag _].
      destruct (od_pending _ _ Hd _ _ _ i' Hok0 E0 Hl0 Hnd0) as (out2 & c2 & E2 & Hnd2 & _);
        [apply Hg|rewrite Hh0; apply Hg|done|]. rewrite E in E2. by injection E2 as -> ->.
  - intros n rs c op s c' Hv Hop E. pose proof (op_of _ _ Hop) as Hd.
    destruct (visit_ok _ _ _ _ (gr_wf' _ _ Hg) Hv) as (Hok & Hh & _).
    destruct (od_frame _ _ Hd _ _ _ E) as (Hh' & _ & Hn).
    destruct (grows_classify _ _ _ _ _ Hsafe Hg Hv) as [(c0 & Hv0 & ->)|Hf].
    2:{ apply fresh_op with (rs := rs) (op := op) (out := OSuspend s) (c' := c') in Hf as [_ Hf]; try done.
        unfold fresh in Hf. by rewrite Hh', Hh in Hf. }
    destruct (visit_ok _ _ _ _ (gr_wf _ _ Hg) Hv0) as (Hok0 & Hh0 & _).
    destruct (op c0) as [out0 c0'] eqn:E0.
    pose proof (safe_op _ Hsafe _ _ _ _ _ _ Hv0 Hop E0) as Hnd0.
    destruct (decide (live (survives (co rs)) out0)) as [Hl0|Hl0].
    + exfalso. pose proof (advance_live _ _ _ _ _ Hop E0 Hl0 Hnd0) as Ha0.
      assert (visit i (S n) = Some (rs ++ [response out0], c0')) as Hv0' by (simpl; by rewrite Hv0).
      pose proof (od_stable _ _ Hd _ _ _ i' Hok0 E0 Hl0) as Hst. rewrite Hh0 in Hst.
      rewrite Hst in E; [|apply Hg|by apply (gr_visited _ _ Hg _ _ _ Hv0')]. injection E as -> <-.
      done.
    + destruct (gr_stop _ _ Hg _ _ _ _ _ _ Hv0 Hop E0 Hl0) as [Hag Hbelow].
      destruct (od_pending _ _ Hd _ _ _ i' Hok0 E0 Hl0 Hnd0) as (out2 & c2 & E2 & _ & Hdead & Hnext);
        [apply Hg|rewrite Hh0; apply Hg|done|]. rewrite E in E2. injection E2 as <- <-.
      destruct (suspends out0) eqn:Hs; [|by destruct (Hdead eq_refl)].
      rewrite (Hnext eq_refl (or_intror eq_refl)). by apply Hbelow.
  - intros n rs c v Hv Hret.
    destruct (visit_ok _ _ _ _ (gr_wf' _ _ Hg) Hv) as (Hok & Hh & _).
    destruct (grows_classify _ _ _ _ _ Hsafe Hg Hv) as [(c0 & Hv0 & ->)|Hf].
    + by apply (gr_return _ _ Hg _ _ _ _ Hv0 Hret).
    + unfold fresh in Hf. by rewrite Hh in Hf.
Qed.

End one_function.
End determinism.
