(* ===== verification/Versions.v ===== *)
(** * The versions of the history of one execution

    Workflow code is replayed on every version of its history: the first one
    holds the start, outcomes and messages extend it, and so do the commands of
    a replay -- of the version a worker leased, not necessarily the latest.
    [versions_inv]: the latest version is safe, and simulates the earlier ones. *)
From S2P Require Import Prelude Python Serialization History HistoryTheory Commands Context.
From S2P Require Import Durability Operations Calls Replay Requests Determinism.

(** ** What a suffix does to the scheduled commands *)
Section recorded.
Context `{PyStd}.

Definition recorded_at (cs : list Command) (i i' : HistoryIndex) (id : Z) : Prop :=
  scheduled i' !! id = scheduled i !! id ∨
  (scheduled i !! id = None ∧
   ∃ k e, k ∈ cs ∧ cmd_command_id k = id ∧ scheduled i' !! id = Some e ∧ records k e).

Lemma records_schedules k e : records k e → SCHEDULE_EVENT_TYPES (event_type e) = true.
Proof. intros [-> _ _ _ _]. by destruct k. Qed.

Lemma build_commands cs es h i i' :
  h ≠ [] → build_index h = Ok i → Forall2 records cs es → build_index (h ++ es) = Ok i' →
  (∀ id, recorded_at cs i i' id) ∧ (∀ k, k ∈ cs → scheduled i !! cmd_command_id k = None).
Proof.
  intros Hne Hi. revert cs i'. induction es as [|e es IH] using rev_ind; intros cs i' Hr Hb.
  { apply Forall2_nil_inv_r in Hr as ->. rewrite app_nil_r in Hb. rewrite Hi in Hb. injection Hb as <-.
    split; [by left|by intros k ?%not_elem_of_nil]. }
  apply Forall2_app_inv_r in Hr as (cs' & ks & Hr & Hk & ->).
  apply Forall2_cons_inv_r in Hk as (k & ks' & Hke & ->%Forall2_nil_inv_r & ->).
  rename cs' into cs. rewrite (assoc_L (++)) in Hb.
  apply build_index_snoc in Hb as (i1 & Hb & Hix); [|by destruct h].
  destruct (IH _ _ Hr Hb) as [Hrec Hnone]. pose proof (ix_scheduled _ _ _ Hix) as Hs.
  rewrite (records_schedules _ _ Hke) in Hs. destruct Hs as (c & Hc & Hc1 & Hs).
  rewrite (rec_command _ _ Hke) in Hc. injection Hc as <-.
  assert (scheduled i !! cmd_command_id k = None) as Hk0.
  { by destruct (Hrec (cmd_command_id k)) as [<-|[? _]]. }
  split.
  - intros id. unfold recorded_at. rewrite Hs. destruct (decide (id = cmd_command_id k)) as [->|Hne'].
    + right. split; [done|]. exists k, e. rewrite lookup_insert_eq. split_and!; try done.
      apply elem_of_app. right. by apply list_elem_of_singleton.
    + rewrite lookup_insert_ne by done.
      destruct (Hrec id) as [?|(? & k' & e' & ? & ?)]; [by left|right]. split; [done|].
      exists k', e'. split; [apply elem_of_app; by left|done].
  - intros k' [?| ->%list_elem_of_singleton]%elem_of_app; [by apply Hnone|done].
Qed.
End recorded.

(** ** Fuel *)
Section fuel.
Context `{PyStd} (co : list Response → Request).

Lemma run_step fuel rs c op :
  exec_request (co rs) = Some op →
  run (S fuel) co rs c =
    match op c with
    | (OReturn a, c) => run fuel co (rs ++ [a]) c
    | (ORaise e, c) => run fuel co (rs ++ [RExn e]) c
    | (OSuspend s, c) => Some (SuspendedBy s, c)
    end.
Proof. cbn [run]. destruct (co rs); intros Hop; try done; by rewrite Hop. Qed.

Lemma run_end rs c :
  exec_request (co rs) = None → ∃ end_, ∀ fuel, run (S fuel) co rs c = Some (end_, c).
Proof. cbn [run]. destruct (co rs); intros Hop; try done; by eexists. Qed.

Lemma fuel_mono fuel fuel' rs c r :
  run fuel co rs c = Some r → fuel ≤ fuel' → run fuel' co rs c = Some r.
Proof.
  revert fuel' rs c. induction fuel as [|fuel IH]; intros [|fuel'] rs c Hr Hle; [done|done|lia|].
  destruct (exec_request (co rs)) as [op|] eqn:Hop.
  - rewrite (run_step _ _ _ _ Hop) in Hr; rewrite (run_step _ _ _ _ Hop). destruct (op c) as [[a|e|s] c1]; [..|done];
      (apply IH; [done|lia]).
  - destruct (run_end rs c Hop) as [end_ He]. by rewrite He in Hr; rewrite He.
Qed.

Lemma fuel_enough fuel N rs c :
  (∀ rs, N ≤ length rs → exec_request (co rs) = None) → N < length rs + fuel →
  length rs ≤ N → is_Some (run fuel co rs c).
Proof.
  intros HN. revert rs c. induction fuel as [|fuel IH]; intros rs c Hf Hle; [lia|].
  destruct (exec_request (co rs)) as [op|] eqn:Hop.
  - assert (length rs < N).
    { destruct (Nat.lt_ge_cases (length rs) N) as [?|Hge]; [done|]. by rewrite (HN _ Hge) in Hop. }
    rewrite (run_step _ _ _ _ Hop).
    destruct (op c) as [[a|e|s] c1]; [..|by eexists]; (apply IH; rewrite length_app; simpl; lia).
  - destruct (run_end rs c Hop) as [end_ ->]. by eexists.
Qed.
End fuel.

Section versions.
Context `{PyStdLaws}.
Context (function : Coroutine) (w : UUID) (workflow_input : JSON).

(** The versions of a history, the latest first. *)
Inductive versions : list (list HistoryEvent) → Prop :=
| versions_start e i :
    SCHEDULE_EVENT_TYPES (event_type e) = false → build_index [e] = Ok i → versions [[e]]
| versions_event hs h e i :
    versions (h :: hs) → SCHEDULE_EVENT_TYPES (event_type e) = false →
    build_index (h ++ [e]) = Ok i → versions ((h ++ [e]) :: h :: hs)
| versions_commit hs h h0 fuel res es i :
    versions (h :: hs) → h0 ∈ h :: hs →
    replay_workflow fuel function w workflow_input h0 = Some (Ok res) →
    Forall2 records (rr_commands res) es → build_index (h ++ es) = Ok i →
    versions ((h ++ es) :: h :: hs).

(** ** The function on its input *)
Section body.
Context (input : JSON) (Hinput : clone_json workflow_input = Ok input).
Let co := function input.
Context (Hco : disciplined co).

(** How a run from a visited state ends. *)
Inductive ends_at (i : HistoryIndex) : RunEnd → WorkflowContext → Prop :=
| ends_return n rs c v : visit co w i n = Some (rs, c) → co rs = ReqReturn v →
    ends_at i (Returned v) c
| ends_raise e c : nondet e = false → ends_at i (Raised e) c
| ends_suspend n rs c op s c' : visit co w i n = Some (rs, c) →
    exec_request (co rs) = Some op → op c = (OSuspend s, c') → ends_at i (SuspendedBy s) c'.

Lemma run_ends i fuel n rs c end_ c' :
  index_wf i → safe co w i → visit co w i n = Some (rs, c) →
  run fuel co rs c = Some (end_, c') → ends_at i end_ c'.
Proof.
  intros Hwf Hsafe. revert n rs c. induction fuel as [|fuel IH]; intros n rs c Hv; [done|].
  destruct (visit_ok _ Hco _ _ _ _ _ Hwf Hv) as (_ & _ & _ & Hn).
  destruct (exec_request (co rs)) as [op|] eqn:Hop.
  - rewrite (run_step _ _ _ _ _ Hop). destruct (op c) as [out c1] eqn:E.
    pose proof (safe_op _ _ _ Hsafe _ _ _ _ _ _ Hv Hop E) as Hnd.
    destruct (decide (live (survives (co rs)) out)) as [Hl|Hl].
    + assert (visit co w i (S n) = Some (rs ++ [response out], c1)) as Hv'.
      { simpl. rewrite Hv. by apply (advance_live _ _ _ op out). }
      destruct out as [a|e|s]; [by apply (IH _ _ _ Hv')..|done].
    + destruct out as [a|e|s]; [by destruct Hl| |].
      * destruct (co rs) as [| |refs| | | | | | | | | | | | | |] eqn:Hr; try by destruct Hl.
        destruct (dis_gather _ Hco rs refs e Hr) as [e' He'].
        destruct fuel as [|fuel]; [done|]. cbn [run]. rewrite He'. intros [= <- <-].
        apply ends_raise, (dis_raise _ Hco (rs ++ [RExn e])); [|done].
        intros x [Hx|Hx%list_elem_of_singleton]%elem_of_app; [by apply Hn|by injection Hx as ->].
      * intros [= <- <-]. by apply (ends_suspend _ n rs c op).
  - simpl. destruct (co rs) eqn:Hr; try done; intros [= <- <-].
    + by apply (ends_return _ n rs).
    + by apply ends_raise, (dis_raise _ Hco rs).
Qed.

Lemma run_start i fuel end_ c' :
  index_wf i → safe co w i → run fuel co [] (init_context w i) = Some (end_, c') → ends_at i end_ c'.
Proof. intros Hwf Hs. by apply (run_ends i fuel 0). Qed.

(** ** Growth by an outcome or a message *)
Lemma event_grows i e i' :
  index_wf i → safe co w i → events i ≠ [] → index_wf i' → indexed i e i' →
  SCHEDULE_EVENT_TYPES (event_type e) = false → grows_ok co w i i'.
Proof.
  intros Hwf Hs Hne Hwf' Hix He. pose proof (ix_scheduled _ _ _ Hix) as Hsch. rewrite He in Hsch.
  split; [done|done|by eapply indexed_ext| | |].
  - intros n rs c _ id _. by rewrite Hsch.
  - intros n rs c op out c' Hv Hop E _. split.
    + intros id _. left. destruct (visit_ok _ Hco _ _ _ _ _ Hwf Hv) as (_ & -> & _). by rewrite Hsch.
    + intros Hx. destruct out as [| |s]; try done. intros id. rewrite Hsch. by eapply safe_suspends.
  - intros n rs c v Hv Hr id. rewrite Hsch. by eapply safe_return.
Qed.

Lemma grows_ok_refl i : index_wf i → safe co w i → grows_ok co w i i.
Proof.
  intros Hwf Hs. split; [done|done|apply index_ext_refl|done| |by eapply safe_return].
  intros n rs c op out c' Hv Hop E _. split.
  - intros id _. left. destruct (visit_ok _ Hco _ _ _ _ _ Hwf Hv) as (_ & -> & _). done.
  - intros Hx. destruct out as [| |s]; try done. by eapply safe_suspends.
Qed.

(** ** Growth by the commands of a replay of an earlier version *)
Section commit.
Context (i0 i i' : HistoryIndex) (n : nat) (rs : list Response) (c c' : WorkflowContext).
Context (op : Ctx Response) (s : Suspended).
Context (Hwf : index_wf i) (Hsafe : safe co w i) (Hwf' : index_wf i') (Hext : index_ext i i').
Context (Hsim : simulates co w i0 i) (Hv : visit co w i0 n = Some (rs, c)).
Context (Hop : exec_request (co rs) = Some op) (E : op c = (OSuspend s, c')).
Context (Hrec : ∀ id, recorded_at (emitted s) i i' id).
Context (Hnew : ∀ k, k ∈ emitted s → scheduled i !! cmd_command_id k = None).

Let Hd : op_durable (survives (co rs)) op := op_of _ Hco _ _ Hop.
Let Hwf0 : index_wf i0 := sim_wf _ _ _ _ Hsim.

Lemma commit_ctx : ctx_ok c ∧ ctx_history c = i0.
Proof. destruct (visit_ok _ Hco _ _ _ _ _ Hwf0 Hv) as (? & ? & _). done. Qed.

Lemma commit_visited : visit co w i n = Some (rs, reindex i c).
Proof. by apply (sim_visit _ _ _ _ Hsim). Qed.

Lemma commit_emits k : k ∈ emitted s →
  (ctx_next_command_id c ≤ cmd_command_id k < ctx_next_command_id c')%Z.
Proof. intros Hk. by destruct (od_emits _ _ Hd _ _ _ _ (proj1 commit_ctx) E Hk) as [? _]. Qed.

(** The latest version has nothing of the operation but what the leased one had. *)
Lemma commit_agrees : agree_below (ctx_next_command_id c') i0 i.
Proof.
  intros id Hid. destruct (decide (id < ctx_next_command_id c)%Z) as [Hlt|Hge].
  { by apply (sim_agree _ _ _ _ Hsim _ _ _ Hv). }
  destruct (scheduled i0 !! id) as [x|] eqn:Hx.
  { apply (lookup_weaken _ _ _ _ Hx), (ext_scheduled _ _ (sim_ext _ _ _ _ Hsim)). }
  destruct commit_ctx as [Hok Hh].
  destruct (od_covers _ _ Hd _ _ _ id Hok E) as (k & Hk & <-); [lia|by rewrite Hh|]. by apply Hnew.
Qed.

(** Replaying the latest version suspends in the same way, or fails. *)
Lemma commit_stops : emitted s ≠ [] →
  op (reindex i c) = (OSuspend s, reindex i c') ∨
  ∃ out2 c2, op (reindex i c) = (out2, c2) ∧ suspends out2 = false ∧ ¬ live (survives (co rs)) out2.
Proof.
  intros Hne. destruct commit_ctx as [Hok Hh].
  apply (od_same _ _ Hd _ _ _ _ Hok E Hne); rewrite Hh; [apply Hsim|apply commit_agrees].
Qed.

Lemma commit_stuck : emitted s ≠ [] → advance co (rs, reindex i c) = None.
Proof.
  intros [E'|(out2 & c2 & E' & _ & Hl)]%commit_stops; (eapply advance_stuck; [done..|]); by try intros [].
Qed.

Lemma commit_last m st : emitted s ≠ [] → visit co w i m = Some st → m ≤ n.
Proof. intros Hne. eapply visit_last; [apply commit_visited|by apply commit_stuck]. Qed.

(** The state the latest version stops at is the one the commands are of. *)
Lemma commit_unique m st :
  emitted s ≠ [] → visit co w i m = Some st → advance co st = None → m = n.
Proof.
  intros Hne Hm Hst. apply Nat.le_antisymm; [by eapply commit_last|].
  eapply visit_last; [done|done|apply commit_visited].
Qed.

Lemma commit_grows : emitted s ≠ [] → grows_ok co w i i'.
Proof.
  intros Hne. destruct commit_ctx as [Hok Hh]. split; [done..| | |].
  - intros m rs1 c1 Hm id Hid. destruct (Hrec id) as [?|(_ & k & e & Hk & <- & _)]; [done|].
    pose proof (commit_last _ _ Hne Hm) as Hle.
    pose proof (visit_mono _ Hco _ _ _ _ _ _ _ _ Hwf Hm commit_visited Hle).
    pose proof (commit_emits _ Hk). simpl in *. lia.
  - intros m rs1 c1 op1 out c1' Hm Hop1 E1 Hl.
    assert (m = n) as -> by (eapply commit_unique; [done|done|by eapply advance_stuck]).
    rewrite commit_visited in Hm. injection Hm as <- <-. rewrite Hop in Hop1. injection Hop1 as <-.
    split.
    + intros id Hid. cbn [reindex ctx_history].
      destruct (Hrec id) as [?|(Hi & k & e & Hk & Hki & He & Hke)]; [by left|right]. split; [done|].
      assert (reindex i0 (reindex i c) = c) as Hc by (destruct c; simpl in *; by subst).
      exists i0, s, c', k, e. rewrite Hc. split_and!; try done. apply Hsim.
    + intros Hs id [x Hx]. destruct (commit_stops Hne) as [E'|(out2 & c2 & E' & Hs2 & _)];
        rewrite E' in E1; injection E1 as <- <-; [|congruence].
      destruct (Hrec id) as [Heq|(_ & k & e & Hk & <- & _)]; [|by apply commit_emits].
      rewrite Heq in Hx. eapply (safe_suspends _ _ _ Hsafe); [apply commit_visited|done|done|by exists x].
  - intros m rs1 c1 v Hm Hr. exfalso.
    assert (m = n) as -> by (eapply commit_unique; [done|done|unfold advance; by rewrite Hr]).
    rewrite commit_visited in Hm. injection Hm as <- <-. pose proof Hop as Hop1. by rewrite Hr in Hop1.
Qed.

(** The function on the latest version emits the same commands, or ends with
    an exception. *)
Lemma commit_repeats fuel end_ c2 :
  emitted s ≠ [] → run fuel co [] (init_context w i) = Some (end_, c2) →
  end_ = SuspendedBy s ∨ ∃ e, end_ = Raised e ∧ nondet e = false.
Proof.
  intros Hne Hr. destruct (run_start _ _ _ _ Hwf Hsafe Hr) as [m rs1 c1 v Hm Hret|e c1 Hnd|m rs1 c1 op1 s1 c1' Hm Hop1 E1].
  - exfalso. assert (m = n) as -> by (eapply commit_unique; [done|done|unfold advance; by rewrite Hret]).
    rewrite commit_visited in Hm. injection Hm as <- <-. pose proof Hop as Hop'. by rewrite Hret in Hop'.
  - right. by exists e.
  - left. assert (m = n) as ->.
    { eapply commit_unique; [done|done|]. eapply advance_stuck; [done|done|by intros []]. }
    rewrite commit_visited in Hm. injection Hm as <- <-. rewrite Hop in Hop1. injection Hop1 as <-.
    destruct (commit_stops Hne) as [E'|(out2 & c3 & E' & Hs & _)]; rewrite E' in E1.
    + by injection E1 as <- <-.
    + by injection E1 as -> ->.
Qed.
End commit.

(** ** The invariant of the versions *)
Record versions_ok (h : list HistoryEvent) (hs : list (list HistoryEvent)) : Prop := {
  vo_nonempty : h ≠ [];
  vo_safe h0 i : h0 ∈ h :: hs → build_index h0 = Ok i → safe co w i;
  vo_build h0 : h0 ∈ h :: hs → ∃ i0, build_index h0 = Ok i0;
  vo_simulates h0 i0 i : h0 ∈ h :: hs → build_index h0 = Ok i0 → build_index h = Ok i →
    simulates co w i0 i
}.

Lemma start_safe e i :
  SCHEDULE_EVENT_TYPES (event_type e) = false → build_index [e] = Ok i → safe co w i.
Proof.
  intros He Hb. pose proof (build_index_wf _ _ Hb) as [Hwf _].
  assert (scheduled i = ∅) as Hs.
  { apply build_index_foldM in Hb as [_ Hf]. simpl in Hf.
    destruct (index_event empty_index e) as [i1|] eqn:Hx; [|done]. injection Hf as <-.
    apply index_event_indexed, ix_scheduled in Hx. by rewrite He in Hx. }
  assert (∀ z, all_below i z) as Hall.
  { intros z id [x Hx]. by rewrite Hs, lookup_empty in Hx. }
  split; [|intros; apply Hall..].
  intros n rs c op out c' Hv Hop E.
  destruct (visit_ok _ Hco _ _ _ _ _ Hwf Hv) as (Hok & Hh & _).
  eapply (fresh_op _ Hco); [done|done|done|]. unfold fresh. rewrite Hh. apply Hall.
Qed.

Lemma versions_grow h hs h' i i' :
  versions_ok h hs → h' ≠ [] → build_index h = Ok i → build_index h' = Ok i' →
  grows_ok co w i i' → versions_ok h' (h :: hs).
Proof.
  intros Hok Hne Hi Hi' Hg. pose proof (vo_safe _ _ Hok _ _ (list_elem_of_here _ _) Hi) as Hs. split; [done|..].
  - intros h0 j [->|Hin]%elem_of_cons Hj; [|by apply (vo_safe _ _ Hok h0)].
    rewrite Hi' in Hj. injection Hj as <-. by apply (grows_safe _ Hco _ i).
  - intros h0 [->|Hin]%elem_of_cons; [by eexists|by apply (vo_build _ _ Hok)].
  - intros h0 i0 j Hin H0' Hj. rewrite Hi' in Hj. injection Hj as <-.
    apply elem_of_cons in Hin as [->|Hin].
    + rewrite Hi' in H0'. injection H0' as <-. apply (simulates_refl _ Hco), Hg.
    + apply (simulates_trans _ _ _ i); [by apply (vo_simulates _ _ Hok h0)|].
      by apply (grows_simulates _ Hco).
Qed.

Lemma replay_commands fuel h i res :
  build_index h = Ok i → safe co w i →
  replay_workflow fuel function w workflow_input h = Some (Ok res) → rr_commands res ≠ [] →
  ∃ n rs c op s c', visit co w i n = Some (rs, c) ∧ exec_request (co rs) = Some op ∧
    op c = (OSuspend s, c') ∧ emitted s = rr_commands res.
Proof.
  intros Hb Hs. unfold replay_workflow. rewrite Hb, Hinput.
  destruct (run fuel _ _ _) as [[end_ c']|] eqn:Hr; [|done]. intros Hf Hne. injection Hf as Hf.
  destruct (build_index_wf _ _ Hb) as [Hwf _].
  destruct (run_start _ _ _ _ Hwf Hs Hr) as [n rs c v Hv Hret|e c Hnd|n rs c op s c' Hv Hop E].
  - exfalso. simpl in Hf. case_match; [by case_match|].
    destruct (clone_json v); [|done]. injection Hf as <-. done.
  - exfalso. destruct e; try done; injection Hf as <-; done.
  - exists n, rs, c, op, s, c'. split_and!; try done.
    destruct s; injection Hf as <-; done.
Qed.

Lemma versions_inv h hs : versions (h :: hs) → versions_ok h hs.
Proof.
  intros Hv. remember (h :: hs) as l eqn:Hl. revert h hs Hl.
  induction Hv as [e i He Hb|hs h e i Hv IH He Hb|hs h h0 fuel res es i Hv IH Hin Hr Hes Hb];
    intros h1 hs1 [= <- <-].
  - split; [done|intros h0 j ->%list_elem_of_singleton Hj; by eapply start_safe|..].
    + intros h0 ->%list_elem_of_singleton. by exists i.
    + intros h0 i0 j ->%list_elem_of_singleton Hi0 Hj. rewrite Hi0 in Hj. injection Hj as <-.
      apply (simulates_refl _ Hco). by apply build_index_wf in Hi0 as [? _].
  - specialize (IH _ _ eq_refl). pose proof (vo_nonempty _ _ IH) as Hne.
    pose proof Hb as Hb'. apply build_index_snoc in Hb' as (j & Hj & Hix); [|done].
    eapply versions_grow; [done|by destruct h|done|done|].
    pose proof (build_index_wf _ _ Hj) as [Hwf Hev].
    eapply event_grows; [done| |by rewrite Hev|by apply build_index_wf in Hb as [? _]|done|done].
    eapply vo_safe; [done|apply list_elem_of_here|done].
  - specialize (IH _ _ eq_refl). pose proof (vo_nonempty _ _ IH) as Hne.
    destruct (build_index_app _ _ _ Hne Hb) as (j & Hj & Hext).
    pose proof (build_index_wf _ _ Hj) as [Hwf Hev]. pose proof (build_index_wf _ _ Hb) as [Hwf' _].
    eapply versions_grow; [done|by destruct h|done|done|].
    destruct (build_commands _ _ _ _ _ Hne Hj Hes Hb) as [Hrec Hnew].
    destruct (vo_build _ _ IH _ Hin) as [i0 Hi0]. pose proof (vo_simulates _ _ IH _ _ _ Hin Hi0 Hj) as Hsim.
    pose proof (vo_safe _ _ IH _ _ (list_elem_of_here _ _) Hj) as Hsafe.
    destruct (decide (rr_commands res = [])) as [Hnil|Hcs].
    + rewrite Hnil in Hes. apply Forall2_nil_inv_l in Hes as ->. rewrite app_nil_r in Hb.
      rewrite Hj in Hb. injection Hb as <-. by apply grows_ok_refl.
    + destruct (replay_commands _ _ _ _ Hi0 (vo_safe _ _ IH _ _ Hin Hi0) Hr Hcs)
        as (n & rs & c & op & s & c' & Hv0 & Hop & E & Hs).
      rewrite <- Hs in *. by apply (commit_grows i0 j i n rs c c' op s).
Qed.

Lemma run_visit i n k st :
  visit co w i n = Some st → run (n + k) co [] (init_context w i) = run k co st.1 st.2.
Proof.
  revert k st. induction n as [|n IH]; intros k [rs c] Hv.
  - by injection Hv as <- <-.
  - apply visit_succ in Hv as ([rs0 c0] & Hv & Ha).
    replace (S n + k) with (n + S k) by lia. rewrite (IH _ _ Hv). cbn [fst snd].
    apply advance_some in Ha as (op & out & Hop & E & Hl & _ & ->).
    rewrite (run_step _ _ _ _ _ Hop), E. by destruct out.
Qed.

(** The run reached every state it visits. *)
Lemma run_reaches i fuel n st r :
  run fuel co [] (init_context w i) = Some r → visit co w i n = Some st → n < fuel.
Proof.
  intros Hr Hv. destruct (Nat.lt_ge_cases n fuel) as [?|Hge]; [done|exfalso].
  destruct (visit_below _ _ _ _ fuel _ Hv Hge) as [st0 H0'].
  pose proof (run_visit _ _ 0 _ H0') as Hz. rewrite Nat.add_0_r in Hz. by rewrite Hr in Hz.
Qed.

(** A run the function returned from returns on every index that simulates it. *)
Lemma run_simulated i i' fuel v c' :
  index_wf i → safe co w i → simulates co w i i' →
  run fuel co [] (init_context w i) = Some (Returned v, c') →
  run fuel co [] (init_context w i') = Some (Returned v, reindex i' c').
Proof.
  intros Hwf Hs Hsim Hr. pose proof (run_start _ _ _ _ Hwf Hs Hr) as He.
  inversion He as [n rs c v0 Hv Hret| |]; subst. pose proof (run_reaches _ _ _ _ _ Hr Hv).
  apply (sim_visit _ _ _ _ Hsim) in Hv. replace fuel with (n + S (fuel - S n)) by lia.
  rewrite (run_visit _ _ _ _ Hv). cbn [run fst snd]. by rewrite Hret.
Qed.

End body.

Lemma versions_build hs h : versions hs → h ∈ hs → ∃ i, build_index h = Ok i.
Proof.
  induction 1 as [e i He Hb|hs h1 e i Hv IH He Hb|hs h1 h0 fuel res es i Hv IH Hin Hr Hes Hb].
  - intros ->%list_elem_of_singleton. by exists i.
  - intros [->|?]%elem_of_cons; [by exists i|by apply IH].
  - intros [->|?]%elem_of_cons; [by exists i|by apply IH].
Qed.

Lemma finish_raised i e c : nondet e = false → finish i (Raised e) c = Ok (failed_result e).
Proof. by destruct e. Qed.

Lemma first_unvisited_none i n : all_below i n → first_unvisited_command i n = None.
Proof.
  intros Hall. unfold first_unvisited_command.
  destruct (filter _ _) as [|[id e] l] eqn:Hf; [done|exfalso].
  assert ((id, e) ∈ filter (fun kv : Z * HistoryEvent => (n ≤ kv.1)%Z) (map_to_list (scheduled i)))
    as [Hle Hin]%list_elem_of_filter by (rewrite Hf; apply list_elem_of_here).
  apply elem_of_map_to_list in Hin. pose proof (Hall id ltac:(eauto)). simpl in *. lia.
Qed.

(** Workflow code is disciplined on its input. *)
Definition disciplined_input : Prop :=
  ∀ input, clone_json workflow_input = Ok input → disciplined (function input).

(** What a replay of a version is. *)
Lemma replay_version fuel h i r :
  build_index h = Ok i → (∀ input, clone_json workflow_input = Ok input → safe (function input) w i) →
  disciplined_input → replay_workflow fuel function w workflow_input h = Some r →
  ∀ c d, r ≠ Err (NonDeterminismError c d).
Proof.
  intros Hb Hsafe Hco Hr c d ->. revert Hr. unfold replay_workflow. rewrite Hb.
  destruct (clone_json workflow_input) as [input|e] eqn:Hin.
  - destruct (run fuel _ _ _) as [[end_ c']|] eqn:Hrun; [|done]. intros Hf. injection Hf as Hf.
    destruct (build_index_wf _ _ Hb) as [Hwf _].
    destruct (run_start _ (Hco _ Hin) _ _ _ _ Hwf (Hsafe _ eq_refl) Hrun)
      as [n rs c1 v Hv Hret|e c1 Hnd|n rs c1 op s c1' Hv Hop E].
    + cbn [finish] in Hf. rewrite first_unvisited_none in Hf by (eapply safe_return; [by apply (Hsafe input)|done..]).
      unfold mbind, Result_bind in Hf. destruct (clone_json v) eqn:Hc; [done|].
      injection Hf as ->. by apply clone_json_nd in Hc.
    + by rewrite finish_raised in Hf.
    + by destruct s.
  - pose proof (clone_json_nd _ _ Hin) as He. rewrite (finish_raised _ _ _ He). done.
Qed.

Lemma versions_replay hs h fuel r :
  disciplined_input → versions hs → h ∈ hs →
  replay_workflow fuel function w workflow_input h = Some r →
  ∀ c d, r ≠ Err (NonDeterminismError c d).
Proof.
  intros Hco Hvs Hin. destruct (versions_build _ _ Hvs Hin) as [i Hi].
  apply (replay_version _ _ i); [done| |done]. intros input Hinput.
  destruct hs as [|h1 hs]; [by apply not_elem_of_nil in Hin|].
  by apply (vo_safe _ _ _ (versions_inv _ Hinput (Hco _ Hinput) _ _ Hvs) _ _ Hin).
Qed.


(** The function returned [v] on history [h]. *)
Definition returned (fuel : nat) (h : list HistoryEvent) (v : JSON) : Prop :=
  ∃ input i c, clone_json workflow_input = Ok input ∧ build_index h = Ok i ∧
    run fuel (function input) [] (init_context w i) = Some (Returned v, c).


(** A replay of the latest version repeats an earlier one: while none of the
    commands an earlier replay emitted is recorded, it emits the same commands,
    or the workflow fails. *)
Theorem replay_repeats hs h h0 i fuel fuel' res res' :
  disciplined_input → versions (h :: hs) → h0 ∈ h :: hs →
  replay_workflow fuel function w workflow_input h0 = Some (Ok res) → rr_commands res ≠ [] →
  build_index h = Ok i → (∀ k, k ∈ rr_commands res → scheduled i !! cmd_command_id k = None) →
  replay_workflow fuel' function w workflow_input h = Some (Ok res') →
  rr_commands res' = rr_commands res ∨ rr_status res' = FAILED.
Proof.
  intros Hco Hvs Hin Hr Hne Hi Hnew Hr'. destruct (versions_build _ _ Hvs Hin) as [i0 Hi0].
  destruct (clone_json workflow_input) as [input|e] eqn:Hinput.
  2:{ exfalso. unfold replay_workflow in Hr. rewrite Hi0, Hinput in Hr.
      rewrite finish_raised in Hr by (by eapply clone_json_nd). by injection Hr as <-. }
  pose proof (versions_inv _ Hinput (Hco _ Hinput) _ _ Hvs) as Hok.
  destruct (build_index_wf _ _ Hi) as [Hwf _].
  pose proof (vo_safe _ _ _ Hok _ _ Hin Hi0) as Hs0.
  pose proof (vo_safe _ _ _ Hok _ _ (list_elem_of_here _ _) Hi) as Hs.
  destruct (replay_commands _ Hinput (Hco _ Hinput) _ _ _ _ Hi0 Hs0 Hr Hne)
    as (n & rs & c & op & s & c' & Hv & Hop & E & Hcs).
  rewrite <- Hcs in *. unfold replay_workflow in Hr'. rewrite Hi, Hinput in Hr'.
  destruct (run fuel' _ _ _) as [[end_ c2]|] eqn:Hrun; [|done].
  destruct (commit_repeats _ (Hco _ Hinput) i0 i n rs c c' op s Hwf Hs
    (vo_simulates _ _ _ Hok _ _ _ Hin Hi0 Hi) Hv Hop E Hnew _ _ _ Hne Hrun) as [->|(e & -> & He)].
  - left. destruct s; [|done..]. by injection Hr' as <-.
  - right. rewrite finish_raised in Hr' by done. by injection Hr' as <-.
Qed.


End versions.
