(* ===== verification/Waiting.v ===== *)
(** * A replay that waits keeps waiting

    The events that replay reacts to are the [rousing] ones: outcomes, messages
    and the commands whose result is there at once.  Activities, timers and
    children that started, attempts that will be retried, and pauses are not.
    When a replay suspended, its commands were recorded and nothing rousing
    happened since, the next replay is blocked -- unless it waits with a timeout
    for a signal that had been received before. *)
From S2P Require Import Prelude Python Serialization History HistoryTheory Commands Context.
From S2P Require Import Durability Operations Calls Replay Requests Determinism Versions.

(** The events a replay reacts to. *)
Definition rousing (e : HistoryEvent) : bool :=
  match event_type e with
  | ActivityScheduled | ActivityStarted | TimerStarted | ChildWorkflowStarted
  | WorkflowExecutionPaused | WorkflowExecutionResumed => false
  | ActivityFailed | ActivityTimedOut => is_final_attr e
  | _ => true
  end.

(** ** The entities of an index *)

(** The table of entities is the one of the scheduled commands, by entity, and
    only entities that were scheduled have ended. *)
Record linked (i : HistoryIndex) : Prop := {
  lk_entity c e n : scheduled i !! c = Some e → entity_id e = Some n →
    scheduled_entities i !! n = Some e;
  lk_scheduled n e : scheduled_entities i !! n = Some e → ∃ c, scheduled i !! c = Some e;
  lk_activity n : is_Some (activity_terminal i !! n) → is_Some (scheduled_entities i !! n);
  lk_timer n : is_Some (timer_terminal i !! n) → is_Some (scheduled_entities i !! n);
  lk_child n : is_Some (child_terminal i !! n) → is_Some (scheduled_entities i !! n)
}.

(** No outcome and no message tells [i'] from [i]. *)
Record still (i i' : HistoryIndex) : Prop := {
  sl_activity : activity_terminal i' = activity_terminal i;
  sl_timer : timer_terminal i' = timer_terminal i;
  sl_child : child_terminal i' = child_terminal i;
  sl_signals : signals i' = signals i;
  sl_updates : updates i' = updates i
}.

#[export] Instance still_preorder : PreOrder still.
Proof. split; [by intros i|]. intros i1 i2 i3 [] []. split; congruence. Qed.

(** What indexing an event does to the entities. *)
Record link_step (e : HistoryEvent) (i i' : HistoryIndex) : Prop := {
  ls_linked : linked i → linked i';
  ls_entities : scheduled_entities i ⊆ scheduled_entities i';
  ls_still : rousing e = false → still i i'
}.

#[export] Instance link_step_preorder e : PreOrder (link_step e).
Proof.
  split; [by intros i|]. intros i1 i2 i3 [] []. split; [auto|by etrans|]. intros ?. etrans; auto.
Qed.

(** A stage that touches none of these tables. *)
Lemma link_same e i i' :
  scheduled i' = scheduled i → scheduled_entities i' = scheduled_entities i → still i i' →
  link_step e i i'.
Proof.
  intros Hs He Hst. split; [|by rewrite He|done]. destruct Hst as [H1 H2 H3 _ _].
  intros [L1 L2 L3 L4 L5].
  split; rewrite ?Hs, ?He, ?H1, ?H2, ?H3; auto.
Qed.

Section stages.
Context (i : HistoryIndex) (e : HistoryEvent) (i' : HistoryIndex).

Lemma link_header : index_header i e = Ok i' → link_step e i i'.
Proof. unfold index_header, invalid. repeat (case_match; [done|]). intros [= <-]. by apply link_same. Qed.

Lemma link_schedule : index_schedule i e = Ok i' → link_step e i i'.
Proof.
  unfold index_schedule, invalid. destruct (SCHEDULE_EVENT_TYPES _); [|by intros [= <-]].
  destruct (command_id e) as [c|]; [|done]. case_match; [done|].
  destruct (scheduled i !! c) as [|] eqn:Hc; [done|]. destruct (entity_id e) as [n|] eqn:Hn.
  - destruct (scheduled_entities i !! n) as [|] eqn:Hi; [done|]. intros [= <-]. split; [|by apply insert_subseteq|done].
    intros [L1 L2 L3 L4 L5]. split; cbn.
    + intros c0 e0 n0 [[<- <-]|[Hne Hc0]]%lookup_insert_Some Hn0; [by rewrite Hn in Hn0; injection Hn0 as <-; simplify_map_eq|].
      pose proof (L1 _ _ _ Hc0 Hn0). rewrite lookup_insert_ne; [done|]. intros ->. congruence.
    + intros n0 e0 [[<- <-]|[Hne Hn0]]%lookup_insert_Some; [exists c; by simplify_map_eq|].
      destruct (L2 _ _ Hn0) as [c0 Hc0]. exists c0. rewrite lookup_insert_ne; [done|]. intros ->. congruence.
    + intros n0 [x Hx]%L3. rewrite lookup_insert_is_Some. destruct (decide (n = n0)); eauto.
    + intros n0 [x Hx]%L4. rewrite lookup_insert_is_Some. destruct (decide (n = n0)); eauto.
    + intros n0 [x Hx]%L5. rewrite lookup_insert_is_Some. destruct (decide (n = n0)); eauto.
  - intros [= <-]. split; [|done|done]. intros [L1 L2 L3 L4 L5]. split; cbn; [|..|done|done|done].
    + intros c0 e0 n0 [[<- <-]|[Hne Hc0]]%lookup_insert_Some Hn0; [congruence|by apply (L1 c0)].
    + intros n0 e0 Hn0. destruct (L2 _ _ Hn0) as [c0 Hc0]. exists c0. rewrite lookup_insert_ne; [done|].
      intros ->. congruence.
Qed.

Lemma scheduled_as_entity n t : negb (scheduled_as i n t) = false → is_Some (scheduled_entities i !! n).
Proof. unfold scheduled_as. by destruct (scheduled_entities i !! n). Qed.

(** A table of ended entities, with another one that was scheduled. *)
Lemma ended_entity (m : gmap UUID HistoryEvent) n n0 :
  (∀ n, is_Some (m !! n) → is_Some (scheduled_entities i !! n)) →
  is_Some (scheduled_entities i !! n) → is_Some (<[n := e]> m !! n0) →
  is_Some (scheduled_entities i !! n0).
Proof.
  intros Hm Hn [x Hx]. apply lookup_insert_Some in Hx as [[<- _]|[_ Hx]]; [done|by eapply Hm].
Qed.

Lemma link_activity : index_activity_terminal i e = Ok i' → link_step e i i'.
Proof.
  unfold index_activity_terminal, invalid. destruct (ACTIVITY_TERMINAL_EVENT_TYPES _) eqn:Ht; [|by intros [= <-]].
  destruct (entity_id e) as [n|]; [|done]. case_match; [done|]. case_match eqn:Hs; [done|].
  apply scheduled_as_entity in Hs. destruct (_ || _) eqn:Hf; [|by intros [= <-]]. intros [= <-]. split; [|done|].
  - intros [L1 L2 L3 L4 L5]. split; cbn; try done. intros n0. by apply ended_entity.
  - unfold rousing. apply orb_true_iff in Hf as [->%bool_decide_eq_true| ->]; [done|].
    by destruct (event_type e).
Qed.

Lemma link_timer : index_timer_terminal i e = Ok i' → link_step e i i'.
Proof.
  unfold index_timer_terminal, invalid. destruct (TIMER_TERMINAL_EVENT_TYPES _) eqn:Ht; [|by intros [= <-]].
  destruct (entity_id e) as [n|]; [|done]. case_match eqn:Hs; [done|]. case_match; [done|].
  apply scheduled_as_entity in Hs. intros [= <-]. split; [|done|].
  - intros [L1 L2 L3 L4 L5]. split; cbn; try done. intros n0. by apply ended_entity.
  - unfold rousing. by destruct (event_type e).
Qed.

Lemma link_child : index_child_terminal i e = Ok i' → link_step e i i'.
Proof.
  unfold index_child_terminal, invalid. destruct (CHILD_TERMINAL_EVENT_TYPES _) eqn:Ht; [|by intros [= <-]].
  destruct (entity_id e) as [n|]; [|done]. case_match eqn:Hs; [done|]. case_match; [done|].
  apply scheduled_as_entity in Hs. intros [= <-]. split; [|done|].
  - intros [L1 L2 L3 L4 L5]. split; cbn; try done. intros n0. by apply ended_entity.
  - unfold rousing. by destruct (event_type e).
Qed.

Lemma link_message : index_message i e = Ok i' → link_step e i i'.
Proof.
  unfold index_message, invalid. destruct (event_type e) eqn:Ht; try by intros [= <-].
  - do 2 (case_match; [done|]). intros [= <-]. split; [|done|by unfold rousing; rewrite Ht].
    by intros [].
  - do 2 (case_match; [done|]). intros [= <-]. split; [|done|by unfold rousing; rewrite Ht].
    by intros [].
Qed.

Lemma link_closing : index_closing i e = Ok i' → link_step e i i'.
Proof.
  intros (c & t & ->)%index_closing_ok. by apply link_same.
Qed.
End stages.

Lemma index_event_links i e i' : index_event i e = Ok i' → link_step e i i'.
Proof.
  unfold index_event, mbind, Result_bind.
  destruct (index_header i e) as [i1|] eqn:E1; [|done].
  destruct (index_schedule i1 e) as [i2|] eqn:E2; [|done].
  destruct (index_activity_terminal i2 e) as [i3|] eqn:E3; [|done].
  destruct (index_timer_terminal i3 e) as [i4|] eqn:E4; [|done].
  destruct (index_child_terminal i4 e) as [i5|] eqn:E5; [|done].
  destruct (index_message i5 e) as [i6|] eqn:E6; [|done]. intros E7.
  etrans; [by eapply link_header|]. etrans; [by eapply link_schedule|].
  etrans; [by eapply link_activity|]. etrans; [by eapply link_timer|].
  etrans; [by eapply link_child|]. etrans; [by eapply link_message|]. by eapply link_closing.
Qed.

Lemma linked_empty : linked empty_index.
Proof. split; cbn; intros *; rewrite lookup_empty; try done; by intros []. Qed.

Lemma build_index_linked es i : build_index es = Ok i → linked i.
Proof.
  intros [_ Hf]%build_index_foldM. revert Hf. generalize (linked_empty). generalize empty_index.
  induction es as [|e es IH]; intros j Hj Hf; simpl in Hf; [by injection Hf as <-|].
  destruct (index_event j e) as [j1|] eqn:Hx; [|done]. apply (IH j1); [|done].
  by apply (ls_linked _ _ _ (index_event_links _ _ _ Hx)).
Qed.

(** What a history appended to says of the entities and the outcomes. *)
Lemma build_index_still es l i i' :
  es ≠ [] → build_index es = Ok i → build_index (es ++ l) = Ok i' →
  scheduled_entities i ⊆ scheduled_entities i' ∧ (Forall (fun e => rousing e = false) l → still i i').
Proof.
  intros Hne Hi. revert i'. induction l as [|e l IH] using rev_ind; intros i' Hb.
  { rewrite app_nil_r, Hi in Hb. by injection Hb as <-. }
  rewrite (assoc_L (++)) in Hb. apply build_index_last in Hb as (j & Hj & Hx); [|by destruct es].
  apply index_event_links in Hx as [_ Hsub Hst]. destruct (IH _ Hj) as [Hsub' Hst']. split; [by etrans|].
  intros [Hl [He _]%Forall_cons]%Forall_app. etrans; [by apply Hst'|by apply Hst].
Qed.

(** ** Commands that leave replay waiting *)
Definition parks (k : Command) : bool :=
  match k with
  | CScheduleActivity _ | CScheduleTimer _ | CStartChildWorkflow _ => true
  | _ => false
  end.

Lemma records_rousing `{PyStd} k e : records k e → rousing e = negb (parks k).
Proof. intros [Ht _ _ _ _]. unfold rousing. rewrite Ht. by destruct k. Qed.

(** Index [i'] is a later one that tells a replay nothing new. *)
Record idle (i i' : HistoryIndex) : Prop := {
  idle_wf : index_wf i;
  idle_wf' : index_wf i';
  idle_ext : index_ext i i';
  idle_linked : linked i;
  idle_linked' : linked i';
  idle_entities : scheduled_entities i ⊆ scheduled_entities i';
  idle_still : still i i'
}.

Lemma build_index_idle es l i i' :
  es ≠ [] → build_index es = Ok i → build_index (es ++ l) = Ok i' →
  Forall (fun e => rousing e = false) l → idle i i'.
Proof.
  intros Hne Hi Hi' Hl. destruct (build_index_still _ _ _ _ Hne Hi Hi') as [Hsub Hst].
  destruct (build_index_app _ _ _ Hne Hi') as (j & Hj & Hext). rewrite Hi in Hj. injection Hj as <-.
  split; eauto using build_index_linked; by eapply build_index_wf.
Qed.

Section waiting.
Context `{PyStd} (i i' : HistoryIndex) (Hidle : idle i i').

(** An entity whose schedule is new has not ended. *)
Lemma new_entity id e n :
  scheduled i !! id = None → scheduled i' !! id = Some e → entity_id e = Some n →
  activity_terminal i' !! n = None ∧ timer_terminal i' !! n = None ∧ child_terminal i' !! n = None.
Proof.
  intros Hn He Hen. destruct Hidle as [Hw Hw' Hx Hl Hl' Hs Hst].
  assert (scheduled_entities i !! n = None) as Hnone.
  { destruct (scheduled_entities i !! n) as [x|] eqn:Hi; [exfalso|done].
    pose proof (lookup_weaken _ _ _ _ Hi Hs) as Hi'. rewrite (lk_entity _ Hl' _ _ _ He Hen) in Hi'.
    injection Hi' as <-. destruct (lk_scheduled _ Hl _ _ Hi) as [c Hc].
    pose proof (ixwf_scheduled _ Hw _ _ Hc). pose proof (ixwf_scheduled _ Hw' _ _ He).
    assert (c = id) as -> by congruence. congruence. }
  destruct Hst as [-> -> -> _ _]. assert (∀ m : gmap UUID HistoryEvent,
    (is_Some (m !! n) → is_Some (scheduled_entities i !! n)) → m !! n = None) as Hm.
  { intros m Hm. apply eq_None_not_Some. intros [x Hx']%Hm. congruence. }
  split_and!; apply Hm; apply Hl.
Qed.

(** The commands of a suspension leave replay waiting, and are recorded. *)
Definition noted (s : Suspended) : Prop :=
  (∀ n, s ≠ ContinueAsNewRecorded n) ∧
  ∀ k, k ∈ emitted s → parks k = true ∧ ∃ e, scheduled i' !! cmd_command_id k = Some e ∧ records k e.

(** A command that suspended waits once it is recorded. *)
Record spec_waits {F A : Type} (k : command_spec F A) : Prop := {
  sw_found id f s x : spec_found k i id f s = OSuspend x → (∀ n, x ≠ ContinueAsNewRecorded n) →
    spec_found k i' id f s = OSuspend Blocked;
  sw_parks w id fp c e : scheduled i !! id = None → scheduled i' !! id = Some e →
    spec_missing k w i id fp = OSuspend (NewCommands [c]) → parks c = true → records c e →
    spec_found k i' id fp e = OSuspend Blocked
}.

Lemma command_waits {F A} (k : command_spec F A) w id s :
  spec_ok k → spec_waits k → command_outcome k w i id = OSuspend s → noted s →
  command_outcome k w i' id = OSuspend Blocked.
Proof.
  intros Hok Hk. unfold command_outcome. destruct (spec_check k) as [fp|] eqn:Hck; [|done].
  destruct (scheduled i !! id) as [x|] eqn:Hx.
  - rewrite (lookup_weaken _ _ _ _ Hx (ext_scheduled _ _ (idle_ext _ _ Hidle))).
    intros E [Hc _]. by eapply (sw_found _ Hk).
  - intros E [_ Hn]. destruct (sp_emits _ Hok w i id fp) as [(c & Hc & Hid)|(e & He & _)]; [|congruence].
    rewrite Hc in E. injection E as <-. destruct (Hn c) as (Hp & e & He & Hr); [by left|].
    rewrite Hid in He. rewrite He. by eapply (sw_parks _ Hk).
Qed.

(** A result that waits for an entity to end. *)
Record result_waits {A : Type} (result : HistoryIndex → UUID → Outcome A) : Prop := {
  rw_found n x : result i n = OSuspend x → (∀ m, x ≠ ContinueAsNewRecorded m) →
    result i' n = OSuspend Blocked;
  rw_new n : activity_terminal i' !! n = None → timer_terminal i' !! n = None →
    child_terminal i' !! n = None → result i' n = OSuspend Blocked
}.

Section entity_found.
Context {F A : Type} (ty : EventType) (fp_of : F → string) (d1 : HistoryEvent → string).
Context (d2 : F → HistoryEvent → string) (d3 : string) (result : HistoryIndex → UUID → Outcome A).
Context (Hres : result_waits result).
Abbreviation found := (entity_found ty fp_of d1 d2 d3 result).

Lemma entity_still_waits id f s x :
  found i id f s = OSuspend x → (∀ n, x ≠ ContinueAsNewRecorded n) → found i' id f s = OSuspend Blocked.
Proof.
  unfold entity_found. do 2 (case_match; [done|]). destruct (entity_id s); [|done]. apply (rw_found _ Hres).
Qed.

Lemma entity_new_waits id f e n :
  scheduled i !! id = None → scheduled i' !! id = Some e →
  event_type e = ty → attr "fingerprint" e = JStr (fp_of f) → entity_id e = Some n →
  found i' id f e = OSuspend Blocked.
Proof.
  intros Hn He Ht Hfp Hen. unfold entity_found. rewrite bool_decide_eq_true_2 by done.
  rewrite fingerprint_matches_refl, Hen by done. cbn [negb].
  destruct (new_entity _ _ _ Hn He Hen) as (?&?&?). by apply (rw_new _ Hres).
Qed.
End entity_found.

(** ** The commands *)
Lemma activity_result_waits call : result_waits (activity_result call).
Proof.
  unfold activity_result. split; [|by intros n -> _ _]. intros n x.
  rewrite (sl_activity _ _ (idle_still _ _ Hidle)). destruct (activity_terminal i !! n); [|done].
  case_match; [by intros ?%of_py_waits|by case_match].
Qed.

Lemma child_result_waits call : result_waits (child_result call).
Proof.
  unfold child_result. split; [|by intros n _ _ ->]. intros n x.
  rewrite (sl_child _ _ (idle_still _ _ Hidle)). destruct (child_terminal i !! n); [|done].
  case_match; [by intros ?%of_py_waits|by case_match].
Qed.

Lemma sleep_result_waits : result_waits sleep_result.
Proof.
  unfold sleep_result. split; [|by intros n _ -> _]. intros n x.
  rewrite (sl_timer _ _ (idle_still _ _ Hidle)). destruct (timer_terminal i !! n); [|done]. by case_match.
Qed.

Lemma activity_waits call : spec_waits (activity_spec call).
Proof.
  split; simpl; eauto using entity_still_waits, activity_result_waits.
  intros w id f c e Hn He Hm _ [Ht _ Hen Hfp _]. simplify_eq/=.
  by eapply entity_new_waits; [apply activity_result_waits|..].
Qed.

Lemma child_waits call : spec_waits (child_spec call).
Proof.
  split; simpl; eauto using entity_still_waits, child_result_waits.
  intros w id f c e Hn He Hm _ [Ht _ Hen Hfp _]. destruct (clone_json (cc_input call)); simplify_eq/=.
  by eapply entity_new_waits; [apply child_result_waits|..].
Qed.

Lemma sleep_waits d : spec_waits (sleep_spec d).
Proof.
  split; simpl; eauto using entity_still_waits, sleep_result_waits.
  intros w id f c e Hn He Hm _ [Ht _ Hen Hfp _]. simplify_eq/=.
  by eapply entity_new_waits; [apply sleep_result_waits|..].
Qed.

Lemma continue_waits t v x q : spec_waits (continue_spec t v x q).
Proof.
  split; simpl.
  - intros id f s y. unfold entity_found. do 2 (case_match; [done|]). destruct (entity_id s) as [n|]; [|done].
    intros [= <-] Hc. by destruct (Hc n).
  - by intros w id fp c e _ _ [= <-].
Qed.

Lemma resolve_waits u o a : spec_waits (resolve_spec u o a).
Proof.
  split; simpl; [|by intros w id fp c e _ _ [= <-]].
  intros id f s y. by repeat case_match.
Qed.

Lemma marker_waits {A} mt (post : Z → JSON → Outcome A) :
  (∀ id v x, post id v ≠ OSuspend x) → spec_waits (marker_spec mt post).
Proof.
  intros Hp. split; simpl.
  - intros id f s x. do 2 (case_match; [done|]). destruct (clone_json _); [|done]. by intros ?%Hp.
  - intros w id fp c e _ _. destruct (derived w i mt id); [|done]. by intros [= <-].
Qed.

(** A signal that had not been received is waited for. *)
Lemma matching_signal_still c name : matching_signal (reindex i' c) name = matching_signal (reindex i c) name.
Proof. unfold matching_signal. simpl. by rewrite (sl_signals _ _ (idle_still _ _ Hidle)). Qed.
Lemma matching_update_still c name : matching_update (reindex i' c) name = matching_update (reindex i c) name.
Proof. unfold matching_update. simpl. by rewrite (sl_updates _ _ (idle_still _ _ Hidle)). Qed.

Lemma signal_waits c name t :
  matching_signal (reindex i c) name = None → spec_waits (signal_spec c name t).
Proof.
  intros Hm. assert (result_waits (signal_result c name)) as Hres.
  { unfold signal_result. split.
    - intros n x. rewrite (sl_timer _ _ (idle_still _ _ Hidle)), matching_signal_still, Hm.
      destruct (timer_terminal i !! n); [|done]. by case_match.
    - intros n _ -> _. by rewrite matching_signal_still, Hm. }
  split; simpl; eauto using entity_still_waits.
  intros w id f k e Hn He Hk _ [Ht _ Hen Hfp _]. simplify_eq/=. by eapply entity_new_waits.
Qed.
End waiting.

(** ** Requests *)
Section requests.
Context `{PyStdLaws} (i i' : HistoryIndex) (Hidle : idle i i').

(** The operation suspends again, and waits. *)
Definition op_waits {A : Type} (m : Ctx A) (c : WorkflowContext) : Prop :=
  ∀ s c', m c = (OSuspend s, c') → noted i' s → ∃ c2, m (reindex i' c) = (OSuspend Blocked, c2).

Lemma pure_waits {A} (m : Ctx A) c : pure_like m → op_waits m c.
Proof. intros Hm s c' E. by apply Hm in E as [? _]. Qed.

Lemma simple_waits {F A} (k : command_spec F A) (m : Ctx A) c :
  spec_ok k → spec_waits i i' k → ctx_history c = i →
  (∀ c, m c = (command_outcome k (ctx_workflow_id c) (ctx_history c) (ctx_next_command_id c), bump c)) →
  op_waits m c.
Proof.
  intros Hok Hk Hc Hm s c' E Hn. rewrite Hm, Hc in E. injection E as E _. rewrite Hm. eexists. simpl.
  f_equal. by eapply command_waits.
Qed.

Lemma map_waits {A B} (g : A → B) (m : Ctx A) c : op_waits m c → op_waits (x ← m; mret (g x)) c.
Proof.
  intros Hm s c' E%map_out_suspend Hn. destruct (Hm _ _ E Hn) as [c2 E2]. exists c2.
  by rewrite map_out_eq, E2.
Qed.

(** What a call that suspended does on the later index. *)
Lemma call_waits c refs r s :
  ctx_ok c → ctx_history c = i → r ∈ refs → outcome_of (assign_all refs c) i r = OSuspend s →
  noted i' s → outcome_of (assign_all refs c) i' r = OSuspend Blocked.
Proof.
  intros Hok Hc Hr Hs Hn. destruct (call_facts c refs Hok r Hr) as [(e & _ & He)|(call & id & Hf)];
    [by rewrite He in Hs|].
  destruct Hf as (_ & _ & _ & Ho & _). rewrite Ho in *.
  by eapply command_waits; [done|apply activity_ok|by apply activity_waits|done..].
Qed.

Lemma activity_op_waits ref c : ctx_ok c → ctx_history c = i → op_waits (_evaluate_activity ref) c.
Proof.
  intros Hok Hc s c' E Hn. rewrite evaluate_eq in *. rewrite Hc in E. injection E as E _. eexists. f_equal.
  rewrite assign_ref_reindex. by apply (call_waits c [ref] ref s); [done|done|left|..].
Qed.

Lemma summary_suspends outs s : summary outs = OSuspend s → ∃ o, o ∈ outs ∧ suspends o = true.
Proof.
  unfold summary. destruct (outs ≫= commands_of) as [|k ks] eqn:Hcs.
  - destruct (existsb is_blocked outs) eqn:Hb; [|done]. intros _.
    apply existsb_exists in Hb as (o & Ho%list_elem_of_In & Hbo). exists o. split; [done|]. by destruct o.
  - intros _. assert (k ∈ outs ≫= commands_of) as (o & Hk & Ho)%list_elem_of_bind by (rewrite Hcs; by left).
    exists o. split; [done|]. by destruct o as [| |]; [by apply not_elem_of_nil in Hk..|].
Qed.

Lemma gather_op_waits refs c : ctx_ok c → ctx_history c = i → op_waits (gather refs) c.
Proof.
  intros Hok Hc s c' E Hn. destruct (gather_suspends _ _ _ _ E) as (Hcalm & _ & Hs). rewrite Hc in *.
  set (g := fun i r => outcome_of (assign_all refs c) i r) in *.
  assert (∀ r, r ∈ refs → g i' r = g i r ∧ suspends (g i r) = false ∨ g i' r = OSuspend Blocked) as Hg.
  { intros r Hr. destruct (suspends (g i r)) eqn:Hsr.
    - right. destruct (g i r) as [| |sr] eqn:Hgr; [done|done|].
      apply (call_waits c refs r sr); [done..|]. destruct (outcome_of_kinds _ _ _ _ Hgr) as [(k & ->)| ->];
        [|by split; [done|intros k ?%not_elem_of_nil]].
      split; [done|]. intros k' ->%list_elem_of_singleton. apply Hn.
      apply (summary_emitted _ _ k Hs), list_elem_of_bind. exists (g i r). split; [rewrite Hgr; by left|].
      by apply (list_elem_of_fmap_2 (g i)).
    - left. split; [|done]. pose proof (outcome_stable c refs Hok i' r Hr) as Hst. rewrite Hc in Hst.
      by apply Hst; [apply Hidle|]. }
  destruct (gather_cases refs c i') as [[_ ->]|(l1 & ref & l2 & e & Hrefs & _ & Hraise & _)].
  2:{ exfalso. assert (ref ∈ refs) as Hr by (rewrite Hrefs; set_solver). specialize (Hcalm _ Hr).
      destruct (Hg _ Hr) as [[Hsame _]|Hb]; unfold g in *; [|congruence].
      by rewrite <- Hsame, Hraise in Hcalm. }
  eexists. f_equal. unfold summary. change (outcome_of (assign_all refs c) i') with (g i'). assert ((g i' <$> refs) ≫= commands_of = []) as ->.
  { rewrite bind_fmap. rewrite (bind_ext _ (fun _ => [])); [clear; by induction refs|]. intros r Hr. unfold compose.
    destruct (Hg r Hr) as [[-> Hsr]| ->]; [|done]. by destruct (g i r). }
  assert (∃ r, r ∈ refs ∧ suspends (g i r) = true) as (r & Hr & Hsr).
  { destruct (summary_suspends _ _ Hs) as (o & Ho & Hso). apply list_elem_of_fmap in Ho as (r & -> & Hr).
    by exists r. }
  assert (existsb is_blocked (g i' <$> refs) = true) as ->; [|done].
  apply existsb_exists. exists (OSuspend Blocked). split; [|done]. apply list_elem_of_In.
  destruct (Hg r Hr) as [[_ ?]|<-]; [congruence|]. by apply (list_elem_of_fmap_2 (g i')).
Qed.
Lemma signal_op_waits name t c :
  ctx_history c = i → t = None ∨ matching_signal c name = None → op_waits (wait_signal name t) c.
Proof.
  intros Hc Ht. unfold wait_signal. destruct (String.eqb name ""); [by apply pure_waits, pure_raise|].
  destruct Hc. intros s c' E Hn. pose proof (matching_signal_still _ _ Hidle c name) as Hst.
  rewrite reindex_id in Hst. destruct t as [t|].
  - destruct Ht as [|Hm]; [done|]. unfold mbind, Ctx_bind, get_context in *. cbv zeta in *.
    rewrite signal_timeout_shape in *.
    destruct (command_outcome (signal_spec c name t) _ _ _) as [e|e|x] eqn:Ho;
      [by apply pure_deliver in E as [? _]|done|injection E as -> _].
    pose proof (signal_ok c name t) as Hok.
    assert (spec_waits (ctx_history c) i' (signal_spec c name t)) as Hw.
    { apply (signal_waits _ _ Hidle). by rewrite reindex_id. }
    pose proof (command_waits _ _ Hidle _ _ _ _ Hok Hw Ho Hn) as Hb.
    change (signal_spec (reindex i' c) name t) with (signal_spec c name t).
    cbn [ctx_workflow_id ctx_history ctx_next_command_id reindex]. rewrite Hb. by eexists.
  - unfold mbind, Ctx_bind, get_context in *. cbv zeta in *. rewrite Hst.
    destruct (matching_signal c name) as [e|]; [by apply pure_deliver in E as [? _]|]. by eexists.
Qed.

Lemma update_op_waits name c : ctx_history c = i → op_waits (wait_update name) c.
Proof.
  intros Hc. unfold wait_update. destruct (String.eqb name ""); [by apply pure_waits, pure_raise|].
  destruct Hc. intros s c' E Hn. pose proof (matching_update_still _ _ Hidle c name) as Hst.
  rewrite reindex_id in Hst. unfold mbind, Ctx_bind, get_context in *. cbv zeta in *. rewrite Hst.
  destruct (matching_update c name) as [e|]; [|by eexists]. exfalso.
  destruct (attr "update_id" e) as [| | | |u| |] eqn:Hu; try done.
  unfold consume_update, mbind, Ctx_bind, lift in E. by destruct (clone_json (attr "payload" e)).
Qed.

(** Every suspended request waits, but for the wait with a timeout whose signal
    is there: its timer is started before the signal is delivered. *)
Lemma request_waits r op c :
  r ≠ ReqCancellationRequested → exec_request r = Some op → ctx_ok c → ctx_history c = i →
  op_waits op c ∨ ∃ name t, r = ReqWaitSignal name (Some t) ∧ is_Some (matching_signal c name).
Proof.
  intros Hr Hop Hok Hc. destruct r; cbn [exec_request] in Hop; try done; injection Hop as <-;
    try (lazymatch goal with |- context [wait_signal _ _] => fail | _ => left; apply map_waits end).
  - apply pure_waits, pure_activity.
  - by apply activity_op_waits.
  - by apply gather_op_waits.
  - apply pure_waits, pure_child_workflow.
  - apply (simple_waits _ _ _ (child_ok call) (child_waits _ _ Hidle call) Hc), child_shape.
  - destruct (decide (queue_name = Some "")) as [->|Hq].
    + unfold continue_as_new. rewrite bool_decide_eq_true_2 by done. by apply pure_waits, pure_raise.
    + eapply simple_waits; [apply continue_ok|by apply continue_waits|done|intros c1; by apply continue_shape].
  - eapply simple_waits; [apply now_ok| |done|apply now_shape].
    apply marker_waits. intros id v x. unfold now_post. by repeat case_match.
  - eapply simple_waits; [apply random_ok| |done|apply random_shape].
    apply marker_waits. intros id v x. unfold random_post. by repeat case_match.
  - eapply simple_waits; [apply uuid_ok| |done|apply uuid_shape].
    apply marker_waits. intros id v x. unfold uuid_post. by repeat case_match.
  - apply (simple_waits _ _ _ (sleep_ok duration) (sleep_waits _ _ Hidle duration) Hc), sleep_shape.
  - destruct timeout as [t|]; [destruct (matching_signal c name) as [e|] eqn:Hm|].
    + right. exists name, t. by rewrite Hm.
    + left. apply map_waits, signal_op_waits; auto.
    + left. apply map_waits, signal_op_waits; auto.
  - by apply update_op_waits.
  - eapply simple_waits; [apply resolve_ok|by apply resolve_waits|done|apply resolve_shape].
  - apply pure_waits, pure_next_command_id.
Qed.
End requests.

(** ** Replays *)
Definition blocked_result : ReplayResult := mk_replay_result BLOCKED [] JNull JNull.

(** The event of every schedule command is in the table. *)
Lemma build_index_scheduled es i e c :
  build_index es = Ok i → e ∈ es → SCHEDULE_EVENT_TYPES (event_type e) = true → command_id e = Some c →
  scheduled i !! c = Some e.
Proof.
  intros [_ Hf]%build_index_foldM. revert e c.
  apply (foldM_ind index_event (fun es i => ∀ e c, e ∈ es → SCHEDULE_EVENT_TYPES (event_type e) = true →
    command_id e = Some c → scheduled i !! c = Some e) empty_index); [| |done].
  - by intros e0 c0 ?%not_elem_of_nil.
  - intros d i0 x i1 Hd Hx%index_event_indexed%ix_scheduled e0 c0 Hin Ht0 Hc0.
    apply elem_of_app in Hin as [Hin| ->%list_elem_of_singleton].
    + pose proof (Hd _ _ Hin Ht0 Hc0) as Hs. destruct (SCHEDULE_EVENT_TYPES (event_type x)); [|congruence].
      destruct Hx as (cx & _ & Hn & ->). rewrite lookup_insert_ne; [done|]. intros ->. congruence.
    + rewrite Ht0 in Hx. destruct Hx as (cx & Hcx & _ & ->). rewrite Hc0 in Hcx. injection Hcx as ->.
      by rewrite lookup_insert_eq.
Qed.

Section replays.
Context `{PyStdLaws}.
Context (function : Coroutine) (w : UUID) (workflow_input : JSON).
Abbreviation replay := (fun fuel => replay_workflow fuel function w workflow_input).

(** The function waits with a timeout for a signal that was received before:
    replay started the timer, and nothing wakes it. *)
Definition overlooks (h : list HistoryEvent) : Prop :=
  ∃ input i n rs c name timeout, clone_json workflow_input = Ok input ∧ build_index h = Ok i ∧
    visit (function input) w i n = Some (rs, c) ∧
    function input rs = ReqWaitSignal name (Some timeout) ∧ is_Some (matching_signal c name).

(** Replay of [h] is blocked, whatever the fuel from some point on. *)
Definition blocks (h : list HistoryEvent) : Prop :=
  ∃ N, ∀ fuel, N ≤ fuel → replay fuel h = Some (Ok blocked_result).

(** The request a replay that goes on is suspended at. *)
Lemma replay_suspends input fuel h i res :
  clone_json workflow_input = Ok input → disciplined (function input) →
  build_index h = Ok i → safe (function input) w i → replay fuel h = Some (Ok res) →
  rr_status res = BLOCKED ∨ rr_status res = COMMANDS →
  ∃ n rs c op s c', visit (function input) w i n = Some (rs, c) ∧
    exec_request (function input rs) = Some op ∧ op c = (OSuspend s, c') ∧
    emitted s = rr_commands res ∧ ∀ m, s ≠ ContinueAsNewRecorded m.
Proof.
  intros Hinput Hco Hb Hs. unfold replay_workflow. rewrite Hb, Hinput.
  destruct (run fuel _ _ _) as [[end_ c']|] eqn:Hr; [|done]. intros Hf Hst. injection Hf as Hf.
  destruct (build_index_wf _ _ Hb) as [Hwf _].
  destruct (run_start _ _ _ Hco _ _ _ _ Hwf Hs Hr) as [n rs c v Hv Hret|e c Hnd|n rs c op s c' Hv Hop E].
  - exfalso. cbn [finish] in Hf. case_match; [by case_match|].
    destruct (clone_json v); [|done]. injection Hf as <-. by destruct Hst.
  - exfalso. rewrite finish_raised in Hf by done. injection Hf as <-. by destruct Hst.
  - exists n, rs, c, op, s, c'. split_and!; try done; destruct s; injection Hf as <-; try done.
    by destruct Hst.
Qed.

(** A visited state that is blocked blocks the replay. *)
Lemma visit_blocks input h i n rs c op c' :
  clone_json workflow_input = Ok input → build_index h = Ok i →
  visit (function input) w i n = Some (rs, c) → exec_request (function input rs) = Some op →
  op c = (OSuspend Blocked, c') → blocks h.
Proof.
  intros Hinput Hb Hv Hop E. exists (S n). intros fuel Hf. unfold replay_workflow. rewrite Hb, Hinput.
  replace fuel with (n + S (fuel - S n)) by lia. rewrite (run_visit _ _ _ _ _ _ _ Hv).
  cbn [fst snd]. by rewrite (run_step _ _ _ _ _ Hop), E.
Qed.

(** A replay suspended, its commands were recorded, and nothing rousing
    happened since: the next replay is blocked. *)
Lemma replay_waits h l hs fuel res es :
  disciplined_input function workflow_input → versions function w workflow_input ((h ++ l) :: hs) →
  h ∈ (h ++ l) :: hs → replay fuel h = Some (Ok res) →
  rr_status res = BLOCKED ∨ rr_status res = COMMANDS →
  Forall (fun e => rousing e = false) l → Forall2 records (rr_commands res) es → es ⊆ l →
  blocks (h ++ l) ∨ overlooks (h ++ l).
Proof.
  intros Hdis Hvs Hin Hr Hst Hl Hes Hsub.
  destruct (versions_build _ _ _ _ _ Hvs Hin) as [i0 Hi0].
  destruct (versions_build _ _ _ _ (h ++ l) Hvs) as [i Hi]; [apply list_elem_of_here|].
  destruct (clone_json workflow_input) as [input|e] eqn:Hinput.
  2:{ exfalso. unfold replay_workflow in Hr. rewrite Hi0, Hinput in Hr.
      rewrite finish_raised in Hr by (by eapply clone_json_nd). injection Hr as <-. by destruct Hst. }
  pose proof (Hdis _ Hinput) as Hco.
  pose proof (versions_inv _ _ _ _ Hinput Hco _ _ Hvs) as Hok.
  pose proof (vo_safe _ _ _ _ _ Hok _ _ Hin Hi0) as Hs0.
  pose proof (vo_simulates _ _ _ _ _ Hok _ _ _ Hin Hi0 Hi) as Hsim.
  destruct (replay_suspends _ _ _ _ _ Hinput Hco Hi0 Hs0 Hr Hst)
    as (n & rs & c & op & s & c' & Hv & Hop & E & Hem & Hcont).
  assert (h ≠ []) as Hne by by intros ->.
  pose proof (build_index_idle _ _ _ _ Hne Hi0 Hi Hl) as Hidle.
  destruct (visit_ok _ Hco _ _ _ _ _ (idle_wf _ _ Hidle) Hv) as (Hc & Hh & _).
  assert (noted i s) as Hn.
  { split; [done|]. rewrite Hem. intros k Hk.
    apply list_elem_of_lookup in Hk as [j Hj].
    destruct (Forall2_lookup_l _ _ _ _ _ Hes Hj) as (e & He%list_elem_of_lookup_2%Hsub & Hrec).
    rewrite Forall_forall in Hl. specialize (Hl _ He). rewrite (records_rousing _ _ Hrec) in Hl.
    split; [by destruct (parks k)|]. exists e. split; [|done].
    apply (build_index_scheduled (h ++ l)); [done|apply elem_of_app; by right|by eapply records_schedules|apply Hrec]. }
  destruct (request_waits _ _ Hidle _ _ _ (dis_cancel _ Hco rs) Hop Hc Hh) as [Hw|(name & t & Hreq & Hm)].
  - left. destruct (Hw _ _ E Hn) as [c2 E2].
    by apply (visit_blocks input _ i n rs (reindex i c) op c2 Hinput Hi (sim_visit _ _ _ _ Hsim _ _ _ Hv)).
  - right. exists input, i, n, rs, (reindex i c), name, t. split_and!; [done|done| |done|].
    + by apply (sim_visit _ _ _ _ Hsim).
    + rewrite (matching_signal_still _ _ Hidle), <- Hh. by rewrite reindex_id.
Qed.
End replays.
