(* ===== verification/Config.v ===== *)
(** * Environment configuration (engine/config.py)

    Reading settings from environment variables and secret files.  Python's
    operations on Unicode text ([strip], [lower], [upper], [isalnum], [isdigit], [int]) are
    parameters; so are the environment and the file system. *)
From S2P Require Import Prelude Python.

(** Text functions of Python: [int] of a string is [None] where it raises
    [ValueError]. *)
Class PyText : Type := {
  str_strip : string → string;
  str_lower : string → string;
  str_upper : string → string;
  str_isalnum : string → bool;
  str_isdigit : string → bool;
  int_of_str : string → option Z
}.

(** Visible ASCII, and the ASCII letters and digits. *)
Definition ascii_between (lo hi : N) (a : Ascii.ascii) : bool :=
  let n := Ascii.N_of_ascii a in ((lo <=? n) && (n <=? hi))%N.
Definition ascii_visible : Ascii.ascii → bool := ascii_between 33 126.
Definition ascii_alnum (a : Ascii.ascii) : bool :=
  ascii_between 48 57 a || ascii_between 65 90 a || ascii_between 97 122 a.

Fixpoint all_chars (p : Ascii.ascii → bool) (s : string) : bool :=
  match s with EmptyString => true | String a s => p a && all_chars p s end.

(** What the text functions do on ASCII text. *)
Class PyTextLaws `{PyText} : Prop := {
  strip_visible s : all_chars ascii_visible s = true → str_strip s = s;
  lower_lowercase s :
    all_chars (fun a => ascii_visible a && negb (ascii_between 65 90 a)) s = true → str_lower s = s;
  isalnum_ascii s : s ≠ "" → all_chars ascii_alnum s = true → str_isalnum s = true
}.

(** [os.environ], and [Path(name).read_text()]: [None] is an [OSError]. *)
Record Process : Type := mk_process {
  environ : string → option string;
  read_text : string → option string
}.

Section Config.
Context `{PyStd} `{PyText} (process : Process).

(** engine/config.py, lines 10-26: [None] of the source is [None] here. *)
Definition secret_value (name : string) (required : bool) : Py (option string) :=
  let direct := environ process name in
  let file_name := environ process (name +:+ "_FILE") in
  match direct, file_name with
  | Some _, Some _ =>
    Err (RuntimeError ("configure only one of " +:+ name +:+ " and " +:+ name +:+ "_FILE"))
  | _, _ =>
    value ← match file_name with
            | Some file =>
              match read_text process file with
              | Some text => Ok (Some (str_strip text))
              | None => Err (RuntimeError ("cannot read " +:+ name +:+ "_FILE"))
              end
            | None => Ok (str_strip <$> direct)
            end;
    let empty := match value with None => true | Some v => String.eqb v "" end in
    if required && empty then Err (RuntimeError (name +:+ " or " +:+ name +:+ "_FILE is required"))
    else Ok value
  end.

(** engine/config.py, lines 29-37 *)
Definition positive_int (name : string) (default_ : Z) : Py Z :=
  match environ process name with
  | None => if (default_ <? 1)%Z then Err (RuntimeError (name +:+ " must be positive")) else Ok default_
  | Some raw =>
    match int_of_str raw with
    | None => Err (RuntimeError (name +:+ " must be an integer"))
    | Some value =>
      if (value <? 1)%Z then Err (RuntimeError (name +:+ " must be positive")) else Ok value
    end
  end.

(** engine/config.py, lines 40-48 *)
Definition positive_float (name : string) (default_ : float) : Py float :=
  let checked value :=
    if SFleb value (float_of_Z 0) then Err (RuntimeError (name +:+ " must be positive"))
    else Ok value in
  match environ process name with
  | None => checked default_
  | Some raw =>
    match float_of_str raw with
    | None => Err (RuntimeError (name +:+ " must be numeric"))
    | Some value => checked value
    end
  end.

(** engine/config.py, lines 51-58 *)
Record DatabaseConfig : Type := mk_database_config {
  dc_url : string;
  dc_min_pool_size : Z;
  dc_max_pool_size : Z;
  dc_command_timeout_seconds : float;
  dc_statement_timeout_ms : Z;
  dc_application_name : string
}.

(** engine/config.py, lines 60-80 *)
Definition database_from_env (url : option string) (application_name : string)
    : Py DatabaseConfig :=
  selected ← match url with
             | Some u => if String.eqb u "" then secret_value "DATABASE_URL" true else Ok (Some u)
             | None => secret_value "DATABASE_URL" true
             end;
  match selected with
  | None => Err (RuntimeError "DATABASE_URL or DATABASE_URL_FILE is required")
  | Some selected_url =>
    min_pool_size ← positive_int "DWE_DB_POOL_MIN_SIZE" 2;
    max_pool_size ← positive_int "DWE_DB_POOL_MAX_SIZE" 10;
    command_timeout ← positive_float "DWE_DB_COMMAND_TIMEOUT_SECONDS" (float_of_Z 30);
    statement_timeout ← positive_int "DWE_DB_STATEMENT_TIMEOUT_MS" 30000;
    if (max_pool_size <? min_pool_size)%Z then
      Err (RuntimeError "DWE_DB_POOL_MAX_SIZE must be at least DWE_DB_POOL_MIN_SIZE")
    else Ok (mk_database_config selected_url min_pool_size max_pool_size command_timeout
               statement_timeout application_name)
  end.

(** ** What the readers promise *)
Lemma secret_value_required name v : secret_value name true = Ok v → ∃ u, v = Some u ∧ u ≠ "".
Proof.
  unfold secret_value, mbind, Result_bind. intros Hs. repeat case_match; simplify_eq/=; try done;
    eexists; (split; [done|]); intros Hv; rewrite ?Hv in *; done.
Qed.

Lemma positive_int_ok name d v : positive_int name d = Ok v → (1 ≤ v)%Z.
Proof. unfold positive_int. intros Hp. repeat case_match; simplify_eq; lia. Qed.

Lemma positive_float_ok name d v : positive_float name d = Ok v → SFleb v (float_of_Z 0) = false.
Proof. unfold positive_float. intros Hp. repeat case_match; by simplify_eq. Qed.

(** A database configuration that is accepted is usable: its URL is not empty,
    its sizes and timeouts are positive, and the pool's bounds are ordered. *)
Theorem database_config_valid url application_name config :
  database_from_env url application_name = Ok config →
  dc_url config ≠ "" ∧ (1 ≤ dc_min_pool_size config ≤ dc_max_pool_size config)%Z ∧
  (1 ≤ dc_statement_timeout_ms config)%Z ∧
  SFleb (dc_command_timeout_seconds config) (float_of_Z 0) = false.
Proof.
  unfold database_from_env, mbind, Result_bind. intros Hd.
  repeat match type of Hd with
  | match ?x with Ok _ => _ | Err _ => _ end = _ => destruct x eqn:?; [|done]
  | match ?x with Some _ => _ | None => _ end = Ok _ => destruct x eqn:?; [|done]
  | (if ?b then _ else _) = _ => destruct b eqn:?; [done|]
  end.
  injection Hd as <-. cbn [dc_url dc_min_pool_size dc_max_pool_size dc_statement_timeout_ms
    dc_command_timeout_seconds].
  repeat match goal with
  | Hp : positive_int _ _ = Ok _ |- _ => apply positive_int_ok in Hp
  | Hp : positive_float _ _ = Ok _ |- _ => apply positive_float_ok in Hp
  end.
  split_and!; [|lia..|done].
  destruct url as [u|]; [destruct (String.eqb_spec u "")|]; simplify_eq; try done;
    match goal with Hs : secret_value _ _ = Ok _ |- _ =>
      apply secret_value_required in Hs as (? & [= ->] & ?); done end.
Qed.

End Config.
