(* ===== verification/Security.v ===== *)
(** * API keys, roles, rate limits and body limits (engine/api/security.py)

    Requests carry the headers and the state the functions read.  SHA-256 and
    Python's text functions are parameters. *)
From S2P Require Import Prelude Python Config.
From stdpp Require Import pretty.

(** engine/api/security.py, line 19 *)
Inductive Role : Type := viewer | operator | admin.
#[export] Instance Role_eq_dec : EqDecision Role.
Proof. solve_decision. Defined.
Definition ROLE_LEVEL (r : Role) : Z := match r with viewer => 10 | operator => 20 | admin => 30 end.
Definition role_name (r : Role) : string :=
  match r with viewer => "viewer" | operator => "operator" | admin => "admin" end.

(** [raw_role not in ROLE_LEVEL]. *)
Definition role_of_name (s : string) : option Role :=
  if String.eqb s "viewer" then Some viewer
  else if String.eqb s "operator" then Some operator
  else if String.eqb s "admin" then Some admin else None.

(** engine/api/security.py, lines 21-31 *)
Definition PUBLIC_PATHS : list string :=
  ["/"; "/api/health"; "/api/health/live"; "/api/health/ready"; "/docs"; "/redoc"; "/openapi.json"].

(** engine/api/security.py, lines 34-38 *)
Record APIKey : Type := mk_api_key { key_id : string; key_role : Role; key_digest : string }.

(** engine/api/security.py, lines 48-51 *)
Record Principal : Type := mk_principal { principal_key_id : string; principal_role : Role }.

(** engine/api/security.py, lines 54-59 *)
Record AuthConfig : Type := mk_auth_config {
  auth_keys : list APIKey;
  auth_disabled : bool;
  auth_requests_per_minute : Z;
  auth_max_request_bytes : Z
}.

Section Security.
Context `{PyStd} `{PyText}.

(** [hashlib.sha256(token.encode()).hexdigest()]. *)
Definition hexdigest (token : string) : string := hex 64 (sha256 token).

(** engine/api/security.py, lines 40-45 *)
Definition from_token (key_id : string) (role : Role) (token : string) : Py APIKey :=
  if (py_len token <? 16)%Z then
    Err (ValueError "API tokens must contain at least 16 characters")
  else Ok (mk_api_key key_id role (hexdigest token)).

(** Removing the characters of a set: [replace("-", "").replace("_", "")]. *)
Fixpoint remove_chars (cs : list N) (s : string) : string :=
  match s with
  | EmptyString => ""
  | String a s =>
    if bool_decide (Ascii.N_of_ascii a ∈ cs) then remove_chars cs s
    else String a (remove_chars cs s)
  end.

(** [character in "0123456789abcdef"]. *)
Definition is_hex_char (a : Ascii.ascii) : bool :=
  let n := Ascii.N_of_ascii a in
  ((48 <=? n) && (n <=? 57) || (97 <=? n) && (n <=? 102))%N.

(** engine/api/security.py, lines 106-120 *)
Definition _parse_key (value : string) : Py APIKey :=
  match split_on (Ascii.ascii_of_N 58) (str_strip value) with
  | [key_id; raw_role; digest] =>
    if String.eqb key_id "" || (100 <? py_len key_id)%Z
       || negb (str_isalnum (remove_chars [45; 95]%N key_id)) then
      Err (RuntimeError "API key IDs must be 1-100 letters, numbers, hyphens, or underscores")
    else
      match role_of_name raw_role with
      | None => Err (RuntimeError "API key roles must be viewer, operator, or admin")
      | Some role =>
        let normalized_digest := str_lower digest in
        if negb (py_len normalized_digest =? 64)%Z || negb (all_chars is_hex_char normalized_digest)
        then Err (RuntimeError "API key digests must be 64-character SHA-256 hex values")
        else Ok (mk_api_key key_id role normalized_digest)
      end
  | _ => Err (RuntimeError "each DWE_API_KEYS entry must use key-id:role:sha256-digest")
  end.

(** engine/api/security.py, lines 61-74 *)
Definition auth_from_env (process : Process) : Py AuthConfig :=
  let mode := str_lower (str_strip (default "required" (environ process "DWE_AUTH_MODE"))) in
  if negb (String.eqb mode "required" || String.eqb mode "disabled") then
    Err (RuntimeError "DWE_AUTH_MODE must be 'required' or 'disabled'")
  else
    raw ← secret_value process "DWE_API_KEYS" false;
    let values := filter (fun v => negb (String.eqb (str_strip v) "") = true)
                    (split_on (Ascii.ascii_of_N 44) (default "" raw)) in
    keys ← foldM (fun keys v => k ← _parse_key v; Ok (keys ++ [k])) [] values;
    requests_per_minute ← positive_int process "DWE_RATE_LIMIT_PER_MINUTE" 300;
    max_request_bytes ← positive_int process "DWE_MAX_REQUEST_BYTES" 1048576;
    Ok (mk_auth_config keys (String.eqb mode "disabled") requests_per_minute max_request_bytes).

(** engine/api/security.py, lines 76-78 *)
Definition insecure_for_testing : AuthConfig := mk_auth_config [] true 300 1048576.

(** engine/api/security.py, lines 80-93 *)
Definition validate (config : AuthConfig) : Py unit :=
  let keys := auth_keys config in
  if auth_disabled config && negb (bool_decide (keys = [])) then
    Err (RuntimeError "DWE_API_KEYS cannot be set when authentication is disabled")
  else if negb (auth_disabled config) && bool_decide (keys = []) then
    Err (RuntimeError "authentication is required: configure DWE_API_KEYS or explicitly set DWE_AUTH_MODE=disabled for isolated development")
  else if negb (bool_decide (NoDup (map key_id keys))) then
    Err (RuntimeError "DWE_API_KEYS contains a duplicate key ID")
  else if negb (bool_decide (NoDup (map key_digest keys))) then
    Err (RuntimeError "DWE_API_KEYS contains a duplicate token digest")
  else Ok tt.

(** engine/api/security.py, lines 95-103: the last key whose digest matches. *)
Definition authenticate (config : AuthConfig) (token : string) : option Principal :=
  if auth_disabled config then Some (mk_principal "development" admin)
  else
    let digest := hexdigest token in
    (fun k => mk_principal (key_id k) (key_role k)) <$>
    foldl (fun found k => if String.eqb digest (key_digest k) then Some k else found) None
      (auth_keys config).

(** engine/api/security.py, lines 123-128: of the [Authorization] header, [""] if
    it is missing. *)
Definition bearer_token (header : string) : option string :=
  match partition_on (Ascii.ascii_of_N 32) header with
  | (scheme, Some token) =>
    if negb (String.eqb (str_lower scheme) "bearer") || String.eqb (str_strip token) "" then None
    else Some (str_strip token)
  | (_, None) => None
  end.

(** engine/api/security.py, lines 131-142 *)
Definition require_role (principal : option Principal) (minimum : Role) : Py Principal :=
  match principal with
  | None => Err (HTTPException 401 "authentication required")
  | Some p =>
    if (ROLE_LEVEL (principal_role p) <? ROLE_LEVEL minimum)%Z then
      Err (HTTPException 403 (role_name minimum +:+ " role required"))
    else Ok p
  end.

End Security.

(** ** The rate limiter *)
Definition float_sub (f g : float) : float := SFsub prec emax f g.

(** engine/api/security.py, lines 145-150 *)
Record FixedWindowRateLimiter : Type := mk_rate_limiter {
  rl_limit : Z;
  rl_requests : gmap string (list float)
}.

(** engine/api/security.py, lines 156-157: [while requests and requests[0] <= cutoff]. *)
Fixpoint pop_until (cutoff : float) (requests : list float) : list float :=
  match requests with
  | [] => []
  | r :: rest => if SFleb r cutoff then pop_until cutoff rest else requests
  end.

(** engine/api/security.py, lines 152-162: of [time.monotonic()]. *)
Definition allow (limiter : FixedWindowRateLimiter) (identity : string) (current : float)
    : Py (bool * Z) * FixedWindowRateLimiter :=
  let cutoff := float_sub current (float_of_Z 60) in
  let requests := pop_until cutoff (default [] (rl_requests limiter !! identity)) in
  let stored l := mk_rate_limiter (rl_limit limiter) (<[identity := l]> (rl_requests limiter)) in
  if (rl_limit limiter <=? Z.of_nat (length requests))%Z then
    match requests with
    | [] => (Err (IndexError "deque index out of range"), stored requests)
    | r :: _ =>
      (Ok (false, Z.max 1 (float_trunc (float_sub (float_of_Z 60) (float_sub current r)))),
       stored requests)
    end
  else (Ok (true, 0%Z), stored (requests ++ [current])).

(** ** The body limit *)

(** A message of the ASGI [receive]: a piece of the body, or something else. *)
Inductive Message : Type := http_request (body_length : Z) | other_message.

(** engine/api/security.py, lines 188-197: [limited_receive] on the messages
    the application reads; the bytes received, or the exception. *)
Definition limited_receive (max_bytes received : Z) (message : Message) : Py Z :=
  match message with
  | http_request n =>
    if (max_bytes <? received + n)%Z then Err RequestBodyTooLarge else Ok (received + n)%Z
  | other_message => Ok received
  end.

(** What the client gets: the application's own answer, or a rejection. *)
Inductive Answer : Type := app_answers | rejected (status_code : Z).

(** engine/api/security.py, lines 165-209: [reads] is what the application
    reads of the request. *)
Definition body_limit `{PyText} (max_bytes : Z) (is_http : bool) (content_length : option string)
    (reads : list Message) : Answer :=
  let streamed :=
    match foldM (limited_receive max_bytes) 0%Z reads with
    | Ok _ => app_answers
    | Err _ => rejected 413
    end in
  if negb is_http then app_answers
  else match content_length with
       | None => streamed
       | Some raw =>
         match int_of_str raw with
         | None => rejected 400
         | Some n => if (max_bytes <? n)%Z then rejected 413 else streamed
         end
       end.

(** ** What they promise *)
Section limiter.

(** A run of calls of [allow] for one identity: the limiter, the times of the
    calls and the times at which it allowed one. *)
Fixpoint allow_all (limiter : FixedWindowRateLimiter) (identity : string) (times : list float)
    : FixedWindowRateLimiter * list float :=
  match times with
  | [] => (limiter, [])
  | t :: times =>
    let '(r, limiter) := allow limiter identity t in
    let '(limiter, allowed) := allow_all limiter identity times in
    (limiter, match r with Ok (true, _) => t :: allowed | _ => allowed end)
  end.

(** A request allowed at [r] counts until a call 60 seconds later. *)
Definition counts (times : list float) (r : float) : bool :=
  negb (existsb (fun t => SFleb r (float_sub t (float_of_Z 60))) times).

Lemma pop_until_spec cutoff q :
  ∃ gone, q = gone ++ pop_until cutoff q ∧ Forall (fun r => SFleb r cutoff = true) gone.
Proof.
  induction q as [|r q IH]; [by exists []|]. simpl. destruct (SFleb r cutoff) eqn:E.
  - destruct IH as (gone & Hq & Hg). exists (r :: gone). simpl. rewrite <- Hq. split; [done|by constructor].
  - exists []. done.
Qed.

Lemma counts_app ts ts' r : counts (ts ++ ts') r = counts ts r && counts ts' r.
Proof. unfold counts. by rewrite existsb_app, negb_orb. Qed.

(** What a limiter remembers of an identity: what was allowed, less requests
    that count no more. *)
Definition remembers (limiter : FixedWindowRateLimiter) (identity : string) (times log : list float) : Prop :=
  ∃ gone, log = gone ++ default [] (rl_requests limiter !! identity) ∧
    Forall (fun r => counts times r = false) gone ∧
    (Z.of_nat (length (default [] (rl_requests limiter !! identity))) ≤ Z.max 0 (rl_limit limiter))%Z.

Lemma allow_remembers limiter identity times log t r limiter' :
  remembers limiter identity times log → allow limiter identity t = (r, limiter') →
  remembers limiter' identity (times ++ [t])
    (log ++ match r with Ok (true, _) => [t] | _ => [] end) ∧ rl_limit limiter' = rl_limit limiter.
Proof.
  intros (gone & Hlog & Hgone & Hlen) Ha. unfold allow in Ha. cbv zeta in Ha.
  set (q := default [] (rl_requests limiter !! identity)) in *.
  destruct (pop_until_spec (float_sub t (float_of_Z 60)) q) as (more & Hq & Hmore).
  set (q' := pop_until _ q) in *.
  assert (Forall (fun r => counts (times ++ [t]) r = false) (gone ++ more)) as Hall.
  { apply Forall_app. split; (eapply Forall_impl; [eassumption|]); intros x Hx; rewrite counts_app.
    - by rewrite Hx.
    - apply andb_false_iff. right. unfold counts. cbn [existsb]. by rewrite Hx. }
  assert (length q' ≤ length q) as Hle by (pose proof (f_equal length Hq) as Hlq; rewrite length_app in Hlq; lia).
  assert (∀ l, remembers (mk_rate_limiter (rl_limit limiter) (<[identity := q' ++ l]> (rl_requests limiter)))
            identity (times ++ [t]) (log ++ l) ↔
          (Z.of_nat (length (q' ++ l)) ≤ Z.max 0 (rl_limit limiter))%Z ∨ False) as Hrem.
  { intros l. unfold remembers. simpl. rewrite lookup_insert_eq. simpl. split.
    - intros (? & _ & _ & ?). by left.
    - intros [?|[]]. exists (gone ++ more). split_and!; [|done|done].
      rewrite (assoc_L (++)), <- (assoc_L (++) gone), <- Hq. by rewrite Hlog. }
  destruct (Z.leb_spec (rl_limit limiter) (Z.of_nat (length q'))).
  - pose proof (Hrem []) as Hnil. rewrite !app_nil_r in Hnil.
    destruct q' as [|x q''] eqn:Hq'; injection Ha as <- <-; rewrite app_nil_r;
      (split; [apply Hnil; left; simpl in *; lia|done]).
  - injection Ha as <- <-. split; [|done]. apply Hrem. left. rewrite length_app. simpl. lia.
Qed.

Lemma remembers_bound limiter identity times log :
  remembers limiter identity times log →
  (Z.of_nat (length (filter (fun r => counts times r = true) log)) ≤ Z.max 0 (rl_limit limiter))%Z.
Proof.
  intros (gone & -> & Hgone & Hlen). rewrite filter_app, length_app.
  assert (filter (fun r => counts times r = true) gone = []) as ->.
  { apply elem_of_nil_inv. intros r [Hc Hin]%list_elem_of_filter.
    rewrite Forall_forall in Hgone. rewrite (Hgone _ Hin) in Hc. done. }
  simpl. etrans; [|exact Hlen]. apply inj_le, length_filter.
Qed.

Lemma allow_all_remembers limiter identity times log ts limiter' allowed :
  remembers limiter identity times log → allow_all limiter identity ts = (limiter', allowed) →
  remembers limiter' identity (times ++ ts) (log ++ allowed) ∧ rl_limit limiter' = rl_limit limiter.
Proof.
  revert limiter times log allowed. induction ts as [|t ts IH]; intros limiter times log allowed Hrem Ha.
  { injection Ha as <- <-. by rewrite !app_nil_r. }
  simpl in Ha. destruct (allow limiter identity t) as [r l1] eqn:E1.
  destruct (allow_all l1 identity ts) as [l2 a] eqn:E2. injection Ha as <- <-.
  destruct (allow_remembers _ _ _ _ _ _ _ Hrem E1) as [Hrem1 Hl1].
  destruct (IH _ _ _ _ Hrem1 E2) as [Hrem2 Hl2]. split; [|congruence].
  rewrite <- !(assoc_L (++)) in Hrem2. simpl in Hrem2. by destruct r as [[[] ?]|].
Qed.
End limiter.

(** C40 The rate limit bounds every window: of the requests of a principal that
    were allowed, at most [requests_per_minute] have not been followed by a
    request 60 seconds later, whatever the times of the requests. *)
Theorem rate_limit_window limit identity times limiter allowed :
  (1 ≤ limit)%Z → allow_all (mk_rate_limiter limit ∅) identity times = (limiter, allowed) →
  (Z.of_nat (length (filter (fun r => counts times r = true) allowed)) ≤ limit)%Z.
Proof.
  intros Hl Ha. assert (remembers (mk_rate_limiter limit ∅) identity [] []) as H0.
  { exists []. cbn [rl_requests rl_limit]. rewrite lookup_empty. split_and!; [done|done|simpl; lia]. }
  destruct (allow_all_remembers _ _ _ _ _ _ _ H0 Ha) as [Hrem Hlim].
  apply remembers_bound in Hrem. rewrite Hlim in Hrem. simpl in *. lia.
Qed.

(** Exceeding the limit: the answer of [allow] is never an exception, a
    refusal asks to wait at least one second and records nothing, and the other
    principals are not affected. *)
Theorem allow_isolated limiter identity current r limiter' other :
  (1 ≤ rl_limit limiter)%Z → allow limiter identity current = (r, limiter') →
  (∃ allowed retry_after, r = Ok (allowed, retry_after) ∧
     (allowed = false → (1 ≤ retry_after)%Z ∧
        default [] (rl_requests limiter' !! identity) `suffix_of`
        default [] (rl_requests limiter !! identity))) ∧
  (other ≠ identity → rl_requests limiter' !! other = rl_requests limiter !! other).
Proof.
  intros Hl Ha. unfold allow in Ha. cbv zeta in Ha.
  destruct (pop_until_spec (float_sub current (float_of_Z 60))
    (default [] (rl_requests limiter !! identity))) as (gone & Hq & _).
  set (q' := pop_until _ _) in *.
  destruct (Z.leb_spec (rl_limit limiter) (Z.of_nat (length q'))).
  - destruct q' as [|x q''] eqn:Hq'; [simpl in *; lia|]. injection Ha as <- <-. split.
    + eexists _, _. split; [done|]. intros _. split; [lia|]. simpl. rewrite lookup_insert_eq. simpl.
      by exists gone.
    + intros Hne. simpl. by rewrite lookup_insert_ne.
  - injection Ha as <- <-. split; [by eexists _, _|]. intros Hne. simpl. by rewrite lookup_insert_ne.
Qed.

Section auth.
Context `{PyStd} `{PyText}.

Lemma foldl_last_match digest keys found k :
  foldl (fun found k => if String.eqb digest (key_digest k) then Some k else found) found keys = Some k →
  (k ∈ keys ∧ key_digest k = digest) ∨ found = Some k.
Proof.
  revert found. induction keys as [|k0 keys IH]; intros found; simpl; [by right|].
  intros [[Hin Hd]|Hf]%IH; [left; split; [by right|done]|].
  destruct (String.eqb_spec digest (key_digest k0)); [|by right].
  left. injection Hf as ->. split; [by left|done].
Qed.

Lemma foldl_some_match digest keys found :
  (∃ k, k ∈ keys ∧ key_digest k = digest) ∨ is_Some found →
  is_Some (foldl (fun found k => if String.eqb digest (key_digest k) then Some k else found) found keys).
Proof.
  revert found. induction keys as [|k0 keys IH]; intros found; simpl.
  { intros [(k & Hk & _)|?]; [by apply not_elem_of_nil in Hk|done]. }
  intros Hor. apply IH. destruct (String.eqb_spec digest (key_digest k0)) as [|Hne]; [by right|].
  destruct Hor as [(k & [->|Hk]%elem_of_cons & Hd)|?]; [by destruct Hne|left; by exists k|by right].
Qed.

(** In a validated configuration a digest is that of one key. *)
Lemma valid_digests config k k' :
  validate config = Ok tt → auth_disabled config = false →
  k ∈ auth_keys config → k' ∈ auth_keys config → key_digest k' = key_digest k → k' = k.
Proof.
  intros Hv Hd. assert (NoDup (map key_digest (auth_keys config))) as Hnd.
  { unfold validate in Hv. rewrite Hd in Hv. simpl in Hv.
    repeat case_match; try done.
    match goal with Hk : negb (bool_decide (NoDup (map key_digest _))) = false |- _ =>
      by apply negb_false_iff, bool_decide_eq_true in Hk end. }
  intros [i Hi]%list_elem_of_lookup [j Hj]%list_elem_of_lookup He.
  assert (i = j) as ->; [|congruence].
  apply (NoDup_lookup (map key_digest (auth_keys config)) i j (key_digest k)); [done| |].
  - change (map key_digest) with (fmap (M:=list) key_digest). by rewrite list_lookup_fmap, Hi.
  - change (map key_digest) with (fmap (M:=list) key_digest). by rewrite list_lookup_fmap, Hj, <- He.
Qed.

Lemma authenticate_key config k token :
  validate config = Ok tt → auth_disabled config = false →
  k ∈ auth_keys config → key_digest k = hexdigest token →
  authenticate config token = Some (mk_principal (key_id k) (key_role k)).
Proof.
  intros Hv Hd Hin Hk. unfold authenticate. rewrite Hd.
  destruct (foldl_some_match (hexdigest token) (auth_keys config) None) as [k' Hf]; [left; by exists k|].
  rewrite Hf. apply foldl_last_match in Hf as [[Hin' Hk']|?]; [|done].
  by rewrite (valid_digests config k k') by (done || congruence).
Qed.

(** Authentication with a validated configuration: a token is accepted as a
    principal exactly when it is the token of the one key with its digest; with
    authentication disabled every request is the development administrator. *)
Theorem authenticate_exact config token p :
  validate config = Ok tt →
  authenticate config token = Some p ↔
  if auth_disabled config then p = mk_principal "development" admin
  else ∃ k, k ∈ auth_keys config ∧ key_digest k = hexdigest token ∧
            p = mk_principal (key_id k) (key_role k) ∧
            ∀ k', k' ∈ auth_keys config → key_digest k' = hexdigest token → k' = k.
Proof.
  intros Hv. destruct (auth_disabled config) eqn:Hd.
  { unfold authenticate. rewrite Hd. naive_solver. }
  split.
  - unfold authenticate. rewrite Hd, fmap_Some. intros (k & Hf & ->).
    apply foldl_last_match in Hf as [[Hin Hk]|?]; [|done].
    exists k. split_and!; [done|done|done|]. intros k' Hin' Hk'.
    by apply (valid_digests config); [..|congruence].
  - intros (k & Hin & Hk & -> & _). by apply authenticate_key.
Qed.

(** The bytes a list of messages carries. *)
Fixpoint body_bytes (reads : list Message) : Z :=
  match reads with
  | [] => 0
  | http_request n :: reads => n + body_bytes reads
  | other_message :: reads => body_bytes reads
  end.

Lemma limited_bytes max_bytes received reads total :
  (received ≤ max_bytes)%Z → foldM (limited_receive max_bytes) received reads = Ok total →
  total = (received + body_bytes reads)%Z ∧ (total ≤ max_bytes)%Z.
Proof.
  revert received. induction reads as [|[n|] reads IH]; intros received Hr; simpl.
  - intros [= <-]. lia.
  - destruct (Z.ltb_spec max_bytes (received + n)); [done|]. intros [-> ?]%IH; [|done]. lia.
  - apply IH. done.
Qed.

(** The body limit: an HTTP request the application answers had a body of at
    most [max_bytes] bytes, streamed or not, and a declared length no larger;
    anything larger is rejected. *)
Theorem body_limit_bounds max_bytes content_length reads :
  (0 ≤ max_bytes)%Z → body_limit max_bytes true content_length reads = app_answers →
  (body_bytes reads ≤ max_bytes)%Z ∧
  ∀ raw n, content_length = Some raw → int_of_str raw = Some n → (n ≤ max_bytes)%Z.
Proof.
  intros Hm. unfold body_limit. simpl.
  destruct (foldM (limited_receive max_bytes) 0%Z reads) as [total|e] eqn:Hf.
  - apply limited_bytes in Hf as [-> Hle]; [|done]. intros Ha. split; [lia|].
    intros raw n -> Hn. rewrite Hn in Ha. destruct (Z.ltb_spec max_bytes n); [done|lia].
  - intros Ha. repeat case_match; done.
Qed.

End auth.
