(* ===== verification/Metrics.v ===== *)
(** * The metrics registry (engine/observability.py)

    Counters and histograms with labels, and their Prometheus text.  The ["g"]
    format of floats is a parameter.  The registry's lock makes each call one
    step.  Logging is not modelled. *)
From S2P Require Import Prelude Python.
From stdpp Require Import pretty.

Definition float_add (f g : float) : float := SFadd prec emax f g.
(** The double nearest [n / d]. *)
Definition decimal (n d : Z) : float := float_div (float_of_Z n) (float_of_Z d).

Definition Labels : Type := list (string * string).
Definition Series : Type := string * Labels.

(** Python's order of pairs, of tuples of pairs, and of series. *)
Definition pair_leb (a b : string * string) : bool :=
  if String.eqb a.1 b.1 then String.leb a.2 b.2 else String.leb a.1 b.1.
Fixpoint labels_leb (a b : Labels) : bool :=
  match a, b with
  | [], _ => true
  | _ :: _, [] => false
  | x :: a, y :: b => if bool_decide (x = y) then labels_leb a b else pair_leb x y
  end.
Definition series_leb (a b : Series) : bool :=
  if String.eqb a.1 b.1 then labels_leb a.2 b.2 else String.leb a.1 b.1.

(** engine/observability.py, lines 56-58: [not value or any(...)]. *)
Definition metric_char (a : Ascii.ascii) : bool :=
  let n := Ascii.N_of_ascii a in
  ((97 <=? n) && (n <=? 122) || (65 <=? n) && (n <=? 90) || (48 <=? n) && (n <=? 58)
   || (n =? 95))%N.
Fixpoint metric_chars (s : string) : bool :=
  match s with EmptyString => true | String a s => metric_char a && metric_chars s end.
Definition valid_metric_name (value : string) : bool :=
  negb (String.eqb value "") && metric_chars value.
Definition _validate_metric_name (value : string) : Py unit :=
  if valid_metric_name value then Ok tt else Err (ValueError ("invalid metric name: " +:+ value)).

(** [value.replace(chr(92), chr(92) * 2).replace(chr(34), chr(92) + chr(34))]. *)
Definition backslash : Ascii.ascii := Ascii.ascii_of_N 92.
Definition quote : Ascii.ascii := Ascii.ascii_of_N 34.
Fixpoint escape_label (s : string) : string :=
  match s with
  | EmptyString => ""
  | String a s =>
    if Ascii.eqb a backslash then String backslash (String backslash (escape_label s))
    else if Ascii.eqb a quote then String backslash (String quote (escape_label s))
    else String a (escape_label s)
  end.

(** engine/observability.py, lines 61-68 *)
Definition _labels (values : Labels) : string :=
  match values with
  | [] => ""
  | _ =>
    "{" +:+ String.concat ","
      (map (fun kv => kv.1 +:+ "=" +:+ String quote (escape_label kv.2 +:+ String quote "")) values)
    +:+ "}"
  end.

(** engine/observability.py, lines 74-85 *)
Definition HISTOGRAM_BUCKETS : list float :=
  [decimal 5 1000; decimal 1 100; decimal 25 1000; decimal 5 100; decimal 1 10; decimal 25 100;
   decimal 5 10; float_of_Z 1; decimal 25 10; float_of_Z 5].

(** engine/observability.py, lines 87-92 *)
Record MetricsRegistry : Type := mk_metrics {
  mr_counters : gmap Series float;
  mr_histograms : gmap Series (Z * float * list Z)
}.
Definition empty_metrics : MetricsRegistry := mk_metrics ∅ ∅.

(** [(name, tuple(sorted((labels or {}).items())))]. *)
Definition series (name : string) (labels : Labels) : Series := (name, order_by pair_leb labels).

(** engine/observability.py, lines 94-102 *)
Definition increment (name : string) (labels : Labels) (value : float) (m : MetricsRegistry)
    : Py MetricsRegistry :=
  _ ← _validate_metric_name name;
  if SFltb value (float_of_Z 0) then Err (ValueError "counter increments cannot be negative")
  else
    let key := series name labels in
    let old := default (float_of_Z 0) (mr_counters m !! key) in
    Ok (mk_metrics (<[key := float_add old value]> (mr_counters m)) (mr_histograms m)).

(** engine/observability.py, lines 111-113: the buckets [value] falls in. *)
Definition bucket_hits (value : float) (buckets : list Z) : list Z :=
  zip_with (fun boundary n => if SFleb value boundary then (n + 1)%Z else n) HISTOGRAM_BUCKETS buckets.

(** engine/observability.py, lines 104-114 *)
Definition observe (name : string) (value : float) (labels : Labels) (m : MetricsRegistry)
    : Py MetricsRegistry :=
  _ ← _validate_metric_name name;
  let key := series name labels in
  let '(count, total, buckets) :=
    default (0%Z, float_of_Z 0, repeat 0%Z (length HISTOGRAM_BUCKETS)) (mr_histograms m !! key) in
  Ok (mk_metrics (mr_counters m)
        (<[key := ((count + 1)%Z, float_add total value, bucket_hits value buckets)]> (mr_histograms m))).

(** ** The text exposition *)
Section render.
Context (format_g : float → string).

(** The lines so far, and the names declared. *)
Definition Rendering : Type := list string * list string.

Definition declare (name kind : string) (r : Rendering) : Rendering :=
  if bool_decide (name ∈ r.2) then r
  else (r.1 ++ ["# TYPE " +:+ name +:+ " " +:+ kind], name :: r.2).

(** engine/observability.py, lines 122-126 *)
Definition render_counter (r : Rendering) (entry : Series * float) : Rendering :=
  let '((name, labels), value) := entry in
  let r := declare name "counter" r in
  (r.1 ++ [name +:+ _labels labels +:+ " " +:+ format_g value], r.2).

(** The labels with [le], sorted. *)
Definition with_le (labels : Labels) (boundary : string) : Labels :=
  order_by pair_leb (labels ++ [("le", boundary)]).

(** engine/observability.py, lines 127-137 *)
Definition render_histogram (r : Rendering) (entry : Series * (Z * float * list Z)) : Rendering :=
  let '((name, labels), (count, total, buckets)) := entry in
  let r := declare name "histogram" r in
  let line suffix labels value := name +:+ suffix +:+ _labels labels +:+ " " +:+ value in
  (r.1
   ++ zip_with (fun boundary n => line "_bucket" (with_le labels (format_g boundary)) (pretty n))
        HISTOGRAM_BUCKETS buckets
   ++ [line "_bucket" (with_le labels "+Inf") (pretty count);
       line "_sum" labels (format_g total);
       line "_count" labels (pretty count)], r.2).

(** engine/observability.py, lines 138-141 *)
Definition render_gauge (lines : list string) (gauge : string * float) : Py (list string) :=
  _ ← _validate_metric_name gauge.1;
  Ok (lines ++ ["# TYPE " +:+ gauge.1 +:+ " gauge"; gauge.1 +:+ " " +:+ format_g gauge.2]).

(** engine/observability.py, lines 116-142 *)
Definition render (gauges : list (string * float)) (m : MetricsRegistry) : Py string :=
  let by_key {A} : list (Series * A) → list (Series * A) :=
    order_by (fun x y => series_leb x.1 y.1) in
  let r := foldl render_counter ([], []) (by_key (map_to_list (mr_counters m))) in
  let r := foldl render_histogram r (by_key (map_to_list (mr_histograms m))) in
  lines ← foldM render_gauge r.1 (order_by (fun x y => String.leb x.1 y.1) gauges);
  Ok (String.concat newline lines +:+ newline).
End render.

(** ** The registry is exact *)

(** The calls that write the registry; one that raises writes nothing. *)
Inductive MetricCall : Type :=
| call_increment (name : string) (labels : Labels) (value : float)
| call_observe (name : string) (value : float) (labels : Labels).

Definition run_call (m : MetricsRegistry) (c : MetricCall) : MetricsRegistry :=
  match match c with
        | call_increment name labels value => increment name labels value m
        | call_observe name value labels => observe name value labels m
        end with
  | Ok m => m
  | Err _ => m
  end.

(** The values a series received. *)
Definition counted (key : Series) (c : MetricCall) : option float :=
  match c with
  | call_increment name labels value =>
    if valid_metric_name name && negb (SFltb value (float_of_Z 0))
       && bool_decide (series name labels = key) then Some value else None
  | call_observe _ _ _ => None
  end.
Definition observed (key : Series) (c : MetricCall) : option float :=
  match c with
  | call_observe name value labels =>
    if valid_metric_name name && bool_decide (series name labels = key) then Some value else None
  | call_increment _ _ _ => None
  end.

(** Reference definitions: the sum and the histogram of a list of values. *)
Definition sum_of (values : list float) : float := foldl float_add (float_of_Z 0) values.
Definition at_most (boundary : float) (values : list float) : Z :=
  Z.of_nat (length (filter (fun v => SFleb v boundary = true) values)).
Definition counter_of (values : list float) : option float :=
  match values with [] => None | _ => Some (sum_of values) end.
Definition histogram_of (values : list float) : option (Z * float * list Z) :=
  match values with
  | [] => None
  | _ => Some (Z.of_nat (length values), sum_of values,
               map (fun b => at_most b values) HISTOGRAM_BUCKETS)
  end.

Lemma at_most_snoc b values v :
  at_most b (values ++ [v]) = (if SFleb v b then at_most b values + 1 else at_most b values)%Z.
Proof.
  unfold at_most. rewrite filter_app, length_app, filter_cons. destruct (SFleb v b); simpl; lia.
Qed.

Lemma bucket_hits_snoc v values :
  bucket_hits v (map (fun b => at_most b values) HISTOGRAM_BUCKETS) =
  map (fun b => at_most b (values ++ [v])) HISTOGRAM_BUCKETS.
Proof.
  unfold bucket_hits. induction HISTOGRAM_BUCKETS as [|b bs IH]; [done|].
  simpl. rewrite IH. f_equal. by rewrite at_most_snoc.
Qed.

Lemma no_hits : repeat 0%Z (length HISTOGRAM_BUCKETS) = map (fun b => at_most b []) HISTOGRAM_BUCKETS.
Proof. induction HISTOGRAM_BUCKETS as [|b bs IH]; [done|]. simpl. by rewrite IH. Qed.

Lemma counter_of_snoc l v :
  counter_of (l ++ [v]) = Some (float_add (default (float_of_Z 0) (counter_of l)) v).
Proof.
  unfold counter_of, sum_of. destruct l as [|x l]; [done|].
  change ((x :: l) ++ [v]) with (x :: (l ++ [v])). cbn [default foldl]. by rewrite foldl_snoc.
Qed.

Lemma histogram_of_snoc l v :
  histogram_of (l ++ [v]) =
    (let '(count, total, buckets) :=
       default (0%Z, float_of_Z 0, repeat 0%Z (length HISTOGRAM_BUCKETS)) (histogram_of l) in
     Some ((count + 1)%Z, float_add total v, bucket_hits v buckets)).
Proof.
  unfold histogram_of. destruct l as [|x l].
  - cbn [from_option app]. rewrite no_hits. cbv beta iota. by rewrite (bucket_hits_snoc v []).
  - change ((x :: l) ++ [v]) with (x :: (l ++ [v])). cbv beta iota delta [from_option id]. rewrite (bucket_hits_snoc v (x :: l)).
    change (x :: l ++ [v]) with ((x :: l) ++ [v]). unfold sum_of. rewrite foldl_snoc, length_app.
    cbn [length]. do 3 f_equal. lia.
Qed.

(** The registry is exact: after any sequence of calls, those that raise
    included, the counter of every series is the sum of its increments and its
    histogram is that of its observations -- their number, their sum and, per
    bucket, how many are at most its boundary. *)
Theorem metrics_exact calls key :
  let m := foldl run_call empty_metrics calls in
  mr_counters m !! key = counter_of (omap (counted key) calls) ∧
  mr_histograms m !! key = histogram_of (omap (observed key) calls).
Proof.
  cbv zeta. induction calls as [|c calls [IHc IHh]] using rev_ind; [done|].
  rewrite foldl_snoc, !omap_app. set (m := foldl run_call empty_metrics calls) in *.
  destruct c as [name labels value|name value labels]; unfold run_call, increment, observe,
    _validate_metric_name; cbn -[float_of_Z];
    (destruct (valid_metric_name name); cbn -[float_of_Z];
      [|rewrite !app_nil_r; by split]).
  - destruct (SFltb value (float_of_Z 0)); cbn -[float_of_Z]; rewrite !app_nil_r; [by split|].
    split; [|done]. destruct (bool_decide_reflect (series name labels = key)) as [<-|Hne].
    + rewrite lookup_insert_eq, counter_of_snoc. by rewrite IHc.
    + by rewrite lookup_insert_ne, app_nil_r.
  - rewrite app_nil_r.
    destruct (bool_decide_reflect (series name labels = key)) as [<-|Hne].
    + rewrite histogram_of_snoc, <- IHh.
      destruct (default _ (mr_histograms m !! _)) as [[count total] buckets]. simpl.
      by rewrite lookup_insert_eq.
    + rewrite app_nil_r. destruct (default _ (mr_histograms m !! series name labels)) as [[count total] buckets].
      simpl. by rewrite lookup_insert_ne.
Qed.
