(* ===== verification/Migrations.v ===== *)
(** * The migration runner (engine/persistence/migrations.py)

    The runner applies local SQL files to a database once each, in order, and
    refuses a database whose recorded migrations differ from the files.  The
    files of the directory are an argument, and so is what PostgreSQL does with
    the SQL of a migration: [run_sql], on tables of any type [S]. *)
From S2P Require Import Prelude Python Config.

(** engine/persistence/migrations.py, lines 35-40 *)
Record Migration : Type := mk_migration {
  mig_version : string;
  mig_name : string;
  mig_checksum : string;
  mig_sql : string
}.

(** The database as the runner sees it: its tables, the rows of
    [schema_migrations] (version to name and checksum), and whether this
    connection holds the advisory lock. *)
Record SchemaDB (S : Type) : Type := mk_schema_db {
  sd_tables : S;
  sd_migrations : gmap string (string * string);
  sd_locked : bool
}.
Arguments mk_schema_db {S}.
Arguments sd_tables {S}.
Arguments sd_migrations {S}.
Arguments sd_locked {S}.

Section Migrations.
Context `{PyStd} `{PyText} {S : Type} (run_sql : string → S → Py S).

(** engine/persistence/migrations.py, lines 47-62: one file, by its stem and
    text. *)
Definition discover_file (migrations : list Migration) (file : string * string) : Py (list Migration) :=
  let '(stem, sql) := file in
  match partition_on (Ascii.ascii_of_N 95) stem with
  | (version, Some name) =>
    if negb (str_isdigit version) || String.eqb name "" then
      Err (MigrationError ("invalid migration filename: " +:+ stem +:+ ".sql"))
    else if bool_decide (version ∈ map mig_version migrations) then
      Err (MigrationError ("duplicate migration version: " +:+ version))
    else Ok (migrations ++ [mk_migration version name (hex 64 (sha256 sql)) sql])
  | (_, None) => Err (MigrationError ("invalid migration filename: " +:+ stem +:+ ".sql"))
  end.

(** engine/persistence/migrations.py, lines 43-65: [files] is
    [sorted(directory.glob("*.sql"))]. *)
Definition discover_migrations (files : list (string * string)) : Py (list Migration) :=
  migrations ← foldM discover_file [] files;
  if bool_decide (migrations = []) then Err (MigrationError "no migrations found")
  else Ok migrations.

(** engine/persistence/migrations.py, lines 91-107: one migration, with what was
    recorded when the run began. *)
Definition apply_migration (applied : gmap string (string * string)) (db : SchemaDB S)
    (migration : Migration) : Py (SchemaDB S) :=
  match applied !! mig_version migration with
  | Some (_, existing_checksum) =>
    if negb (String.eqb existing_checksum (mig_checksum migration)) then
      Err (MigrationError ("migration " +:+ mig_version migration +:+ " checksum changed"))
    else Ok db
  | None =>
    tables ← run_sql (mig_sql migration) (sd_tables db);
    match sd_migrations db !! mig_version migration with
    | Some _ => Err (UniqueViolation "schema_migrations_pkey")
    | None =>
      Ok (mk_schema_db tables
            (<[mig_version migration := (mig_name migration, mig_checksum migration)]>
               (sd_migrations db)) (sd_locked db))
    end
  end.

(** The loop: each migration commits on its own, an exception leaves what was
    committed before it. *)
Fixpoint apply_each (applied : gmap string (string * string)) (migrations : list Migration)
    (db : SchemaDB S) : Py unit * SchemaDB S :=
  match migrations with
  | [] => (Ok tt, db)
  | m :: migrations =>
    match apply_migration applied db m with
    | Ok db => apply_each applied migrations db
    | Err e => (Err e, db)
    end
  end.

Definition set_locked (b : bool) (db : SchemaDB S) : SchemaDB S :=
  mk_schema_db (sd_tables db) (sd_migrations db) b.

(** The recorded versions that no local file has. *)
Definition unknown_versions (migrations : list Migration) (applied : gmap string (string * string))
    : list string :=
  filter (fun v => v ∉ map mig_version migrations) (map fst (map_to_list applied)).

(** engine/persistence/migrations.py, lines 68-109: of a database that has the
    table [schema_migrations]. *)
Definition apply_migrations (migrations : list Migration) (db : SchemaDB S)
    : Py unit * SchemaDB S :=
  let db := set_locked true db in
  let applied := sd_migrations db in
  let '(r, db) :=
    if bool_decide (unknown_versions migrations applied = []) then apply_each applied migrations db
    else (Err (MigrationError "database contains unknown migrations"), db) in
  (r, set_locked false db).

(** ** What the runner promises *)
Lemma discover_file_nodup ms f ms' :
  NoDup (map mig_version ms) → discover_file ms f = Ok ms' → NoDup (map mig_version ms').
Proof.
  intros Hnd. unfold discover_file. destruct f as [stem sql].
  destruct (partition_on _ stem) as [version [name|]]; [|done]. case_match; [done|].
  destruct (bool_decide_reflect (version ∈ map mig_version ms)) as [|Hin]; [done|]. intros [= <-].
  rewrite map_app. apply NoDup_app. split_and!; [done| |apply NoDup_singleton].
  by intros x Hx ->%list_elem_of_singleton.
Qed.

(** The local migrations have distinct versions. *)
Lemma discover_nodup files ms : discover_migrations files = Ok ms → NoDup (map mig_version ms).
Proof.
  unfold discover_migrations, mbind, Result_bind.
  destruct (foldM discover_file [] files) as [l|e] eqn:Hf; [|done]. case_bool_decide; [done|].
  intros [= <-].
  apply (foldM_ind discover_file (fun _ ms => NoDup (map mig_version ms)) [] files l); [constructor| |done].
  intros _ ms f ms' Hnd. by apply discover_file_nodup.
Qed.

Definition recorded (m : Migration) (db : SchemaDB S) : Prop :=
  sd_migrations db !! mig_version m = Some (mig_name m, mig_checksum m).

(** The migrations that are recorded with their checksum. *)
Definition is_applied (applied : gmap string (string * string)) (m : Migration) : Prop :=
  ∃ name, applied !! mig_version m = Some (name, mig_checksum m).

Lemma apply_each_applied applied ms db :
  (∀ m, m ∈ ms → is_applied applied m) → apply_each applied ms db = (Ok tt, db).
Proof.
  induction ms as [|m ms IH]; intros Hall; [done|]. simpl.
  destruct (Hall m) as [name Hm]; [by left|]. unfold apply_migration. rewrite Hm, String.eqb_refl. simpl.
  apply IH. intros m' ?. apply Hall. by right.
Qed.

(** A run that succeeds applies the SQL of the pending migrations, in order, and
    leaves every migration recorded. *)
Lemma apply_each_ok applied ms db db' :
  apply_each applied ms db = (Ok tt, db') →
  foldM (fun t m => run_sql (mig_sql m) t) (sd_tables db)
    (filter (fun m => applied !! mig_version m = None) ms) = Ok (sd_tables db') ∧
  (∀ m, m ∈ ms → is_applied applied m ∨ applied !! mig_version m = None) ∧
  sd_migrations db ⊆ sd_migrations db' ∧
  (∀ m, m ∈ ms → applied !! mig_version m = None →
     sd_migrations db' !! mig_version m = Some (mig_name m, mig_checksum m)) ∧
  (∀ v, v ∈ dom (sd_migrations db') → v ∈ dom (sd_migrations db) ∨ v ∈ map mig_version ms).
Proof.
  revert db. induction ms as [|m ms IH]; intros db; simpl.
  { intros [= <-]. split_and!; try done; [intros ? Hm..|by left]; by apply not_elem_of_nil in Hm. }
  unfold apply_migration. destruct (applied !! mig_version m) as [[name c]|] eqn:Ha.
  - destruct (String.eqb_spec c (mig_checksum m)) as [->|]; [|done]. simpl.
    intros (H1 & H2 & H3 & H4 & H5)%IH.
    rewrite filter_cons_False by (by rewrite Ha). split_and!; [done| |done| |].
    + intros m' [->|?]%elem_of_cons; [left; by exists name|by apply H2].
    + intros m' [->|?]%elem_of_cons; [by rewrite Ha|by apply H4].
    + intros v [?|?]%H5; [by left|right; by right].
  - unfold mbind, Result_bind. destruct (run_sql (mig_sql m) (sd_tables db)) as [t|e] eqn:Hs; [|done].
    destruct (sd_migrations db !! mig_version m) as [x|] eqn:Hm; [done|].
    intros (H1 & H2 & H3 & H4 & H5)%IH. cbn [sd_tables sd_migrations] in *.
    rewrite filter_cons_True by done. simpl. rewrite Hs. split_and!; [done| | | |].
    + intros m' [->|?]%elem_of_cons; [by right|by apply H2].
    + etrans; [by apply insert_subseteq|done].
    + intros m' [->|?]%elem_of_cons; [|by apply H4]. intros _. eapply lookup_weaken; [|done].
      apply lookup_insert_eq.
    + intros v [Hv|?]%H5; [|right; by right]. apply elem_of_dom in Hv as [y Hy].
      apply lookup_insert_Some in Hy as [[<- _]|[_ Hy]]; [right; by left|left].
      apply elem_of_dom. by exists y.
Qed.

Lemma unknown_nil ms applied :
  (∀ v, v ∈ dom applied → v ∈ map mig_version ms) → unknown_versions ms applied = [].
Proof.
  intros Hdom. apply elem_of_nil_inv. intros v [Hv Hin]%list_elem_of_filter. apply Hv, Hdom.
  apply list_elem_of_fmap in Hin as ([v' x] & -> & Hx%elem_of_map_to_list). simpl.
  apply elem_of_dom. by exists x.
Qed.

Lemma unknown_dom ms applied v :
  unknown_versions ms applied = [] → v ∈ dom applied → v ∈ map mig_version ms.
Proof.
  intros Hu [x Hx]%elem_of_dom. destruct (decide (v ∈ map mig_version ms)) as [|Hv]; [done|].
  exfalso. apply (not_elem_of_nil v). rewrite <- Hu. apply list_elem_of_filter. split; [done|].
  apply list_elem_of_fmap. exists (v, x). split; [done|]. by apply elem_of_map_to_list.
Qed.

(** C39 A successful migration ran exactly the SQL of the migrations that were
    not recorded, in file order, and recorded every local migration; running it
    again changes nothing. *)
Theorem migrate_once ms db db' :
  apply_migrations ms db = (Ok tt, db') →
  foldM (fun t m => run_sql (mig_sql m) t) (sd_tables db)
    (filter (fun m => sd_migrations db !! mig_version m = None) ms) = Ok (sd_tables db') ∧
  (∀ m, m ∈ ms → is_applied (sd_migrations db') m) ∧
  apply_migrations ms db' = (Ok tt, db').
Proof.
  unfold apply_migrations. cbn [set_locked sd_migrations].
  case_bool_decide as Hu; [|done]. destruct (apply_each _ ms _) as [r db1] eqn:Ha.
  intros [= -> <-]. apply apply_each_ok in Ha as (H1 & H2 & H3 & H4 & H5). cbn [set_locked sd_tables sd_migrations] in *.
  assert (∀ m, m ∈ ms → is_applied (sd_migrations db1) m) as Hall.
  { intros m Hm. destruct (H2 m Hm) as [[name Hn]|Hn].
    - exists name. by eapply lookup_weaken.
    - exists (mig_name m). by apply H4. }
  split_and!; [done|done|]. rewrite bool_decide_eq_true_2.
  - by rewrite apply_each_applied.
  - apply unknown_nil. intros v [?|?]%H5; [by eapply unknown_dom|done].
Qed.

(** A run that fails stops at one migration. *)
Lemma apply_each_err applied ms db e db' :
  apply_each applied ms db = (Err e, db') →
  sd_migrations db ⊆ sd_migrations db' ∧
  ∃ done_, done_ `prefix_of` filter (fun m => applied !! mig_version m = None) ms ∧
    foldM (fun t m => run_sql (mig_sql m) t) (sd_tables db) done_ = Ok (sd_tables db') ∧
    ∀ m, m ∈ done_ → is_applied (sd_migrations db') m.
Proof.
  assert (∀ (d : SchemaDB S) (l : list Migration), [] `prefix_of` l ∧
    foldM (fun t m => run_sql (mig_sql m) t) (sd_tables d) [] = Ok (sd_tables d) ∧
    ∀ m, m ∈ [] → is_applied (sd_migrations d) m) as Hnil.
  { intros d l. split_and!; [apply prefix_nil|done|by intros m ?%not_elem_of_nil]. }
  revert db. induction ms as [|m ms IH]; intros db; simpl; [done|].
  unfold apply_migration. destruct (applied !! mig_version m) as [[name c]|] eqn:Ha.
  - rewrite filter_cons_False by (by rewrite Ha).
    destruct (negb (String.eqb c (mig_checksum m))); [|by apply IH].
    intros [= _ <-]. split; [done|]. exists []. apply Hnil.
  - unfold mbind, Result_bind. rewrite filter_cons_True by done.
    destruct (run_sql (mig_sql m) (sd_tables db)) as [t|e1] eqn:Hs;
      [|intros [= _ <-]; split; [done|]; exists []; apply Hnil].
    destruct (sd_migrations db !! mig_version m) as [x|] eqn:Hm;
      [intros [= _ <-]; split; [done|]; exists []; apply Hnil|].
    intros (H1 & done_ & H2 & H3 & H4)%IH. cbn [sd_tables sd_migrations] in *.
    split; [etrans; [by apply insert_subseteq|done]|].
    exists (m :: done_). split_and!; [by apply prefix_cons|simpl; by rewrite Hs|].
    intros m' [->|?]%elem_of_cons; [|by apply H4]. exists (mig_name m).
    eapply lookup_weaken; [|done]. apply lookup_insert_eq.
Qed.

(** A failed migration is atomic per file and resumable: the lock is
    released, the migrations recorded before stay, and those the failed run
    committed are recorded -- so a later run executes only the others. *)
Theorem migrate_resumes ms db e db' :
  apply_migrations ms db = (Err e, db') →
  sd_locked db' = false ∧ sd_migrations db ⊆ sd_migrations db' ∧
  ∃ done_, done_ `prefix_of` filter (fun m => sd_migrations db !! mig_version m = None) ms ∧
    foldM (fun t m => run_sql (mig_sql m) t) (sd_tables db) done_ = Ok (sd_tables db') ∧
    ∀ m, m ∈ done_ → is_applied (sd_migrations db') m.
Proof.
  unfold apply_migrations. cbn [set_locked sd_migrations]. case_bool_decide as Hu.
  - destruct (apply_each _ ms _) as [r db1] eqn:Ha. intros [= -> <-].
    split; [done|]. by apply apply_each_err in Ha.
  - intros [= _ <-]. split_and!; [done..|]. exists [].
    split_and!; [apply prefix_nil|done|by intros m ?%not_elem_of_nil].
Qed.

End Migrations.
