(* ===== verification/Database.v ===== *)
(** * The durable store (migrations/*.sql, engine/persistence/database.py)

    The PostgreSQL tables as finite maps and lists, their constraints as checks
    of the insertions, and the monad [M] of persistence code: it reads an
    environment (the transaction's [now()], the clocks, [uuid4], the jitter and
    the rows other transactions hold locked), threads the database, and raises
    exceptions.  [transaction] rolls the database back when its body raises.
    Transactions are atomic steps: the row locks of the source ([for update],
    [skip locked]) serialise them on the execution row, and what a concurrent
    transaction holds is the set [env_locked] that [skip locked] skips. *)
From S2P Require Import Prelude Python Serialization History.

(** ** Enumerations and rows *)
Inductive WorkflowStatus : Type := WRunning | WCompleted | WFailed | WTerminated.
Inductive TaskStatus : Type := TPending | TLeased | TCompleted | TDead.
Inductive TaskType : Type := TWorkflow | TActivity | TTimer.
Inductive UpdateStatus : Type := UPending | UCompleted | URejected.
#[export] Instance WorkflowStatus_eq_dec : EqDecision WorkflowStatus.
Proof. solve_decision. Defined.
#[export] Instance TaskStatus_eq_dec : EqDecision TaskStatus.
Proof. solve_decision. Defined.
#[export] Instance TaskType_eq_dec : EqDecision TaskType.
Proof. solve_decision. Defined.
#[export] Instance UpdateStatus_eq_dec : EqDecision UpdateStatus.
Proof. solve_decision. Defined.

Definition workflow_status_name (s : WorkflowStatus) : string :=
  match s with
  | WRunning => "running" | WCompleted => "completed"
  | WFailed => "failed" | WTerminated => "terminated"
  end.

(** Table [workflow_executions] (its primary key [id] is the key of the map). *)
Record Execution : Type := mk_execution {
  exec_workflow_type : string;
  exec_definition_version : Z;
  exec_input : JSON;
  exec_status : WorkflowStatus;
  exec_result : option JSON;
  exec_failure : option JSON;
  exec_next_seq : Z;
  exec_queue_name : string;
  exec_created_at : Timestamp;
  exec_closed_at : option Timestamp;
  exec_cancellation_requested_at : option Timestamp;
  exec_cancellation_reason : option string;
  exec_search_attributes : JSON;
  exec_paused_at : option Timestamp;
  exec_pause_reason : option string;
  exec_retry_of : option UUID;
  exec_schedule_id : option UUID;
  exec_scheduled_at : option Timestamp;
  exec_parent_workflow_id : option UUID;
  exec_parent_command_id : option Z;
  exec_parent_close_policy : option string;
  exec_continued_from : option UUID;
  exec_continued_to : option UUID
}.

(** Table [history_events], one row per event, in insertion order. *)
Record HistoryRow : Type := mk_history_row {
  hr_workflow_id : UUID;
  hr_event : HistoryEvent;
  hr_created_at : Timestamp
}.

(** Table [tasks]. *)
Record Task : Type := mk_task {
  task_workflow_id : UUID;
  task_task_type : TaskType;
  task_queue_name : string;
  task_entity_id : option UUID;
  task_command_id : option Z;
  task_attempt : Z;
  task_input : option JSON;
  task_status : TaskStatus;
  task_visible_at : Timestamp;
  task_schedule_to_start_deadline : option Timestamp;
  task_schedule_to_start_timeout : option TimeDelta;
  task_start_to_close_deadline : option Timestamp;
  task_start_to_close_timeout : option TimeDelta;
  task_heartbeat_timeout : option TimeDelta;
  task_leased_at : option Timestamp;
  task_lease_token : option UUID;
  task_lease_expires_at : option Timestamp;
  task_heartbeat_at : option Timestamp;
  task_heartbeat_details : option JSON;
  task_created_at : Timestamp;
  task_completed_at : option Timestamp
}.

(** Table [workflow_updates], keyed by workflow and update identity; read as
    [WorkflowUpdateRecord] (engine/persistence/updates.py, lines 17-27). *)
Record UpdateRow : Type := mk_update_row {
  upd_name : string;
  upd_payload : JSON;
  upd_status : UpdateStatus;
  upd_result : option JSON;
  upd_failure : option JSON;
  upd_created_at : Timestamp;
  upd_completed_at : option Timestamp
}.

(** Table [api_audit_log], read as [AuditRecord] (engine/persistence/audit.py,
    lines 23-33), in the order of its identity column. *)
Record AuditRow : Type := mk_audit_row {
  audit_request_id : UUID;
  audit_actor_key_id : string;
  audit_actor_role : string;
  audit_action : string;
  audit_workflow_id : option UUID;
  audit_accepted : bool;
  audit_details : JSON;
  audit_occurred_at : Timestamp
}.

(** Table [workflow_schedules]. *)
Inductive OverlapPolicy : Type := allow | skip | buffer_one.
#[export] Instance OverlapPolicy_eq_dec : EqDecision OverlapPolicy.
Proof. solve_decision. Defined.
(** Read as [WorkflowSchedule] (engine/persistence/schedules.py, lines 20-36). *)
Record ScheduleRow : Type := mk_schedule_row {
  sch_name : string;
  sch_workflow_type : string;
  sch_definition_version : Z;
  sch_input : JSON;
  sch_queue_name : string;
  sch_search_attributes : JSON;
  sch_cron_expression : string;
  sch_timezone : string;
  sch_overlap_policy : OverlapPolicy;
  sch_next_run_at : Timestamp;
  sch_last_run_at : option Timestamp;
  sch_paused_at : option Timestamp;
  sch_created_at : Timestamp;
  sch_updated_at : Timestamp
}.

(** Table [schedule_occurrences], keyed by schedule and scheduled instant. *)
Inductive OccurrenceStatus : Type := OStarted | OSkipped | OBuffered.
#[export] Instance OccurrenceStatus_eq_dec : EqDecision OccurrenceStatus.
Proof. solve_decision. Defined.
(** Read as [ScheduleOccurrence] (engine/persistence/schedules.py, lines 39-46). *)
Record OccurrenceRow : Type := mk_occurrence_row {
  occ_status : OccurrenceStatus;
  occ_workflow_id : option UUID;
  occ_reason : option string;
  occ_created_at : Timestamp
}.

(** Table [worker_heartbeats], keyed by worker. *)
Record WorkerRow : Type := mk_worker_row {
  wk_hostname : string;
  wk_process_id : Z;
  wk_queue_name : string;
  wk_roles : list string;
  wk_started_at : Timestamp;
  wk_last_seen_at : Timestamp;
  wk_stopped_at : option Timestamp
}.

(** The database. *)
Record DB : Type := mk_db {
  db_definitions : gmap (string * Z) string;
  db_executions : gmap UUID Execution;
  db_history : list HistoryRow;
  db_tasks : gmap UUID Task;
  db_updates : gmap (UUID * string) UpdateRow;
  db_effects : gmap string JSON;
  db_audit : list AuditRow;
  db_schedules : gmap UUID ScheduleRow;
  db_occurrences : gmap (UUID * Timestamp) OccurrenceRow;
  db_workers : gmap UUID WorkerRow
}.

Definition empty_db : DB := mk_db ∅ ∅ [] ∅ ∅ ∅ [] ∅ ∅ ∅.

(** ** Field updates: [r <| f := v |>] is [r] with field [f] set to [v] *)
Class Eta (R : Type) : Type := eta : R → R.
Class Upd {R T : Type} (f : R → T) : Type := upd : T → R → R.
Arguments upd {R T} f {_} v r /.

Ltac derive_upd :=
  lazymatch goal with
  | |- @Upd ?R ?T ?f =>
    let v := fresh "v" in
    let r := fresh "r" in
    refine (fun (v : T) (r : R) => _);
    let e := eval hnf in (@eta R _ r) in
    lazymatch e with
    | context C [f r] => let t := context C [v] in exact t
    end
  end.
#[export] Hint Extern 1 (Upd _) => derive_upd : typeclass_instances.

Declare Scope record_scope.
Notation "r <| f := v |>" := (upd f v r)
  (at level 1, f at level 0, v at level 200, left associativity) : record_scope.
#[global] Open Scope record_scope.

#[export] Instance eta_execution : Eta Execution := fun r =>
  mk_execution (exec_workflow_type r) (exec_definition_version r) (exec_input r) (exec_status r)
    (exec_result r) (exec_failure r) (exec_next_seq r) (exec_queue_name r) (exec_created_at r)
    (exec_closed_at r) (exec_cancellation_requested_at r) (exec_cancellation_reason r)
    (exec_search_attributes r) (exec_paused_at r) (exec_pause_reason r) (exec_retry_of r)
    (exec_schedule_id r) (exec_scheduled_at r) (exec_parent_workflow_id r)
    (exec_parent_command_id r) (exec_parent_close_policy r) (exec_continued_from r)
    (exec_continued_to r).
#[export] Instance eta_task : Eta Task := fun r =>
  mk_task (task_workflow_id r) (task_task_type r) (task_queue_name r) (task_entity_id r)
    (task_command_id r) (task_attempt r) (task_input r) (task_status r) (task_visible_at r)
    (task_schedule_to_start_deadline r) (task_schedule_to_start_timeout r)
    (task_start_to_close_deadline r) (task_start_to_close_timeout r) (task_heartbeat_timeout r)
    (task_leased_at r) (task_lease_token r) (task_lease_expires_at r) (task_heartbeat_at r)
    (task_heartbeat_details r) (task_created_at r) (task_completed_at r).
#[export] Instance eta_update : Eta UpdateRow := fun r =>
  mk_update_row (upd_name r) (upd_payload r) (upd_status r) (upd_result r) (upd_failure r)
    (upd_created_at r) (upd_completed_at r).
#[export] Instance eta_schedule : Eta ScheduleRow := fun r =>
  mk_schedule_row (sch_name r) (sch_workflow_type r) (sch_definition_version r) (sch_input r)
    (sch_queue_name r) (sch_search_attributes r) (sch_cron_expression r) (sch_timezone r)
    (sch_overlap_policy r) (sch_next_run_at r) (sch_last_run_at r) (sch_paused_at r)
    (sch_created_at r) (sch_updated_at r).
#[export] Instance eta_db : Eta DB := fun r =>
  mk_db (db_definitions r) (db_executions r) (db_history r) (db_tasks r) (db_updates r)
    (db_effects r) (db_audit r) (db_schedules r) (db_occurrences r) (db_workers r).
#[export] Instance eta_worker : Eta WorkerRow := fun r =>
  mk_worker_row (wk_hostname r) (wk_process_id r) (wk_queue_name r) (wk_roles r) (wk_started_at r)
    (wk_last_seen_at r) (wk_stopped_at r).

(** ** The monad of persistence code *)
Record Env : Type := mk_env {
  env_now : Timestamp;           (* PostgreSQL's now(), fixed for a transaction *)
  env_clock : nat → Timestamp;   (* successive readings of datetime.now(UTC) *)
  env_random : float;            (* random.random() *)
  env_uuid4 : nat → UUID;        (* successive results of uuid4() *)
  env_locked : gset UUID         (* rows other transactions hold locked *)
}.

(** The database, and how many environment values were consumed. *)
Record World : Type := mk_world { w_db : DB; w_ticks : nat }.

Definition M (A : Type) : Type := Env → World → Py A * World.

#[export] Instance M_ret : MRet M := fun A a _ w => (Ok a, w).
#[export] Instance M_bind : MBind M := fun A B k m env w =>
  match m env w with
  | (Ok a, w) => k a env w
  | (Err e, w) => (Err e, w)
  end.

Definition throw {A : Type} (e : PyError) : M A := fun _ w => (Err e, w).
Definition of_result {A : Type} (r : Py A) : M A := fun _ w => (r, w).
Definition get_db : M DB := fun _ w => (Ok (w_db w), w).
Definition modify_db (f : DB → DB) : M unit := fun _ w =>
  (Ok tt, mk_world (f (w_db w)) (w_ticks w)).
Definition db_now : M Timestamp := fun env w => (Ok (env_now env), w).
Definition utc_now : M Timestamp := fun env w =>
  (Ok (env_clock env (w_ticks w)), mk_world (w_db w) (S (w_ticks w))).
Definition uuid4 : M UUID := fun env w =>
  (Ok (env_uuid4 env (w_ticks w)), mk_world (w_db w) (S (w_ticks w))).
Definition random_random : M float := fun env w => (Ok (env_random env), w).
Definition locked_rows : M (gset UUID) := fun env w => (Ok (env_locked env), w).

(** [async with connection.transaction()]: an exception rolls back. *)
Definition transaction {A : Type} (m : M A) : M A := fun env w =>
  match m env w with
  | (Ok a, w') => (Ok a, w')
  | (Err e, w') => (Err e, mk_world (w_db w) (w_ticks w'))
  end.

(** Running an operation on a database. *)
Definition exec {A : Type} (m : M A) (env : Env) (db : DB) : Py A * DB :=
  let '(r, w) := m env (mk_world db 0) in (r, w_db w).

(** [for x in l: body]. *)
Fixpoint for_each {A S : Type} (l : list A) (s : S) (body : S → A → M S) : M S :=
  match l with
  | [] => mret s
  | x :: l => s ← body s x; for_each l s body
  end.

(** ** Queries *)

(** Lexicographic order of sort keys. *)
Fixpoint lex_le (a b : list Z) : bool :=
  match a, b with
  | [], _ => true
  | _ :: _, [] => false
  | x :: a, y :: b => (x <? y)%Z || ((x =? y)%Z && lex_le a b)
  end.

Definition uuid_key (u : UUID) : Z := Z.of_N u.

Section select.
Context {K V : Type} `{Countable K}.

(** [order by key]. *)
Definition row_le (key : K → V → list Z) (a b : K * V) : Prop :=
  lex_le (key a.1 a.2) (key b.1 b.2) = true.
#[export] Instance row_le_dec key : RelDecision (row_le key).
Proof. intros a b. unfold row_le. apply _. Defined.

(** [select ... where p order by key]. *)
Definition select (p : K → V → bool) (key : K → V → list Z) (m : gmap K V) : list (K * V) :=
  merge_sort (row_le key)
    (filter (fun kv : K * V => p kv.1 kv.2 = true) (map_to_list m)).

(** [select exists (select 1 ... where p)]. *)
Definition exists_row (p : K → V → bool) (m : gmap K V) : bool :=
  existsb (fun kv => p kv.1 kv.2) (map_to_list m).

(** [update ... set ... where p]. *)
Definition update_where (p : K → V → bool) (f : V → V) (m : gmap K V) : gmap K V :=
  map_imap (fun k v => Some (if p k v then f v else v)) m.
End select.

(** The history of a workflow ([where workflow_id = $1 order by seq]). *)
Definition rows_of (wid : UUID) (db : DB) : list HistoryRow :=
  filter (fun r => hr_workflow_id r = wid) (db_history db).
Definition seq_le (a b : HistoryEvent) : Prop := (event_seq a ≤ event_seq b)%Z.
#[export] Instance seq_le_dec : RelDecision seq_le.
Proof. intros a b. unfold seq_le. apply _. Defined.
Definition history_of (wid : UUID) (db : DB) : list HistoryEvent :=
  merge_sort seq_le
    (hr_event <$> rows_of wid db).

(** ** Insertions and their constraints *)

(** The unique indexes of [history_events] an event can violate. *)
Definition same_command (e e' : HistoryEvent) : bool :=
  SCHEDULE_EVENT_TYPES (event_type e) && SCHEDULE_EVENT_TYPES (event_type e')
  && bool_decide (is_Some (command_id e)) && bool_decide (command_id e = command_id e').
Definition same_external (e e' : HistoryEvent) : bool :=
  bool_decide (is_Some (external_id e)) && bool_decide (external_id e = external_id e').

(** [insert into history_events]: primary key, foreign key, the checks on [seq]
    and [command_id], [one_scheduled_command] and [one_external_event]. *)
Definition check_history (db : DB) (wid : UUID) (e : HistoryEvent) : Py unit :=
  let es := hr_event <$> rows_of wid db in
  if bool_decide (db_executions db !! wid = None) then
    Err (ForeignKeyViolation "history_events_workflow_id_fkey")
  else if (event_seq e <=? 0)%Z || (default 0 (command_id e) <? 0)%Z then
    Err (CheckViolation "history_events_check")
  else if existsb (fun e' => (event_seq e' =? event_seq e)%Z) es then
    Err (UniqueViolation "history_events_pkey")
  else if existsb (same_command e) es then Err (UniqueViolation "one_scheduled_command")
  else if existsb (same_external e) es then Err (UniqueViolation "one_external_event")
  else Ok tt.

Definition insert_event `{PyStd} (wid : UUID) (seq : Z) (t : EventType) (command_id : option Z)
    (entity_id : option UUID) (external_id : option string) (attributes : dict) : M unit :=
  attributes ← of_result (to_jsonb (JObj attributes));
  let attributes := match attributes with JObj d => d | _ => [] end in
  let e := mk_event seq t attributes command_id entity_id external_id in
  db ← get_db;
  _ ← of_result (check_history db wid e);
  now ← db_now;
  modify_db (fun db => db <| db_history := db_history db ++ [mk_history_row wid e now] |>).

(** The checks of [tasks]: status and lease columns, type and entity columns,
    attempt, and positive timeouts. *)
Definition task_ok (t : Task) : bool :=
  let lease_clear :=
    bool_decide (task_leased_at t = None) && bool_decide (task_lease_token t = None)
    && bool_decide (task_lease_expires_at t = None) in
  let lease_set :=
    bool_decide (is_Some (task_leased_at t)) && bool_decide (is_Some (task_lease_token t))
    && bool_decide (is_Some (task_lease_expires_at t)) in
  let positive o := match o with Some d => (0 <? d)%Z | None => true end in
  match task_status t with
  | TPending => lease_clear && bool_decide (task_completed_at t = None)
  | TLeased => lease_set && bool_decide (task_completed_at t = None)
  | TCompleted | TDead => bool_decide (is_Some (task_completed_at t))
  end &&
  match task_task_type t with
  | TWorkflow => bool_decide (task_entity_id t = None) && bool_decide (task_command_id t = None)
  | TActivity | TTimer =>
    bool_decide (is_Some (task_entity_id t)) && bool_decide (is_Some (task_command_id t))
  end &&
  (0 <? task_attempt t)%Z && (0 <=? default 0 (task_command_id t))%Z &&
  positive (task_schedule_to_start_timeout t) && positive (task_start_to_close_timeout t) &&
  positive (task_heartbeat_timeout t).

(** Index [one_entity_attempt]. *)
Definition same_attempt (t t' : Task) : bool :=
  bool_decide (is_Some (task_entity_id t)) && bool_decide (task_workflow_id t = task_workflow_id t')
  && bool_decide (task_task_type t = task_task_type t')
  && bool_decide (task_entity_id t = task_entity_id t')
  && bool_decide (task_attempt t = task_attempt t').

Definition check_task (db : DB) (id : UUID) (t : Task) : Py unit :=
  if bool_decide (is_Some (db_tasks db !! id)) then Err (UniqueViolation "tasks_pkey")
  else if bool_decide (db_executions db !! task_workflow_id t = None) then
    Err (ForeignKeyViolation "tasks_workflow_id_fkey")
  else if negb (task_ok t) then Err (CheckViolation "tasks_check")
  else if exists_row (fun _ => same_attempt t) (db_tasks db) then
    Err (UniqueViolation "one_entity_attempt")
  else Ok tt.

Definition insert_task (id : UUID) (t : Task) : M unit :=
  db ← get_db;
  _ ← of_result (check_task db id t);
  modify_db (fun db => db <| db_tasks := <[id := t]> (db_tasks db) |>).

(** A pending task with the column defaults of the table. *)
Definition new_task (wid : UUID) (tt : TaskType) (queue_name : string) (now : Timestamp) : Task :=
  mk_task wid tt queue_name None None 1 None TPending now None None None None None
    None None None None None now None.

(** [insert into tasks (id, workflow_id, task_type, queue_name)
     values (uuid4(), $2, 'workflow', $3)]. *)
Definition insert_workflow_task (id : UUID) (wid : UUID) (queue_name : string) : M unit :=
  now ← db_now;
  insert_task id (new_task wid TWorkflow queue_name now).

(** The checks of [workflow_executions]: status and closing columns, [next_seq],
    the parent link, and search attributes being an object. *)
Definition execution_ok (e : Execution) : bool :=
  match exec_status e with
  | WRunning =>
    bool_decide (exec_closed_at e = None) && bool_decide (exec_result e = None)
    && bool_decide (exec_failure e = None)
  | WCompleted => bool_decide (is_Some (exec_closed_at e)) && bool_decide (exec_failure e = None)
  | WFailed | WTerminated =>
    bool_decide (is_Some (exec_closed_at e)) && bool_decide (exec_result e = None)
  end && (0 <? exec_next_seq e)%Z &&
  match exec_parent_workflow_id e, exec_parent_command_id e, exec_parent_close_policy e with
  | None, None, None => true
  | Some _, Some c, Some p =>
    (0 <=? c)%Z && (String.eqb p "terminate" || String.eqb p "abandon")
  | _, _, _ => false
  end && match exec_search_attributes e with JObj _ => true | _ => false end.

(** Indexes [one_child_per_parent_command] and [one_continuation_from_execution]. *)
Definition same_parent_command (e e' : Execution) : bool :=
  bool_decide (is_Some (exec_parent_workflow_id e))
  && bool_decide (exec_parent_workflow_id e = exec_parent_workflow_id e')
  && bool_decide (exec_parent_command_id e = exec_parent_command_id e').
Definition same_continuation (e e' : Execution) : bool :=
  bool_decide (is_Some (exec_continued_from e))
  && bool_decide (exec_continued_from e = exec_continued_from e').

(** A reference to another execution, when present, names an existing row. *)
Definition reference_ok (db : DB) (r : option UUID) : bool :=
  match r with Some u => bool_decide (is_Some (db_executions db !! u)) | None => true end.

Definition check_execution (db : DB) (id : UUID) (e : Execution) : Py unit :=
  if bool_decide (is_Some (db_executions db !! id)) then
    Err (UniqueViolation "workflow_executions_pkey")
  else if bool_decide (db_definitions db !! (exec_workflow_type e, exec_definition_version e) = None)
  then Err (ForeignKeyViolation "workflow_executions_definition_fkey")
  else if negb (reference_ok db (exec_retry_of e) && reference_ok db (exec_parent_workflow_id e)
                && reference_ok db (exec_continued_from e)
                && match exec_schedule_id e with
                   | Some s => bool_decide (is_Some (db_schedules db !! s))
                   | None => true
                   end) then
    Err (ForeignKeyViolation "workflow_executions_reference_fkey")
  else if negb (execution_ok e) || bool_decide (exec_continued_from e = Some id) then
    Err (CheckViolation "workflow_executions_check")
  else if exists_row (fun _ => same_parent_command e) (db_executions db) then
    Err (UniqueViolation "one_child_per_parent_command")
  else if exists_row (fun _ => same_continuation e) (db_executions db) then
    Err (UniqueViolation "one_continuation_from_execution")
  else Ok tt.

Definition insert_execution (id : UUID) (e : Execution) : M unit :=
  db ← get_db;
  _ ← of_result (check_execution db id e);
  modify_db (fun db => db <| db_executions := <[id := e]> (db_executions db) |>).

(** A running execution whose first event is sequence 1. *)
Definition new_execution (workflow_type : string) (version : Z) (input : JSON)
    (queue_name : string) (created_at : Timestamp) (search_attributes : JSON) : Execution :=
  mk_execution workflow_type version input WRunning None None 2 queue_name created_at None None
    None search_attributes None None None None None None None None None None.

(** [update workflow_executions set ... where id = $1]. *)
Definition update_execution (id : UUID) (f : Execution → Execution) : M unit :=
  modify_db (fun db => db <| db_executions := alter f id (db_executions db) |>).

Definition set_next_seq (id : UUID) (next_seq : Z) : M unit :=
  update_execution id (fun e => e <| exec_next_seq := next_seq |>).

(** [update tasks set ... where p]: the number of rows, the command tag. *)
Definition update_tasks (p : UUID → Task → bool) (f : Task → Task) : M nat :=
  db ← get_db;
  let n := length (select p (fun _ _ => []) (db_tasks db)) in
  _ ← modify_db (fun db => db <| db_tasks := update_where p f (db_tasks db) |>);
  mret n.

Definition is_open (t : Task) : bool :=
  match task_status t with TPending | TLeased => true | _ => false end.

(** PostgreSQL's [timestamptz + interval]. *)
Definition pg_add (t : Timestamp) (d : TimeDelta) : Py Timestamp :=
  if (t + d <? 9224318016000000000)%Z then Ok (t + d)%Z
  else Err (OverflowError "timestamp out of range").

(** [select ... from workflow_executions where id = $1 for update]. *)
Definition fetch_execution (id : UUID) : M (option Execution) :=
  db ← get_db; mret (db_executions db !! id).

(** The guards every transition of a workflow opens with: the execution exists
    and is running. *)
Definition running_execution `{PyStd} (id : UUID) : M Execution :=
  execution ← fetch_execution id;
  match execution with
  | None => throw (TransitionError ("workflow " +:+ uuid_str id +:+ " does not exist"))
  | Some e =>
    if bool_decide (exec_status e = WRunning) then mret e
    else throw (TerminalWorkflowError id (workflow_status_name (exec_status e)))
  end.

(** [update tasks set status = 'dead', completed_at = now() where p]. *)
Definition kill_tasks (p : UUID → Task → bool) : M unit :=
  now ← db_now;
  _ ← update_tasks p (fun t => t <| task_status := TDead |> <| task_completed_at := Some now |>);
  mret tt.

(** [status = 'dead', completed_at = now()] and the like. *)
Definition close_task (s : TaskStatus) (now : Timestamp) (t : Task) : Task :=
  t <| task_status := s |> <| task_completed_at := Some now |>.
