(* ===== verification/Logic.v ===== *)
(** * A program logic for the persistence monad

    [wp m Q db]: when [m], started on [db] in any environment, returns a value,
    the value and the database satisfy [Q].  [preserves I m]: [m] keeps [I]
    whether it returns or raises.  A transaction keeps an invariant as soon as
    its body re-establishes it on a normal return. *)
From S2P Require Import Prelude Python Serialization History Database.

Definition wp {A : Type} (m : M A) (Q : A → DB → Prop) (db : DB) : Prop :=
  ∀ env n a w', m env (mk_world db n) = (Ok a, w') → Q a (w_db w').

Definition preserves {A : Type} (I : DB → Prop) (m : M A) : Prop :=
  ∀ env w, I (w_db w) → I (w_db (m env w).2).

Section rules.
Context {A B : Type}.

Lemma wp_mono (m : M A) (Q Q' : A → DB → Prop) db :
  wp m Q db → (∀ a db', Q a db' → Q' a db') → wp m Q' db.
Proof. intros Hm HQ env n a w' E. eapply HQ, Hm, E. Qed.

Lemma wp_ret (a : A) (Q : A → DB → Prop) db : Q a db → wp (mret a) Q db.
Proof. intros HQ env n a' w' [= <- <-]. done. Qed.

Lemma wp_bind (m : M A) (k : A → M B) (Q : B → DB → Prop) db :
  wp m (fun a db' => wp (k a) Q db') db → wp (m ≫= k) Q db.
Proof.
  intros Hm env n b w' E. unfold mbind, M_bind in E.
  destruct (m env (mk_world db n)) as [[a|e] w] eqn:Em; [|done].
  apply Hm in Em. destruct w as [db1 n1]. by eapply Em.
Qed.

Lemma wp_throw (e : PyError) (Q : A → DB → Prop) db : wp (throw e) Q db.
Proof. by intros env n a w'. Qed.

Lemma wp_of_result (r : Py A) (Q : A → DB → Prop) db :
  (∀ a, r = Ok a → Q a db) → wp (of_result r) Q db.
Proof. intros HQ env n a w' [= -> <-]. by apply HQ. Qed.

Lemma wp_transaction (m : M A) (Q : A → DB → Prop) db : wp m Q db → wp (transaction m) Q db.
Proof.
  intros Hm env n a w' E. unfold transaction in E.
  destruct (m env (mk_world db n)) as [[a1|e] w] eqn:Em; simplify_eq. by eapply Hm.
Qed.

Lemma wp_true (m : M A) db : wp m (fun _ _ => True) db.
Proof. by intros env n a w'. Qed.

End rules.

Lemma wp_get_db (Q : DB → DB → Prop) db : Q db db → wp get_db Q db.
Proof. intros HQ env n a w' [= <- <-]. done. Qed.
Lemma wp_modify_db f (Q : unit → DB → Prop) db : Q tt (f db) → wp (modify_db f) Q db.
Proof. intros HQ env n a w' [= <- <-]. done. Qed.
Lemma wp_db_now (Q : Timestamp → DB → Prop) db : (∀ t, Q t db) → wp db_now Q db.
Proof. intros HQ env n a w' [= <- <-]. apply HQ. Qed.
Lemma wp_utc_now (Q : Timestamp → DB → Prop) db : (∀ t, Q t db) → wp utc_now Q db.
Proof. intros HQ env n a w' [= <- <-]. apply HQ. Qed.
Lemma wp_uuid4 (Q : UUID → DB → Prop) db : (∀ u, Q u db) → wp uuid4 Q db.
Proof. intros HQ env n a w' [= <- <-]. apply HQ. Qed.
Lemma wp_random (Q : float → DB → Prop) db : (∀ f, Q f db) → wp random_random Q db.
Proof. intros HQ env n a w' [= <- <-]. apply HQ. Qed.
Lemma wp_locked_rows (Q : gset UUID → DB → Prop) db : (∀ l, Q l db) → wp locked_rows Q db.
Proof. intros HQ env n a w' [= <- <-]. apply HQ. Qed.

(** A loop keeps an invariant of its state and the database. *)
Lemma wp_for_each {A S : Type} (l : list A) (body : S → A → M S) (I : S → DB → Prop) s db :
  I s db →
  (∀ s x db, x ∈ l → I s db → wp (body s x) I db) →
  wp (for_each l s body) I db.
Proof.
  revert s db; induction l as [|x l IH]; intros s db HI Hbody; simpl.
  { by apply wp_ret. }
  apply wp_bind. eapply wp_mono.
  { apply Hbody; [by left|done]. }
  intros s' db' HI'. apply IH; [done|]. intros s1 y db1 Hy. apply Hbody. by right.
Qed.

(** ** Invariants across a whole operation *)
Section preserves.
Context (I : DB → Prop).

Lemma preserves_transaction {A} (m : M A) :
  (∀ db, I db → wp m (fun _ => I) db) → preserves I (transaction m).
Proof.
  intros Hm env [db n] HI. unfold transaction. simpl in *.
  destruct (m env (mk_world db n)) as [[a|e] w] eqn:Em; simpl; [|done].
  by eapply (Hm db HI).
Qed.

Lemma preserves_bind {A B} (m : M A) (k : A → M B) :
  preserves I m → (∀ a, preserves I (k a)) → preserves I (m ≫= k).
Proof.
  intros Hm Hk env w HI. unfold mbind, M_bind. pose proof (Hm env w HI) as H1.
  destruct (m env w) as [[a|e] w']; [|done]. by apply Hk.
Qed.

Lemma preserves_ret {A} (a : A) : preserves I (mret a). Proof. by intros env w. Qed.
Lemma preserves_throw {A} e : preserves I (throw (A:=A) e). Proof. by intros env w. Qed.
Lemma preserves_of_result {A} (r : Py A) : preserves I (of_result r). Proof. by intros env w. Qed.
Lemma preserves_get_db : preserves I get_db. Proof. by intros env w. Qed.
Lemma preserves_db_now : preserves I db_now. Proof. by intros env w. Qed.
Lemma preserves_utc_now : preserves I utc_now. Proof. by intros env w. Qed.
Lemma preserves_uuid4 : preserves I uuid4. Proof. by intros env w. Qed.
Lemma preserves_random : preserves I random_random. Proof. by intros env w. Qed.
Lemma preserves_locked_rows : preserves I locked_rows. Proof. by intros env w. Qed.
Lemma preserves_modify_db f : (∀ db, I db → I (f db)) → preserves I (modify_db f).
Proof. intros Hf env w HI. by apply Hf. Qed.

Lemma preserves_exec {A} (m : M A) env db : preserves I m → I db → I (exec m env db).2.
Proof.
  intros Hm HI. unfold exec. pose proof (Hm env (mk_world db 0) HI).
  by destruct (m env (mk_world db 0)).
Qed.
End preserves.

(** [wp_step] applies the rule of the head of a program; [wp_auto] runs the
    program as far as its rules and case distinctions go. *)
Ltac wp_step :=
  lazymatch goal with
  | |- wp (mbind _ _) _ _ => apply wp_bind
  | |- wp (mret _) _ _ => apply wp_ret
  | |- wp (throw _) _ _ => apply wp_throw
  | |- wp (of_result _) _ _ => apply wp_of_result; intros
  | |- wp (transaction _) _ _ => apply wp_transaction
  | |- wp get_db _ _ => apply wp_get_db
  | |- wp (modify_db _) _ _ => apply wp_modify_db
  | |- wp db_now _ _ => apply wp_db_now; intros
  | |- wp utc_now _ _ => apply wp_utc_now; intros
  | |- wp uuid4 _ _ => apply wp_uuid4; intros
  | |- wp random_random _ _ => apply wp_random; intros
  | |- wp locked_rows _ _ => apply wp_locked_rows; intros
  | |- wp (match ?x with _ => _ end) _ _ => destruct x eqn:?
  | |- wp (let _ := _ in _) _ _ => cbv zeta
  end.
Ltac wp_auto := repeat (wp_step; cbv beta zeta).

Ltac preserves_step :=
  lazymatch goal with
  | |- preserves _ (mbind _ _) => apply preserves_bind; [|intros ?]
  | |- preserves _ (mret _) => apply preserves_ret
  | |- preserves _ (throw _) => apply preserves_throw
  | |- preserves _ (of_result _) => apply preserves_of_result
  | |- preserves _ get_db => apply preserves_get_db
  | |- preserves _ db_now => apply preserves_db_now
  | |- preserves _ utc_now => apply preserves_utc_now
  | |- preserves _ uuid4 => apply preserves_uuid4
  | |- preserves _ random_random => apply preserves_random
  | |- preserves _ locked_rows => apply preserves_locked_rows
  | |- preserves _ (transaction _) => apply preserves_transaction;
      let db := fresh "db" in let HI := fresh "HI" in intros db HI
  | |- preserves _ (match ?x with _ => _ end) => destruct x eqn:?
  end.
Ltac preserves_auto := repeat (preserves_step; cbv beta zeta).
