(* ===== verification/Store.v ===== *)
(** * The invariant of stored histories

    Every history is a contiguous sequence that starts with
    [WorkflowExecutionStarted], nothing follows its terminal event, and the
    execution row agrees with it: [next_seq] is the next free number, and the
    status is the one the terminal event gives, running while the history is open.  [Inv X] is the
    invariant with the workflows of [X] in flux, as inside a transaction. *)
From S2P Require Import Prelude Python Serialization History Database Logic.

(** ** Well-formed histories *)
Definition terminal_event (e : HistoryEvent) : bool := WORKFLOW_TERMINAL_EVENT_TYPES (event_type e).

Definition closed (es : list HistoryEvent) : bool := existsb terminal_event es.

(** The status a terminal event leaves its execution in. *)
Definition closing_status (t : EventType) : option WorkflowStatus :=
  match t with
  | WorkflowExecutionCompleted => Some WCompleted
  | WorkflowExecutionFailed => Some WFailed
  | WorkflowExecutionTerminated => Some WTerminated
  | _ => None
  end.

(** The status of an execution, as its history has it. *)
Definition status_of (es : list HistoryEvent) : WorkflowStatus :=
  default WRunning (head (omap (fun e => closing_status (event_type e)) es)).
Definition status_after (t : EventType) : WorkflowStatus := default WRunning (closing_status t).

Definition next_of (es : list HistoryEvent) : Z := (Z.of_nat (length es) + 1)%Z.

Record history_wf (es : list HistoryEvent) : Prop := {
  wf_contiguous : ∀ i e, es !! i = Some e → event_seq e = (Z.of_nat i + 1)%Z;
  wf_started : ∀ i e, es !! i = Some e → event_type e = WorkflowExecutionStarted ↔ i = 0;
  wf_closed : ∀ i e, es !! i = Some e → terminal_event e = true → S i = length es
}.

(** An event numbered [s] can still be appended: [s] is at most the next free
    number, and if it is that number the history is open. *)
Definition can_append (es : list HistoryEvent) (s : Z) : Prop :=
  (s ≤ next_of es)%Z ∧ (s = next_of es → closed es = false).

(** The next number of an open history. *)
Definition cursor (es : list HistoryEvent) (s : Z) : Prop := s = next_of es ∧ closed es = false.

Definition hist (wid : UUID) (db : DB) : list HistoryEvent := hr_event <$> rows_of wid db.

Record exec_agrees (e : Execution) (es : list HistoryEvent) : Prop := {
  agree_seq : exec_next_seq e = next_of es;
  agree_status : exec_status e = status_of es;
  agree_nonempty : es ≠ []
}.

Record Inv (X : gset UUID) (db : DB) : Prop := {
  inv_wf : ∀ wid, history_wf (hist wid db);
  inv_running : ∀ wid e, db_executions db !! wid = Some e → exec_status e = WRunning →
    can_append (hist wid db) (exec_next_seq e) ∧ (2 ≤ exec_next_seq e)%Z;
  inv_agrees : ∀ wid e, db_executions db !! wid = Some e → wid ∉ X → exec_agrees e (hist wid db);
  inv_foreign : ∀ wid, db_executions db !! wid = None → hist wid db = []
}.

(** ** Facts on histories *)
Lemma next_of_snoc es e : next_of (es ++ [e]) = (next_of es + 1)%Z.
Proof. unfold next_of. rewrite length_app. simpl. lia. Qed.

Lemma closed_snoc es e : closed (es ++ [e]) = closed es || terminal_event e.
Proof. unfold closed. rewrite existsb_app. simpl. by rewrite orb_false_r. Qed.

Lemma closing_status_terminal t : WORKFLOW_TERMINAL_EVENT_TYPES t = bool_decide (is_Some (closing_status t)).
Proof. by destruct t. Qed.

Lemma closed_nil es : closed es = false → omap (fun e => closing_status (event_type e)) es = [].
Proof.
  induction es as [|e es IH]; [done|]. unfold closed, terminal_event. simpl.
  rewrite closing_status_terminal. by destruct (closing_status (event_type e)).
Qed.

Lemma status_running es : status_of es = WRunning ↔ closed es = false.
Proof.
  split; [|by unfold status_of; intros ->%closed_nil].
  unfold status_of. induction es as [|e es IH]; [done|]. unfold closed, terminal_event in *. simpl.
  rewrite closing_status_terminal. destruct (closing_status (event_type e)) as [s|] eqn:E; simpl; [|done].
  by destruct (event_type e); simplify_eq/=.
Qed.

Lemma status_open es : closed es = false → status_of es = WRunning.
Proof. by intros ?%status_running. Qed.

Lemma status_snoc es e :
  closed es = false → status_of (es ++ [e]) = status_after (event_type e).
Proof.
  intros Hc%closed_nil. unfold status_of. rewrite omap_app, Hc. simpl.
  unfold status_after. by destruct (closing_status (event_type e)).
Qed.

Lemma cursor_can_append es s : cursor es s → can_append es s.
Proof. intros [-> ?]. split; [lia|done]. Qed.

Lemma can_append_snoc es e s : can_append es s → can_append (es ++ [e]) s.
Proof. intros [Hle _]. unfold can_append. rewrite next_of_snoc. split; [lia|intros ->; lia]. Qed.

Lemma cursor_snoc es e s :
  cursor es s → terminal_event e = false → cursor (es ++ [e]) (s + 1).
Proof.
  intros [-> Hc] Ht. unfold cursor. rewrite next_of_snoc, closed_snoc, Hc, Ht. done.
Qed.

Lemma history_wf_nil : history_wf [].
Proof. split; intros i e Hi; by rewrite lookup_nil in Hi. Qed.

Lemma history_wf_open es : closed es = false → ∀ i e, es !! i = Some e → terminal_event e = false.
Proof.
  intros Hc i e Hi. destruct (terminal_event e) eqn:Ht; [|done].
  assert (closed es = true); [|congruence]. unfold closed. apply existsb_exists.
  exists e. split; [|done]. apply list_elem_of_In. by eapply list_elem_of_lookup_2.
Qed.

Lemma history_wf_snoc es e :
  history_wf es → closed es = false → event_seq e = next_of es →
  (event_type e = WorkflowExecutionStarted ↔ es = []) → history_wf (es ++ [e]).
Proof.
  intros [Hn Hs Hc] Hopen Hseq Hstart. split.
  - intros i x [[? Hi]|[-> ->]]%lookup_snoc_Some; [by apply Hn|]. by rewrite Hseq.
  - intros i x [[? Hi]|[-> ->]]%lookup_snoc_Some; [by apply Hs|].
    rewrite Hstart. by rewrite length_zero_iff_nil.
  - intros i x Hx. rewrite length_app. simpl.
    apply lookup_snoc_Some in Hx as [[? Hi]|[-> ->]]; [|lia].
    intros Ht. rewrite (history_wf_open _ Hopen _ _ Hi) in Ht. done.
Qed.

Lemma can_append_free es s :
  history_wf es → can_append es s → (0 < s)%Z →
  (∀ e, e ∈ es → event_seq e ≠ s) → cursor es s.
Proof.
  intros Hwf [Hle Hopen] Hpos Hfree.
  assert (s = next_of es) as ->; [|by split; [|apply Hopen]].
  destruct (decide (s = next_of es)) as [|Hne]; [done|]. exfalso.
  unfold next_of in *. destruct (lookup_lt_is_Some_2 es (Z.to_nat (s - 1))) as [e He]; [lia|].
  apply (Hfree e); [by eapply list_elem_of_lookup_2|].
  rewrite (wf_contiguous _ Hwf _ _ He). lia.
Qed.

(** ** The invariant does not depend on the other tables *)
Definition same_core (db db' : DB) : Prop :=
  db_history db' = db_history db ∧ db_executions db' = db_executions db.

Lemma same_core_refl db : same_core db db. Proof. done. Qed.
Lemma same_core_trans db1 db2 db3 : same_core db1 db2 → same_core db2 db3 → same_core db1 db3.
Proof. intros [??] [??]. split; congruence. Qed.

Lemma hist_core db db' wid : same_core db db' → hist wid db' = hist wid db.
Proof. intros [Hh _]. unfold hist, rows_of. by rewrite Hh. Qed.

Lemma Inv_core X db db' : same_core db db' → Inv X db → Inv X db'.
Proof.
  intros Hc [H1 H2 H3 H4]. split; intros wid; rewrite ?(hist_core db db' wid Hc); [done|..];
    destruct Hc as [_ ->]; auto.
Qed.

Lemma Inv_mono X Y db : X ⊆ Y → Inv X db → Inv Y db.
Proof.
  intros HXY [H1 H2 H3 H4]. split; [done|done|intros; apply H3; [done|set_solver]|done].
Qed.

Lemma wp_core {A} (m : M A) (Q : A → DB → Prop) db :
  wp m (fun _ db' => same_core db db') db →
  (∀ a db', same_core db db' → Q a db') → wp m Q db.
Proof. intros Hm HQ. eapply wp_mono; [done|]. auto. Qed.

(** A database whose histories only grew. *)
Definition grows (db db' : DB) : Prop :=
  ∀ wid s, can_append (hist wid db) s → can_append (hist wid db') s.
Lemma grows_refl db : grows db db. Proof. by intros wid s. Qed.
Lemma grows_trans db1 db2 db3 : grows db1 db2 → grows db2 db3 → grows db1 db3.
Proof. unfold grows. eauto. Qed.
Lemma grows_core db db' : same_core db db' → grows db db'.
Proof. intros Hc wid s. by rewrite (hist_core db db'). Qed.

(** ** Appending an event *)
Lemma hist_append wid e now db wid' :
  hist wid' (db <| db_history := db_history db ++ [mk_history_row wid e now] |>) =
  if bool_decide (wid' = wid) then hist wid' db ++ [e] else hist wid' db.
Proof.
  unfold hist, rows_of. simpl. rewrite filter_app, fmap_app. case_bool_decide; subst.
  - rewrite filter_cons_True; [|done]. done.
  - rewrite filter_cons_False; [|simpl; congruence]. by rewrite app_nil_r.
Qed.

(** What an insertion into [history_events] did. *)
Record appended (wid : UUID) (e : HistoryEvent) (db db' : DB) : Prop := {
  app_hist : hist wid db' = hist wid db ++ [e];
  app_other : ∀ wid', wid' ≠ wid → hist wid' db' = hist wid' db;
  app_executions : db_executions db' = db_executions db;
  app_tasks : db_tasks db' = db_tasks db
}.

Lemma appended_grows wid e db db' : appended wid e db db' → grows db db'.
Proof.
  intros [Happ Hother _ _] wid' s Hs. destruct (decide (wid' = wid)) as [->|Hne].
  - rewrite Happ. by apply can_append_snoc.
  - by rewrite Hother.
Qed.

Lemma existsb_false {A} (p : A → bool) l x : existsb p l = false → x ∈ l → p x = false.
Proof.
  intros He Hx. destruct (p x) eqn:Hp; [|done]. rewrite <- He. symmetry.
  apply existsb_exists. exists x. by rewrite <- list_elem_of_In.
Qed.

Lemma check_history_ok db wid e u :
  check_history db wid e = Ok u →
  is_Some (db_executions db !! wid) ∧ (0 < event_seq e)%Z ∧
  (∀ e', e' ∈ hist wid db → event_seq e' ≠ event_seq e).
Proof.
  unfold check_history. fold (hist wid db).
  destruct (bool_decide_reflect (db_executions db !! wid = None)) as [|Hex]; [done|].
  destruct (_ || _) eqn:Hpos; [done|]. apply orb_false_iff in Hpos as [Hpos _].
  destruct (existsb _ (hist wid db)) eqn:Huniq; [done|]. intros _.
  split; [by apply not_eq_None_Some|]. split; [lia|].
  intros e' He' Heq. apply (existsb_false _ _ e') in Huniq; [|done]. simpl in Huniq. lia.
Qed.

Section append.
Context `{PyStd}.

Lemma wp_insert_event_raw wid s t c n x attrs (Q : unit → DB → Prop) db :
  (∀ e db', event_seq e = s → event_type e = t → check_history db wid e = Ok () →
    appended wid e db db' → Q tt db') →
  wp (insert_event wid s t c n x attrs) Q db.
Proof.
  intros HQ. unfold insert_event. wp_auto.
  eapply HQ; [| |by destruct a0|]; [done|done|].
  split; [rewrite hist_append|intros; rewrite hist_append| |]; try done;
    by case_bool_decide.
Qed.

Lemma wp_insert_event X wid s t c n x attrs (Q : unit → DB → Prop) db :
  Inv X db → can_append (hist wid db) s → (t = WorkflowExecutionStarted ↔ s = 1%Z) →
  (∀ e db', event_seq e = s → event_type e = t → cursor (hist wid db) s →
    appended wid e db db' → Inv ({[wid]} ∪ X) db' → Q tt db') →
  wp (insert_event wid s t c n x attrs) Q db.
Proof.
  intros HI Hcan Ht HQ. apply wp_insert_event_raw. intros e db' He1 He2 Hck Happ.
  apply check_history_ok in Hck as (Hex & Hpos & Hfree).
  assert (cursor (hist wid db) s) as Hcur.
  { apply can_append_free; [apply HI|done|lia|by rewrite <- He1]. }
  apply (HQ e); [done..|]. pose proof (appended_grows _ _ _ _ Happ) as Hgr.
  destruct Happ as [Happ Hother Hexe _]. destruct HI as [H1 H2 H3 H4]. split.
  - intros w. destruct (decide (w = wid)) as [->|Hne]; [|by rewrite Hother].
    rewrite Happ. destruct Hcur as [Hs Hop]. apply history_wf_snoc; [done|done|congruence|].
    rewrite He2, Ht, Hs. unfold next_of. rewrite <- length_zero_iff_nil. lia.
  - rewrite Hexe. intros w e0 Hw Hrun. destruct (H2 w e0 Hw Hrun). auto.
  - rewrite Hexe. intros w e0 Hw Hnot. rewrite Hother; [apply H3; set_solver|set_solver].
  - rewrite Hexe. intros w Hw. destruct (decide (w = wid)) as [->|Hne].
    + by rewrite Hw in Hex; destruct Hex.
    + rewrite Hother; auto.
Qed.

(** ** Executions *)
Lemma hist_set_executions wid m db : hist wid (db <| db_executions := m |>) = hist wid db.
Proof. done. Qed.

(** An update of an execution's row that agrees with its history settles it. *)
Lemma wp_update_execution X wid f (Q : unit → DB → Prop) db :
  Inv X db →
  (∀ e, db_executions db !! wid = Some e → exec_agrees (f e) (hist wid db)) →
  (∀ db', db_history db' = db_history db →
     db_executions db' = alter f wid (db_executions db) → db_tasks db' = db_tasks db →
     Inv (X ∖ {[wid]}) db' → Q tt db') →
  wp (update_execution wid f) Q db.
Proof.
  intros [H1 H2 H3 H4] Hf HQ. unfold update_execution. wp_auto. apply HQ; [done..|].
  split; intros w; rewrite hist_set_executions; simpl; [done|..].
  - intros e He Hrun. destruct (decide (w = wid)) as [->|Hne].
    + rewrite lookup_alter_eq, fmap_Some in He. destruct He as (e0 & He0 & ->).
      destruct (Hf _ He0) as [Hs Hst Hnil]. rewrite Hs. split; [split; [lia|intros; apply status_running; congruence]|].
      unfold next_of. destruct (hist wid db); simpl; [done|lia].
    + rewrite lookup_alter_ne in He; eauto.
  - intros e He Hw. destruct (decide (w = wid)) as [->|Hne].
    + rewrite lookup_alter_eq, fmap_Some in He. destruct He as (e0 & He0 & ->). by apply Hf.
    + rewrite lookup_alter_ne in He; [|done]. apply H3; [done|set_solver].
  - intros Hw. apply H4. destruct (decide (w = wid)) as [->|Hne].
    + by rewrite lookup_alter_eq, fmap_None in Hw.
    + by rewrite lookup_alter_ne in Hw.
Qed.

Lemma wp_insert_execution id e (Q : unit → DB → Prop) db :
  (∀ db', db_executions db !! id = None → execution_ok e = true →
     db_executions db' = <[id := e]> (db_executions db) →
     db_history db' = db_history db → db_tasks db' = db_tasks db → Q tt db') →
  wp (insert_execution id e) Q db.
Proof.
  intros HQ. unfold insert_execution. wp_auto. unfold check_execution in *.
  destruct (bool_decide_reflect (is_Some (db_executions db !! id))) as [|Hn]; [done|].
  apply eq_None_not_Some in Hn. repeat (case_match; [done|]).
  apply HQ; simpl; try done.
  match goal with H : negb (execution_ok e) || _ = false |- _ =>
    apply orb_false_iff in H as [H _]; by apply negb_false_iff in H end.
Qed.

(** A new execution and its first event. *)
Lemma wp_create_execution {B} X id e t c n x attrs (k : unit → M B) (Q : B → DB → Prop) db :
  Inv X db → exec_status e = WRunning → exec_next_seq e = 2%Z → t = WorkflowExecutionStarted →
  (∀ ev db', db_executions db !! id = None → event_type ev = t → event_seq ev = 1%Z →
     hist id db' = [ev] → (∀ w, w ≠ id → hist w db' = hist w db) →
     db_executions db' = <[id := e]> (db_executions db) →
     db_tasks db' = db_tasks db → Inv X db' → wp (k tt) Q db') →
  wp (insert_execution id e)
    (fun _ db' => wp (insert_event id 1 t c n x attrs ≫= k) Q db') db.
Proof.
  intros HI Hrun Hseq -> HQ. apply wp_insert_execution. intros db1 Hfresh _ Hex Hh Htk.
  apply wp_bind, wp_insert_event_raw. intros ev db' Hs1 Ht1 _ [Happ Hother Hexe Htk'].
  assert (∀ w, hist w db1 = hist w db) as Hh1 by (intros w; unfold hist, rows_of; by rewrite Hh).
  destruct HI as [H1 H2 H3 H4].
  rewrite Hh1, (H4 _ Hfresh) in Happ. simpl in Happ.
  assert (∀ w, w ≠ id → hist w db' = hist w db) as Ho.
  { intros w Hw. by rewrite Hother, Hh1. }
  apply (HQ ev); [done..|congruence|congruence|]. rewrite Hex in Hexe. split.
  - intros w. destruct (decide (w = id)) as [->|Hne]; [|by rewrite Ho].
    rewrite Happ. apply (history_wf_snoc []); [apply history_wf_nil|done|done|]. by rewrite Ht1.
  - rewrite Hexe. intros w e0 [[<- <-]|[Hne Hw]]%lookup_insert_Some Hr; [|rewrite Ho by done; auto].
    rewrite Happ, Hseq. split; [|lia]. split; [done|]. intros _. unfold closed, terminal_event.
    simpl. by rewrite Ht1.
  - rewrite Hexe. intros w e0 [[<- <-]|[Hne Hw]]%lookup_insert_Some Hr; [|rewrite Ho by done; auto].
    rewrite Happ. split; [by rewrite Hseq| |done]. rewrite Hrun. symmetry. apply status_open.
    unfold closed, terminal_event. simpl. by rewrite Ht1.
  - rewrite Hexe. intros w [Hw Hne]%lookup_insert_None. rewrite Ho by done. auto.
Qed.

End append.
