(* ===== verification/Leasing.v ===== *)
(** * Task leasing (engine/persistence/leasing.py)

    A worker owns a task while it holds the task's current lease token and the
    lease has not expired.  Every operation of a worker is fenced by
    [holds_lease]: it changes nothing unless the token is the current one. *)
From S2P Require Import Prelude Python Serialization History Database.

(** engine/persistence/leasing.py, lines 22-35 *)
Record LeasedTask : Type := mk_leased_task {
  lt_id : UUID;
  lt_workflow_id : UUID;
  lt_task_type : TaskType;
  lt_queue_name : string;
  lt_entity_id : option UUID;
  lt_command_id : option Z;
  lt_attempt : Z;
  lt_input : JSON;
  lt_lease_token : UUID;
  lt_leased_at : Timestamp;
  lt_lease_expires_at : Timestamp;
  lt_start_to_close_deadline : option Timestamp
}.

(** [status = 'leased' and lease_token = $2 and lease_expires_at > now()]: a
    comparison with a null column is not true. *)
Definition holds_lease (now : Timestamp) (token : UUID) (t : Task) : bool :=
  bool_decide (task_status t = TLeased) && bool_decide (task_lease_token t = Some token)
  && match task_lease_expires_at t with Some e => (now <? e)%Z | None => false end.

(** [lease_duration.total_seconds() <= 0]. *)
Definition not_positive (d : TimeDelta) : bool := SFleb (total_seconds d) (S754_zero false).

(** The row of a task, when it satisfies a condition. *)
Definition find_task (db : DB) (id : UUID) (p : Task → bool) : option Task :=
  match db_tasks db !! id with
  | Some t => if p t then Some t else None
  | None => None
  end.

Definition set_task (id : UUID) (t : Task) : M unit :=
  modify_db (fun db => db <| db_tasks := <[id := t]> (db_tasks db) |>).

(** engine/persistence/leasing.py, lines 38-65 *)
Definition renew_lease (task_id lease_token : UUID) (lease_duration : TimeDelta) : M Timestamp :=
  if not_positive lease_duration then throw (ValueError "lease_duration must be positive")
  else
    now ← db_now;
    db ← get_db;
    match find_task db task_id (holds_lease now lease_token) with
    | None => throw (StaleLeaseError task_id)
    | Some t =>
      let expires_at := (now + lease_duration)%Z in
      _ ← set_task task_id (t <| task_lease_expires_at := Some expires_at |>);
      mret expires_at
    end.

(** engine/persistence/leasing.py, lines 68-122 *)
Definition heartbeat_activity `{PyStd} (task_id lease_token : UUID) (details : JSON)
    (lease_duration : TimeDelta) : M Timestamp :=
  if not_positive lease_duration then throw (ValueError "lease_duration must be positive")
  else
    encoded_details ← of_result (to_jsonb details);
    transaction (
      now ← db_now;
      db ← get_db;
      match find_task db task_id (fun t =>
              bool_decide (task_task_type t = TActivity) && holds_lease now lease_token t) with
      | None => throw (StaleLeaseError task_id)
      | Some t =>
        match db_executions db !! task_workflow_id t with
        | None => throw (StaleLeaseError task_id)
        | Some e =>
          match exec_cancellation_requested_at e with
          | Some _ =>
            throw (ActivityCancellationRequested task_id (exec_cancellation_reason e))
          | None =>
            let expires_at := (now + lease_duration)%Z in
            _ ← set_task task_id (t <| task_heartbeat_at := Some now |>
                                    <| task_heartbeat_details := Some encoded_details |>
                                    <| task_lease_expires_at := Some expires_at |>);
            mret expires_at
          end
        end
      end).

(** The lease columns cleared. *)
Definition clear_lease (visible_at : Timestamp) (t : Task) : Task :=
  t <| task_status := TPending |> <| task_visible_at := visible_at |>
    <| task_leased_at := None |> <| task_lease_token := None |>
    <| task_lease_expires_at := None |>.

(** The execution of a task satisfies a condition ([join workflow_executions]). *)
Definition with_execution (db : DB) (t : Task) (p : Execution → bool) : bool :=
  match db_executions db !! task_workflow_id t with Some e => p e | None => false end.

(** engine/persistence/leasing.py, lines 131-143: the expired workflow leases. *)
Definition expired_workflow_tasks (db : DB) (now : Timestamp) (locked : gset UUID)
    : list (UUID * Task) :=
  select (fun id t =>
      bool_decide (task_task_type t = TWorkflow) && bool_decide (task_status t = TLeased)
      && match task_lease_expires_at t with Some e => (e <=? now)%Z | None => false end
      && with_execution db t (fun e => bool_decide (exec_status e = WRunning))
      && negb (bool_decide (id ∈ locked)))
    (fun id t => [default 0%Z (task_lease_expires_at t); uuid_key id]) (db_tasks db).

(** engine/persistence/leasing.py, lines 125-159 *)
Definition reclaim_expired_workflow_tasks (limit : Z) : M Z :=
  if (limit <? 1)%Z then throw (ValueError "limit must be at least 1")
  else transaction (
    now ← db_now;
    locked ← locked_rows;
    db ← get_db;
    let expired := (take (Z.to_nat limit) (expired_workflow_tasks db now locked)).*1 in
    _ ← modify_db (fun db => db <| db_tasks :=
          update_where (fun id _ => bool_decide (id ∈ expired))
            (fun t => clear_lease now t <| task_start_to_close_deadline := None |>
                        <| task_heartbeat_at := None |> <| task_heartbeat_details := None |>)
            (db_tasks db) |>);
    mret (Z.of_nat (length expired))).

(** engine/persistence/leasing.py, lines 162-192 *)
Definition release_workflow_task (task : LeasedTask) (retry_delay : TimeDelta) : M unit :=
  if negb (bool_decide (lt_task_type task = TWorkflow)) then
    throw (ValueError "only workflow tasks can be released for version routing")
  else if SFltb (total_seconds retry_delay) (S754_zero false) then
    throw (ValueError "retry_delay cannot be negative")
  else
    now ← db_now;
    db ← get_db;
    match find_task db (lt_id task) (holds_lease now (lt_lease_token task)) with
    | None => throw (StaleLeaseError (lt_id task))
    | Some t => set_task (lt_id task) (clear_lease (now + retry_delay)%Z t)
    end.

(** engine/persistence/leasing.py, lines 209-228: the tasks that can be leased. *)
Definition runnable (db : DB) (now : Timestamp) (locked : gset UUID) (task_type : TaskType)
    (queue_name : string) (id : UUID) (t : Task) : bool :=
  bool_decide (task_status t = TPending) && bool_decide (task_task_type t = task_type)
  && String.eqb (task_queue_name t) queue_name && (task_visible_at t <=? now)%Z
  && with_execution db t (fun e =>
       bool_decide (exec_status e = WRunning) && bool_decide (exec_paused_at e = None)
       && (negb (bool_decide (task_task_type t = TActivity))
           || bool_decide (exec_cancellation_requested_at e = None)))
  && negb (bool_decide (id ∈ locked)).

(** engine/persistence/leasing.py, lines 203-228 *)
Definition _lease_candidate (db : DB) (now : Timestamp) (locked : gset UUID)
    (task_type : TaskType) (queue_name : string) : option (UUID * Task) :=
  head (select (runnable db now locked task_type queue_name)
          (fun id t => [task_visible_at t; task_created_at t; uuid_key id]) (db_tasks db)).

(** engine/persistence/leasing.py, lines 271-293: the row of a leased task. *)
Definition lease_row (now : Timestamp) (lease_token : UUID) (lease_duration : TimeDelta)
    (task_type : TaskType) (t : Task) : Task :=
  t <| task_status := TLeased |> <| task_leased_at := Some now |>
    <| task_lease_token := Some lease_token |>
    <| task_lease_expires_at := Some (now + lease_duration)%Z |>
    <| task_start_to_close_deadline :=
         match task_type with
         | TActivity => Some (now + default lease_duration (task_start_to_close_timeout t))%Z
         | _ => None
         end |>
    <| task_heartbeat_at :=
         match task_type, task_heartbeat_timeout t with
         | TActivity, Some _ => Some now
         | _, _ => task_heartbeat_at t
         end |>.

(** engine/persistence/leasing.py, lines 323-336 *)
Definition leased_task (id lease_token : UUID) (now : Timestamp) (lease_duration : TimeDelta)
    (t : Task) : LeasedTask :=
  mk_leased_task id (task_workflow_id t) (task_task_type t) (task_queue_name t)
    (task_entity_id t) (task_command_id t) (task_attempt t) (default JNull (task_input t))
    lease_token now (now + lease_duration)%Z (task_start_to_close_deadline t).

(** engine/persistence/leasing.py, lines 231-336 *)
Definition lease_task `{PyStd} (task_type : TaskType) (queue_name : string)
    (lease_duration : TimeDelta) : M (option LeasedTask) :=
  if String.eqb queue_name "" then throw (ValueError "queue_name cannot be empty")
  else if not_positive lease_duration then throw (ValueError "lease_duration must be positive")
  else
    lease_token ← uuid4;
    transaction (
      now ← db_now;
      locked ← locked_rows;
      db ← get_db;
      match _lease_candidate db now locked task_type queue_name with
      | None => mret None
      | Some (id, candidate) =>
        let leased := lease_row now lease_token lease_duration (task_task_type candidate) candidate in
        let taken := Some (leased_task id lease_token now lease_duration leased) in
        match task_type with
        | TActivity =>
          match db_executions db !! task_workflow_id candidate with
          | None => mret None
          | Some e =>
            if negb (bool_decide (exec_status e = WRunning)) then mret None
            else
              _ ← set_task id leased;
              _ ← insert_event (task_workflow_id leased) (exec_next_seq e) ActivityStarted None
                    (task_entity_id leased) None
                    [("attempt", JInt (task_attempt leased)); ("task_id", JStr (uuid_str id))];
              _ ← set_next_seq (task_workflow_id leased) (exec_next_seq e + 1);
              mret taken
          end
        | _ =>
          _ ← set_task id leased;
          mret taken
        end
      end).
