(* ===== verification/AuditLog.v ===== *)
(** * Audit records and the effect ledger
    (engine/persistence/audit.py, engine/persistence/effects.py) *)
From S2P Require Import Prelude Python Serialization History Database.

(** engine/persistence/audit.py, lines 15-20 *)
Record AuditContext : Type := mk_audit_context {
  request_id : UUID;
  actor_key_id : string;
  actor_role : string;
  action : string
}.

Section Audit.
Context `{PyStd}.

(** engine/persistence/audit.py, lines 36-64, with the role check and the
    workflow reference of the table. *)
Definition record_api_audit (context : option AuditContext) (workflow_id : option UUID)
    (accepted : bool) (details : JSON) : M unit :=
  match context with
  | None => mret tt
  | Some c =>
    details ← of_result (clone_json details);
    details ← of_result (to_jsonb details);
    now ← db_now;
    db ← get_db;
    if negb (existsb (String.eqb (actor_role c)) ["viewer"; "operator"; "admin"]) then
      throw (CheckViolation "api_audit_log_actor_role_check")
    else if negb (reference_ok db workflow_id) then
      throw (ForeignKeyViolation "api_audit_log_workflow_id_fkey")
    else
      modify_db (fun db => db <| db_audit := db_audit db ++
        [mk_audit_row (request_id c) (actor_key_id c) (actor_role c) (action c) workflow_id
           accepted details now] |>)
  end.

(** engine/persistence/audit.py, lines 67-88: the most recent records first. *)
Definition list_api_audit (limit : Z) : M (list AuditRow) :=
  if (limit <? 1)%Z || (1000 <? limit)%Z then
    throw (ValueError "limit must be between 1 and 1000")
  else
    db ← get_db;
    mret (take (Z.to_nat limit) (rev (db_audit db))).

(** engine/persistence/effects.py, lines 9-30 *)
Definition record_idempotent_effect (idempotency_key : string) (payload : JSON) : M bool :=
  if String.eqb idempotency_key "" then throw (ValueError "idempotency_key cannot be empty")
  else
    payload ← of_result (clone_json payload);
    encoded_payload ← of_result (to_jsonb payload);
    db ← get_db;
    match db_effects db !! idempotency_key with
    | Some _ => mret false
    | None =>
      _ ← modify_db (fun db =>
            db <| db_effects := <[idempotency_key := encoded_payload]> (db_effects db) |>);
      mret true
    end.

End Audit.
