(* ===== verification/Definitions.v ===== *)
(** * Workflow and activity definitions
    (engine/runtime/definitions.py, engine/sdk/decorators.py)

    A Python function object is its identity, its names, its source text when
    [inspect] finds it, and what it does.  The registry of a worker maps a
    workflow's name and version, and an activity's name, to a definition. *)
From S2P Require Import Prelude Python Serialization History Commands Context Replay Database.

(** A function object whose behaviour is a [B]. *)
Record PyFunction (B : Type) : Type := mk_py_function {
  fn_identity : N;
  fn_module : string;
  fn_name : string;
  fn_qualname : string;
  fn_source : option string;
  fn_body : B
}.
Arguments mk_py_function {B}.
Arguments fn_identity {B}.
Arguments fn_module {B}.
Arguments fn_name {B}.
Arguments fn_qualname {B}.
Arguments fn_source {B}.
Arguments fn_body {B}.

(** engine/sdk/activity_context.py, lines 28-33: what a running activity can ask
    the engine for. *)
Record ActivityExecutionContext : Type := mk_activity_context {
  aec_idempotency_key : string;
  aec_task_id : UUID;
  aec_attempt : Z;
  aec_heartbeat : JSON → TimeDelta → M Timestamp
}.

(** engine/sdk/activity_context.py, lines 35-42 *)
Definition context_heartbeat (context : ActivityExecutionContext) (details : option JSON)
    (lease_duration : option TimeDelta) : M Timestamp :=
  aec_heartbeat context (default JNull details) (default 30000000%Z lease_duration).

(** engine/sdk/activity_context.py, lines 45-48: the value of the context
    variable; [None] is its default. *)
Definition CurrentActivity : Type := option ActivityExecutionContext.

(** engine/sdk/activity_context.py, lines 51-55 *)
Definition current_activity_context (current : CurrentActivity) : Py ActivityExecutionContext :=
  match current with
  | None => Err (RuntimeError "no activity is executing in this context")
  | Some context => Ok context
  end.

(** engine/sdk/activity_context.py, lines 58-61: the new value, and the token,
    which remembers the old one. *)
Definition set_activity_context (context : ActivityExecutionContext) (current : CurrentActivity)
    : CurrentActivity * CurrentActivity := (Some context, current).

(** engine/sdk/activity_context.py, lines 64-65 *)
Definition reset_activity_context (token : CurrentActivity) : CurrentActivity := token.

(** What an activity does with its arguments: a computation of user code that
    reads the context variable, may heartbeat, and whose outcome is a value or an
    exception. *)
Definition ActivityBody : Type := CurrentActivity → list JSON → dict → M JSON.

(** engine/runtime/definitions.py, lines 41-46 *)
Record WorkflowDefinition : Type := mk_workflow_definition {
  wd_name : string;
  wd_version : Z;
  wd_function : PyFunction Coroutine;
  wd_code_hash : string
}.

(** engine/runtime/definitions.py, lines 66-69 *)
Record ActivityDefinition : Type := mk_activity_definition {
  ad_name : string;
  ad_function : PyFunction ActivityBody
}.

(** engine/runtime/definitions.py, lines 76-79 *)
Record DefinitionRegistry : Type := mk_registry {
  reg_workflows : gmap (string * Z) WorkflowDefinition;
  reg_activities : gmap string ActivityDefinition
}.

Definition empty_registry : DefinitionRegistry := mk_registry ∅ ∅.

(** [name or function.__name__]. *)
Definition name_or (name : option string) (default_ : string) : string :=
  match name with Some n => if String.eqb n "" then default_ else n | None => default_ end.

Section Definitions.
Context `{PyStd}.

(** engine/runtime/definitions.py, lines 32-38 *)
Definition _code_hash {B : Type} (function : PyFunction B) : Py string :=
  match fn_source function with
  | None => Err (DefinitionError "cannot inspect definition")
  | Some source =>
    let identity :=
      fn_module function +:+ ":" +:+ fn_qualname function +:+ newline +:+ source in
    Ok (hex 64 (sha256 identity))
  end.

(** engine/runtime/definitions.py, lines 48-63 *)
Definition WorkflowDefinition_create (function : PyFunction Coroutine) (version : Z)
    (name : option string) : Py WorkflowDefinition :=
  if (version <? 1)%Z then Err (DefinitionError "workflow version must be at least 1")
  else
    code_hash ← _code_hash function;
    Ok (mk_workflow_definition (name_or name (fn_name function)) version function code_hash).

End Definitions.

(** engine/runtime/definitions.py, lines 71-73 *)
Definition ActivityDefinition_create (function : PyFunction ActivityBody) (name : option string)
    : ActivityDefinition :=
  mk_activity_definition (name_or name (fn_name function)) function.

(** engine/sdk/decorators.py, lines 15-21: [@workflow(version=..., name=...)]. *)
Definition decorate_workflow `{PyStd} (version : Z) (name : option string)
    (function : PyFunction Coroutine) : Py WorkflowDefinition :=
  WorkflowDefinition_create function version name.

(** engine/sdk/decorators.py, lines 24-28: [@activity(name=...)]. *)
Definition decorate_activity (name : option string) (function : PyFunction ActivityBody)
    : ActivityDefinition :=
  ActivityDefinition_create function name.

(** engine/runtime/definitions.py, lines 81-89 *)
Definition register_workflow (registry : DefinitionRegistry) (definition : WorkflowDefinition)
    : Py DefinitionRegistry :=
  let key := (wd_name definition, wd_version definition) in
  let registered :=
    Ok (mk_registry (<[key := definition]> (reg_workflows registry)) (reg_activities registry)) in
  match reg_workflows registry !! key with
  | Some existing =>
    if String.eqb (wd_code_hash existing) (wd_code_hash definition) then registered
    else Err (DefinitionConflictError (wd_name definition))
  | None => registered
  end.

(** engine/runtime/definitions.py, lines 91-97 *)
Definition register_activity (registry : DefinitionRegistry) (definition : ActivityDefinition)
    : Py DefinitionRegistry :=
  let registered :=
    Ok (mk_registry (reg_workflows registry)
          (<[ad_name definition := definition]> (reg_activities registry))) in
  match reg_activities registry !! ad_name definition with
  | Some existing =>
    if (fn_identity (ad_function existing) =? fn_identity (ad_function definition))%N
    then registered
    else Err (DefinitionConflictError (ad_name definition))
  | None => registered
  end.

(** engine/runtime/definitions.py, lines 99-103 *)
Definition registry_workflow (registry : DefinitionRegistry) (name : string) (version : Z)
    : Py WorkflowDefinition :=
  match reg_workflows registry !! (name, version) with
  | Some d => Ok d
  | None => Err (UnknownDefinitionError name)
  end.

(** engine/runtime/definitions.py, lines 105-109 *)
Definition registry_activity (registry : DefinitionRegistry) (name : string)
    : Py ActivityDefinition :=
  match reg_activities registry !! name with
  | Some d => Ok d
  | None => Err (UnknownDefinitionError name)
  end.

(** engine/runtime/definitions.py, lines 111-114 *)
Definition supported_workflow_versions (registry : DefinitionRegistry) (name : string) : list Z :=
  merge_sort Z.le
    (map (fun kd => (kd.1).2)
       (filter (fun kd : string * Z * WorkflowDefinition => (kd.1).1 = name)
          (map_to_list (reg_workflows registry)))).

(** The order of the keys [(name, version)]. *)
Definition key_version_le {A : Type} (a b : string * Z * A) : Prop :=
  String.ltb (a.1).1 (b.1).1 || (String.eqb (a.1).1 (b.1).1 && ((a.1).2 <=? (b.1).2)%Z) = true.
#[export] Instance key_version_le_dec {A} : RelDecision (@key_version_le A).
Proof. intros a b. unfold key_version_le. apply _. Defined.

(** engine/runtime/definitions.py, lines 116-119 *)
Definition registry_workflows (registry : DefinitionRegistry) : list WorkflowDefinition :=
  (merge_sort key_version_le (map_to_list (reg_workflows registry))).*2.

(** engine/runtime/definitions.py, lines 121-124 *)
Definition registry_activities (registry : DefinitionRegistry) : list ActivityDefinition :=
  (merge_sort key_le (map_to_list (reg_activities registry))).*2.
