(* ===== verification/Transitions.v ===== *)
(** * Transitions of an execution (engine/persistence/transitions.py)

    Starting, pausing, resuming, retrying, terminating and cancelling a
    workflow, and the helpers every closing transition shares: cancelling
    timers, rejecting updates, terminating children and notifying the parent.
    The commit of a replay is in [Commit], the outcomes of activities in
    [Activities]. *)
From S2P Require Import Prelude Python Serialization History Definitions Database AuditLog.

(** engine/persistence/transitions.py, lines 49-53 *)
Record StartedWorkflow : Type := mk_started {
  started_workflow_id : UUID;
  started_workflow_type : string;
  started_definition_version : Z
}.

(** The largest encoding of the search attributes of an execution, in bytes. *)
Definition max_search_attributes : N := 16000.

(** [len(encoded.encode())]. *)
Fixpoint byte_len (s : string) : N :=
  match s with EmptyString => 0 | String _ s => 1 + byte_len s end.

Section Transitions.
Context `{PyStd}.

(** [raise TransitionError(f"workflow {workflow_id} does not exist")]. *)
Definition no_such_workflow {A : Type} (id : UUID) : M A :=
  throw (TransitionError ("workflow " +:+ uuid_str id +:+ " does not exist")).

(** engine/persistence/transitions.py, lines 85-111 *)
Definition register_workflow_definition (definition : WorkflowDefinition) : M unit :=
  let key := (wd_name definition, wd_version definition) in
  transaction (
    db ← get_db;
    if (wd_version definition <=? 0)%Z then
      throw (CheckViolation "workflow_definitions_version_check")
    else
      let stored_hash := default (wd_code_hash definition) (db_definitions db !! key) in
      _ ← modify_db (fun db =>
            db <| db_definitions := <[key := stored_hash]> (db_definitions db) |>);
      if String.eqb stored_hash (wd_code_hash definition) then mret tt
      else throw (StoredDefinitionConflictError (wd_name definition) (wd_version definition))).

(** [select exists (select 1 from workflow_definitions ...)], and the error
    when it is false. *)
Definition require_definition (workflow_type : string) (version : Z) : M unit :=
  db ← get_db;
  if bool_decide (is_Some (db_definitions db !! (workflow_type, version))) then mret tt
  else throw (DefinitionNotRegisteredError workflow_type version).

(** The attributes of a [WorkflowExecutionStarted] event. *)
Definition started_attributes (workflow_type : string) (version : Z) (input search_attributes : JSON)
    (started_at : Timestamp) (more : dict) : dict :=
  [("workflow_type", JStr workflow_type);
   ("definition_version", JInt version);
   ("input", input);
   ("search_attributes", search_attributes);
   ("started_at", JStr (isoformat (utc started_at)))] ++ more.

(** engine/persistence/transitions.py, lines 155-218: the transaction of
    [start_workflow]. *)
Definition insert_started (execution_id task_id : UUID) (workflow_type : string) (version : Z)
    (input search_attributes : JSON) (queue_name : string) (started_at : Timestamp)
    (retry_of : option UUID) (audit : option AuditContext) : M unit :=
  transaction (
    _ ← require_definition workflow_type version;
    stored_input ← of_result (to_jsonb input);
    stored_attributes ← of_result (to_jsonb search_attributes);
    _ ← insert_execution execution_id
          ((new_execution workflow_type version stored_input queue_name started_at
              stored_attributes) <| exec_retry_of := retry_of |>);
    _ ← insert_event execution_id 1 WorkflowExecutionStarted None None None
          (started_attributes workflow_type version input search_attributes started_at []);
    _ ← insert_workflow_task task_id execution_id queue_name;
    record_api_audit audit (Some execution_id) true
      (JObj [("workflow_type", JStr workflow_type);
             ("definition_version", JInt version);
             ("queue_name", JStr queue_name);
             ("search_attributes", search_attributes);
             ("retry_of", json_opt (fun u => JStr (uuid_str u)) retry_of)])).

(** engine/persistence/transitions.py, lines 114-220 *)
Definition start_workflow (workflow_type : string) (definition_version : Z) (workflow_input : JSON)
    (queue_name : string) (workflow_id : option UUID) (search_attributes : dict)
    (retry_of : option UUID) (audit : option AuditContext) : M StartedWorkflow :=
  if String.eqb workflow_type "" then throw (ValueError "workflow_type cannot be empty")
  else if (definition_version <? 1)%Z then
    throw (ValueError "definition_version must be at least 1")
  else if String.eqb queue_name "" then throw (ValueError "queue_name cannot be empty")
  else
    execution_id ← match workflow_id with Some u => mret u | None => uuid4 end;
    started_at ← utc_now;
    detached_input ← of_result (clone_json workflow_input);
    detached_search_attributes ← of_result (clone_json (JObj search_attributes));
    encoded_search_attributes ← of_result (canonical_json detached_search_attributes);
    if (max_search_attributes <? byte_len encoded_search_attributes)%N then
      throw (ValueError "search_attributes cannot exceed 16 KB")
    else
      task_id ← uuid4;
      _ ← insert_started execution_id task_id workflow_type definition_version detached_input
            detached_search_attributes queue_name started_at retry_of audit;
      mret (mk_started execution_id workflow_type definition_version).

(** The audit record of a request that changed nothing. *)
Definition audit_duplicate (audit : option AuditContext) (workflow_id : UUID)
    (reason : option string) : M bool :=
  _ ← record_api_audit audit (Some workflow_id) false
        (JObj [("reason", json_opt_str reason); ("duplicate", JBool true)]);
  mret false.

(** The audit record of an accepted request. *)
Definition audit_accepted (audit : option AuditContext) (workflow_id : UUID)
    (reason : option string) : M bool :=
  _ ← record_api_audit audit (Some workflow_id) true (JObj [("reason", json_opt_str reason)]);
  mret true.

(** engine/persistence/transitions.py, lines 223-276 *)
Definition pause_workflow (workflow_id : UUID) (reason : option string)
    (audit : option AuditContext) : M bool :=
  transaction (
    execution ← running_execution workflow_id;
    match exec_paused_at execution with
    | Some _ => audit_duplicate audit workflow_id reason
    | None =>
      let next_seq := exec_next_seq execution in
      _ ← insert_event workflow_id next_seq WorkflowExecutionPaused None None None
            [("reason", json_opt_str reason)];
      now ← db_now;
      _ ← update_execution workflow_id (fun e =>
            e <| exec_paused_at := Some now |> <| exec_pause_reason := reason |>
              <| exec_next_seq := (next_seq + 1)%Z |>);
      audit_accepted audit workflow_id reason
    end).

(** engine/persistence/transitions.py, lines 307-319: a pending task's
    visibility and deadline, shifted by the paused duration. *)
Definition shift_task (paused : TimeDelta) (t : Task) : Task :=
  t <| task_visible_at := (task_visible_at t + paused)%Z |>
    <| task_schedule_to_start_deadline :=
         (fun d => d + paused)%Z <$> task_schedule_to_start_deadline t |>.

(** engine/persistence/transitions.py, lines 279-345 *)
Definition resume_workflow (workflow_id : UUID) (reason : option string)
    (audit : option AuditContext) : M bool :=
  transaction (
    execution ← running_execution workflow_id;
    match exec_paused_at execution with
    | None => audit_duplicate audit workflow_id reason
    | Some paused_at =>
      let next_seq := exec_next_seq execution in
      now ← db_now;
      _ ← update_tasks (fun _ t => bool_decide (task_workflow_id t = workflow_id)
                                   && bool_decide (task_status t = TPending))
            (shift_task (now - paused_at));
      _ ← insert_event workflow_id next_seq WorkflowExecutionResumed None None None
            [("reason", json_opt_str reason);
             ("paused_at", JStr (isoformat (utc paused_at)))];
      _ ← update_execution workflow_id (fun e =>
            e <| exec_paused_at := None |> <| exec_pause_reason := None |>
              <| exec_next_seq := (next_seq + 1)%Z |>);
      audit_accepted audit workflow_id reason
    end).

(** engine/persistence/transitions.py, lines 348-382 *)
Definition retry_workflow (workflow_id : UUID) (audit : option AuditContext) : M StartedWorkflow :=
  original ← fetch_execution workflow_id;
  match original with
  | None => no_such_workflow workflow_id
  | Some original =>
    match exec_status original with
    | WFailed | WTerminated =>
      match exec_search_attributes original with
      | JObj search_attributes =>
        start_workflow (exec_workflow_type original) (exec_definition_version original)
          (exec_input original) (exec_queue_name original) None
          (dict_merge search_attributes [("dwe.retry_of", JStr (uuid_str workflow_id))])
          (Some workflow_id) audit
      | _ => throw (TypeError "stored search attributes must be a JSON object")
      end
    | _ => throw (TransitionError "only failed or terminated workflows can be retried")
    end
  end.

(** engine/persistence/transitions.py, lines 385-426 *)
Definition update_search_attributes (workflow_id : UUID) (attributes : dict) (unset : list string)
    (audit : option AuditContext) : M JSON :=
  detached ← of_result (clone_json (JObj attributes));
  match detached with
  | JObj detached =>
    if existsb (fun key => String.eqb key "" || (200 <? py_len key)%Z) (detached.*1 ++ unset) then
      throw (ValueError "search attribute keys must contain 1 to 200 characters")
    else transaction (
      execution ← fetch_execution workflow_id;
      match execution with
      | None => no_such_workflow workflow_id
      | Some execution =>
        match exec_search_attributes execution with
        | JObj current =>
          let merged := foldl (fun d key => dict_pop key d) (dict_merge current detached) unset in
          encoded ← of_result (canonical_json (JObj merged));
          if (max_search_attributes <? byte_len encoded)%N then
            throw (ValueError "search_attributes cannot exceed 16 KB")
          else
            stored ← of_result (to_jsonb (JObj merged));
            _ ← update_execution workflow_id (fun e => e <| exec_search_attributes := stored |>);
            _ ← record_api_audit audit (Some workflow_id) true
                  (JObj [("set", JObj detached); ("unset", JList (JStr <$> unset))]);
            mret (JObj merged)
        | _ => throw (TypeError "stored search attributes must be a JSON object")
        end
      end)
  | _ => throw (ValueError "attributes must be a JSON object")
  end.

(** ** Helpers of the closing transitions *)

(** engine/persistence/transitions.py, lines 436-444: the pending timers. *)
Definition pending_timers (db : DB) (workflow_id : UUID) : list (UUID * Task) :=
  select (fun _ t => bool_decide (task_workflow_id t = workflow_id)
                     && bool_decide (task_task_type t = TTimer)
                     && bool_decide (task_status t = TPending))
    (fun id t => [default 0%Z (task_command_id t); uuid_key id]) (db_tasks db).

(** engine/persistence/transitions.py, lines 445-466: one timer, and the next
    sequence number. *)
Definition cancel_timer (workflow_id : UUID) (reason : string) (next_seq : Z)
    (timer : UUID * Task) : M Z :=
  now ← db_now;
  canceled ← update_tasks
    (fun id t => bool_decide (id = timer.1) && bool_decide (task_status t = TPending))
    (close_task TDead now);
  if negb (Nat.eqb canceled 1) then mret next_seq
  else
    _ ← insert_event workflow_id next_seq TimerCanceled None (task_entity_id timer.2) None
          [("reason", JStr reason)];
    mret (next_seq + 1)%Z.

(** engine/persistence/transitions.py, lines 429-467 *)
Definition _cancel_pending_timers (workflow_id : UUID) (next_seq : Z) (reason : string) : M Z :=
  db ← get_db;
  for_each (pending_timers db workflow_id) next_seq (cancel_timer workflow_id reason).

(** engine/persistence/transitions.py, lines 872-883 *)
Definition _reject_pending_updates (workflow_id : UUID) (reason : string) : M unit :=
  now ← db_now;
  failure ← of_result (to_jsonb (JObj [("type", JStr "WorkflowClosed"); ("message", JStr reason)]));
  modify_db (fun db => db <| db_updates :=
    update_where (fun k u => bool_decide (k.1 = workflow_id) && bool_decide (upd_status u = UPending))
      (fun u => u <| upd_status := URejected |> <| upd_failure := Some failure |>
                  <| upd_completed_at := Some now |>)
      (db_updates db) |>).

(** The tasks a closing transition leaves dead. *)
Definition kill_open_tasks (workflow_id : UUID) (except : option UUID) : M unit :=
  kill_tasks (fun id t => bool_decide (task_workflow_id t = workflow_id)
                          && negb (bool_decide (except = Some id)) && is_open t).

(** engine/persistence/transitions.py, lines 1024-1033: an insert of a workflow
    task that wakes replay. *)
Definition wake_workflow (workflow_id : UUID) (queue_name : string) : M unit :=
  task_id ← uuid4; insert_workflow_task task_id workflow_id queue_name.

(** How a child ended, as its parent is told. *)
Inductive ChildStatus : Type := child_completed | child_failed | child_terminated.

(** engine/persistence/transitions.py, lines 1000-1004 *)
Definition child_event_type (status : ChildStatus) : EventType :=
  match status with
  | child_completed => ChildWorkflowCompleted
  | child_failed => ChildWorkflowFailed
  | child_terminated => ChildWorkflowTerminated
  end.

(** engine/persistence/transitions.py, lines 984-1033 *)
Definition _notify_parent_of_child_terminal (child_workflow_id : UUID)
    (parent_workflow_id : option UUID) (status : ChildStatus) (payload : JSON) : M unit :=
  match parent_workflow_id with
  | None => mret tt
  | Some parent_workflow_id =>
    parent ← fetch_execution parent_workflow_id;
    match parent with
    | None => mret tt
    | Some parent =>
      if negb (bool_decide (exec_status parent = WRunning)) then mret tt
      else
        let attribute_name :=
          match status with child_completed => "result" | _ => "failure" end in
        let next_seq := exec_next_seq parent in
        payload ← of_result (clone_json payload);
        _ ← insert_event parent_workflow_id next_seq (child_event_type status) None
              (Some child_workflow_id) None [(attribute_name, payload)];
        _ ← set_next_seq parent_workflow_id (next_seq + 1);
        wake_workflow parent_workflow_id (exec_queue_name parent)
    end
  end.

(** engine/persistence/transitions.py, lines 1037-1047: the running children
    their parent takes down with it. *)
Definition dependent_children (db : DB) (parent_workflow_id : UUID) : list (UUID * Execution) :=
  select (fun _ e => bool_decide (exec_parent_workflow_id e = Some parent_workflow_id)
                     && bool_decide (exec_parent_close_policy e = Some "terminate")
                     && bool_decide (exec_status e = WRunning))
    (fun id e => [exec_created_at e; uuid_key id]) (db_executions db).

(** engine/persistence/transitions.py, lines 1049-1081: a child closed with its
    parent. *)
Definition terminate_child (child_id : UUID) (next_seq : Z) : M unit :=
  _ ← insert_event child_id next_seq WorkflowExecutionTerminated None None None
        [("reason", JStr "parent workflow closed"); ("cause", JStr "parent_close_policy")];
  now ← db_now;
  failure ← of_result (to_jsonb (JObj [("reason", JStr "parent workflow closed")]));
  _ ← update_execution child_id (fun e =>
        e <| exec_status := WTerminated |> <| exec_next_seq := (next_seq + 1)%Z |>
          <| exec_closed_at := Some now |> <| exec_failure := Some failure |>);
  _ ← kill_open_tasks child_id None;
  _reject_pending_updates child_id "parent workflow closed".

(** engine/persistence/transitions.py, lines 1036-1081.  [fuel] bounds the
    depth of the recursion, which Python's own stack bounds. *)
Fixpoint terminate_descendants (fuel : nat) (parent_workflow_id : UUID) : M unit :=
  match fuel with
  | O => throw RecursionError
  | S fuel =>
    db ← get_db;
    for_each (dependent_children db parent_workflow_id) tt (fun _ child =>
      _ ← terminate_descendants fuel child.1;
      terminate_child child.1 (exec_next_seq child.2))
  end.

(** engine/persistence/transitions.py, lines 1036-1081: a chain of parents is
    at most as long as the table. *)
Definition _terminate_descendants (parent_workflow_id : UUID) : M unit :=
  db ← get_db;
  terminate_descendants (S (size (db_executions db))) parent_workflow_id.

(** engine/persistence/transitions.py, lines 470-549 *)
Definition terminate_workflow (workflow_id : UUID) (reason : option string)
    (audit : option AuditContext) : M bool :=
  transaction (
    execution ← fetch_execution workflow_id;
    match execution with
    | None => no_such_workflow workflow_id
    | Some execution =>
      match exec_status execution with
      | WTerminated => audit_duplicate audit workflow_id reason
      | WRunning =>
        let next_seq := exec_next_seq execution in
        _ ← _terminate_descendants workflow_id;
        _ ← _reject_pending_updates workflow_id "workflow terminated";
        next_seq ← _cancel_pending_timers workflow_id next_seq "workflow terminated";
        _ ← insert_event workflow_id next_seq WorkflowExecutionTerminated None None None
              [("reason", json_opt_str reason)];
        now ← db_now;
        _ ← update_execution workflow_id (fun e =>
              e <| exec_status := WTerminated |> <| exec_next_seq := (next_seq + 1)%Z |>
                <| exec_closed_at := Some now |>);
        _ ← kill_open_tasks workflow_id None;
        _ ← _notify_parent_of_child_terminal workflow_id (exec_parent_workflow_id execution)
              child_terminated (JObj [("reason", json_opt_str reason)]);
        audit_accepted audit workflow_id reason
      | s => throw (TerminalWorkflowError workflow_id (workflow_status_name s))
      end
    end).

(** engine/persistence/transitions.py, lines 552-626 *)
Definition request_workflow_cancellation (workflow_id : UUID) (reason : option string)
    (audit : option AuditContext) : M bool :=
  transaction (
    execution ← running_execution workflow_id;
    match exec_cancellation_requested_at execution with
    | Some _ => audit_duplicate audit workflow_id reason
    | None =>
      let next_seq := exec_next_seq execution in
      _ ← insert_event workflow_id next_seq WorkflowCancellationRequested None None None
            [("reason", json_opt_str reason)];
      now ← db_now;
      _ ← update_execution workflow_id (fun e =>
            e <| exec_cancellation_requested_at := Some now |>
              <| exec_cancellation_reason := reason |>
              <| exec_next_seq := (next_seq + 1)%Z |>);
      _ ← kill_tasks (fun _ t => bool_decide (task_workflow_id t = workflow_id)
                                 && bool_decide (task_task_type t = TActivity)
                                 && bool_decide (task_status t = TPending));
      _ ← wake_workflow workflow_id (exec_queue_name execution);
      audit_accepted audit workflow_id reason
    end).

End Transitions.
