(* ===== verification/Commit.v ===== *)
(** * Loading and committing a replay (engine/persistence/transitions.py)

    A workflow worker loads the history of the execution its leased task
    belongs to, replays the workflow function on it, and commits what the
    replay decided: the events and tasks of new commands, the end of the
    execution, or nothing but the completion of the task. *)
From S2P Require Import Prelude Python Serialization History Commands Context Replay Database.
From S2P Require Import Leasing AuditLog Definitions Transitions.

(** engine/persistence/transitions.py, lines 56-62 *)
Record WorkflowReplayState : Type := mk_replay_state {
  rs_workflow_id : UUID;
  rs_workflow_type : string;
  rs_definition_version : Z;
  rs_workflow_input : JSON;
  rs_history : list HistoryEvent
}.

(** [command.queue_name or default]. *)
Definition queue_or (queue_name : option string) (default_ : string) : string :=
  name_or queue_name default_.

Section Commit.
Context `{PyStd}.

(** engine/persistence/transitions.py, lines 629-674, and the decoding of the
    rows, lines 65-82 (a column of type [jsonb] holds a JSON value here). *)
Definition load_workflow_replay_state (task : LeasedTask) : M WorkflowReplayState :=
  if negb (bool_decide (lt_task_type task = TWorkflow)) then
    throw (ValueError "replay state can only be loaded for workflow tasks")
  else
    now ← db_now;
    db ← get_db;
    match find_task db (lt_id task) (holds_lease now (lt_lease_token task)) with
    | None => throw (StaleLeaseError (lt_id task))
    | Some _ =>
      execution ← running_execution (lt_workflow_id task);
      mret (mk_replay_state (lt_workflow_id task) (exec_workflow_type execution)
              (exec_definition_version execution) (exec_input execution)
              (history_of (lt_workflow_id task) db))
    end.

(** ** The events and tasks of a command *)

Definition interval_seconds (o : option float) : Py (option TimeDelta) :=
  match o with None => Ok None | Some f => d ← pg_seconds f; Ok (Some d) end.

(** engine/persistence/transitions.py, lines 677-741 *)
Definition _append_activity_command (workflow_id : UUID) (seq : Z) (command : ScheduleActivity)
    (queue_name : string) : M unit :=
  let idempotency_key := JStr (uuid_str (sa_entity_id command)) in
  _ ← insert_event workflow_id seq ActivityScheduled (Some (sa_command_id command))
        (Some (sa_entity_id command)) None
        [("activity_type", JStr (sa_activity_type command));
         ("fingerprint", JStr (sa_fingerprint command));
         ("input", JObj (sa_input command));
         ("retry_policy", JObj (sa_retry_policy command));
         ("schedule_to_start_seconds", json_opt_float (sa_schedule_to_start_seconds command));
         ("start_to_close_seconds", json_opt_float (sa_start_to_close_seconds command));
         ("heartbeat_timeout_seconds", json_opt_float (sa_heartbeat_timeout_seconds command));
         ("idempotency_key", idempotency_key)];
  encoded_input ← of_result (to_jsonb (JObj
        [("activity_type", JStr (sa_activity_type command));
         ("input", JObj (sa_input command));
         ("idempotency_key", idempotency_key);
         ("retry_policy", JObj (sa_retry_policy command))]));
  now ← db_now;
  schedule_to_start ← of_result (interval_seconds (sa_schedule_to_start_seconds command));
  deadline ← of_result (match schedule_to_start with
                        | None => Ok None
                        | Some d => t ← pg_add now d; Ok (Some t)
                        end);
  start_to_close ← of_result (interval_seconds (sa_start_to_close_seconds command));
  heartbeat ← of_result (interval_seconds (sa_heartbeat_timeout_seconds command));
  task_id ← uuid4;
  insert_task task_id
    ((new_task workflow_id TActivity queue_name now)
       <| task_entity_id := Some (sa_entity_id command) |>
       <| task_command_id := Some (sa_command_id command) |>
       <| task_input := Some encoded_input |>
       <| task_schedule_to_start_deadline := deadline |>
       <| task_schedule_to_start_timeout := schedule_to_start |>
       <| task_start_to_close_timeout := start_to_close |>
       <| task_heartbeat_timeout := heartbeat |>).

(** The attributes of a timer that its event and its task share. *)
Definition timer_attributes (command : ScheduleTimer) : dict :=
  [("delay_seconds", JFloat (st_delay_seconds command));
   ("purpose", JStr (st_purpose command));
   ("signal_name", json_opt_str (st_signal_name command))].

(** engine/persistence/transitions.py, lines 744-794 *)
Definition _append_timer_command (workflow_id : UUID) (seq : Z) (command : ScheduleTimer)
    (queue_name : string) : M unit :=
  _ ← insert_event workflow_id seq TimerStarted (Some (st_command_id command))
        (Some (st_entity_id command)) None
        (("fingerprint", JStr (st_fingerprint command)) :: timer_attributes command);
  encoded_input ← of_result (to_jsonb (JObj (timer_attributes command)));
  now ← db_now;
  delay ← of_result (pg_seconds (st_delay_seconds command));
  visible_at ← of_result (pg_add now delay);
  task_id ← uuid4;
  insert_task task_id
    ((new_task workflow_id TTimer queue_name now)
       <| task_entity_id := Some (st_entity_id command) |>
       <| task_command_id := Some (st_command_id command) |>
       <| task_input := Some encoded_input |>
       <| task_visible_at := visible_at |>).

(** engine/persistence/transitions.py, lines 797-820 *)
Definition _append_marker_command (workflow_id : UUID) (seq : Z) (command : RecordMarker)
    : M unit :=
  insert_event workflow_id seq MarkerRecorded (Some (rm_command_id command)) None None
    [("marker_type", JStr (rm_marker_type command));
     ("value", rm_value command);
     ("fingerprint", JStr (rm_fingerprint command))].

(** engine/persistence/transitions.py, lines 823-869 *)
Definition _append_update_resolution (workflow_id : UUID) (seq : Z)
    (command : ResolveWorkflowUpdate) : M unit :=
  outcome ← of_result (to_jsonb (ru_outcome command));
  now ← db_now;
  db ← get_db;
  let key := (workflow_id, ru_update_id command) in
  let missing := TransitionError "workflow update is missing or already resolved" in
  match db_updates db !! key with
  | None => throw missing
  | Some updated =>
    if negb (bool_decide (upd_status updated = UPending)) then throw missing
    else
      let resolved :=
        if ru_accepted command then
          updated <| upd_status := UCompleted |> <| upd_result := Some outcome |>
            <| upd_failure := None |> <| upd_completed_at := Some now |>
        else
          updated <| upd_status := URejected |> <| upd_result := None |>
            <| upd_failure := Some outcome |> <| upd_completed_at := Some now |> in
      _ ← modify_db (fun db => db <| db_updates := <[key := resolved]> (db_updates db) |>);
      insert_event workflow_id seq WorkflowUpdateResolved (Some (ru_command_id command)) None
        (Some ("update-result:" +:+ ru_update_id command))
        [("update_id", JStr (ru_update_id command));
         ("name", JStr (upd_name updated));
         ("accepted", JBool (ru_accepted command));
         ("outcome", ru_outcome command);
         ("fingerprint", JStr (ru_fingerprint command))]
  end.

(** engine/persistence/transitions.py, lines 886-981 *)
Definition _append_child_workflow_command (workflow_id : UUID) (seq : Z)
    (command : StartChildWorkflow) (parent_queue_name : string) : M unit :=
  let child := sc_child_workflow_id command in
  let workflow_type := sc_workflow_type command in
  let version := sc_definition_version command in
  let child_queue := queue_or (sc_queue_name command) parent_queue_name in
  _ ← require_definition workflow_type version;
  started_at ← utc_now;
  let parent_link := [("parent_workflow_id", JStr (uuid_str workflow_id));
                      ("parent_command_id", JInt (sc_command_id command))] in
  let child_attributes := JObj (map (fun kv => ("dwe." +:+ kv.1, kv.2)) parent_link) in
  _ ← insert_event workflow_id seq ChildWorkflowStarted (Some (sc_command_id command))
        (Some child) None
        [("workflow_type", JStr workflow_type);
         ("definition_version", JInt version);
         ("input", sc_input command);
         ("queue_name", JStr child_queue);
         ("parent_close_policy", JStr (sc_parent_close_policy command));
         ("fingerprint", JStr (sc_fingerprint command))];
  input ← of_result (to_jsonb (sc_input command));
  stored_attributes ← of_result (to_jsonb child_attributes);
  _ ← insert_execution child
        ((new_execution workflow_type version input child_queue started_at stored_attributes)
           <| exec_parent_workflow_id := Some workflow_id |>
           <| exec_parent_command_id := Some (sc_command_id command) |>
           <| exec_parent_close_policy := Some (sc_parent_close_policy command) |>);
  _ ← insert_event child 1 WorkflowExecutionStarted None None None
        (started_attributes workflow_type version (sc_input command) child_attributes started_at
           parent_link);
  wake_workflow child child_queue.

(** engine/persistence/transitions.py, lines 1084-1226 *)
Definition _commit_continue_as_new (workflow_id current_task_id : UUID) (seq : Z)
    (command : ContinueAsNew) : M unit :=
  current ← fetch_execution workflow_id;
  match current with
  | None => no_such_workflow workflow_id
  | Some current =>
    let workflow_type := ca_workflow_type command in
    let version := ca_definition_version command in
    let next := ca_new_workflow_id command in
    if negb (String.eqb (exec_workflow_type current) workflow_type) then
      throw (TransitionError "continue-as-new must retain the workflow type")
    else if bool_decide (is_Some (exec_parent_workflow_id current)) then
      throw (TransitionError "continue-as-new is not supported inside child workflows")
    else
      _ ← require_definition workflow_type version;
      match exec_search_attributes current with
      | JObj attributes =>
        let continuation_attributes := JObj (dict_merge attributes
              [("dwe.continued_from", JStr (uuid_str workflow_id))]) in
        let queue_name := queue_or (ca_queue_name command) (exec_queue_name current) in
        started_at ← utc_now;
        let result := JObj [("continued_to", JStr (uuid_str next))] in
        _ ← insert_event workflow_id seq WorkflowExecutionContinuedAsNew
              (Some (ca_command_id command)) (Some next) None
              [("workflow_type", JStr workflow_type);
               ("definition_version", JInt version);
               ("input", ca_input command);
               ("queue_name", JStr queue_name);
               ("fingerprint", JStr (ca_fingerprint command))];
        _ ← insert_event workflow_id (seq + 1) WorkflowExecutionCompleted None None None
              [("result", result); ("cause", JStr "continue_as_new")];
        input ← of_result (to_jsonb (ca_input command));
        stored_attributes ← of_result (to_jsonb continuation_attributes);
        _ ← insert_execution next
              ((new_execution workflow_type version input queue_name started_at stored_attributes)
                 <| exec_continued_from := Some workflow_id |>
                 <| exec_schedule_id := exec_schedule_id current |>
                 <| exec_scheduled_at := exec_scheduled_at current |>);
        _ ← insert_event next 1 WorkflowExecutionStarted None None None
              (started_attributes workflow_type version (ca_input command)
                 continuation_attributes started_at
                 [("continued_from", JStr (uuid_str workflow_id))]);
        _ ← wake_workflow next queue_name;
        now ← db_now;
        stored_result ← of_result (to_jsonb result);
        _ ← update_execution workflow_id (fun e =>
              e <| exec_status := WCompleted |> <| exec_result := Some stored_result |>
                <| exec_next_seq := (seq + 2)%Z |> <| exec_closed_at := Some now |>
                <| exec_continued_to := Some next |>);
        _ ← _reject_pending_updates workflow_id "workflow continued as new";
        kill_open_tasks workflow_id (Some current_task_id)
      | _ => throw (TypeError "stored search attributes must be a JSON object")
      end
  end.

(** ** The commit *)

(** engine/persistence/transitions.py, lines 1338-1381: one command, at the next
    sequence number. *)
Definition append_command (workflow_id : UUID) (queue_name : string) (next_seq : Z)
    (command : Command) : M Z :=
  _ ← match command with
      | CScheduleActivity c => _append_activity_command workflow_id next_seq c queue_name
      | CScheduleTimer c => _append_timer_command workflow_id next_seq c queue_name
      | CRecordMarker c => _append_marker_command workflow_id next_seq c
      | CStartChildWorkflow c => _append_child_workflow_command workflow_id next_seq c queue_name
      | CResolveWorkflowUpdate c => _append_update_resolution workflow_id next_seq c
      | CContinueAsNew _ => mret tt
      end;
  mret (next_seq + 1)%Z.

(** [marker_recorded]: the commands whose result replay needs at once. *)
Definition wakes_replay (command : Command) : bool :=
  match command with CRecordMarker _ | CResolveWorkflowUpdate _ => true | _ => false end.

Definition is_continuation (command : Command) : option ContinueAsNew :=
  match command with CContinueAsNew c => Some c | _ => None end.

(** engine/persistence/transitions.py, lines 1321-1396 *)
Definition commit_commands (task : LeasedTask) (queue_name : string) (next_seq : Z)
    (commands : list Command) : M unit :=
  let workflow_id := lt_workflow_id task in
  match commands with
  | [] => throw (TransitionError "commands replay result contains no commands")
  | _ =>
    match omap is_continuation commands with
    | continuation :: _ =>
      if negb (Nat.eqb (length commands) 1) then
        throw (TransitionError "continue-as-new must be the only emitted command")
      else
        _ ← _terminate_descendants workflow_id;
        _commit_continue_as_new workflow_id (lt_id task) next_seq continuation
    | [] =>
      next_seq ← for_each commands next_seq (append_command workflow_id queue_name);
      _ ← (if existsb wakes_replay commands then wake_workflow workflow_id queue_name
           else mret tt);
      set_next_seq workflow_id next_seq
    end
  end.

(** engine/persistence/transitions.py, lines 1268-1320: a cancelled workflow
    that has not ended is terminated. *)
Definition commit_cancellation (task : LeasedTask) (execution : Execution) : M unit :=
  let workflow_id := lt_workflow_id task in
  let reason := json_opt_str (exec_cancellation_reason execution) in
  next_seq ← _cancel_pending_timers workflow_id (exec_next_seq execution)
               "workflow cancellation requested";
  _ ← _terminate_descendants workflow_id;
  _ ← _reject_pending_updates workflow_id "workflow cancelled";
  _ ← insert_event workflow_id next_seq WorkflowExecutionTerminated None None None
        [("reason", reason); ("cause", JStr "cancellation")];
  now ← db_now;
  _ ← update_execution workflow_id (fun e =>
        e <| exec_status := WTerminated |> <| exec_next_seq := (next_seq + 1)%Z |>
          <| exec_closed_at := Some now |>);
  _ ← kill_open_tasks workflow_id (Some (lt_id task));
  _notify_parent_of_child_terminal workflow_id (exec_parent_workflow_id execution)
    child_terminated (JObj [("reason", reason)]).

(** engine/persistence/transitions.py, lines 1397-1453 *)
Definition commit_closed (task : LeasedTask) (execution : Execution) (completed : bool)
    (payload : JSON) : M unit :=
  let workflow_id := lt_workflow_id task in
  _ ← _terminate_descendants workflow_id;
  _ ← _reject_pending_updates workflow_id "workflow closed";
  next_seq ← _cancel_pending_timers workflow_id (exec_next_seq execution) "workflow closed";
  _ ← insert_event workflow_id next_seq
        (if completed then WorkflowExecutionCompleted else WorkflowExecutionFailed) None None None
        [(if completed then "result" else "failure", payload)];
  now ← db_now;
  stored ← of_result (to_jsonb payload);
  _ ← update_execution workflow_id (fun e =>
        e <| exec_status := if completed then WCompleted else WFailed |>
          <| exec_result := if completed then Some stored else None |>
          <| exec_failure := if completed then None else Some stored |>
          <| exec_next_seq := (next_seq + 1)%Z |> <| exec_closed_at := Some now |>);
  _ ← kill_open_tasks workflow_id (Some (lt_id task));
  _notify_parent_of_child_terminal workflow_id (exec_parent_workflow_id execution)
    (if completed then child_completed else child_failed) payload.

(** engine/persistence/transitions.py, lines 1457-1467, and 1529-1539: the
    task's own completion, fenced by its token; its count is checked. *)
Definition finish_task (task : LeasedTask) (status : TaskStatus) : M nat :=
  now ← db_now;
  update_tasks (fun id t => bool_decide (id = lt_id task) && bool_decide (task_status t = TLeased)
                            && bool_decide (task_lease_token t = Some (lt_lease_token task)))
    (close_task status now).

Definition complete_task (task : LeasedTask) : M unit :=
  completed_task ← finish_task task TCompleted;
  if negb (Nat.eqb completed_task 1) then throw (StaleLeaseError (lt_id task)) else mret tt.

(** engine/persistence/transitions.py, lines 1267-1455: the consequences of the
    replay. *)
Definition commit_consequences (task : LeasedTask) (queue_name : string) (execution : Execution)
    (replay : ReplayResult) : M unit :=
  let cancelled := bool_decide (is_Some (exec_cancellation_requested_at execution)) in
  match rr_status replay with
  | COMMANDS =>
    if cancelled then commit_cancellation task execution
    else commit_commands task queue_name (exec_next_seq execution) (rr_commands replay)
  | BLOCKED => if cancelled then commit_cancellation task execution else mret tt
  | COMPLETED => commit_closed task execution true (rr_result replay)
  | FAILED => commit_closed task execution false (rr_failure replay)
  end.

(** engine/persistence/transitions.py, lines 1229-1467 *)
Definition commit_workflow_replay (task : LeasedTask) (replay : ReplayResult) : M unit :=
  if negb (bool_decide (lt_task_type task = TWorkflow)) then
    throw (ValueError "only a workflow task can commit workflow replay")
  else transaction (
    now ← db_now;
    db ← get_db;
    match find_task db (lt_id task) (holds_lease now (lt_lease_token task)) with
    | None => throw (StaleLeaseError (lt_id task))
    | Some locked_task =>
      execution ← running_execution (lt_workflow_id task);
      _ ← commit_consequences task (task_queue_name locked_task) execution replay;
      complete_task task
    end).

End Commit.
