(* ===== verification/Activities.v ===== *)
(** * The outcome of an activity attempt (engine/persistence/transitions.py)

    Completion and failure of a leased activity task, and the retry policy:
    exponential backoff with full jitter up to a maximum, in binary64. *)
From S2P Require Import Prelude Python Serialization History Context Database Leasing Transitions.
From S2P Require Import Commit.

(** The lease is current and no deadline of the attempt has passed. *)
Definition attempt_live (now : Timestamp) (token : UUID) (t : Task) : bool :=
  holds_lease now token t
  && match task_start_to_close_deadline t with None => true | Some d => (now <? d)%Z end
  && match task_heartbeat_timeout t with
     | None => true
     | Some d => match task_heartbeat_at t with Some h => (now <? h + d)%Z | None => false end
     end.

Section Activities.
Context `{PyStd}.

(** engine/persistence/transitions.py, lines 1470-1553 *)
Definition complete_activity (task : LeasedTask) (result : JSON) : M unit :=
  match lt_task_type task, lt_entity_id task with
  | TActivity, Some _ =>
    transaction (
      now ← db_now;
      db ← get_db;
      match find_task db (lt_id task) (attempt_live now (lt_lease_token task)) with
      | None => throw (StaleLeaseError (lt_id task))
      | Some locked_task =>
        execution ← running_execution (lt_workflow_id task);
        let next_seq := exec_next_seq execution in
        result ← of_result (clone_json result);
        _ ← insert_event (lt_workflow_id task) next_seq ActivityCompleted None
              (lt_entity_id task) None
              [("result", result); ("attempt", JInt (task_attempt locked_task))];
        _ ← complete_task task;
        _ ← wake_workflow (lt_workflow_id task) (task_queue_name locked_task);
        set_next_seq (lt_workflow_id task) (next_seq + 1)
      end)
  | _, _ => throw (ValueError "only an activity task can complete an activity")
  end.

(** [min(a, b)] of floats: the first unless the second is smaller. *)
Definition float_min (a b : float) : float := if SFltb b a then b else a.

(** engine/persistence/transitions.py, lines 1556-1572 *)
Definition retry_delay (retry_policy : dict) (failed_attempt : Z) (random_value : float)
    : Py TimeDelta :=
  if negb (SFleb (S754_zero false) random_value && SFleb random_value (float_of_Z 1)) then
    Err (ValueError "random_value must be between 0 and 1")
  else
    initial ← (v ← dict_item "initial_interval_seconds" retry_policy; py_float v);
    coefficient ← (v ← dict_item "backoff_coefficient" retry_policy; py_float v);
    maximum ← match dict_get_json "maximum_interval_seconds" retry_policy with
              | JNull => Ok None
              | v => f ← py_float v; Ok (Some f)
              end;
    match float_pow coefficient (failed_attempt - 1) with
    | None => Err (OverflowError "Numerical result out of range")
    | Some power =>
      let cap := float_mul initial power in
      let cap := match maximum with Some m => float_min cap m | None => cap end in
      timedelta_seconds (float_mul cap random_value)
    end.

(** [isinstance(v, int)]: [bool] is a subclass. *)
Definition as_int (v : JSON) : option Z :=
  match v with
  | JInt n => Some n
  | JBool b => Some (if b then 1 else 0)%Z
  | _ => None
  end.

(** engine/persistence/transitions.py, lines 1585-1593: the recorded policy and
    its attempt limit. *)
Definition recorded_policy (input : JSON) : Py (dict * Z) :=
  match input with
  | JObj input =>
    match dict_get_json "retry_policy" input with
    | JObj policy =>
      match as_int (dict_get_json "max_attempts" policy) with
      | Some max_attempts => Ok (policy, max_attempts)
      | None => Err (TypeError "activity retry policy has invalid max_attempts")
      end
    | _ => Err (TypeError "activity task lacks its recorded retry policy")
    end
  | _ => Err (TypeError "activity task input must be an object")
  end.

(** [datetime + timedelta]. *)
Definition datetime_add (t : Timestamp) (d : TimeDelta) : Py Timestamp :=
  if (t + d <? datetime_end)%Z then Ok (t + d)%Z
  else Err (OverflowError "date value out of range").

(** engine/persistence/transitions.py, lines 1679-1701: the task of the next
    attempt, with the timeouts of the failed one. *)
Definition retry_task (workflow_id : UUID) (locked_task : Task) (entity_id : option UUID)
    (command_id : option Z) (attempt : Z) (next_visible_at now : Timestamp) : Task :=
  (new_task workflow_id TActivity (task_queue_name locked_task) now)
    <| task_entity_id := entity_id |> <| task_command_id := command_id |>
    <| task_attempt := attempt |> <| task_input := task_input locked_task |>
    <| task_visible_at := next_visible_at |>
    <| task_schedule_to_start_deadline :=
         (fun d => next_visible_at + d)%Z <$> task_schedule_to_start_timeout locked_task |>
    <| task_schedule_to_start_timeout := task_schedule_to_start_timeout locked_task |>
    <| task_start_to_close_timeout := task_start_to_close_timeout locked_task |>
    <| task_heartbeat_timeout := task_heartbeat_timeout locked_task |>.

(** engine/persistence/transitions.py, lines 1608-1707: the transaction of
    [fail_activity]. *)
Definition record_failure (task : LeasedTask) (failure : JSON) (is_final : bool)
    (next_visible_at : Timestamp) : M bool :=
  transaction (
    now ← db_now;
    db ← get_db;
    match find_task db (lt_id task) (attempt_live now (lt_lease_token task)) with
    | None => throw (StaleLeaseError (lt_id task))
    | Some locked_task =>
      execution ← running_execution (lt_workflow_id task);
      let next_seq := exec_next_seq execution in
      failure ← of_result (clone_json failure);
      _ ← insert_event (lt_workflow_id task) next_seq ActivityFailed None (lt_entity_id task) None
            [("attempt", JInt (lt_attempt task));
             ("failure", failure);
             ("final", JBool is_final);
             ("next_visible_at",
                if is_final then JNull else JStr (isoformat (utc next_visible_at)))];
      _ ← finish_task task (if is_final then TDead else TCompleted);
      _ ← (if is_final then wake_workflow (lt_workflow_id task) (task_queue_name locked_task)
           else
             task_id ← uuid4;
             insert_task task_id
               (retry_task (lt_workflow_id task) locked_task (lt_entity_id task)
                  (lt_command_id task) (lt_attempt task + 1) next_visible_at now));
      _ ← set_next_seq (lt_workflow_id task) (next_seq + 1);
      mret is_final
    end).

(** engine/persistence/transitions.py, lines 1575-1707 *)
Definition fail_activity (task : LeasedTask) (failure : JSON) (random_value : option float)
    : M bool :=
  match lt_task_type task, lt_entity_id task, lt_command_id task with
  | TActivity, Some _, Some _ =>
    '(policy, max_attempts) ← of_result (recorded_policy (lt_input task));
    let is_final := (max_attempts <=? lt_attempt task)%Z in
    selected_random ← match random_value with Some r => mret r | None => random_random end;
    delay ← of_result (if is_final then Ok 0%Z
                       else retry_delay policy (lt_attempt task) selected_random);
    clock ← utc_now;
    next_visible_at ← of_result (datetime_add clock delay);
    record_failure task failure is_final next_visible_at
  | _, _, _ => throw (ValueError "only an activity task can fail an activity")
  end.

End Activities.
