(* ===== verification/Messages.v ===== *)
(** * Timers, signals and updates (engine/persistence/timers.py, signals.py, updates.py)

    The events that reach a workflow from outside its own replay: a due timer,
    a signal and an update request.  Each appends one event and wakes replay;
    a signal or an update the execution has already received changes nothing. *)
From S2P Require Import Prelude Python Serialization History Database AuditLog Transitions.

(** A condition on a nullable parameter: null means no restriction. *)
Definition queue_filter (queue_name : option string) (t : Task) : bool :=
  match queue_name with None => true | Some q => String.eqb (task_queue_name t) q end.

(** engine/persistence/timers.py, lines 21-39: the first due timer. *)
Definition due_timer (db : DB) (locked : gset UUID) (queue_name : option string)
    (clock : Timestamp) : option (UUID * Task) :=
  head (select (fun id t =>
      bool_decide (task_task_type t = TTimer) && bool_decide (task_status t = TPending)
      && (task_visible_at t <=? clock)%Z
      && match db_executions db !! task_workflow_id t with
         | None => false
         | Some e =>
           bool_decide (exec_status e = WRunning) && bool_decide (exec_paused_at e = None)
           && bool_decide (exec_cancellation_requested_at e = None)
         end
      && queue_filter queue_name t && negb (bool_decide (id ∈ locked)))
    (fun id t => [task_visible_at t; uuid_key id]) (db_tasks db)).

Section Messages.
Context `{PyStd}.

(** engine/persistence/timers.py, lines 13-81 *)
Definition fire_due_timer (queue_name : option string) (clock_time : option Timestamp) : M bool :=
  transaction (
    now ← db_now;
    locked ← locked_rows;
    db ← get_db;
    match due_timer db locked queue_name (default now clock_time) with
    | None => mret false
    | Some (timer_id, timer) =>
      execution ← fetch_execution (task_workflow_id timer);
      match execution with
      | None => mret false
      | Some execution =>
        if negb (bool_decide (exec_status execution = WRunning)) then mret false
        else
          let next_seq := exec_next_seq execution in
          _ ← insert_event (task_workflow_id timer) next_seq TimerFired None
                (task_entity_id timer) None
                [("scheduled_for", JStr (isoformat (utc (task_visible_at timer))))];
          _ ← update_tasks (fun id _ => bool_decide (id = timer_id)) (close_task TCompleted now);
          _ ← wake_workflow (task_workflow_id timer) (task_queue_name timer);
          _ ← set_next_seq (task_workflow_id timer) (next_seq + 1);
          mret true
      end
    end).

(** engine/persistence/signals.py, lines 39-48: the external identity is taken. *)
Definition external_seen (db : DB) (workflow_id : UUID) (external : string) : bool :=
  existsb (fun r => bool_decide (external_id (hr_event r) = Some external)) (rows_of workflow_id db).

(** engine/persistence/signals.py, lines 14-94 *)
Definition send_signal (workflow_id : UUID) (signal_id name : string) (payload : JSON)
    (audit : option AuditContext) : M bool :=
  if String.eqb signal_id "" then throw (ValueError "signal_id cannot be empty")
  else if String.eqb name "" then throw (ValueError "signal name cannot be empty")
  else
    detached_payload ← of_result (clone_json payload);
    let details := [("signal_id", JStr signal_id); ("name", JStr name)] in
    transaction (
      execution ← fetch_execution workflow_id;
      match execution with
      | None => no_such_workflow workflow_id
      | Some execution =>
        db ← get_db;
        if external_seen db workflow_id signal_id then
          _ ← record_api_audit audit (Some workflow_id) false
                (JObj (details ++ [("duplicate", JBool true)]));
          mret false
        else
          execution ← running_execution workflow_id;
          let next_seq := exec_next_seq execution in
          _ ← insert_event workflow_id next_seq SignalReceived None None (Some signal_id)
                [("name", JStr name); ("payload", detached_payload)];
          _ ← wake_workflow workflow_id (exec_queue_name execution);
          _ ← set_next_seq workflow_id (next_seq + 1);
          _ ← record_api_audit audit (Some workflow_id) true (JObj details);
          mret true
      end).

(** engine/persistence/updates.py, lines 93-102, and the key and the length
    checks of the table: the row of a new update. *)
Definition insert_update (workflow_id : UUID) (update_id name : string) (payload : JSON)
    : M UpdateRow :=
  now ← db_now;
  stored ← of_result (to_jsonb payload);
  db ← get_db;
  let row := mk_update_row name stored UPending None None now None in
  if bool_decide (is_Some (db_updates db !! (workflow_id, update_id))) then
    throw (UniqueViolation "workflow_updates_pkey")
  else if negb (reference_ok db (Some workflow_id)) then
    throw (ForeignKeyViolation "workflow_updates_workflow_id_fkey")
  else
    _ ← modify_db (fun db =>
          db <| db_updates := <[(workflow_id, update_id) := row]> (db_updates db) |>);
    mret row.

(** engine/persistence/updates.py, lines 50-138: the record, and whether it is
    new. *)
Definition send_update (workflow_id : UUID) (update_id name : string) (payload : JSON)
    (audit : option AuditContext) : M (UpdateRow * bool) :=
  if String.eqb update_id "" || (200 <? py_len update_id)%Z then
    throw (ValueError "update_id must contain 1 to 200 characters")
  else if String.eqb name "" || (200 <? py_len name)%Z then
    throw (ValueError "update name must contain 1 to 200 characters")
  else
    detached ← of_result (clone_json payload);
    let details := [("update_id", JStr update_id); ("name", JStr name)] in
    transaction (
      execution ← fetch_execution workflow_id;
      match execution with
      | None => no_such_workflow workflow_id
      | Some execution =>
        db ← get_db;
        match db_updates db !! (workflow_id, update_id) with
        | Some existing =>
          _ ← record_api_audit audit (Some workflow_id) false
                (JObj (details ++ [("duplicate", JBool true)]));
          mret (existing, false)
        | None =>
          execution ← running_execution workflow_id;
          row ← insert_update workflow_id update_id name detached;
          let next_seq := exec_next_seq execution in
          _ ← insert_event workflow_id next_seq WorkflowUpdateReceived None None
                (Some ("update:" +:+ update_id))
                [("update_id", JStr update_id); ("name", JStr name); ("payload", detached)];
          _ ← wake_workflow workflow_id (exec_queue_name execution);
          _ ← set_next_seq workflow_id (next_seq + 1);
          _ ← record_api_audit audit (Some workflow_id) true (JObj details);
          mret (row, true)
        end
      end).

(** engine/persistence/updates.py, lines 141-150 *)
Definition get_update (workflow_id : UUID) (update_id : string) : M (option UpdateRow) :=
  db ← get_db; mret (db_updates db !! (workflow_id, update_id)).

End Messages.
