(* ===== verification/Timeouts.v ===== *)
(** * Activity timeouts (engine/persistence/timeouts.py)

    The maintenance pass finds an activity attempt whose schedule-to-start,
    start-to-close or heartbeat deadline passed, or whose lease expired, records
    the timeout and creates the next attempt, or wakes replay when the attempt
    was the last one. *)
From S2P Require Import Prelude Python Serialization History Context Database Leasing Transitions.
From S2P Require Import Commit Activities Messages.

(** A nullable instant that has passed. *)
Definition passed (now : Timestamp) (t : option Timestamp) : bool :=
  match t with Some t => (t <=? now)%Z | None => false end.

(** [heartbeat_at + heartbeat_timeout], null when either is. *)
Definition heartbeat_deadline (t : Task) : option Timestamp :=
  match task_heartbeat_at t, task_heartbeat_timeout t with
  | Some h, Some d => Some (h + d)%Z
  | _, _ => None
  end.

(** engine/persistence/timeouts.py, lines 38-44 *)
Definition timeout_type (now : Timestamp) (t : Task) : string :=
  if bool_decide (task_status t = TPending) then "schedule_to_start"
  else if passed now (task_start_to_close_deadline t) then "start_to_close"
  else if passed now (heartbeat_deadline t) then "heartbeat"
  else "lease_expired".

(** engine/persistence/timeouts.py, lines 48-64: the attempts that timed out. *)
Definition timed_out (db : DB) (now : Timestamp) (queue_name : option string) (t : Task) : bool :=
  bool_decide (task_task_type t = TActivity)
  && with_execution db t (fun e =>
       bool_decide (exec_status e = WRunning) && bool_decide (exec_paused_at e = None))
  && queue_filter queue_name t
  && ((bool_decide (task_status t = TPending) && passed now (task_schedule_to_start_deadline t))
      || (bool_decide (task_status t = TLeased)
          && (passed now (task_lease_expires_at t)
              || passed now (task_start_to_close_deadline t)
              || passed now (heartbeat_deadline t)))).

(** [coalesce] of the deadlines, the sort key of the candidates. *)
Definition first_deadline (t : Task) : Timestamp :=
  match task_schedule_to_start_deadline t with
  | Some d => d
  | None =>
    match task_start_to_close_deadline t with
    | Some d => d
    | None =>
      match heartbeat_deadline t with
      | Some d => d
      | None => default 0%Z (task_lease_expires_at t)
      end
    end
  end.

(** engine/persistence/timeouts.py, lines 35-74 *)
Definition due_timeout (db : DB) (now : Timestamp) (locked : gset UUID)
    (queue_name : option string) : option (UUID * Task) :=
  head (select (fun id t => timed_out db now queue_name t && negb (bool_decide (id ∈ locked)))
          (fun id t => [first_deadline t; uuid_key id]) (db_tasks db)).

Section Timeouts.
Context `{PyStd}.

(** engine/persistence/timeouts.py, lines 108-183: the event, the attempt's
    end and what follows it. *)
Definition record_timeout (task_id : UUID) (task : Task) (execution : Execution)
    (type : string) (is_final : bool) (next_visible_at : Timestamp) : M unit :=
  let workflow_id := task_workflow_id task in
  let next_seq := exec_next_seq execution in
  now ← db_now;
  _ ← insert_event workflow_id next_seq ActivityTimedOut None (task_entity_id task) None
        [("attempt", JInt (task_attempt task));
         ("failure", JObj
            [("type", JStr "ActivityTimeout");
             ("message", JStr ("activity attempt timed out: " +:+ type));
             ("timeout_type", JStr type)]);
         ("final", JBool is_final);
         ("timeout_type", JStr type);
         ("next_visible_at",
            if is_final then JNull else JStr (isoformat (utc next_visible_at)))];
  _ ← update_tasks (fun id _ => bool_decide (id = task_id))
        (close_task (if is_final then TDead else TCompleted) now);
  _ ← (if is_final then wake_workflow workflow_id (task_queue_name task)
       else
         id ← uuid4;
         insert_task id
           (retry_task workflow_id task (task_entity_id task) (task_command_id task)
              (task_attempt task + 1) next_visible_at now));
  set_next_seq workflow_id (next_seq + 1).

(** engine/persistence/timeouts.py, lines 25-184 *)
Definition process_activity_timeout (queue_name : option string) (random_value : option float)
    : M bool :=
  selected_random ← match random_value with Some r => mret r | None => random_random end;
  transaction (
    now ← db_now;
    locked ← locked_rows;
    db ← get_db;
    match due_timeout db now locked queue_name with
    | None => mret false
    | Some (task_id, task) =>
      execution ← fetch_execution (task_workflow_id task);
      match execution with
      | None => mret false
      | Some execution =>
        if negb (bool_decide (exec_status execution = WRunning)) then mret false
        else
          '(policy, max_attempts) ← of_result (recorded_policy (default JNull (task_input task)));
          let is_final := (max_attempts <=? task_attempt task)%Z in
          delay ← of_result (if is_final then Ok 0%Z
                             else retry_delay policy (task_attempt task) selected_random);
          clock ← utc_now;
          next_visible_at ← of_result (datetime_add clock delay);
          _ ← record_timeout task_id task execution (timeout_type now task) is_final
                next_visible_at;
          mret true
      end
    end).

End Timeouts.
