(* ===== verification/Queries.v ===== *)
(** * Read-only queries (engine/persistence/queries.py, operations.py, and the
    lists of updates.py and schedules.py)

    Views of executions, histories, tasks, schedules and worker heartbeats.  What PostgreSQL
    does with text -- [ilike], the collation, the text of a [jsonb] value and
    its containment [@>] -- is a parameter. *)
From S2P Require Import Prelude Python Serialization History Database AuditLog.

Class PgText : Type := {
  ilike_contains : string → string → bool;     (* text ilike '%' || pattern || '%' *)
  text_le : string → string → bool;            (* the collation of [order by] *)
  jsonb_text : JSON → string;                  (* value::text *)
  jsonb_contains : JSON → JSON → bool          (* value @> filter *)
}.

(** engine/persistence/queries.py, lines 15-40 *)
Record ExecutionSummary : Type := mk_summary {
  sum_id : UUID;
  sum_workflow_type : string;
  sum_definition_version : Z;
  sum_queue_name : string;
  sum_status : string;
  sum_input : JSON;
  sum_result : JSON;
  sum_failure : JSON;
  sum_next_seq : Z;
  sum_created_at : Timestamp;
  sum_closed_at : option Timestamp;
  sum_cancellation_requested_at : option Timestamp;
  sum_cancellation_reason : option string;
  sum_search_attributes : JSON;
  sum_paused_at : option Timestamp;
  sum_pause_reason : option string;
  sum_retry_of : option UUID;
  sum_schedule_id : option UUID;
  sum_scheduled_at : option Timestamp;
  sum_parent_workflow_id : option UUID;
  sum_parent_command_id : option Z;
  sum_parent_close_policy : option string;
  sum_continued_from : option UUID;
  sum_continued_to : option UUID
}.

(** engine/persistence/queries.py, lines 43-49 *)
Record ExecutionStats : Type := mk_stats {
  st_total : nat; st_running : nat; st_completed : nat; st_failed : nat; st_terminated : nat
}.

(** engine/persistence/queries.py, lines 52-60 *)
Record HistoryRecord : Type := mk_history_record {
  hrec_seq : Z;
  hrec_event_type : EventType;
  hrec_command_id : option Z;
  hrec_entity_id : option UUID;
  hrec_external_id : option string;
  hrec_attributes : dict;
  hrec_created_at : Timestamp
}.

(** engine/persistence/queries.py, lines 63-66 *)
Record HistoryPage : Type := mk_page {
  page_items : list HistoryRecord;
  page_next_after_seq : option Z
}.

(** engine/persistence/queries.py, lines 69-72: of a nullable column. *)
Definition _json (value : option JSON) : JSON := default JNull value.

(** engine/persistence/queries.py, lines 75-101 *)
Definition _execution (row : UUID * Execution) : ExecutionSummary :=
  let '(id, e) := row in
  mk_summary id (exec_workflow_type e) (exec_definition_version e) (exec_queue_name e)
    (workflow_status_name (exec_status e)) (exec_input e) (_json (exec_result e))
    (_json (exec_failure e)) (exec_next_seq e) (exec_created_at e) (exec_closed_at e)
    (exec_cancellation_requested_at e) (exec_cancellation_reason e) (exec_search_attributes e)
    (exec_paused_at e) (exec_pause_reason e) (exec_retry_of e) (exec_schedule_id e)
    (exec_scheduled_at e) (exec_parent_workflow_id e) (exec_parent_command_id e)
    (exec_parent_close_policy e) (exec_continued_from e) (exec_continued_to e).

(** engine/persistence/queries.py, lines 224-235: the record of a row. *)
Definition history_record (r : HistoryRow) : HistoryRecord :=
  let e := hr_event r in
  mk_history_record (event_seq e) (event_type e) (command_id e) (entity_id e) (external_id e)
    (attributes e) (hr_created_at r).

(** engine/persistence/operations.py, lines 17-27: the row of a worker, and
    whether it was seen lately. *)
Record WorkerHeartbeat : Type := mk_worker_heartbeat {
  wh_worker_id : UUID;
  wh_row : WorkerRow;
  wh_healthy : bool
}.

(** engine/persistence/operations.py, lines 30-43 *)
Record DeadTask : Type := mk_dead_task {
  dt_id : UUID;
  dt_workflow_id : UUID;
  dt_workflow_type : string;
  dt_task_type : TaskType;
  dt_queue_name : string;
  dt_entity_id : option UUID;
  dt_command_id : option Z;
  dt_attempt : Z;
  dt_input : JSON;
  dt_outcome : JSON;
  dt_created_at : Timestamp;
  dt_completed_at : option Timestamp
}.

(** [limit < 1 or limit > 1000]. *)
Definition check_limit (limit : Z) : Py unit :=
  if (limit <? 1)%Z || (1000 <? limit)%Z then Err (ValueError "limit must be between 1 and 1000")
  else Ok tt.

(** The rows of a history in the order of their numbers. *)
Definition seq_rows (wid : UUID) (db : DB) : list HistoryRow :=
  order_by (fun a b => (event_seq (hr_event a) <=? event_seq (hr_event b))%Z) (rows_of wid db).

(** engine/persistence/queries.py, lines 214-235 *)
Definition get_history (workflow_id : UUID) : M (list HistoryRecord) :=
  db ← get_db; mret (map history_record (seq_rows workflow_id db)).

(** engine/persistence/queries.py, lines 238-280 *)
Definition get_history_page (workflow_id : UUID) (after_seq limit : Z) : M HistoryPage :=
  if (after_seq <? 0)%Z then throw (ValueError "after_seq cannot be negative")
  else
    _ ← of_result (check_limit limit);
    db ← get_db;
    let rows := take (Z.to_nat (limit + 1))
      (filter (fun r => (after_seq < event_seq (hr_event r))%Z) (seq_rows workflow_id db)) in
    let has_more := (limit <? Z.of_nat (length rows))%Z in
    let items := map history_record (take (Z.to_nat limit) rows) in
    mret (mk_page items
      (if has_more then hrec_seq <$> last items else None)).

(** engine/persistence/queries.py, lines 283-314: the rows of the largest
    numbers, reversed. *)
Definition get_history_tail (workflow_id : UUID) (limit : Z) : M (list HistoryRecord) :=
  _ ← of_result (check_limit limit);
  db ← get_db;
  mret (map history_record (rev (take (Z.to_nat limit) (rev (seq_rows workflow_id db))))).

(** engine/persistence/queries.py, lines 149-155 *)
Definition get_execution (workflow_id : UUID) : M (option ExecutionSummary) :=
  db ← get_db; mret ((fun e => _execution (workflow_id, e)) <$> db_executions db !! workflow_id).

(** engine/persistence/queries.py, lines 162-173: up to the first execution
    through [continued_from]; at most 1000 executions. *)
Fixpoint chain_root (fuel : nat) (executions : gmap UUID Execution) (id : UUID) : UUID :=
  match fuel with
  | O => id
  | S fuel =>
    match executions !! id ≫= exec_continued_from with
    | Some previous =>
      match executions !! previous with
      | Some _ => chain_root fuel executions previous
      | None => id
      end
    | None => id
    end
  end.

(** engine/persistence/queries.py, lines 173-184: and down through
    [continued_to]. *)
Fixpoint chain_down (fuel : nat) (executions : gmap UUID Execution) (id : UUID)
    : list (UUID * Execution) :=
  match executions !! id with
  | None => []
  | Some e =>
    (id, e) ::
    match fuel, exec_continued_to e with
    | S fuel, Some following => chain_down fuel executions following
    | _, _ => []
    end
  end.

(** engine/persistence/queries.py, lines 158-186 *)
Definition get_continuation_chain (workflow_id : UUID) : M (list ExecutionSummary) :=
  db ← get_db;
  let executions := db_executions db in
  match executions !! workflow_id with
  | None => mret []
  | Some _ => mret (map _execution (chain_down 999 executions (chain_root 999 executions workflow_id)))
  end.

(** [count( * ) filter (where status = s)]. *)
Definition count_status (s : WorkflowStatus) (executions : gmap UUID Execution) : nat :=
  length (filter (fun kv => exec_status kv.2 = s) (map_to_list executions)).

(** engine/persistence/queries.py, lines 189-211 *)
Definition get_execution_stats : M ExecutionStats :=
  db ← get_db;
  let executions := db_executions db in
  mret (mk_stats (size executions) (count_status WRunning executions)
          (count_status WCompleted executions) (count_status WFailed executions)
          (count_status WTerminated executions)).

(** ** Worker heartbeats *)

(** engine/persistence/operations.py, lines 100-121: [socket.gethostname()] and
    [os.getpid()] are arguments; the checks of the table. *)
Definition heartbeat_worker (hostname : string) (process_id : Z) (worker_id : UUID)
    (queue_name : string) (roles : list string) : M unit :=
  now ← db_now;
  if negb (0 <? process_id)%Z then throw (CheckViolation "worker_heartbeats_process_id_check")
  else if bool_decide (roles = []) then throw (CheckViolation "worker_heartbeats_roles_check")
  else
    modify_db (fun db => db <| db_workers :=
      <[worker_id :=
          match db_workers db !! worker_id with
          | None => mk_worker_row hostname process_id queue_name roles now now None
          | Some row => row <| wk_last_seen_at := now |> <| wk_stopped_at := None |>
          end]> (db_workers db) |>).

(** engine/persistence/operations.py, lines 124-132 *)
Definition stop_worker (worker_id : UUID) : M unit :=
  now ← db_now;
  modify_db (fun db => db <| db_workers :=
    alter (fun row => row <| wk_last_seen_at := now |> <| wk_stopped_at := Some now |>)
      worker_id (db_workers db) |>).

(** engine/persistence/operations.py, lines 145-146: [now() - $1 * interval '1 second']. *)
Definition stale_before (now : Timestamp) (stale_after_seconds : Z) : Py Timestamp :=
  pg_add now (- (stale_after_seconds * 1000000)).

(** The worker has not stopped, and was seen after [limit]. *)
Definition healthy (limit : Timestamp) (row : WorkerRow) : bool :=
  bool_decide (wk_stopped_at row = None) && (limit <? wk_last_seen_at row)%Z.

(** engine/persistence/operations.py, lines 135-164 *)
Definition list_worker_heartbeats (stale_after_seconds : Z) : M (list WorkerHeartbeat) :=
  now ← db_now;
  limit ← of_result (stale_before now stale_after_seconds);
  db ← get_db;
  mret (map (fun kv => mk_worker_heartbeat kv.1 kv.2 (healthy limit kv.2))
          (select (fun _ _ => true) (fun _ row => [(- wk_started_at row)%Z]) (db_workers db))).

(** ** Tasks *)
Definition count_tasks (s : TaskStatus) (tasks : gmap UUID Task) : nat :=
  length (filter (fun kv => task_status kv.2 = s) (map_to_list tasks)).

(** engine/persistence/operations.py, lines 167-194 *)
Definition get_operational_gauges (stale_after_seconds : Z) : M (list (string * float)) :=
  now ← db_now;
  limit ← of_result (stale_before now stale_after_seconds);
  db ← get_db;
  let gauge n := float_of_Z (Z.of_nat n) in
  let paused := filter (fun kv => exec_status kv.2 = WRunning ∧ is_Some (exec_paused_at kv.2))
                  (map_to_list (db_executions db)) in
  let workers := filter (fun kv => healthy limit kv.2 = true) (map_to_list (db_workers db)) in
  mret [("dwe_tasks_pending", gauge (count_tasks TPending (db_tasks db)));
        ("dwe_tasks_leased", gauge (count_tasks TLeased (db_tasks db)));
        ("dwe_tasks_dead", gauge (count_tasks TDead (db_tasks db)));
        ("dwe_workflows_running", gauge (count_status WRunning (db_executions db)));
        ("dwe_workflows_paused", gauge (length paused));
        ("dwe_workers_healthy", gauge (length workers))].

(** The events that say how a dead task ended. *)
Definition outcome_event (t : EventType) : bool :=
  match t with
  | ActivityFailed | ActivityTimedOut | TimerCanceled | WorkflowExecutionFailed
  | WorkflowExecutionTerminated => true
  | _ => false
  end.

(** engine/persistence/operations.py, lines 63-72: [left join lateral]. *)
Definition dead_outcome (task : Task) (db : DB) : JSON :=
  let matches (r : HistoryRow) :=
    outcome_event (event_type (hr_event r)) &&
    match task_entity_id task with
    | None => true
    | Some n => bool_decide (entity_id (hr_event r) = Some n)
    end in
  match last (filter (fun r => matches r = true) (seq_rows (task_workflow_id task) db)) with
  | Some r => JObj (attributes (hr_event r))
  | None => JNull
  end.

(** engine/persistence/operations.py, lines 52-97 *)
Definition list_dead_tasks (limit : Z) : M (list DeadTask) :=
  _ ← of_result (check_limit limit);
  db ← get_db;
  let rows := select (fun _ t => bool_decide (task_status t = TDead))
    (fun id t => [(- default 0 (task_completed_at t))%Z; uuid_key id]) (db_tasks db) in
  mret (take (Z.to_nat limit) (omap (fun kv : UUID * Task =>
    let '(id, t) := kv in
    (fun e => mk_dead_task id (task_workflow_id t) (exec_workflow_type e) (task_task_type t)
                (task_queue_name t) (task_entity_id t) (task_command_id t) (task_attempt t)
                (default JNull (task_input t)) (dead_outcome t db) (task_created_at t)
                (task_completed_at t)) <$> db_executions db !! task_workflow_id t) rows)).

(** ** Lists ordered by text *)
Section Queries.
Context `{PyStd} `{PgText}.

(** engine/persistence/queries.py, lines 121-136: the [where] clause. *)
Definition execution_matches (status workflow_type queue_name query : option string)
    (search_attributes : JSON) (id : UUID) (e : Execution) : bool :=
  match status with
  | None => true
  | Some s =>
    (String.eqb s "attention" && bool_decide (exec_status e = WFailed ∨ exec_status e = WTerminated))
    || String.eqb (workflow_status_name (exec_status e)) s
  end
  && match workflow_type with None => true | Some t => String.eqb (exec_workflow_type e) t end
  && match queue_name with None => true | Some q => String.eqb (exec_queue_name e) q end
  && match query with
     | None => true
     | Some q =>
       ilike_contains (uuid_str id) q || ilike_contains (exec_workflow_type e) q
       || ilike_contains (exec_queue_name e) q
       || ilike_contains (jsonb_text (exec_search_attributes e)) q
     end
  && jsonb_contains (exec_search_attributes e) search_attributes.

(** engine/persistence/queries.py, lines 104-146 *)
Definition list_executions (status workflow_type queue_name query : option string)
    (search_attributes : option dict) (limit : Z) : M (list ExecutionSummary) :=
  _ ← of_result (check_limit limit);
  db ← get_db;
  mret (map _execution (take (Z.to_nat limit)
    (select (execution_matches status workflow_type queue_name query
               (JObj (default [] search_attributes)))
       (fun id e => [(- exec_created_at e)%Z; uuid_key id]) (db_executions db)))).

(** engine/persistence/updates.py, lines 153-167 *)
Definition list_updates (workflow_id : UUID) (limit : Z) : M (list (string * UpdateRow)) :=
  _ ← of_result (check_limit limit);
  db ← get_db;
  let rows := omap (fun kv : UUID * string * UpdateRow =>
    let '(w, u, row) := kv in if bool_decide (w = workflow_id) then Some (u, row) else None)
    (map_to_list (db_updates db)) in
  mret (take (Z.to_nat limit) (order_by (fun a b =>
    (upd_created_at b.2 <? upd_created_at a.2)%Z
    || ((upd_created_at a.2 =? upd_created_at b.2)%Z && text_le a.1 b.1)) rows)).

(** engine/persistence/schedules.py, lines 160-163 *)
Definition list_schedules : M (list (UUID * ScheduleRow)) :=
  db ← get_db;
  mret (order_by (fun a b => negb (text_le (sch_name b.2) (sch_name a.2))
                             || (String.eqb (sch_name a.2) (sch_name b.2) && (a.1 <=? b.1)%N))
          (map_to_list (db_schedules db))).

(** engine/persistence/schedules.py, lines 166-191 *)
Definition list_schedule_occurrences (schedule_id : UUID) (limit : Z)
    : M (list (Timestamp * OccurrenceRow)) :=
  _ ← of_result (check_limit limit);
  db ← get_db;
  mret (take (Z.to_nat limit)
    (map (fun kv : UUID * Timestamp * OccurrenceRow => (kv.1.2, kv.2))
       (select (fun k _ => bool_decide (k.1 = schedule_id)) (fun k _ => [(- k.2)%Z])
          (db_occurrences db)))).

End Queries.
