(* ===== verification/Cron.v ===== *)
(** * Cron expressions (engine/runtime/cron.py)

    The parser of five-field expressions and the search for the next matching
    minute in a time zone.  Instants are microseconds since the epoch; the
    calendar is the proleptic Gregorian one of [datetime]. *)
From S2P Require Import Prelude Python Context.

(** engine/runtime/cron.py, lines 14-17 *)
Record CronField : Type := mk_cron_field {
  values : gset Z;
  wildcard : bool
}.

(** engine/runtime/cron.py, lines 20-26 *)
Record CronExpression : Type := mk_cron_expression {
  cron_minute : CronField;
  cron_hour : CronField;
  cron_day_of_month : CronField;
  cron_month : CronField;
  cron_day_of_week : CronField
}.

(** [range(start, end + 1, step)], for a positive step. *)
Definition range_step (start end_ step : Z) : list Z :=
  map (fun k => start + Z.of_nat k * step)%Z (seq 0 (Z.to_nat ((end_ - start) / step + 1))).

(** engine/runtime/cron.py, lines 33-55: the values of one item of a list. *)
Definition field_item (minimum maximum : Z) (item : string) : Py (list Z) :=
  let '(base, step_raw) := partition_on (Ascii.ascii_of_N 47) item in
  step ← match step_raw with
         | None => Ok 1%Z
         | Some r => match int_of_str r with
                     | Some n => Ok n
                     | None => Err (CronExpressionError "invalid cron step")
                     end
         end;
  if (step <? 1)%Z then Err (CronExpressionError "cron steps must be positive")
  else
    '(start, end_) ←
      (if String.eqb base "*" then Ok (minimum, maximum)
       else match partition_on (Ascii.ascii_of_N 45) base with
            | (start_raw, Some end_raw) =>
              match int_of_str start_raw, int_of_str end_raw with
              | Some s, Some e => Ok (s, e)
              | _, _ => Err (CronExpressionError "invalid cron range")
              end
            | (_, None) =>
              match int_of_str base with
              | Some n => Ok (n, n)
              | None => Err (CronExpressionError "invalid cron value")
              end
            end);
    if (start <? minimum)%Z || (maximum <? end_)%Z || (end_ <? start)%Z then
      Err (CronExpressionError "cron value is outside its range")
    else Ok (range_step start end_ step).

(** engine/runtime/cron.py, lines 29-59 *)
Definition _field (raw : string) (minimum maximum : Z) (sunday : bool) : Py CronField :=
  vs ← foldM (fun vs item => items ← field_item minimum maximum item; Ok (vs ++ items))
         [] (split_on (Ascii.ascii_of_N 44) raw);
  let vs : gset Z := list_to_set vs in
  let vs := if sunday && bool_decide (7%Z ∈ vs) then {[0%Z]} ∪ vs ∖ {[7%Z]} else vs in
  Ok (mk_cron_field vs (String.eqb raw "*")).

(** engine/runtime/cron.py, lines 62-72 *)
Definition parse_cron (expression : string) : Py CronExpression :=
  match words expression with
  | [f0; f1; f2; f3; f4] =>
    minute ← _field f0 0 59 false;
    hour ← _field f1 0 23 false;
    day_of_month ← _field f2 1 31 false;
    month ← _field f3 1 12 false;
    day_of_week ← _field f4 0 7 true;
    Ok (mk_cron_expression minute hour day_of_month month day_of_week)
  | _ => Err (CronExpressionError "cron expressions must contain five fields")
  end.

(** ** The calendar *)

Definition minute_us : Z := 60000000.

(** The civil date of a day number (days since 1970-01-01), counting years from
    March so that leap days end a year. *)
Definition civil_of_days (days : Z) : Z * Z * Z :=
  (let z := days + 719468 in
  let era := z / 146097 in
  let doe := z mod 146097 in
  let yoe := (doe - doe / 1460 + doe / 36524 - doe / 146096) / 365 in
  let doy := doe - (365 * yoe + yoe / 4 - yoe / 100) in
  let mp := (5 * doy + 2) / 153 in
  let d := doy - (153 * mp + 2) / 5 + 1 in
  let m := if mp <? 10 then mp + 3 else mp - 9 in
  let y := yoe + era * 400 + (if m <=? 2 then 1 else 0) in
  (y, m, d))%Z.

(** The fields of a local wall time that [_matches] reads. *)
Record LocalTime : Type := mk_local {
  lt_minute : Z;
  lt_hour : Z;
  lt_day : Z;
  lt_month : Z;
  lt_weekday : Z         (* Monday is 0 *)
}.

Definition local_of (wall : Z) : LocalTime :=
  let days := (wall / day_us)%Z in
  let '(_, m, d) := civil_of_days days in
  mk_local ((wall / minute_us) mod 60)%Z ((wall / (60 * minute_us)) mod 24)%Z d m
    ((days + 3) mod 7)%Z.

(** engine/runtime/cron.py, lines 75-89 *)
Definition _matches (parsed : CronExpression) (local : LocalTime) : bool :=
  if negb (bool_decide (lt_minute local ∈ values (cron_minute parsed)))
     || negb (bool_decide (lt_hour local ∈ values (cron_hour parsed))) then false
  else if negb (bool_decide (lt_month local ∈ values (cron_month parsed))) then false
  else
    let day_of_month := bool_decide (lt_day local ∈ values (cron_day_of_month parsed)) in
    let cron_weekday := ((lt_weekday local + 1) mod 7)%Z in
    let day_of_week := bool_decide (cron_weekday ∈ values (cron_day_of_week parsed)) in
    if wildcard (cron_day_of_month parsed) then day_of_week
    else if wildcard (cron_day_of_week parsed) then day_of_month
    else day_of_month || day_of_week.

(** engine/runtime/cron.py, lines 107-110: the search, one minute at a time. *)
Fixpoint search_minute (fuel : nat) (matches : Timestamp → bool) (candidate : Timestamp)
    : Py Timestamp :=
  match fuel with
  | O => Err (CronExpressionError "cron expression produced no occurrence within five years")
  | S fuel =>
    if matches candidate then Ok candidate
    else if (datetime_end <=? candidate + minute_us)%Z then
      Err (OverflowError "date value out of range")
    else search_minute fuel matches (candidate + minute_us)%Z
  end.

(** engine/runtime/cron.py, line 107: the minutes of five years. *)
Definition cron_horizon : Z := 60 * 24 * 366 * 5.

(** engine/runtime/cron.py, lines 92-111 *)
Definition next_cron_time `{PyStd} (expression : string) (after : Datetime)
    (timezone_name : string) : Py Timestamp :=
  match dt_offset after with
  | None =>
    Err (CronExpressionError "cron evaluation requires a timezone-aware timestamp")
  | Some offset =>
    parsed ← parse_cron expression;
    timezone ← match zone_info timezone_name with
               | Ok z => Ok z
               | Err (KeyError _) => Err (CronExpressionError "unknown IANA timezone")
               | Err e => Err e
               end;
    let after_utc := (dt_wall after - offset)%Z in
    let candidate := (after_utc - after_utc mod minute_us + minute_us)%Z in
    if (datetime_end <=? candidate)%Z then Err (OverflowError "date value out of range")
    else
      search_minute (Z.to_nat cron_horizon)
        (fun t => _matches parsed (local_of (t + timezone t))) candidate
  end.
