(* ===== verification/CronSpec.v ===== *)
(** * The next occurrence of a cron expression

    [next_cron_time] finds the earliest matching minute after the given instant,
    or there is none in its horizon. *)
From S2P Require Import Prelude Python Context Cron.

Lemma search_minute_ok fuel matches start t :
  search_minute fuel matches start = Ok t →
  ∃ k : nat, k < fuel ∧ t = (start + Z.of_nat k * minute_us)%Z ∧ matches t = true ∧
    ∀ j : nat, j < k → matches (start + Z.of_nat j * minute_us)%Z = false.
Proof.
  revert start. induction fuel as [|fuel IH]; intros start; simpl; [done|].
  destruct (matches start) eqn:Hm.
  - intros [= <-]. exists 0. split_and!; [lia|lia|done|lia].
  - case_match; [done|]. intros (k & Hk & -> & Ht & Hall)%IH. exists (S k).
    replace (start + Z.of_nat (S k) * minute_us)%Z with (start + minute_us + Z.of_nat k * minute_us)%Z by lia.
    split_and!; [lia|done|done|]. intros [|j] Hj.
    + by replace (start + Z.of_nat 0 * minute_us)%Z with start by lia.
    + replace (start + Z.of_nat (S j) * minute_us)%Z with (start + minute_us + Z.of_nat j * minute_us)%Z by lia.
      apply Hall. lia.
Qed.

(** The search ends without an answer only past its horizon or the calendar's end. *)
Lemma search_minute_err fuel matches start e :
  search_minute fuel matches start = Err e →
  ∃ k : nat, k ≤ fuel ∧ (k = fuel ∨ datetime_end ≤ start + Z.of_nat k * minute_us)%Z ∧
    ∀ j : nat, j < k → matches (start + Z.of_nat j * minute_us)%Z = false.
Proof.
  revert start. induction fuel as [|fuel IH]; intros start; simpl.
  { intros _. exists 0. split_and!; [lia|by left|lia]. }
  destruct (matches start) eqn:Hm; [done|].
  assert (∀ j, j < 1 → matches (start + Z.of_nat j * minute_us)%Z = false) as H0.
  { intros j Hj. assert (j = 0) as -> by lia.
    by replace (start + Z.of_nat 0 * minute_us)%Z with start by lia. }
  destruct (Z.leb_spec datetime_end (start + minute_us)).
  - intros _. exists 1. split_and!; [lia|right; lia|done].
  - intros (k & Hk & Hor & Hall)%IH. exists (S k).
    split_and!; [lia|destruct Hor as [->|?]; [by left|right; lia]|].
    intros [|j] Hj; [apply H0; lia|].
    replace (start + Z.of_nat (S j) * minute_us)%Z with (start + minute_us + Z.of_nat j * minute_us)%Z by lia.
    apply Hall. lia.
Qed.

Section spec.
Context `{PyStd}.

(** The instant [t] is a whole minute that matches, in the time zone. *)
Definition occurs (parsed : CronExpression) (timezone : Timestamp → Z) (t : Timestamp) : Prop :=
  (t mod minute_us = 0)%Z ∧ _matches parsed (local_of (t + timezone t)) = true.

Lemma minutes_between start t :
  (start mod minute_us = 0)%Z → (t mod minute_us = 0)%Z → (start ≤ t)%Z →
  ∃ j : nat, t = (start + Z.of_nat j * minute_us)%Z.
Proof.
  unfold minute_us. intros Hs Ht Hle. exists (Z.to_nat ((t - start) / 60000000)).
  rewrite Z2Nat.id by (apply Z.div_pos; lia).
  pose proof (Z.div_mod t 60000000). pose proof (Z.div_mod start 60000000).
  assert (t - start = (t / 60000000 - start / 60000000) * 60000000)%Z as -> by lia.
  rewrite Z.div_mul by lia. lia.
Qed.

(** Where the search starts: the first whole minute after the instant. *)
Definition next_minute (now : Timestamp) : Timestamp := (now - now mod minute_us + minute_us)%Z.

Lemma next_minute_bounds now : (now < next_minute now ≤ now + minute_us)%Z ∧ (next_minute now mod minute_us = 0)%Z.
Proof.
  unfold next_minute. pose proof (Z.mod_pos_bound now minute_us ltac:(done)). split; [lia|].
  replace (now - now mod minute_us + minute_us)%Z with ((now / minute_us + 1) * minute_us)%Z.
  - by apply Z.mod_mul.
  - pose proof (Z.div_mod now minute_us ltac:(done)). lia.
Qed.

(** An occurrence after the instant is a minute of the search. *)
Lemma occurs_searched parsed timezone now t :
  (now < t)%Z → occurs parsed timezone t →
  ∃ j : nat, t = (next_minute now + Z.of_nat j * minute_us)%Z ∧
             _matches parsed (local_of (t + timezone t)) = true.
Proof.
  intros Hlt [Hm Ht]. pose proof (next_minute_bounds now) as [_ Hs].
  destruct (minutes_between (next_minute now) t) as [j Hj]; [done|done| |by exists j].
  unfold next_minute. pose proof (Z.div_mod now minute_us ltac:(done)).
  pose proof (Z.div_mod t minute_us ltac:(done)). pose proof (Z.mod_pos_bound now minute_us ltac:(done)).
  unfold minute_us in *. lia.
Qed.

Lemma next_cron_found expression after timezone_name offset parsed timezone t :
  dt_offset after = Some offset → parse_cron expression = Ok parsed →
  zone_info timezone_name = Ok timezone →
  next_cron_time expression after timezone_name = Ok t →
  let now := (dt_wall after - offset)%Z in
  occurs parsed timezone t ∧ (now < t ≤ now + cron_horizon * minute_us)%Z ∧
  ∀ t', (now < t' < t)%Z → ¬ occurs parsed timezone t'.
Proof.
  intros Ho Hp Hz Hr now. unfold next_cron_time in Hr. rewrite Ho, Hp in Hr.
  unfold mbind, Result_bind in Hr. rewrite Hz in Hr. fold now in Hr. fold (next_minute now) in Hr.
  destruct (Z.leb_spec datetime_end (next_minute now)); [done|].
  pose proof (next_minute_bounds now) as [Hb Hs]. assert (0 < minute_us)%Z as Hpos by done.
  apply search_minute_ok in Hr as (k & Hk & -> & Hm & Hall).
  assert (Z.of_nat k < cron_horizon)%Z as Hk' by lia.
  split_and!; [|lia|nia|].
  - split; [|done]. rewrite Z.mod_add; [done|lia].
  - intros t' [H1 H2] Hoc. destruct (occurs_searched _ _ _ _ H1 Hoc) as (j & -> & Hj).
    rewrite Hall in Hj; [done|]. nia.
Qed.

Lemma next_cron_none expression after timezone_name offset parsed timezone e :
  dt_offset after = Some offset → parse_cron expression = Ok parsed →
  zone_info timezone_name = Ok timezone →
  next_cron_time expression after timezone_name = Err e →
  let now := (dt_wall after - offset)%Z in
  ∀ t', (now < t' ≤ now + (cron_horizon - 1) * minute_us)%Z → (t' < datetime_end)%Z →
        ¬ occurs parsed timezone t'.
Proof.
  intros Ho Hp Hz Hr now t' [H1 H2] Hlt Hoc. unfold next_cron_time in Hr. rewrite Ho, Hp in Hr.
  unfold mbind, Result_bind in Hr. rewrite Hz in Hr. fold now in Hr. fold (next_minute now) in Hr.
  pose proof (next_minute_bounds now) as [Hb Hs]. assert (0 < minute_us)%Z as Hpos by done.
  destruct (occurs_searched _ _ _ _ H1 Hoc) as (j & -> & Hj).
  destruct (Z.leb_spec datetime_end (next_minute now)); [lia|].
  apply search_minute_err in Hr as (k & Hk & Hor & Hall). rewrite Hall in Hj; [done|].
  destruct Hor as [Hkf|Hkf]; [|nia].
  assert (Z.of_nat k = cron_horizon) by (rewrite <- (Z2Nat.id cron_horizon) by done; lia). nia.
Qed.

(** C36 [next_cron_time] is the earliest occurrence: a whole matching minute
    strictly after the instant, with none in between, within the five years of
    its horizon; when it answers that there is none, there is none before the
    horizon or the end of the calendar. *)
Theorem next_cron_time_earliest expression after timezone_name offset parsed timezone r :
  dt_offset after = Some offset → parse_cron expression = Ok parsed →
  zone_info timezone_name = Ok timezone →
  next_cron_time expression after timezone_name = r →
  let now := (dt_wall after - offset)%Z in
  match r with
  | Ok t => occurs parsed timezone t ∧ (now < t ≤ now + cron_horizon * minute_us)%Z ∧
            ∀ t', (now < t' < t)%Z → ¬ occurs parsed timezone t'
  | Err _ => ∀ t', (now < t' ≤ now + (cron_horizon - 1) * minute_us)%Z → (t' < datetime_end)%Z →
                   ¬ occurs parsed timezone t'
  end.
Proof.
  intros Ho Hp Hz Hr. destruct r as [t|e]; [by eapply next_cron_found|by eapply next_cron_none].
Qed.

End spec.
