(* ===== verification/Schedules.v ===== *)
(** * Durable schedules (engine/persistence/schedules.py)

    A schedule starts an execution at each matching minute.  An occurrence is
    recorded once per schedule and instant; while an execution of the schedule
    runs, the overlap policy starts, skips or buffers (one) occurrence. *)
From S2P Require Import Prelude Python Serialization History Context Database AuditLog.
From S2P Require Import Transitions Cron.

Section Schedules.
Context `{PyStd}.

(** engine/persistence/schedules.py, lines 100-101: of a UTC clock. *)
Definition next_run (cron_expression timezone : string) (after : Timestamp) : Py Timestamp :=
  next_cron_time cron_expression (utc after) timezone.

(** The clock of a maintenance pass: [clock_time or datetime.now(UTC)]. *)
Definition clock_or_now (clock_time : option Timestamp) : M Timestamp :=
  match clock_time with Some t => mret t | None => utc_now end.

(** engine/persistence/schedules.py, lines 124-151: the insert, with the unique
    name, the definition reference and the length checks of the table. *)
Definition insert_schedule (schedule_id : UUID) (row : ScheduleRow) : M unit :=
  db ← get_db;
  if bool_decide (is_Some (db_schedules db !! schedule_id)) then
    throw (UniqueViolation "workflow_schedules_pkey")
  else if exists_row (fun _ s => String.eqb (sch_name s) (sch_name row)) (db_schedules db) then
    throw (UniqueViolation "workflow_schedules_name_key")
  else modify_db (fun db => db <| db_schedules := <[schedule_id := row]> (db_schedules db) |>).

(** engine/persistence/schedules.py, lines 78-157 *)
Definition create_schedule (name workflow_type : string) (definition_version : Z)
    (workflow_input : JSON) (cron_expression timezone queue_name : string)
    (search_attributes : dict) (overlap_policy : OverlapPolicy) (clock_time : option Timestamp)
    (audit : option AuditContext) : M (UUID * ScheduleRow) :=
  if String.eqb name "" || (200 <? py_len name)%Z then
    throw (ValueError "schedule name must contain 1 to 200 characters")
  else if String.eqb queue_name "" || (200 <? py_len queue_name)%Z then
    throw (ValueError "queue_name must contain 1 to 200 characters")
  else if (definition_version <? 1)%Z then
    throw (ValueError "definition_version must be at least 1")
  else
    _ ← of_result (parse_cron cron_expression);
    now ← clock_or_now clock_time;
    next_run_at ← of_result (next_run cron_expression timezone now);
    detached_input ← of_result (clone_json workflow_input);
    detached_attributes ← of_result (clone_json (JObj search_attributes));
    encoded ← of_result (canonical_json detached_attributes);
    if (14000 <? byte_len encoded)%N then
      throw (ValueError "schedule search_attributes cannot exceed 14 KB")
    else
      schedule_id ← uuid4;
      transaction (
        _ ← require_definition workflow_type definition_version;
        stored_input ← of_result (to_jsonb detached_input);
        stored_attributes ← of_result (to_jsonb detached_attributes);
        let row := mk_schedule_row name workflow_type definition_version stored_input queue_name
                     stored_attributes cron_expression timezone overlap_policy next_run_at None
                     None now now in
        _ ← insert_schedule schedule_id row;
        _ ← record_api_audit audit None true
              (JObj [("schedule_id", JStr (uuid_str schedule_id)); ("name", JStr name)]);
        mret (schedule_id, row)).

(** engine/persistence/schedules.py, lines 194-246 *)
Definition set_schedule_paused (schedule_id : UUID) (paused : bool)
    (clock_time : option Timestamp) (audit : option AuditContext) : M bool :=
  now ← clock_or_now clock_time;
  transaction (
    db ← get_db;
    match db_schedules db !! schedule_id with
    | None => throw (TransitionError ("schedule " +:+ uuid_str schedule_id +:+ " does not exist"))
    | Some row =>
      let currently_paused := bool_decide (is_Some (sch_paused_at row)) in
      let id := ("schedule_id", JStr (uuid_str schedule_id)) in
      if Bool.eqb currently_paused paused then
        _ ← record_api_audit audit None false (JObj [id; ("duplicate", JBool true)]);
        mret false
      else
        next_run_at ← of_result (if paused then Ok (sch_next_run_at row)
                                 else next_run (sch_cron_expression row) (sch_timezone row) now);
        _ ← modify_db (fun db => db <| db_schedules :=
              alter (fun s => s <| sch_paused_at := if paused then Some now else None |>
                                <| sch_next_run_at := next_run_at |> <| sch_updated_at := now |>)
                schedule_id (db_schedules db) |>);
        _ ← record_api_audit audit None true (JObj [id; ("paused", JBool paused)]);
        mret true
    end).

(** The insert into [schedule_occurrences], with its primary key and the index
    [one_buffered_occurrence_per_schedule]. *)
Definition insert_occurrence (schedule_id : UUID) (scheduled_at : Timestamp)
    (status : OccurrenceStatus) (workflow_id : option UUID) (reason : option string) : M unit :=
  now ← db_now;
  db ← get_db;
  if bool_decide (is_Some (db_occurrences db !! (schedule_id, scheduled_at))) then
    throw (UniqueViolation "schedule_occurrences_pkey")
  else if bool_decide (status = OBuffered)
          && exists_row (fun k o => bool_decide (k.1 = schedule_id)
                                    && bool_decide (occ_status o = OBuffered)) (db_occurrences db)
  then throw (UniqueViolation "one_buffered_occurrence_per_schedule")
  else
    modify_db (fun db => db <| db_occurrences :=
      <[(schedule_id, scheduled_at) := mk_occurrence_row status workflow_id reason now]>
        (db_occurrences db) |>).

(** engine/persistence/schedules.py, lines 314-323: the buffered occurrence
    becomes the started one. *)
Definition start_buffered (schedule_id : UUID) (scheduled_at : Timestamp) (workflow_id : UUID)
    : M unit :=
  modify_db (fun db => db <| db_occurrences :=
    alter (fun o => if bool_decide (occ_status o = OBuffered)
                    then mk_occurrence_row OStarted (Some workflow_id) None (occ_created_at o)
                    else o)
      (schedule_id, scheduled_at) (db_occurrences db) |>).

(** engine/persistence/schedules.py, lines 249-335 *)
Definition _start_occurrence (schedule_id : UUID) (schedule : ScheduleRow)
    (scheduled_at : Timestamp) (buffered : bool) : M UUID :=
  workflow_id ← uuid4;
  started_at ← utc_now;
  match sch_search_attributes schedule with
  | JObj base_attributes =>
    let id := JStr (uuid_str schedule_id) in
    let at_ := JStr (isoformat (utc scheduled_at)) in
    let attributes := JObj (dict_merge base_attributes
          [("dwe.schedule_id", id);
           ("dwe.schedule_name", JStr (sch_name schedule));
           ("dwe.scheduled_at", at_)]) in
    input ← of_result (to_jsonb (sch_input schedule));
    stored_attributes ← of_result (to_jsonb attributes);
    _ ← insert_execution workflow_id
          ((new_execution (sch_workflow_type schedule) (sch_definition_version schedule) input
              (sch_queue_name schedule) started_at stored_attributes)
             <| exec_schedule_id := Some schedule_id |>
             <| exec_scheduled_at := Some scheduled_at |>);
    _ ← insert_event workflow_id 1 WorkflowExecutionStarted None None None
          (started_attributes (sch_workflow_type schedule) (sch_definition_version schedule)
             (sch_input schedule) attributes started_at
             [("schedule_id", id); ("scheduled_at", at_)]);
    _ ← wake_workflow workflow_id (sch_queue_name schedule);
    _ ← (if buffered then start_buffered schedule_id scheduled_at workflow_id
         else insert_occurrence schedule_id scheduled_at OStarted (Some workflow_id) None);
    mret workflow_id
  | _ => throw (TypeError "stored schedule search attributes must be an object")
  end.

(** engine/persistence/schedules.py, lines 384-395: an execution of the schedule
    is running. *)
Definition schedule_active (db : DB) (schedule_id : UUID) : bool :=
  exists_row (fun _ e => bool_decide (exec_schedule_id e = Some schedule_id)
                         && bool_decide (exec_status e = WRunning)) (db_executions db).

(** engine/persistence/schedules.py, lines 342-355: the first buffered
    occurrence whose schedule is idle. *)
Definition buffered_occurrence (db : DB) (locked : gset UUID)
    : option (UUID * Timestamp * OccurrenceRow) :=
  head (select (fun k o =>
      bool_decide (occ_status o = OBuffered)
      && match db_schedules db !! k.1 with
         | Some s => bool_decide (sch_paused_at s = None)
         | None => false
         end
      && negb (schedule_active db k.1) && negb (bool_decide (k.1 ∈ locked)))
    (fun k _ => [k.2; uuid_key k.1]) (db_occurrences db)).

(** engine/persistence/schedules.py, lines 365-373: the first due schedule. *)
Definition due_schedule (db : DB) (locked : gset UUID) (now : Timestamp)
    : option (UUID * ScheduleRow) :=
  head (select (fun id s => bool_decide (sch_paused_at s = None) && (sch_next_run_at s <=? now)%Z
                            && negb (bool_decide (id ∈ locked)))
    (fun id s => [sch_next_run_at s; uuid_key id]) (db_schedules db)).

(** engine/persistence/schedules.py, lines 396-427: what the overlap policy does
    with an occurrence. *)
Definition record_occurrence (schedule_id : UUID) (schedule : ScheduleRow)
    (scheduled_at : Timestamp) : M unit :=
  db ← get_db;
  let active := schedule_active db schedule_id in
  let policy := sch_overlap_policy schedule in
  if active && negb (bool_decide (policy = allow)) then
    let already_buffered :=
      exists_row (fun k o => bool_decide (k.1 = schedule_id) && bool_decide (occ_status o = OBuffered))
        (db_occurrences db) in
    if bool_decide (policy = buffer_one) && negb already_buffered then
      insert_occurrence schedule_id scheduled_at OBuffered None (Some "waiting for active execution")
    else
      insert_occurrence schedule_id scheduled_at OSkipped None
        (Some "overlap policy skipped active occurrence")
  else
    _ ← _start_occurrence schedule_id schedule scheduled_at false; mret tt.

(** engine/persistence/schedules.py, lines 338-439 *)
Definition materialize_due_schedule (clock_time : option Timestamp) : M bool :=
  now ← clock_or_now clock_time;
  transaction (
    locked ← locked_rows;
    db ← get_db;
    match buffered_occurrence db locked with
    | Some (schedule_id, buffered_at, _) =>
      match db_schedules db !! schedule_id with
      | None => mret false
      | Some schedule =>
        _ ← _start_occurrence schedule_id schedule buffered_at true; mret true
      end
    | None =>
      match due_schedule db locked now with
      | None => mret false
      | Some (schedule_id, row) =>
        let scheduled_at := sch_next_run_at row in
        next_run_at ← of_result (next_run (sch_cron_expression row) (sch_timezone row) scheduled_at);
        _ ← record_occurrence schedule_id row scheduled_at;
        _ ← modify_db (fun db => db <| db_schedules :=
              alter (fun s => s <| sch_next_run_at := next_run_at |>
                                <| sch_last_run_at := Some scheduled_at |>
                                <| sch_updated_at := now |>)
                schedule_id (db_schedules db) |>);
        mret true
      end
    end).

(** engine/persistence/schedules.py, lines 464-477: the occurrences between two
    instants, at most [limit]; [fuel] is [S limit] and the loop raises first. *)
Fixpoint backfill_occurrences (fuel : nat) (cron_expression timezone : string) (limit : Z)
    (cursor : Datetime) (end_at : Timestamp) (occurrences : list Timestamp)
    : Py (list Timestamp) :=
  candidate ← next_cron_time cron_expression cursor timezone;
  if (end_at <? candidate)%Z then Ok occurrences
  else
    let occurrences := occurrences ++ [candidate] in
    if (limit <? Z.of_nat (length occurrences))%Z then
      Err (ValueError "backfill exceeds the occurrence limit")
    else match fuel with
    | O => Err RecursionError
    | S fuel =>
      backfill_occurrences fuel cron_expression timezone limit (utc candidate) end_at occurrences
    end.

(** engine/persistence/schedules.py, lines 479-493: one occurrence, and the
    number started. *)
Definition backfill_one (schedule_id : UUID) (schedule : ScheduleRow) (started : Z)
    (scheduled_at : Timestamp) : M Z :=
  db ← get_db;
  if bool_decide (is_Some (db_occurrences db !! (schedule_id, scheduled_at))) then mret started
  else
    _ ← _start_occurrence schedule_id schedule scheduled_at false;
    mret (started + 1)%Z.

(** engine/persistence/schedules.py, lines 442-506 *)
Definition backfill_schedule (schedule_id : UUID) (start_at end_at : Datetime) (limit : Z)
    (audit : option AuditContext) : M Z :=
  match dt_offset start_at, dt_offset end_at with
  | Some start_offset, Some end_offset =>
    let start_utc := (dt_wall start_at - start_offset)%Z in
    let end_utc := (dt_wall end_at - end_offset)%Z in
    if (end_utc <? start_utc)%Z then
      throw (ValueError "backfill end_at must not precede start_at")
    else if (limit <? 1)%Z || (100 <? limit)%Z then
      throw (ValueError "backfill limit must be between 1 and 100")
    else transaction (
      db ← get_db;
      match db_schedules db !! schedule_id with
      | None =>
        throw (TransitionError ("schedule " +:+ uuid_str schedule_id +:+ " does not exist"))
      | Some row =>
        occurrences ← of_result (backfill_occurrences (S (Z.to_nat limit))
              (sch_cron_expression row) (sch_timezone row) limit
              (mk_datetime (dt_wall start_at - minute_us) (dt_offset start_at)) end_utc []);
        started ← for_each occurrences 0%Z (backfill_one schedule_id row);
        _ ← record_api_audit audit None true
              (JObj [("schedule_id", JStr (uuid_str schedule_id));
                     ("start_at", JStr (isoformat start_at));
                     ("end_at", JStr (isoformat end_at));
                     ("started", JInt started)]);
        mret started
      end)
  | _, _ => throw (ValueError "backfill timestamps must be timezone aware")
  end.

End Schedules.
