(* ===== verification/Workers.v ===== *)
(** * Workers (engine/workers/)

    One step of each worker role: lease a task, do its work and commit its
    outcome.  Each persistence call is its own transaction, so a step that fails
    in the middle leaves the effects of the earlier calls: the task stays leased
    until its lease expires and maintenance reclaims it. *)
From S2P Require Import Prelude Python Serialization History Commands Context Replay Database.
From S2P Require Import Leasing AuditLog Definitions Transitions Commit Activities Messages.
From S2P Require Import Timeouts Cron Schedules.

(** [timedelta(seconds=30)], the lease of the workers; [timedelta(seconds=1)],
    the delay of a task released to another worker. *)
Definition default_lease : TimeDelta := 30000000.
Definition default_release_delay : TimeDelta := 1000000.

Section Workers.
Context `{PyStd}.

(** engine/workers/workflow_worker.py, lines 18-47.  [None]: the workflow
    function did not come to an end within [fuel] requests. *)
Definition run_workflow_task (fuel : nat) (registry : DefinitionRegistry) (queue_name : string)
    (lease_duration : TimeDelta) : M (option bool) :=
  task ← lease_task TWorkflow queue_name lease_duration;
  match task with
  | None => mret (Some false)
  | Some task =>
    state ← load_workflow_replay_state task;
    match registry_workflow registry (rs_workflow_type state) (rs_definition_version state) with
    | Err e => _ ← release_workflow_task task default_release_delay; throw e
    | Ok definition =>
      match replay_workflow fuel (fn_body (wd_function definition)) (rs_workflow_id state)
              (rs_workflow_input state) (rs_history state) with
      | None => mret None
      | Some replay =>
        replay ← of_result replay;
        _ ← commit_workflow_replay task replay;
        mret (Some true)
      end
    end
  end.

(** engine/workers/activity_worker.py, lines 41-54: the call a task describes. *)
Definition activity_call (input : JSON) : Py (string * list JSON * dict * string) :=
  match input with
  | JObj input =>
    match dict_get_json "activity_type" input, dict_get_json "input" input with
    | JStr activity_type, JObj command_input =>
      match dict_get_json "args" command_input, dict_get_json "kwargs" command_input with
      | JList args, JObj kwargs =>
        match dict_get_json "idempotency_key" input with
        | JStr idempotency_key => Ok (activity_type, args, kwargs, idempotency_key)
        | _ => Err (TypeError "activity task has no idempotency key")
        end
      | _, _ => Err (TypeError "activity arguments are malformed")
      end
    | _, _ => Err (TypeError "activity task input is malformed")
    end
  | _ => Err (TypeError "activity task input must be an object")
  end.

(** engine/workers/activity_worker.py, lines 76-88: what the function did, as
    the worker reports it; a cancellation request is not caught. *)
Definition call_activity (body : ActivityBody) (current : CurrentActivity)
    (args : list JSON) (kwargs : dict) : M (JSON + JSON) := fun env w =>
  match body current args kwargs env w with
  | (Ok v, w) => (Ok (inl v), w)
  | (Err (ActivityCancellationRequested t r), w) => (Err (ActivityCancellationRequested t r), w)
  | (Err e, w) =>
    (Ok (inr (JObj [("type", JStr (exn_type_name e)); ("message", JStr (exn_str e))])), w)
  end.

(** engine/workers/activity_worker.py, lines 66-88: [context_token = set(...); try:
    ... finally: reset(context_token)].  The call sees the context, and however it
    ends the variable is what it was. *)
Definition with_activity_context {A : Type} (context : ActivityExecutionContext)
    (call : CurrentActivity → M A) (current : CurrentActivity) : M A * CurrentActivity :=
  let '(current, context_token) := set_activity_context context current in
  (call current, reset_activity_context context_token).

(** engine/workers/activity_worker.py, lines 25-97; the task of the loop that
    calls it sets no context of its own. *)
Definition run_activity_task (registry : DefinitionRegistry) (queue_name : string)
    (lease_duration : TimeDelta) : M bool :=
  task ← lease_task TActivity queue_name lease_duration;
  match task with
  | None => mret false
  | Some task =>
    '(activity_type, args, kwargs, idempotency_key) ← of_result (activity_call (lt_input task));
    definition ← of_result (registry_activity registry activity_type);
    let heartbeat details duration :=
      heartbeat_activity (lt_id task) (lt_lease_token task) details duration in
    let context := mk_activity_context idempotency_key (lt_id task) (lt_attempt task) heartbeat in
    let call current := call_activity (fn_body (ad_function definition)) current args kwargs in
    outcome ← (with_activity_context context call None).1;
    _ ← match outcome with
        | inr failure => _ ← fail_activity task failure None; mret tt
        | inl result => complete_activity task result
        end;
    mret true
  end.

(** engine/workers/maintenance_worker.py, lines 16-28: the number of
    transitions of one pass. *)
Definition run_maintenance (queue_name : option string) (workflow_reclaim_limit : Z)
    (clock_time : option Timestamp) : M Z :=
  reclaimed ← reclaim_expired_workflow_tasks workflow_reclaim_limit;
  timed_out ← process_activity_timeout queue_name None;
  timer_fired ← fire_due_timer queue_name clock_time;
  schedule_started ← materialize_due_schedule clock_time;
  mret (reclaimed + Z.b2z timed_out + Z.b2z timer_fired + Z.b2z schedule_started)%Z.

End Workers.
