(* ===== verification/Debugger.v ===== *)
(** * Inspection of histories
    (engine/runtime/replay_debugger.py, engine/runtime/replay_check.py)

    The debugger projects a history into frames without running workflow code,
    and compares the command streams of two histories; the replay check replays
    a stored history against a candidate definition and writes nothing. *)
From S2P Require Import Prelude Python Serialization History Commands Context Replay Database.
From S2P Require Import Definitions Transitions.

(** engine/runtime/replay_debugger.py, lines 10-16 *)
Record ActiveEntity : Type := mk_active {
  ae_entity_id : string;
  ae_kind : string;
  ae_label : string;
  ae_scheduled_seq : Z;
  ae_status : string
}.

(** engine/runtime/replay_debugger.py, lines 19-28 *)
Record ReplaySnapshot : Type := mk_snapshot {
  snap_commands : Z;
  snap_waiting_entities : Z;
  snap_succeeded_entities : Z;
  snap_failed_entities : Z;
  snap_signals_received : Z;
  snap_pending_updates : Z;
  snap_terminal_status : option string;
  snap_active_entities : list ActiveEntity
}.

(** engine/runtime/replay_debugger.py, lines 31-41 *)
Record ReplayFrame : Type := mk_frame {
  frame_index : Z;
  frame_seq : Z;
  frame_event_type : EventType;
  frame_category : string;
  frame_summary : string;
  frame_command_id : option Z;
  frame_entity_id : option string;
  frame_caused_by_seq : option Z;
  frame_snapshot : ReplaySnapshot
}.

(** engine/runtime/replay_debugger.py, lines 65-69 *)
Definition _SCHEDULE_KINDS (t : EventType) : option string :=
  match t with
  | ActivityScheduled => Some "activity"
  | TimerStarted => Some "timer"
  | ChildWorkflowStarted => Some "child"
  | _ => None
  end.

(** engine/runtime/replay_debugger.py, lines 70-79: [true] is [succeeded]. *)
Definition _TERMINAL_ENTITY_EVENTS (t : EventType) : option bool :=
  match t with
  | ActivityCompleted | TimerFired | ChildWorkflowCompleted => Some true
  | ActivityFailed | ActivityTimedOut | TimerCanceled
  | ChildWorkflowFailed | ChildWorkflowTerminated => Some false
  | _ => None
  end.

(** engine/runtime/replay_debugger.py, lines 80-84 *)
Definition _WORKFLOW_TERMINALS (t : EventType) : option string :=
  match t with
  | WorkflowExecutionCompleted => Some "completed"
  | WorkflowExecutionFailed => Some "failed"
  | WorkflowExecutionTerminated => Some "terminated"
  | _ => None
  end.

(** engine/runtime/replay_debugger.py, lines 87-92 *)
Fixpoint first_label (keys : list string) (e : HistoryEvent) : string :=
  match keys with
  | [] => event_type_name (event_type e)
  | key :: keys =>
    match attr key e with
    | JStr s => if String.eqb s "" then first_label keys e else s
    | _ => first_label keys e
    end
  end.
Definition _label : HistoryEvent → string :=
  first_label ["activity_type"; "workflow_type"; "purpose"; "marker_type"; "name"].

(** engine/runtime/replay_debugger.py, lines 95-110 *)
Definition _category (t : EventType) : string :=
  if SCHEDULE_EVENT_TYPES t then "command"
  else if bool_decide (is_Some (_WORKFLOW_TERMINALS t)) then "terminal"
  else if bool_decide (is_Some (_TERMINAL_ENTITY_EVENTS t)) then "outcome"
  else match t with
       | SignalReceived | WorkflowUpdateReceived | WorkflowCancellationRequested => "external"
       | WorkflowExecutionPaused | WorkflowExecutionResumed => "control"
       | _ => "lifecycle"
       end.

(** engine/runtime/replay_debugger.py, lines 113-140 *)
Definition _summary (e : HistoryEvent) : string :=
  let label := _label e in
  match event_type e with
  | WorkflowExecutionStarted => "Started " +:+ label
  | ActivityScheduled => "Scheduled activity " +:+ label
  | ActivityCompleted => "Activity returned a durable result"
  | ActivityFailed => "Activity attempt failed"
  | ActivityTimedOut => "Activity attempt timed out"
  | TimerStarted => "Started timer " +:+ label
  | TimerFired => "Timer deadline became durable"
  | TimerCanceled => "Timer was canceled"
  | SignalReceived => "Received signal " +:+ label
  | ChildWorkflowStarted => "Started child workflow " +:+ label
  | ChildWorkflowCompleted => "Child workflow completed"
  | ChildWorkflowFailed => "Child workflow failed"
  | ChildWorkflowTerminated => "Child workflow was terminated"
  | WorkflowUpdateReceived => "Received update " +:+ label
  | WorkflowUpdateResolved => "Workflow update was resolved"
  | MarkerRecorded => "Recorded deterministic " +:+ label +:+ " value"
  | WorkflowExecutionContinuedAsNew => "Continued as " +:+ label
  | WorkflowExecutionCompleted => "Workflow completed"
  | WorkflowExecutionFailed => "Workflow failed"
  | WorkflowExecutionTerminated => "Workflow terminated"
  | WorkflowCancellationRequested => "Cancellation was requested"
  | WorkflowExecutionPaused => "Dispatch and deadlines were paused"
  | WorkflowExecutionResumed => "Dispatch and deadlines resumed"
  | t => event_type_name t
  end.

(** engine/runtime/replay_debugger.py, lines 145-148: the loop variables. *)
Record Trace : Type := mk_trace {
  tr_entities : list (string * ActiveEntity);
  tr_commands : Z;
  tr_succeeded : Z;
  tr_failed : Z;
  tr_signals : Z;
  tr_pending_updates : gset string;
  tr_terminal_status : option string
}.

Definition empty_trace : Trace := mk_trace [] 0 0 0 0 ∅ None.

(** [sorted(entities.values(), key=lambda item: item.scheduled_seq)]. *)
Definition scheduled_le (a b : ActiveEntity) : Prop :=
  (ae_scheduled_seq a ≤ ae_scheduled_seq b)%Z.
#[export] Instance scheduled_le_dec : RelDecision scheduled_le.
Proof. intros a b. unfold scheduled_le. apply _. Defined.

Section Debugger.
Context `{PyStd}.

(** engine/runtime/replay_debugger.py, lines 152-170: a command. *)
Definition trace_schedule (t : Trace) (e : HistoryEvent) : Trace :=
  let commands :=
    if SCHEDULE_EVENT_TYPES (event_type e) then (tr_commands t + 1)%Z else tr_commands t in
  let same entities succeeded :=
    mk_trace entities commands succeeded (tr_failed t) (tr_signals t) (tr_pending_updates t)
      (tr_terminal_status t) in
  match _SCHEDULE_KINDS (event_type e), entity_id e with
  | Some kind, Some n =>
    let entity_id := uuid_str n in
    same (dict_set entity_id (mk_active entity_id kind (_label e) (event_seq e) "waiting")
            (tr_entities t)) (tr_succeeded t)
  | _, _ =>
    match event_type e with
    | MarkerRecorded | WorkflowUpdateResolved | WorkflowExecutionContinuedAsNew =>
      same (tr_entities t) (tr_succeeded t + 1)%Z
    | _ => same (tr_entities t) (tr_succeeded t)
    end
  end.

(** engine/runtime/replay_debugger.py, lines 172-194: the outcome of an entity,
    and the sequence number of its schedule. *)
Definition trace_outcome (t : Trace) (e : HistoryEvent) : Trace * option Z :=
  match _TERMINAL_ENTITY_EVENTS (event_type e), entity_id e with
  | Some success, Some n =>
    let entity_id := uuid_str n in
    match dict_get entity_id (tr_entities t) with
    | None => (t, None)
    | Some entity =>
      let final := bool_decide (event_type e = ActivityCompleted) || is_final_attr e in
      let t' :=
        if final then
          mk_trace (dict_pop entity_id (tr_entities t)) (tr_commands t)
            (tr_succeeded t + Z.b2z success)%Z (tr_failed t + Z.b2z (negb success))%Z
            (tr_signals t) (tr_pending_updates t) (tr_terminal_status t)
        else
          mk_trace
            (dict_set entity_id (mk_active (ae_entity_id entity) (ae_kind entity) (ae_label entity)
               (ae_scheduled_seq entity) "retrying") (tr_entities t))
            (tr_commands t) (tr_succeeded t) (tr_failed t)
            (tr_signals t) (tr_pending_updates t) (tr_terminal_status t) in
      (t', Some (ae_scheduled_seq entity))
    end
  | _, _ => (t, None)
  end.

(** engine/runtime/replay_debugger.py, lines 196-207: messages and the end of
    the workflow. *)
Definition trace_message (t : Trace) (e : HistoryEvent) : Trace :=
  let with_updates pending signals :=
    mk_trace (tr_entities t) (tr_commands t) (tr_succeeded t) (tr_failed t) signals pending
      (match _WORKFLOW_TERMINALS (event_type e) with
       | Some s => Some s | None => tr_terminal_status t end) in
  match event_type e, attr "update_id" e with
  | SignalReceived, _ => with_updates (tr_pending_updates t) (tr_signals t + 1)%Z
  | WorkflowUpdateReceived, JStr id =>
    with_updates ({[id]} ∪ tr_pending_updates t) (tr_signals t)
  | WorkflowUpdateResolved, JStr id =>
    with_updates (tr_pending_updates t ∖ {[id]}) (tr_signals t)
  | _, _ => with_updates (tr_pending_updates t) (tr_signals t)
  end.

(** engine/runtime/replay_debugger.py, lines 209-231: the frame of an event. *)
Definition trace_frame (t : Trace) (index : Z) (e : HistoryEvent) (caused_by_seq : option Z)
    : ReplayFrame :=
  mk_frame index (event_seq e) (event_type e) (_category (event_type e)) (_summary e)
    (command_id e) (uuid_str <$> entity_id e) caused_by_seq
    (mk_snapshot (tr_commands t) (Z.of_nat (length (tr_entities t))) (tr_succeeded t) (tr_failed t)
       (tr_signals t) (Z.of_nat (size (tr_pending_updates t))) (tr_terminal_status t)
       (take 20 (merge_sort scheduled_le ((tr_entities t).*2)))).

(** engine/runtime/replay_debugger.py, lines 151-208: one iteration. *)
Definition trace_event (t : Trace) (e : HistoryEvent) : Trace * option Z :=
  let '(t, caused_by_seq) := trace_outcome (trace_schedule t e) e in
  (trace_message t e, caused_by_seq).

(** engine/runtime/replay_debugger.py, lines 143-232 *)
Fixpoint trace_events (t : Trace) (index : Z) (es : list HistoryEvent) : list ReplayFrame :=
  match es with
  | [] => []
  | e :: es =>
    let '(t, caused_by_seq) := trace_event t e in
    trace_frame t index e caused_by_seq :: trace_events t (index + 1) es
  end.
Definition build_replay_trace (es : list HistoryEvent) : list ReplayFrame :=
  trace_events empty_trace 0 es.

End Debugger.

(** ** Comparison of command streams *)

(** engine/runtime/replay_debugger.py, lines 44-53 *)
Record TraceDivergence : Type := mk_divergence {
  div_command_index : nat;
  div_reason : string;
  div_left : option HistoryEvent;
  div_right : option HistoryEvent
}.

(** engine/runtime/replay_debugger.py, lines 56-62 *)
Record HistoryComparison : Type := mk_comparison {
  cmp_compatible : bool;
  cmp_matched_commands : nat;
  cmp_left_commands : nat;
  cmp_right_commands : nat;
  cmp_divergence : option TraceDivergence
}.

(** engine/runtime/replay_debugger.py, lines 235-241 *)
Definition _command_signature (e : HistoryEvent) : EventType * option Z * option string :=
  (event_type e, command_id e,
   match attr "fingerprint" e with JStr s => Some s | _ => None end).

Definition commands_of (es : list HistoryEvent) : list HistoryEvent :=
  filter (fun e => SCHEDULE_EVENT_TYPES (event_type e) = true) es.

(** engine/runtime/replay_debugger.py, lines 250-274: the first pair that
    differs, with its index. *)
Fixpoint first_divergence (index : nat) (left_ right_ : list HistoryEvent)
    : option (nat * HistoryEvent * HistoryEvent) :=
  match left_, right_ with
  | l :: left_, r :: right_ =>
    if bool_decide (_command_signature l = _command_signature r)
    then first_divergence (S index) left_ right_
    else Some (index, l, r)
  | _, _ => None
  end.

(** engine/runtime/replay_debugger.py, lines 244-297 *)
Definition compare_command_histories (left_ right_ : list HistoryEvent) : HistoryComparison :=
  let left_commands := commands_of left_ in
  let right_commands := commands_of right_ in
  let nl := length left_commands in
  let nr := length right_commands in
  match first_divergence 0 left_commands right_commands with
  | Some (matched, l, r) =>
    mk_comparison false matched nl nr
      (Some (mk_divergence matched "command type, ordinal, or fingerprint differs"
               (Some l) (Some r)))
  | None =>
    let common := Nat.min nl nr in
    if negb (Nat.eqb nl nr) then
      mk_comparison false common nl nr
        (Some (mk_divergence common "one command stream ended before the other"
                 (left_commands !! common) (right_commands !! common)))
    else mk_comparison true common nl nr None
  end.

(** ** The replay check *)

(** engine/runtime/replay_check.py, lines 18-27 *)
Record ReplayCheckReport : Type := mk_report {
  rep_workflow_id : UUID;
  rep_workflow_type : string;
  rep_stored_version : Z;
  rep_against_version : Z;
  rep_compatible : bool;
  rep_replay_status : option ReplayStatus;
  rep_divergence_command_id : option Z;
  rep_message : option string
}.

(** engine/runtime/replay.py, lines 22-26: the values of the enumeration. *)
Definition replay_status_value (s : ReplayStatus) : string :=
  match s with
  | COMMANDS => "commands" | BLOCKED => "blocked"
  | COMPLETED => "completed" | FAILED => "failed"
  end.

Definition status_mismatch (stored : string) (replay : ReplayResult) : option string :=
  Some ("stored workflow is " +:+ stored +:+ ", but replay produced " +:+
          replay_status_value (rr_status replay)).

Section ReplayCheck.
Context `{PyStd}.

(** engine/runtime/replay_check.py, lines 86-126: the stored end of the
    execution against the replayed one. *)
Definition terminal_mismatch (execution : Execution) (replay : ReplayResult) : option string :=
  match exec_status execution with
  | WCompleted =>
    if negb (bool_decide (rr_status replay = COMPLETED)) then
      status_mismatch "completed" replay
    else if negb (json_equal (rr_result replay) (default JNull (exec_result execution))) then
      Some "replayed result differs from the stored terminal result"
    else None
  | WFailed =>
    if negb (bool_decide (rr_status replay = FAILED)) then
      status_mismatch "failed" replay
    else if negb (json_equal (rr_failure replay) (default JNull (exec_failure execution))) then
      Some "replayed failure differs from the stored terminal failure"
    else None
  | _ => None
  end.

(** engine/runtime/replay_check.py, lines 30-134.  [None]: the function did not
    end within [fuel] requests. *)
Definition replay_check (fuel : nat) (workflow_id : UUID) (definition : WorkflowDefinition)
    : M (option ReplayCheckReport) :=
  execution ← fetch_execution workflow_id;
  match execution with
  | None => no_such_workflow workflow_id
  | Some execution =>
    db ← get_db;
    let report := mk_report workflow_id (exec_workflow_type execution)
                    (exec_definition_version execution) (wd_version definition) in
    if negb (String.eqb (wd_name definition) (exec_workflow_type execution)) then
      mret (Some (report false None None (Some ("definition type " +:+ py_repr (JStr (wd_name definition)) +:+
                                        " does not match " +:+
                                        py_repr (JStr (exec_workflow_type execution))))))
    else
      match replay_workflow fuel (fn_body (wd_function definition)) workflow_id
              (exec_input execution) (history_of workflow_id db) with
      | None => mret None
      | Some (Err (NonDeterminismError command_id detail)) =>
        mret (Some (report false None (Some command_id) (Some detail)))
      | Some (Err e) => throw e
      | Some (Ok replay) =>
        match terminal_mismatch execution replay with
        | Some message =>
          mret (Some (report false (Some (rr_status replay)) None (Some message)))
        | None => mret (Some (report true (Some (rr_status replay)) None None))
        end
      end
  end.

End ReplayCheck.
