(* ===== verification/DebuggerSpec.v ===== *)
(** * Comparing command histories

    The comparison decides equality of the command signatures, and its divergence
    is the first difference. *)
From S2P Require Import Prelude Python Serialization History Commands Context Replay Database.
From S2P Require Import Leasing AuditLog Definitions Transitions Commit Activities Messages.
From S2P Require Import Timeouts Cron Schedules Debugger.

(** The signatures of the commands of a history, in order. *)
Definition signatures (es : list HistoryEvent) : list (EventType * option Z * option string) :=
  map _command_signature (commands_of es).

Lemma first_divergence_none k l r :
  first_divergence k l r = None →
  take (length r) (map _command_signature l) = take (length l) (map _command_signature r).
Proof.
  revert k r. induction l as [|x l IH]; intros k [|y r]; simpl; [done..|].
  case_bool_decide as He; [|done]. intros ?%IH. by rewrite He; f_equal.
Qed.

Lemma first_divergence_some k l r n x y :
  first_divergence k l r = Some (n, x, y) →
  k ≤ n ∧ l !! (n - k) = Some x ∧ r !! (n - k) = Some y ∧ _command_signature x ≠ _command_signature y ∧
  take (n - k) (map _command_signature l) = take (n - k) (map _command_signature r).
Proof.
  revert k r. induction l as [|a l IH]; intros k [|b r]; simpl; [done..|].
  case_bool_decide as He.
  - intros (Hk & Hx & Hy & Hne & Ht)%IH. replace (n - k) with (S (n - S k)) by lia. simpl.
    split_and!; [lia|done..|]. by rewrite He; f_equal.
  - intros [= -> -> ->]. rewrite Nat.sub_diag. by split_and!.
Qed.

