(* ===== verification/Api.v ===== *)
(** * The HTTP API: requests and handlers (engine/api/app.py)

    The bodies with the constraints of their fields, and one definition per route:
    what it requires of the principal, the operation it runs and how its errors
    are answered.  Routing, decoding and encoding are FastAPI's: a handler gets
    decoded arguments and returns the records to encode. *)
From S2P Require Import Prelude Python Serialization History Commands Context Replay Database.
From S2P Require Import Leasing AuditLog Definitions Transitions Commit Activities Messages.
From S2P Require Import Timeouts Cron Schedules Queries Debugger Config Security Metrics.

(** [Field(min_length=..., max_length=...)]. *)
Definition length_within (min max : Z) (s : string) : bool :=
  (min <=? py_len s)%Z && (py_len s <=? max)%Z.
Definition optional_within (max : Z) (s : option string) : bool :=
  match s with None => true | Some s => length_within 0 max s end.
Definition int_within (min max n : Z) : bool := (min <=? n)%Z && (n <=? max)%Z.

(** ** Bodies *)

(** engine/api/app.py, lines 80-85 *)
Record StartWorkflowRequest : Type := mk_start_request {
  str_workflow_type : string;
  str_definition_version : Z;
  str_input : JSON;
  str_queue_name : string;
  str_search_attributes : dict
}.
Definition valid_start (b : StartWorkflowRequest) : bool :=
  length_within 1 200 (str_workflow_type b) && (1 <=? str_definition_version b)%Z
  && length_within 1 200 (str_queue_name b).

(** engine/api/app.py, lines 88-91 *)
Record SignalRequest : Type := mk_signal_request {
  sgr_signal_id : string; sgr_name : string; sgr_payload : JSON
}.
Definition valid_signal (b : SignalRequest) : bool :=
  length_within 1 200 (sgr_signal_id b) && length_within 1 200 (sgr_name b).

(** engine/api/app.py, lines 94-97 *)
Record UpdateRequest : Type := mk_update_request {
  upr_update_id : string; upr_name : string; upr_payload : JSON
}.
Definition valid_update (b : UpdateRequest) : bool :=
  length_within 1 200 (upr_update_id b) && length_within 1 200 (upr_name b).

(** engine/api/app.py, lines 100-109: the bodies of terminate, cancel, pause and
    resume. *)
Definition ReasonRequest : Type := option string.
Definition valid_reason (b : ReasonRequest) : bool := optional_within 2000 b.

(** engine/api/app.py, lines 112-114 *)
Record SearchAttributesRequest : Type := mk_attributes_request {
  sar_set : dict; sar_unset : list string
}.
Definition valid_attributes (b : SearchAttributesRequest) : bool := length (sar_unset b) <=? 100.

(** engine/api/app.py, lines 117-126 *)
Record ScheduleCreateRequest : Type := mk_schedule_request {
  scr_name : string;
  scr_workflow_type : string;
  scr_definition_version : Z;
  scr_input : JSON;
  scr_queue_name : string;
  scr_search_attributes : dict;
  scr_cron_expression : string;
  scr_timezone : string;
  scr_overlap_policy : OverlapPolicy
}.
Definition valid_schedule (b : ScheduleCreateRequest) : bool :=
  length_within 1 200 (scr_name b) && length_within 1 200 (scr_workflow_type b)
  && (1 <=? scr_definition_version b)%Z && length_within 1 200 (scr_queue_name b)
  && length_within 1 200 (scr_cron_expression b) && length_within 1 200 (scr_timezone b).

(** engine/api/app.py, lines 129-132 *)
Record ScheduleBackfillRequest : Type := mk_backfill_request {
  sbr_start_at : Datetime; sbr_end_at : Datetime; sbr_limit : Z
}.
Definition valid_backfill (b : ScheduleBackfillRequest) : bool := int_within 1 100 (sbr_limit b).

(** The query of the listing of workflows. *)
Record WorkflowsQuery : Type := mk_workflows_query {
  wq_status : option string;
  wq_workflow_type : option string;
  wq_queue_name : option string;
  wq_query : option string;
  wq_attributes : option string;
  wq_limit : Z
}.
Definition valid_workflows (q : WorkflowsQuery) : bool :=
  match wq_status q with
  | None => true
  | Some s => bool_decide (s ∈ ["running"; "completed"; "failed"; "terminated"; "attention"])
  end
  && optional_within 200 (wq_workflow_type q) && optional_within 200 (wq_queue_name q)
  && optional_within 500 (wq_query q) && optional_within 16000 (wq_attributes q)
  && int_within 1 1000 (wq_limit q).

(** [json.loads]: [None] is a [JSONDecodeError]. *)
Class PyJson : Type := { json_loads : string → option JSON }.

(** ** Answers *)
Inductive Payload : Type :=
| p_index
| p_status (fields : list (string * string))
| p_session (key_id role : string)
| p_executions (l : list ExecutionSummary)
| p_stats (s : ExecutionStats)
| p_workers (l : list WorkerHeartbeat)
| p_text (text : string)
| p_audit (l : list AuditRow)
| p_dead (l : list DeadTask)
| p_schedules (l : list (UUID * ScheduleRow))
| p_schedule (s : UUID * ScheduleRow)
| p_occurrences (l : list (Z * OccurrenceRow))
| p_accepted (accepted : bool)
| p_started_runs (started : Z)
| p_started (s : StartedWorkflow)
| p_execution (e : ExecutionSummary)
| p_trace (workflow_id : UUID) (frames : list ReplayFrame) (next_after_seq : option Z)
| p_comparison (c : HistoryComparison) (left_ right_ : UUID) (truncated : bool)
| p_page (p : HistoryPage)
| p_attributes (v : JSON)
| p_records (l : list HistoryRecord)
| p_update (row : UpdateRow) (accepted : option bool)
| p_updates (l : list (string * UpdateRow))
| p_detail (detail : string).

(** [except (TransitionError, ValueError) as error: raise HTTPException(409)]:
    the classes of exceptions, and the conversion. *)
Definition is_transition_error (e : PyError) : bool :=
  match e with
  | TransitionError _ | DefinitionNotRegisteredError _ _ | StoredDefinitionConflictError _ _
  | TerminalWorkflowError _ _ => true
  | _ => false
  end.
Definition is_value_error (e : PyError) : bool :=
  match e with ValueError _ | SerializationError _ | CronExpressionError _ => true | _ => false end.

(** Who asks: [request.state]. *)
Record Caller : Type := mk_caller { cl_request_id : UUID; cl_principal : option Principal }.

(** engine/api/app.py, lines 139-145 *)
Definition _audit (caller : Caller) (principal : Principal) (action : string) : option AuditContext :=
  Some (mk_audit_context (cl_request_id caller) (principal_key_id principal)
          (role_name (principal_role principal)) action).

(** engine/api/app.py, lines 148-159 *)
Definition _debug_events (records : list HistoryRecord) : list HistoryEvent :=
  map (fun r => mk_event (hrec_seq r) (hrec_event_type r) (hrec_attributes r) (hrec_command_id r)
                  (hrec_entity_id r) (hrec_external_id r)) records.

Section Handlers.
Context `{PyStd} `{PyText} `{PgText} `{PyJson} (caller : Caller).

Definition conflict_on (errors : PyError → bool) {A : Type} (m : M A) : M A := fun env w =>
  match m env w with
  | (Err e, w) => if errors e then (Err (HTTPException 409 (exn_str e)), w) else (Err e, w)
  | r => r
  end.
Definition transition_conflicts {A : Type} : M A → M A := conflict_on is_transition_error.
Definition value_conflicts {A : Type} : M A → M A :=
  conflict_on (fun e => is_transition_error e || is_value_error e).

Definition requires (minimum : Role) : M Principal :=
  of_result (require_role (cl_principal caller) minimum).

Definition not_found {A : Type} (what : string) : M A := throw (HTTPException 404 what).

(** ** Queries *)

(** engine/api/app.py, lines 347-350 *)
Definition session : M Payload :=
  principal ← requires viewer;
  mret (p_session (principal_key_id principal) (role_name (principal_role principal))).

(** engine/api/app.py, lines 363-373: the decoded filter. *)
Definition attribute_filter (attributes : option string) : Py (option dict) :=
  match attributes with
  | None => Ok None
  | Some text =>
    match json_loads text with
    | None => Err (HTTPException 422 "attributes must be valid JSON")
    | Some (JObj decoded) => Ok (Some decoded)
    | Some _ => Err (HTTPException 422 "attributes must be a JSON object")
    end
  end.

(** engine/api/app.py, lines 352-383 *)
Definition workflows (q : WorkflowsQuery) : M Payload :=
  _ ← requires viewer;
  attribute_filter ← of_result (attribute_filter (wq_attributes q));
  records ← list_executions (wq_status q) (wq_workflow_type q) (wq_queue_name q) (wq_query q)
              attribute_filter (wq_limit q);
  mret (p_executions records).

(** engine/api/app.py, lines 385-388 *)
Definition stats : M Payload := _ ← requires viewer; s ← get_execution_stats; mret (p_stats s).

(** engine/api/app.py, lines 390-395 *)
Definition workers : M Payload :=
  _ ← requires viewer; l ← list_worker_heartbeats 30; mret (p_workers l).

(** engine/api/app.py, lines 397-405 *)
Definition metrics (format_g : float → string) (registry : MetricsRegistry) : M Payload :=
  _ ← requires admin;
  gauges ← get_operational_gauges 30;
  text ← of_result (render format_g (gauges ++ [("dwe_build_info", float_of_Z 1)]) registry);
  mret (p_text text).

(** engine/api/app.py, lines 407-415 *)
Definition audit_records (limit : Z) : M Payload :=
  _ ← requires admin; l ← list_api_audit limit; mret (p_audit l).

(** engine/api/app.py, lines 417-425 *)
Definition dead_letter_records (limit : Z) : M Payload :=
  _ ← requires operator; l ← list_dead_tasks limit; mret (p_dead l).

(** engine/api/app.py, lines 427-432 *)
Definition schedules : M Payload := _ ← requires viewer; l ← list_schedules; mret (p_schedules l).

(** engine/api/app.py, lines 455-469 *)
Definition schedule_occurrences (schedule_id : UUID) (limit : Z) : M Payload :=
  _ ← requires viewer; l ← list_schedule_occurrences schedule_id limit; mret (p_occurrences l).

(** [if await get_execution(...) is None: raise HTTPException(404)]. *)
Definition existing_workflow (workflow_id : UUID) : M ExecutionSummary :=
  record ← get_execution workflow_id;
  match record with None => not_found "workflow not found" | Some r => mret r end.

(** engine/api/app.py, lines 534-540 *)
Definition execution (workflow_id : UUID) : M Payload :=
  _ ← requires viewer; record ← existing_workflow workflow_id; mret (p_execution record).

(** engine/api/app.py, lines 542-548 *)
Definition continuation_chain (workflow_id : UUID) : M Payload :=
  _ ← requires viewer;
  records ← get_continuation_chain workflow_id;
  match records with [] => not_found "workflow not found" | _ => mret (p_executions records) end.

(** engine/api/app.py, lines 550-568 *)
Definition debug_trace (workflow_id : UUID) (limit : Z) : M Payload :=
  _ ← requires viewer;
  _ ← existing_workflow workflow_id;
  page ← get_history_page workflow_id 0 limit;
  mret (p_trace workflow_id (build_replay_trace (_debug_events (page_items page)))
          (page_next_after_seq page)).

(** engine/api/app.py, lines 570-594 *)
Definition debug_compare (workflow_id other_workflow_id : UUID) (limit : Z) : M Payload :=
  _ ← requires viewer;
  left_ ← get_history_page workflow_id 0 limit;
  right_ ← get_history_page other_workflow_id 0 limit;
  match page_items left_, page_items right_ with
  | [], _ | _, [] => not_found "one or both workflows were not found"
  | l, r =>
    mret (p_comparison (compare_command_histories (_debug_events l) (_debug_events r))
            workflow_id other_workflow_id
            (negb (bool_decide (page_next_after_seq left_ = None))
             || negb (bool_decide (page_next_after_seq right_ = None))))
  end.

(** engine/api/app.py, lines 596-612 *)
Definition history (workflow_id : UUID) (after_seq limit : Z) : M Payload :=
  _ ← requires viewer;
  _ ← existing_workflow workflow_id;
  page ← get_history_page workflow_id after_seq limit;
  mret (p_page page).

(** engine/api/app.py, lines 631-641 *)
Definition history_tail (workflow_id : UUID) (limit : Z) : M Payload :=
  _ ← requires viewer;
  _ ← existing_workflow workflow_id;
  records ← get_history_tail workflow_id limit;
  mret (p_records records).

(** engine/api/app.py, lines 675-691 *)
Definition workflow_updates (workflow_id : UUID) (limit : Z) : M Payload :=
  _ ← requires viewer;
  _ ← existing_workflow workflow_id;
  l ← list_updates workflow_id limit;
  mret (p_updates l).

(** engine/api/app.py, lines 693-699 *)
Definition workflow_update (workflow_id : UUID) (update_id : string) : M Payload :=
  _ ← requires viewer;
  record ← get_update workflow_id update_id;
  match record with
  | None => not_found "workflow update not found"
  | Some row => mret (p_update row None)
  end.

(** ** Commands *)

(** engine/api/app.py, lines 434-453 *)
Definition create_workflow_schedule (body : ScheduleCreateRequest) : M Payload :=
  principal ← requires operator;
  schedule ← value_conflicts (create_schedule (scr_name body) (scr_workflow_type body)
    (scr_definition_version body) (scr_input body) (scr_cron_expression body) (scr_timezone body)
    (scr_queue_name body) (scr_search_attributes body) (scr_overlap_policy body) None
    (_audit caller principal "schedule.create"));
  mret (p_schedule schedule).

(** engine/api/app.py, lines 471-497: pausing and resuming. *)
Definition pause_schedule (schedule_id : UUID) (paused : bool) : M Payload :=
  principal ← requires operator;
  accepted ← transition_conflicts (set_schedule_paused schedule_id paused None
    (_audit caller principal (if paused then "schedule.pause" else "schedule.resume")));
  mret (p_accepted accepted).

(** engine/api/app.py, lines 499-515 *)
Definition backfill_workflow_schedule (schedule_id : UUID) (body : ScheduleBackfillRequest) : M Payload :=
  principal ← requires admin;
  started ← value_conflicts (backfill_schedule schedule_id (sbr_start_at body) (sbr_end_at body)
    (sbr_limit body) (_audit caller principal "schedule.backfill"));
  mret (p_started_runs started).

(** engine/api/app.py, lines 517-532 *)
Definition start (body : StartWorkflowRequest) : M Payload :=
  principal ← requires operator;
  started ← value_conflicts (start_workflow (str_workflow_type body) (str_definition_version body)
    (str_input body) (str_queue_name body) None (str_search_attributes body) None
    (_audit caller principal "workflow.start"));
  mret (p_started started).

(** engine/api/app.py, lines 614-629 *)
Definition patch_search_attributes (workflow_id : UUID) (body : SearchAttributesRequest) : M Payload :=
  principal ← requires operator;
  updated ← value_conflicts (update_search_attributes workflow_id (sar_set body) (sar_unset body)
    (_audit caller principal "workflow.search-attributes.update"));
  mret (p_attributes updated).

(** engine/api/app.py, lines 643-657: a [ValueError] is not converted. *)
Definition signal (workflow_id : UUID) (body : SignalRequest) : M Payload :=
  principal ← requires operator;
  accepted ← transition_conflicts (send_signal workflow_id (sgr_signal_id body) (sgr_name body)
    (sgr_payload body) (_audit caller principal "workflow.signal"));
  mret (p_accepted accepted).

(** engine/api/app.py, lines 659-673 *)
Definition update_workflow (workflow_id : UUID) (body : UpdateRequest) : M Payload :=
  principal ← requires operator;
  result ← value_conflicts (send_update workflow_id (upr_update_id body) (upr_name body)
    (upr_payload body) (_audit caller principal "workflow.update"));
  mret (p_update result.1 (Some result.2)).

(** engine/api/app.py, lines 701-715 *)
Definition terminate (workflow_id : UUID) (reason : ReasonRequest) : M Payload :=
  principal ← requires admin;
  accepted ← transition_conflicts (terminate_workflow workflow_id reason
    (_audit caller principal "workflow.terminate"));
  mret (p_accepted accepted).

(** engine/api/app.py, lines 717-729 *)
Definition pause (workflow_id : UUID) (reason : ReasonRequest) : M Payload :=
  principal ← requires operator;
  accepted ← transition_conflicts (pause_workflow workflow_id reason
    (_audit caller principal "workflow.pause"));
  mret (p_accepted accepted).

(** engine/api/app.py, lines 731-743 *)
Definition resume (workflow_id : UUID) (reason : ReasonRequest) : M Payload :=
  principal ← requires operator;
  accepted ← transition_conflicts (resume_workflow workflow_id reason
    (_audit caller principal "workflow.resume"));
  mret (p_accepted accepted).

(** engine/api/app.py, lines 745-756 *)
Definition retry (workflow_id : UUID) : M Payload :=
  principal ← requires admin;
  started ← transition_conflicts (retry_workflow workflow_id
    (_audit caller principal "workflow.retry"));
  mret (p_started started).

(** engine/api/app.py, lines 758-770 *)
Definition cancel (workflow_id : UUID) (reason : ReasonRequest) : M Payload :=
  principal ← requires operator;
  accepted ← transition_conflicts (request_workflow_cancellation workflow_id reason
    (_audit caller principal "workflow.cancel"));
  mret (p_accepted accepted).

End Handlers.
