(* ===== verification/Http.v ===== *)
(** * The HTTP application: routes and middleware (engine/api/app.py)

    A request carries what the middleware and the handlers read of it; its
    [Target] is what FastAPI's routing and decoding made of method, path, query
    and body.  [serve] is the application: authentication, rate limit, body limit,
    validation, handler, metrics and headers. *)
From S2P Require Import Prelude Python Serialization History Commands Context Replay Database.
From S2P Require Import Leasing AuditLog Definitions Transitions Commit Activities Messages.
From S2P Require Import Timeouts Cron Schedules Queries Debugger Config Security Metrics Api.
From stdpp Require Import pretty.

(** The routes, with their decoded arguments.  [e_health]: what the readiness
    query returned, [None] when it failed or timed out. *)
Inductive Endpoint : Type :=
| e_index
| e_liveness
| e_health (migration : option (option string * string))
| e_session
| e_workflows (q : WorkflowsQuery)
| e_stats
| e_workers
| e_metrics
| e_audit (limit : Z)
| e_dead_letter (limit : Z)
| e_schedules
| e_create_schedule (body : ScheduleCreateRequest)
| e_schedule_occurrences (id : UUID) (limit : Z)
| e_pause_schedule (id : UUID) (paused : bool)
| e_backfill (id : UUID) (body : ScheduleBackfillRequest)
| e_start (body : StartWorkflowRequest)
| e_execution (id : UUID)
| e_continuation_chain (id : UUID)
| e_debug_trace (id : UUID) (limit : Z)
| e_debug_compare (id other : UUID) (limit : Z)
| e_history (id : UUID) (after_seq limit : Z)
| e_search_attributes (id : UUID) (body : SearchAttributesRequest)
| e_history_tail (id : UUID) (limit : Z)
| e_signal (id : UUID) (body : SignalRequest)
| e_update (id : UUID) (body : UpdateRequest)
| e_updates (id : UUID) (limit : Z)
| e_workflow_update (id : UUID) (update_id : string)
| e_terminate (id : UUID) (body : ReasonRequest)
| e_pause (id : UUID) (body : ReasonRequest)
| e_resume (id : UUID) (body : ReasonRequest)
| e_retry (id : UUID)
| e_cancel (id : UUID) (body : ReasonRequest).

Definition valid_limit (limit : Z) : bool := int_within 1 1000 limit.

(** The declared constraints of the parameters and the body. *)
Definition valid_endpoint (e : Endpoint) : bool :=
  match e with
  | e_workflows q => valid_workflows q
  | e_audit n | e_dead_letter n | e_schedule_occurrences _ n | e_debug_trace _ n
  | e_debug_compare _ _ n | e_history_tail _ n | e_updates _ n => valid_limit n
  | e_history _ after_seq n => (0 <=? after_seq)%Z && valid_limit n
  | e_create_schedule b => valid_schedule b
  | e_backfill _ b => valid_backfill b
  | e_start b => valid_start b
  | e_search_attributes _ b => valid_attributes b
  | e_signal _ b => valid_signal b
  | e_update _ b => valid_update b
  | e_terminate _ b | e_pause _ b | e_resume _ b | e_cancel _ b => valid_reason b
  | _ => true
  end.

(** The status of a normal answer. *)
Definition endpoint_status (e : Endpoint) : Z :=
  match e with
  | e_create_schedule _ | e_start _ | e_retry _ => 201
  | e_update _ _ => 202
  | _ => 200
  end.

(** ** Requests and responses *)

(** What routing made of a request: a route, or a status FastAPI answers with
    (404, 405, 422). *)
Inductive Target : Type := target (e : Endpoint) | refused_by_routing (status : Z).

Record HttpRequest : Type := mk_request {
  rq_method : string;
  rq_path : string;
  rq_route : string;                  (* the path of the matched route, or "unmatched" *)
  rq_authorization : string;          (* the header, "" if missing *)
  rq_content_length : option string;
  rq_body : list Message;             (* what the application reads of the body *)
  rq_target : Target;
  rq_duration : float;                (* time.perf_counter() - started_at *)
  rq_monotonic : float                (* time.monotonic() in the rate limiter *)
}.

Record HttpResponse : Type := mk_response {
  rs_status : Z;
  rs_headers : gmap string string;
  rs_payload : Payload
}.

(** [str.startswith]. *)
Definition starts_with (p s : string) : bool := String.prefix p s.

(** engine/api/app.py, lines 162-163 *)
Definition _public_path (path : string) : bool :=
  bool_decide (path ∈ PUBLIC_PATHS) || starts_with "/static/" path.

Definition content_security_policy : string :=
  "default-src 'self'; base-uri 'none'; connect-src 'self'; " +:+
  "font-src 'self'; form-action 'self'; frame-ancestors 'none'; " +:+
  "img-src 'self' data:; object-src 'none'; script-src 'self'; style-src 'self'".

(** engine/api/app.py, lines 166-182 *)
Definition _secure_headers `{PyStd} (response : HttpResponse) (request_id : UUID) (path : string)
    : HttpResponse :=
  let h := rs_headers response in
  let h := <["X-Request-ID" := uuid_str request_id]> h in
  let h := <["X-Content-Type-Options" := "nosniff"]> h in
  let h := <["Referrer-Policy" := "strict-origin-when-cross-origin"]> h in
  let h := <["X-Frame-Options" := "DENY"]> h in
  let h := <["Permissions-Policy" := "camera=(), microphone=(), geolocation=()"]> h in
  let h := if String.eqb path "/" || starts_with "/static/" path
           then <["Content-Security-Policy" := content_security_policy]> h else h in
  let h := if starts_with "/api/" path then <["Cache-Control" := "no-store"]> h
           else if starts_with "/static/" path
           then <["Cache-Control" := "public, max-age=300, must-revalidate"]> h else h in
  mk_response (rs_status response) h (rs_payload response).

(** The application: its configuration and the state it keeps. *)
Record Application : Type := mk_application {
  app_auth : AuthConfig;
  app_latest_migration : string
}.
Record AppState : Type := mk_app_state {
  as_limiter : FixedWindowRateLimiter;
  as_metrics : MetricsRegistry
}.

Section Http.
Context `{PyStd} `{PyText} `{PgText} `{PyJson} (format_g : float → string).

(** engine/api/app.py, lines 309-337 *)
Definition readiness_response (latest_migration : string) (probe : option (option string * string))
    : HttpResponse :=
  let not_ready reason :=
    mk_response 503 ∅ (p_status [("status", "not_ready"); ("reason", reason)]) in
  match probe with
  | None => not_ready "database_unavailable"
  | Some (migration, database_time) =>
    if bool_decide (migration = Some latest_migration) then
      mk_response 200 ∅ (p_status [("status", "ready"); ("database", "ok");
        ("database_time", database_time); ("schema_version", latest_migration)])
    else not_ready "schema_migration_mismatch"
  end.

(** engine/api/app.py, lines 301-307 and 339-345, and the routes of the
    handlers: an answer, or the exception of the handler. *)
Definition handle (app : Application) (registry : MetricsRegistry) (caller : Caller) (e : Endpoint)
    : M HttpResponse :=
  let answer (m : M Payload) : M HttpResponse :=
    payload ← m; mret (mk_response (endpoint_status e) ∅ payload) in
  match e with
  | e_index => answer (mret p_index)
  | e_liveness => answer (mret (p_status [("status", "alive")]))
  | e_health probe => mret (readiness_response (app_latest_migration app) probe)
  | e_session => answer (session caller)
  | e_workflows q => answer (workflows caller q)
  | e_stats => answer (stats caller)
  | e_workers => answer (workers caller)
  | e_metrics => answer (metrics caller format_g registry)
  | e_audit n => answer (audit_records caller n)
  | e_dead_letter n => answer (dead_letter_records caller n)
  | e_schedules => answer (schedules caller)
  | e_create_schedule b => answer (create_workflow_schedule caller b)
  | e_schedule_occurrences i n => answer (schedule_occurrences caller i n)
  | e_pause_schedule i p => answer (pause_schedule caller i p)
  | e_backfill i b => answer (backfill_workflow_schedule caller i b)
  | e_start b => answer (start caller b)
  | e_execution i => answer (execution caller i)
  | e_continuation_chain i => answer (continuation_chain caller i)
  | e_debug_trace i n => answer (debug_trace caller i n)
  | e_debug_compare i j n => answer (debug_compare caller i j n)
  | e_history i a n => answer (history caller i a n)
  | e_search_attributes i b => answer (patch_search_attributes caller i b)
  | e_history_tail i n => answer (history_tail caller i n)
  | e_signal i b => answer (signal caller i b)
  | e_update i b => answer (update_workflow caller i b)
  | e_updates i n => answer (workflow_updates caller i n)
  | e_workflow_update i u => answer (workflow_update caller i u)
  | e_terminate i b => answer (terminate caller i b)
  | e_pause i b => answer (pause caller i b)
  | e_resume i b => answer (resume caller i b)
  | e_retry i => answer (retry caller i)
  | e_cancel i b => answer (Api.cancel caller i b)
  end.

Definition error_response (status : Z) (detail : string) : HttpResponse :=
  mk_response status ∅ (p_detail detail).

(** [call_next]: the body limit, routing and validation, the handler; an
    [HTTPException] is answered, another exception propagates. *)
Definition call_next (app : Application) (registry : MetricsRegistry) (caller : Caller)
    (request : HttpRequest) : M HttpResponse := fun env w =>
  match body_limit (auth_max_request_bytes (app_auth app)) true (rq_content_length request)
          (rq_body request) with
  | rejected status => (Ok (error_response status "request body rejected"), w)
  | app_answers =>
    match rq_target request with
    | refused_by_routing status => (Ok (error_response status "no such route"), w)
    | target e =>
      if negb (valid_endpoint e) then (Ok (error_response 422 "validation error"), w)
      else match handle app registry caller e env w with
           | (Err (HTTPException status detail), w) => (Ok (error_response status detail), w)
           | r => r
           end
    end
  end.

(** engine/api/app.py, lines 231-257 *)
Definition finish (request : HttpRequest) (request_id : UUID) (response : HttpResponse)
    (m : MetricsRegistry) : HttpResponse * MetricsRegistry :=
  let labels := [("method", rq_method request); ("route", rq_route request)] in
  let m := run_call m (call_increment "dwe_http_requests_total"
             (labels ++ [("status", pretty (rs_status response))]) (float_of_Z 1)) in
  let m := run_call m (call_observe "dwe_http_request_duration_seconds" (rq_duration request) labels) in
  (_secure_headers response request_id (rq_path request), m).

(** engine/api/app.py, lines 260-280: who asks, or the refusal. *)
Definition identify (app : Application) (limiter : FixedWindowRateLimiter) (request : HttpRequest)
    : Py (Principal + HttpResponse) * FixedWindowRateLimiter :=
  match authenticate (app_auth app) (default "" (bearer_token (rq_authorization request))) with
  | None =>
    (Ok (inr (mk_response 401 {["WWW-Authenticate" := "Bearer"]}
                (p_detail "valid bearer authentication required"))), limiter)
  | Some principal =>
    match Security.allow limiter (principal_key_id principal) (rq_monotonic request) with
    | (Err e, limiter) => (Err e, limiter)
    | (Ok (true, _), limiter) => (Ok (inl principal), limiter)
    | (Ok (false, retry_after), limiter) =>
      (Ok (inr (mk_response 429 {["Retry-After" := pretty retry_after]}
                  (p_detail "request rate limit exceeded"))), limiter)
    end
  end.

(** engine/api/app.py, lines 224-299: a request, on the state of the application. *)
Definition serve (app : Application) (request : HttpRequest) (state : AppState)
    : M (Py HttpResponse * AppState) :=
  request_id ← uuid4;
  let proceed (principal : option Principal) (limiter : FixedWindowRateLimiter)
      : M (Py HttpResponse * AppState) := fun env w =>
    match call_next app (as_metrics state) (mk_caller request_id principal) request env w with
    | (Ok response, w) =>
      let '(response, m) := finish request request_id response (as_metrics state) in
      (Ok (Ok response, mk_app_state limiter m), w)
    | (Err e, w) =>
      let m := run_call (as_metrics state) (call_increment "dwe_http_requests_total"
                 [("method", rq_method request); ("route", "unhandled"); ("status", "500")]
                 (float_of_Z 1)) in
      (Ok (Err e, mk_app_state limiter m), w)
    end in
  if _public_path (rq_path request) then proceed None (as_limiter state)
  else
    match identify app (as_limiter state) request with
    | (Err e, limiter) => mret (Err e, mk_app_state limiter (as_metrics state))
    | (Ok (inl principal), limiter) => proceed (Some principal) limiter
    | (Ok (inr response), limiter) =>
      let '(response, m) := finish request request_id response (as_metrics state) in
      mret (Ok response, mk_app_state limiter m)
    end.

End Http.
