(* ===== verification/Frames.v ===== *)
(** * Operations that touch neither histories nor executions

    [frame m]: on a normal return [m] left [history_events] and
    [workflow_executions] as they were.  The operations on tasks, updates, audit
    records and occurrences are frames, and a closing transition interleaves
    them with the two tables the store invariant is about. *)
From S2P Require Import Prelude Python Serialization History Database Logic Store Leasing.
From S2P Require Import AuditLog Definitions Transitions Commit Activities Messages Timeouts Cron.
From S2P Require Import Schedules.

Definition frame {A : Type} (m : M A) : Prop := ∀ db, wp m (fun _ db' => same_core db db') db.

Lemma frame_bind {A B} (m : M A) (k : A → M B) : frame m → (∀ a, frame (k a)) → frame (m ≫= k).
Proof.
  intros Hm Hk db. apply wp_bind. eapply wp_mono; [apply Hm|]. intros a db1 H1.
  eapply wp_mono; [apply Hk|]. intros b db2 H2. exact (same_core_trans _ _ _ H1 H2).
Qed.
Lemma frame_ret {A} (a : A) : frame (mret a). Proof. intros db. apply wp_ret, same_core_refl. Qed.
Lemma frame_throw {A} e : frame (throw (A:=A) e). Proof. intros db. apply wp_throw. Qed.
Lemma frame_of_result {A} (r : Py A) : frame (of_result r).
Proof. intros db. apply wp_of_result. intros. apply same_core_refl. Qed.
Lemma frame_get_db : frame get_db. Proof. intros db. apply wp_get_db, same_core_refl. Qed.
Lemma frame_db_now : frame db_now. Proof. intros db. apply wp_db_now. intros. apply same_core_refl. Qed.
Lemma frame_utc_now : frame utc_now. Proof. intros db. apply wp_utc_now. intros. apply same_core_refl. Qed.
Lemma frame_uuid4 : frame uuid4. Proof. intros db. apply wp_uuid4. intros. apply same_core_refl. Qed.
Lemma frame_random : frame random_random. Proof. intros db. apply wp_random. intros. apply same_core_refl. Qed.
Lemma frame_locked_rows : frame locked_rows. Proof. intros db. apply wp_locked_rows. intros. apply same_core_refl. Qed.
Lemma frame_modify_db f : (∀ db, same_core db (f db)) → frame (modify_db f).
Proof. intros Hf db. apply wp_modify_db, Hf. Qed.
Lemma frame_transaction {A} (m : M A) : frame m → frame (transaction m).
Proof. intros Hm db. apply wp_transaction, Hm. Qed.

Create HintDb frame.
Ltac frame_step :=
  lazymatch goal with
  | |- frame (mbind _ _) => apply frame_bind; [|intros ?]
  | |- frame (mret _) => apply frame_ret
  | |- frame (throw _) => apply frame_throw
  | |- frame (of_result _) => apply frame_of_result
  | |- frame get_db => apply frame_get_db
  | |- frame db_now => apply frame_db_now
  | |- frame utc_now => apply frame_utc_now
  | |- frame uuid4 => apply frame_uuid4
  | |- frame random_random => apply frame_random
  | |- frame locked_rows => apply frame_locked_rows
  | |- frame (transaction _) => apply frame_transaction
  | |- frame (modify_db _) => apply frame_modify_db; intros ?; done
  | |- frame (match ?x with _ => _ end) => destruct x
  | |- frame _ => solve [eauto with frame]
  end.
Ltac frame_auto := repeat (frame_step; cbv beta zeta).

(** A frame inside a program: what was known of the two tables still is. *)
Tactic Notation "wp_frame" simple_intropattern(db) simple_intropattern(Hc) :=
  lazymatch goal with
  | |- wp ?m _ _ =>
    apply wp_core; [solve [assert (frame m) by eauto with frame; done]|intros ? db Hc]
  end.

Section frames.
Context `{PyStd}.

Lemma frame_insert_task id t : frame (insert_task id t).
Proof. unfold insert_task. frame_auto. Qed.
Lemma frame_insert_workflow_task id wid q : frame (insert_workflow_task id wid q).
Proof. unfold insert_workflow_task. frame_auto. apply frame_insert_task. Qed.
Lemma frame_wake_workflow wid q : frame (wake_workflow wid q).
Proof. unfold wake_workflow. frame_auto. apply frame_insert_workflow_task. Qed.
Lemma frame_update_tasks p f : frame (update_tasks p f).
Proof. unfold update_tasks. frame_auto. Qed.
Lemma frame_kill_tasks p : frame (kill_tasks p).
Proof. unfold kill_tasks. frame_auto. apply frame_update_tasks. Qed.
Lemma frame_kill_open_tasks wid x : frame (kill_open_tasks wid x).
Proof. apply frame_kill_tasks. Qed.
Lemma frame_reject_pending_updates wid r : frame (_reject_pending_updates wid r).
Proof. unfold _reject_pending_updates. frame_auto. Qed.
Lemma frame_record_api_audit c wid b d : frame (record_api_audit c wid b d).
Proof. unfold record_api_audit. frame_auto. Qed.
Lemma frame_audit_duplicate c wid r : frame (audit_duplicate c wid r).
Proof. unfold audit_duplicate. frame_auto. apply frame_record_api_audit. Qed.
Lemma frame_audit_accepted c wid r : frame (audit_accepted c wid r).
Proof. unfold audit_accepted. frame_auto. apply frame_record_api_audit. Qed.
Lemma frame_set_task id t : frame (set_task id t).
Proof. unfold set_task. frame_auto. Qed.
Lemma frame_finish_task task s : frame (finish_task task s).
Proof. unfold finish_task. frame_auto. apply frame_update_tasks. Qed.
Lemma frame_complete_task task : frame (complete_task task).
Proof. unfold complete_task. frame_auto. apply frame_finish_task. Qed.
Lemma frame_require_definition t v : frame (require_definition t v).
Proof. unfold require_definition. frame_auto. Qed.
Lemma frame_fetch_execution id : frame (fetch_execution id).
Proof. unfold fetch_execution. frame_auto. Qed.
Lemma frame_running_execution id : frame (running_execution id).
Proof. unfold running_execution. frame_auto. apply frame_fetch_execution. Qed.
Lemma frame_no_such_workflow {A} id : frame (no_such_workflow (A:=A) id).
Proof. unfold no_such_workflow. frame_auto. Qed.
Lemma frame_insert_update wid u n p : frame (insert_update wid u n p).
Proof. unfold insert_update. frame_auto. Qed.
Lemma frame_insert_occurrence s t st w r : frame (insert_occurrence s t st w r).
Proof. unfold insert_occurrence. frame_auto. Qed.
Lemma frame_start_buffered s t w : frame (start_buffered s t w).
Proof. unfold start_buffered. frame_auto. Qed.
Lemma frame_clock_or_now c : frame (clock_or_now c).
Proof. unfold clock_or_now. frame_auto. Qed.
Lemma frame_insert_schedule id r : frame (insert_schedule id r).
Proof. unfold insert_schedule. frame_auto. Qed.

End frames.

#[export] Hint Resolve frame_insert_task frame_insert_workflow_task frame_wake_workflow
  frame_update_tasks frame_kill_tasks frame_kill_open_tasks frame_reject_pending_updates
  frame_record_api_audit frame_audit_duplicate frame_audit_accepted frame_set_task
  frame_finish_task frame_complete_task frame_require_definition frame_fetch_execution
  frame_running_execution frame_no_such_workflow frame_insert_update frame_insert_occurrence
  frame_start_buffered frame_clock_or_now frame_insert_schedule : frame.

(** A frame keeps the store invariant, raising or not: its writes do not touch
    the two tables. *)
Section inert.
Context `{PyStd}.

Lemma wp_running_execution id (Q : Execution → DB → Prop) db :
  (∀ e, db_executions db !! id = Some e → exec_status e = WRunning → Q e db) →
  wp (running_execution id) Q db.
Proof.
  intros HQ. unfold running_execution, fetch_execution. wp_auto.
  apply HQ; [done|]. by case_bool_decide.
Qed.

Lemma wp_fetch_execution id (Q : option Execution → DB → Prop) db :
  Q (db_executions db !! id) db → wp (fetch_execution id) Q db.
Proof. intros HQ. unfold fetch_execution. by wp_auto. Qed.

End inert.
