(* ===== verification/StoreInvariant.v ===== *)
(** * Every operation keeps the store invariant *)
From S2P Require Import Prelude Python Serialization History Commands Context Replay Database.
From S2P Require Import Logic Store Leasing AuditLog Definitions Transitions Commit Activities.
From S2P Require Import Messages Timeouts Cron Schedules Queries Workers Frames.

(** Workflow [wid], whose row is [e], has had events appended: [s] is its next
    number and [b] the status its history has; the row is to follow. *)
Record flux (X : gset UUID) (wid : UUID) (e : Execution) (s : Z) (b : WorkflowStatus) (db : DB) : Prop := {
  flux_inv : Inv ({[wid]} ∪ X) db;
  flux_row : db_executions db !! wid = Some e;
  flux_next : s = next_of (hist wid db);
  flux_status : status_of (hist wid db) = b;
  flux_nonempty : hist wid db ≠ []
}.

Lemma flux_core X wid e s b db db' : same_core db db' → flux X wid e s b db → flux X wid e s b db'.
Proof.
  intros Hc [H1 H2 H3 H4 H5]. pose proof (hist_core _ _ wid Hc) as Hh.
  split; rewrite ?Hh; [by eapply Inv_core|by destruct Hc as [_ ->]|done..].
Qed.

Lemma Inv_running_append X db wid e :
  Inv X db → db_executions db !! wid = Some e → exec_status e = WRunning →
  can_append (hist wid db) (exec_next_seq e) ∧ (2 ≤ exec_next_seq e)%Z.
Proof. intros HI. apply (inv_running _ _ HI). Qed.

Lemma Inv_running_cursor X db wid e :
  Inv X db → wid ∉ X → db_executions db !! wid = Some e → exec_status e = WRunning →
  cursor (hist wid db) (exec_next_seq e) ∧ (2 ≤ exec_next_seq e)%Z.
Proof.
  intros HI Hw He Hr. split; [|by eapply Inv_running_append].
  destruct (inv_agrees _ _ HI _ _ He Hw) as [Hs Hst _]. split; [done|].
  apply status_running. congruence.
Qed.

Lemma Inv_add X wid db : Inv X db → Inv ({[wid]} ∪ X) db.
Proof. apply Inv_mono. set_solver. Qed.

Section store.
Context `{PyStd}.

Lemma wp_append X wid e s t c n x attrs (Q : unit → DB → Prop) db :
  Inv ({[wid]} ∪ X) db → db_executions db !! wid = Some e → can_append (hist wid db) s →
  (2 ≤ s)%Z → t ≠ WorkflowExecutionStarted →
  (∀ db', flux X wid e (s + 1) (status_after t) db' → grows db db' →
     (∀ w, w ≠ wid → hist w db' = hist w db) → db_executions db' = db_executions db →
     Q tt db') →
  wp (insert_event wid s t c n x attrs) Q db.
Proof.
  intros HI He Hcan Hs Ht HQ. eapply wp_insert_event; [done|done|split; [done|lia]|].
  intros ev db' Hseq Hty [Hnext Hopen] Happ HI'. apply HQ.
  - destruct Happ as [Happ _ Hexe _].
    split; [eapply Inv_mono; [|done]; set_solver|by rewrite Hexe|..]; rewrite Happ.
    + by rewrite next_of_snoc, Hnext.
    + rewrite status_snoc by done. by rewrite Hty.
    + by destruct (hist wid db).
  - by eapply appended_grows.
  - apply Happ.
  - apply Happ.
Qed.

(** The update of the row that follows the events. *)
Lemma wp_settle X wid e s b f (Q : unit → DB → Prop) db :
  flux X wid e s b db → exec_next_seq (f e) = s → exec_status (f e) = b →
  (∀ db', Inv X db' → db_history db' = db_history db →
     db_executions db' = alter f wid (db_executions db) → Q tt db') →
  wp (update_execution wid f) Q db.
Proof.
  intros [HI He Hn Hc Hne] Hs Hst HQ. eapply wp_update_execution; [done|..].
  - intros e0 He0. simplify_eq. split; [done|done|done].
  - intros db' Hh Hex _ HI'. apply HQ; [|done..]. eapply Inv_mono; [|done]. set_solver.
Qed.

(** ** Helpers of the closing transitions *)
Lemma wp_cancel_pending_timers X wid s reason db :
  Inv X db → can_append (hist wid db) s → (2 ≤ s)%Z →
  wp (_cancel_pending_timers wid s reason) (fun s' db' =>
    Inv ({[wid]} ∪ X) db' ∧ can_append (hist wid db') s' ∧ (2 ≤ s')%Z ∧
    db_executions db' = db_executions db) db.
Proof.
  intros HI Hcan Hs. unfold _cancel_pending_timers. wp_auto.
  apply (wp_for_each _ _ (fun s' db' =>
    Inv ({[wid]} ∪ X) db' ∧ can_append (hist wid db') s' ∧ (2 ≤ s')%Z ∧
    db_executions db' = db_executions db)).
  { split_and!; [|done..]. eapply Inv_mono; [|done]. set_solver. }
  intros s1 timer db1 _ (HI1 & Hcan1 & Hs1 & He1). unfold cancel_timer. wp_auto.
  wp_frame db2 Hc. wp_auto.
  { destruct Hc as [Hh He] eqn:E. split_and!; [by eapply Inv_core| |done|congruence].
    by rewrite (hist_core db1 db2). }
  eapply wp_insert_event; [by eapply Inv_core|by rewrite (hist_core db1 db2)|split; [done|lia]|].
  intros ev db3 Hseq Hty Hcur Happ HI3. wp_auto. split_and!; [|..|lia|].
  - eapply Inv_mono; [|done]. set_solver.
  - destruct Happ as [-> _ _ _]. apply cursor_can_append, cursor_snoc; [done|].
    unfold terminal_event. by rewrite Hty.
  - destruct Happ as [_ _ -> _]. destruct Hc. congruence.
Qed.

(** What the closing helpers leave: the invariant, and grown histories of the
    same executions. *)
Definition closing_post (X : gset UUID) (db db' : DB) : Prop :=
  Inv X db' ∧ grows db db' ∧ dom (db_executions db') = dom (db_executions db).

Lemma closing_post_trans X db1 db2 db3 :
  closing_post X db1 db2 → closing_post X db2 db3 → closing_post X db1 db3.
Proof. intros (_&?&?) (?&?&?). split_and!; [done|by eapply grows_trans|congruence]. Qed.

Lemma closing_post_core X db db' : same_core db db' → Inv X db → closing_post X db db'.
Proof.
  intros Hc HI. split_and!; [by eapply Inv_core|by apply grows_core|].
  destruct Hc as [_ Hc]. by rewrite Hc.
Qed.

Lemma wp_terminate_child X c s db :
  Inv X db → is_Some (db_executions db !! c) → can_append (hist c db) s → (2 ≤ s)%Z →
  wp (terminate_child c s) (fun _ => closing_post X db) db.
Proof.
  intros HI [e He] Hcan Hs. unfold terminate_child. wp_auto.
  apply (wp_append X) with e; [by apply Inv_add|done..|]. intros db1 Hfl Hgr _ Hex. wp_auto.
  eapply wp_settle; [done|done|done|]. intros db2 HI2 Hh2 Hex2. wp_auto.
  wp_frame db3 Hc3. wp_frame db4 Hc4.
  pose proof (same_core_trans _ _ _ Hc3 Hc4) as Hc.
  split; [by eapply Inv_core|split].
  - eapply grows_trans; [done|]. intros w k. rewrite (hist_core _ _ w Hc).
    unfold hist, rows_of. by rewrite Hh2.
  - destruct Hc as [_ ->]. by rewrite Hex2, dom_alter_L, Hex.
Qed.

Lemma elem_of_select {K V} `{Countable K} (p : K → V → bool) key (m : gmap K V) k v :
  (k, v) ∈ select p key m ↔ m !! k = Some v ∧ p k v = true.
Proof.
  unfold select. rewrite merge_sort_Permutation, list_elem_of_filter, elem_of_map_to_list.
  simpl. tauto.
Qed.

Lemma wp_terminate_descendants fuel X p db :
  Inv X db → wp (terminate_descendants fuel p) (fun _ => closing_post X db) db.
Proof.
  revert p db. induction fuel as [|fuel IH]; intros p db HI; simpl; [apply wp_throw|]. wp_auto.
  apply (wp_for_each _ _ (fun _ => closing_post X db)).
  { by apply closing_post_core. }
  intros [] [c e] db1 Hin (HI1 & Hgr1 & Hd1). simpl. wp_auto.
  eapply wp_mono; [by apply IH|]. intros [] db2 Hpost2.
  apply elem_of_select in Hin as [He Hp]. rewrite !andb_true_iff, !bool_decide_eq_true in Hp.
  destruct Hp as [_ Hrun]. destruct (Inv_running_append _ _ _ _ HI He Hrun) as [Hcan Hs].
  pose proof Hpost2 as (HI2 & Hgr2 & Hd2).
  eapply wp_mono; [apply (wp_terminate_child X); [done| |by apply Hgr2, Hgr1|done]|].
  { apply elem_of_dom. rewrite Hd2, Hd1. by apply elem_of_dom_2 in He. }
  intros [] db3 Hpost3. eapply closing_post_trans; [|exact Hpost3].
  eapply closing_post_trans; [split_and!; [exact HI1|done..]|exact Hpost2].
Qed.

Lemma wp_terminate_descendants_of X p db :
  Inv X db → wp (_terminate_descendants p) (fun _ => closing_post X db) db.
Proof. intros HI. unfold _terminate_descendants. wp_auto. by apply wp_terminate_descendants. Qed.

Lemma wp_notify_parent X c p status payload db :
  Inv X db →
  wp (_notify_parent_of_child_terminal c p status payload) (fun _ => Inv X) db.
Proof.
  intros HI. unfold _notify_parent_of_child_terminal. wp_auto; [|done].
  apply wp_fetch_execution. destruct (db_executions db !! n) as [parent|] eqn:He;
    [|by wp_auto]. wp_auto; [done|].
  apply negb_false_iff, bool_decide_eq_true in Heqb.
  destruct (Inv_running_append _ _ _ _ HI He Heqb).
  apply (wp_append X) with parent; [by apply Inv_add|done..|by destruct status|]. intros db1 Hfl _ _ _. wp_auto.
  eapply wp_settle; [done|done|by simpl; rewrite Heqb; destruct status|].
  intros db2 HI2 _ _. wp_frame db3 Hc. by eapply Inv_core.
Qed.

(** ** Operations *)

(** The invariant of a database that frames reached. *)
Ltac inv_core :=
  cbv beta in *; repeat match goal with
    | Hc : same_core _ ?d |- Inv _ ?d => apply (Inv_core _ _ _ Hc); clear Hc
    end; first [done | by eapply Inv_mono; [|done] 
    | match goal with HI : Inv _ ?d |- _ => by apply (Inv_core _ d) end].

(** A running execution appends one event that does not close it. *)
Lemma wp_append_running wid e t c n x attrs (Q : unit → DB → Prop) db :
  Inv ∅ db → db_executions db !! wid = Some e → exec_status e = WRunning →
  t ≠ WorkflowExecutionStarted →
  (∀ db', flux ∅ wid e (exec_next_seq e + 1) (status_after t) db' → Q tt db') →
  wp (insert_event wid (exec_next_seq e) t c n x attrs) Q db.
Proof.
  intros HI He Hr Ht HQ. destruct (Inv_running_append _ _ _ _ HI He Hr).
  apply (wp_append ∅) with e; eauto using Inv_add.
Qed.

Lemma flux_running X wid e s b db : flux X wid e s b db → db_executions db !! wid = Some e.
Proof. by intros []. Qed.

Lemma inv_pause wid r a : preserves (Inv ∅) (pause_workflow wid r a).
Proof.
  unfold pause_workflow. preserves_auto. wp_auto. apply wp_running_execution. intros e He Hr.
  wp_auto; [wp_frame db1 Hc; inv_core|].
  eapply wp_append_running; [done..|]. intros db1 Hfl. wp_auto.
  eapply wp_settle; [done|done|by simpl; rewrite Hr|]. intros db2 HI2 _ _.
  wp_frame db3 Hc3. inv_core.
Qed.

Lemma inv_resume wid r a : preserves (Inv ∅) (resume_workflow wid r a).
Proof.
  unfold resume_workflow. preserves_auto. wp_auto. apply wp_running_execution. intros e He Hr.
  wp_auto; [|wp_frame db1 Hc; inv_core].
  wp_frame db0 Hc0. wp_auto.
  eapply wp_append_running; [by eapply Inv_core|by destruct Hc0 as [_ ->]|done..|].
  intros db1 Hfl. wp_auto.
  eapply wp_settle; [done|done|by simpl; rewrite Hr|]. intros db2 HI2 _ _.
  wp_frame db3 Hc3. inv_core.
Qed.

Lemma inv_insert_started id tid t v i sa q s r a :
  preserves (Inv ∅) (insert_started id tid t v i sa q s r a).
Proof.
  unfold insert_started. preserves_auto. wp_auto. wp_frame db0 Hc0. wp_auto.
  eapply wp_create_execution; [by eapply Inv_core|done..|].
  intros ev db1 _ _ _ _ _ _ _ HI1. wp_auto. wp_frame db2 Hc2. wp_auto. wp_frame db3 Hc3. inv_core.
Qed.

Lemma inv_start t v i q w sa r a : preserves (Inv ∅) (start_workflow t v i q w sa r a).
Proof. unfold start_workflow. preserves_auto. apply inv_insert_started. Qed.

Lemma inv_fetch_execution id : preserves (Inv ∅) (fetch_execution id).
Proof. unfold fetch_execution. preserves_auto. Qed.

Lemma inv_retry wid a : preserves (Inv ∅) (retry_workflow wid a).
Proof.
  unfold retry_workflow, no_such_workflow. preserves_auto;
    first [apply inv_fetch_execution | apply inv_start].
Qed.

(** A row update that touches neither [next_seq] nor the status. *)
Lemma wp_update_inert X wid f (Q : unit → DB → Prop) db :
  Inv X db → (∀ e, exec_next_seq (f e) = exec_next_seq e ∧ exec_status (f e) = exec_status e) →
  (∀ db', Inv X db' → Q tt db') → wp (update_execution wid f) Q db.
Proof.
  intros [H1 H2 H3 H4] Hf HQ. unfold update_execution. wp_auto. apply HQ.
  split; intros w; rewrite hist_set_executions; simpl; [done|..];
    (destruct (decide (w = wid)) as [->|Hne];
     [rewrite lookup_alter_eq|rewrite lookup_alter_ne by done; by auto]).
  - intros e (e0 & He0 & ->)%fmap_Some. destruct (Hf e0) as [-> ->]. auto.
  - intros e (e0 & He0 & ->)%fmap_Some Hw. destruct (Hf e0) as [Hn Hs].
    destruct (H3 _ _ He0 Hw). by split; rewrite ?Hn, ?Hs.
  - intros Hn%fmap_None. auto.
Qed.

Lemma inv_search_attributes wid d u a : preserves (Inv ∅) (update_search_attributes wid d u a).
Proof.
  unfold update_search_attributes, no_such_workflow. preserves_auto. wp_auto.
  apply wp_fetch_execution. wp_auto.
  eapply wp_update_inert; [done|done|]. intros db1 HI1. wp_auto. wp_frame db2 Hc. wp_auto. inv_core.
Qed.

Lemma inv_terminate wid r a : preserves (Inv ∅) (terminate_workflow wid r a).
Proof.
  unfold terminate_workflow, no_such_workflow. preserves_auto. wp_auto.
  apply wp_fetch_execution. destruct (db_executions db !! wid) as [e|] eqn:He; wp_auto;
    [|by wp_frame db1 Hc; inv_core].
  destruct (Inv_running_append _ _ _ _ HI He Heqw) as [Hcan Hs].
  eapply wp_mono; [by apply wp_terminate_descendants_of|]. intros [] db1 (HI1 & Hgr1 & Hd1). wp_auto.
  wp_frame db2 Hc2. wp_auto.
  eapply wp_mono; [apply (wp_cancel_pending_timers ∅); [by inv_core| |done]|].
  { rewrite (hist_core _ _ wid Hc2). by apply Hgr1. }
  intros s db3 (HI3 & Hcan3 & Hs3 & Hex3). wp_auto.
  assert (is_Some (db_executions db3 !! wid)) as [e3 He3].
  { rewrite Hex3. destruct Hc2 as [_ ->]. apply elem_of_dom. rewrite Hd1. by apply elem_of_dom_2 in He. }
  apply (wp_append ∅) with e3; [done..|]. intros db4 Hfl _ _ _. wp_auto.
  eapply wp_settle; [done|done|done|]. intros db5 HI5 _ _. wp_auto.
  wp_frame db6 Hc6. wp_auto.
  eapply wp_mono; [apply (wp_notify_parent ∅)|].
  { by apply (Inv_core _ _ _ Hc6). }
  intros [] db7 HI7. wp_frame db8 Hc8. inv_core.
Qed.

Lemma inv_request_cancellation wid r a :
  preserves (Inv ∅) (request_workflow_cancellation wid r a).
Proof.
  unfold request_workflow_cancellation. preserves_auto. wp_auto.
  apply wp_running_execution. intros e He Hr. wp_auto; [wp_frame db1 Hc; inv_core|].
  eapply wp_append_running; [done..|]. intros db1 Hfl. wp_auto.
  eapply wp_settle; [done|done|by simpl; rewrite Hr|]. intros db2 HI2 _ _. wp_auto.
  wp_frame db3 Hc3. wp_auto. wp_frame db4 Hc4. wp_frame db5 Hc5. inv_core.
Qed.

(** A single statement outside a transaction, or one that only reads. *)
Lemma preserves_set_task id t : preserves (Inv ∅) (set_task id t).
Proof. unfold set_task. apply preserves_modify_db. intros db. by apply Inv_core. Qed.

Lemma inv_lease_task ty q d : preserves (Inv ∅) (lease_task ty q d).
Proof.
  unfold lease_task. preserves_auto. wp_auto; try done; wp_frame db1 Hc; wp_auto; try inv_core.
  match goal with Hb : negb (bool_decide (exec_status ?e = WRunning)) = false |- _ =>
    rename Hb into Hrun; apply negb_false_iff, bool_decide_eq_true in Hrun end.
  eapply wp_append_running; [by eapply Inv_core|by destruct Hc as [_ ->]|done..|].
  intros db2 Hfl. wp_auto.
  eapply wp_settle; [done|done|by simpl; rewrite Hrun|]. intros db3 HI3 _ _. by wp_auto.
Qed.

Lemma inv_renew_lease t l d : preserves (Inv ∅) (renew_lease t l d).
Proof. unfold renew_lease. preserves_auto. apply preserves_set_task. Qed.

Lemma inv_heartbeat_activity t l x d : preserves (Inv ∅) (heartbeat_activity t l x d).
Proof. unfold heartbeat_activity. preserves_auto. wp_auto. wp_frame db1 Hc. wp_auto. inv_core. Qed.

Lemma inv_reclaim n : preserves (Inv ∅) (reclaim_expired_workflow_tasks n).
Proof. unfold reclaim_expired_workflow_tasks. preserves_auto. wp_auto. inv_core. Qed.

Lemma inv_release t d : preserves (Inv ∅) (release_workflow_task t d).
Proof. unfold release_workflow_task. preserves_auto. apply preserves_set_task. Qed.

Lemma inv_register_definition d : preserves (Inv ∅) (register_workflow_definition d).
Proof. unfold register_workflow_definition. preserves_auto. wp_auto. inv_core. Qed.

(** ** The outcome of an activity attempt *)
Lemma inv_complete_activity t r : preserves (Inv ∅) (complete_activity t r).
Proof.
  unfold complete_activity. preserves_auto. wp_auto.
  apply wp_running_execution. intros e He Hr. wp_auto.
  eapply wp_append_running; [done..|]. intros db1 Hfl. wp_auto.
  wp_frame db2 Hc2. wp_auto. wp_frame db3 Hc3. wp_auto.
  eapply wp_settle; [eapply flux_core, flux_core, Hfl; done|done|by simpl; rewrite Hr|]. done.
Qed.

Lemma inv_record_failure t f b v : preserves (Inv ∅) (record_failure t f b v).
Proof.
  unfold record_failure. preserves_auto. wp_auto.
  apply wp_running_execution. intros e He Hr. wp_auto.
  eapply wp_append_running; [done..|]. intros db1 Hfl. wp_auto.
  wp_frame db2 Hc2. wp_auto; wp_frame db3 Hc3; wp_auto;
    (eapply wp_settle; [eapply flux_core, flux_core, Hfl; done|done|by simpl; rewrite Hr|];
     intros; by wp_auto).
Qed.

Lemma inv_fail_activity t f r : preserves (Inv ∅) (fail_activity t f r).
Proof. unfold fail_activity. preserves_auto. apply inv_record_failure. Qed.

Lemma inv_process_timeout q r : preserves (Inv ∅) (process_activity_timeout q r).
Proof.
  unfold process_activity_timeout. preserves_auto; (wp_auto; [|done]; apply wp_fetch_execution;
    destruct (db_executions db !! _) as [e|] eqn:He; [|by wp_auto]; wp_auto; [done|];
    apply negb_false_iff, bool_decide_eq_true in Heqb; unfold record_timeout; wp_auto;
    eapply wp_append_running; [done..|]; intros db1 Hfl; wp_auto; wp_frame db2 Hc2; wp_auto;
    wp_frame db3 Hc3; wp_auto;
    (eapply wp_settle; [eapply flux_core, flux_core, Hfl; done|done|by simpl; rewrite Heqb|];
     intros; by wp_auto)).
Qed.

(** ** Messages *)
Lemma inv_fire_due_timer q c : preserves (Inv ∅) (fire_due_timer q c).
Proof.
  unfold fire_due_timer. preserves_auto. wp_auto; [|done]. apply wp_fetch_execution.
  destruct (db_executions db !! _) as [e|] eqn:He; [|by wp_auto]. wp_auto; [done|].
  apply negb_false_iff, bool_decide_eq_true in Heqb.
  eapply wp_append_running; [done..|]. intros db1 Hfl. wp_auto.
  wp_frame db2 Hc2. wp_auto. wp_frame db3 Hc3. wp_auto.
  eapply wp_settle; [eapply flux_core, flux_core, Hfl; done|done|by simpl; rewrite Heqb|].
  intros; by wp_auto.
Qed.

Lemma inv_send_signal wid i n p a : preserves (Inv ∅) (send_signal wid i n p a).
Proof.
  unfold send_signal, no_such_workflow. preserves_auto. wp_auto. apply wp_fetch_execution.
  wp_auto; [wp_frame db1 Hc; wp_auto; inv_core|].
  apply wp_running_execution. intros e' He' Hr. wp_auto.
  eapply wp_append_running; [done..|]. intros db1 Hfl. wp_auto.
  wp_frame db2 Hc2. wp_auto.
  eapply wp_settle; [eapply flux_core, Hfl; done|done|by simpl; rewrite Hr|].
  intros db3 HI3 _ _. wp_auto. wp_frame db4 Hc4. wp_auto. inv_core.
Qed.

Lemma inv_send_update wid u n p a : preserves (Inv ∅) (send_update wid u n p a).
Proof.
  unfold send_update, no_such_workflow. preserves_auto. wp_auto. apply wp_fetch_execution.
  wp_auto; [wp_frame db1 Hc; wp_auto; inv_core|].
  apply wp_running_execution. intros e' He' Hr. wp_auto.
  wp_frame db0 Hc0. wp_auto.
  eapply wp_append_running; [by eapply Inv_core|by destruct Hc0 as [_ ->]|done..|].
  intros db1 Hfl. wp_auto. wp_frame db2 Hc2. wp_auto.
  eapply wp_settle; [eapply flux_core, Hfl; done|done|by simpl; rewrite Hr|].
  intros db3 HI3 _ _. wp_auto. wp_frame db4 Hc4. wp_auto. inv_core.
Qed.

(** ** The commit of a replay *)
Lemma flux_can_append X wid e s db : flux X wid e s WRunning db → can_append (hist wid db) s.
Proof. intros [_ _ -> Hc _]. split; [done|]. intros _. by apply status_running. Qed.

Lemma flux_start wid e db :
  Inv ∅ db → db_executions db !! wid = Some e → exec_status e = WRunning →
  flux ∅ wid e (exec_next_seq e) WRunning db.
Proof.
  intros HI He Hr. destruct (inv_agrees _ _ HI _ _ He) as [Hs Hst Hne]; [set_solver|].
  split; [by apply Inv_add|done|done|congruence|done].
Qed.

(** One more event that does not close the history. *)
Lemma wp_append_flux wid e s t c n x attrs (Q : unit → DB → Prop) db :
  flux ∅ wid e s WRunning db → (2 ≤ s)%Z → t ≠ WorkflowExecutionStarted →
  (∀ db', flux ∅ wid e (s + 1) (status_after t) db' → Q tt db') →
  wp (insert_event wid s t c n x attrs) Q db.
Proof.
  intros Hfl Hs Ht HQ. apply (wp_append ∅) with e;
    [apply Hfl|apply Hfl|by eapply flux_can_append|done|done|]. auto.
Qed.

(** A new execution beside one in flux. *)
Lemma wp_create_flux {B} wid e s b id ex c n x attrs (k : unit → M B) (Q : B → DB → Prop) db :
  flux ∅ wid e s b db → exec_status ex = WRunning → exec_next_seq ex = 2%Z →
  (∀ db', flux ∅ wid e s b db' → wp (k tt) Q db') →
  wp (insert_execution id ex)
    (fun _ db' => wp (insert_event id 1 WorkflowExecutionStarted c n x attrs ≫= k) Q db') db.
Proof.
  intros [HI He Hn Hc Hne] Hr Hs HQ. eapply wp_create_execution; [exact HI|done..|].
  intros ev db' Hfresh _ _ _ Hother Hex _ HI'.
  assert (wid ≠ id) as Hwid by congruence.
  apply HQ. rewrite <- (Hother _ Hwid) in Hn, Hc, Hne.
  split; [done| |done..]. by rewrite Hex, lookup_insert_ne.
Qed.

Lemma wp_append_command wid q e s c db :
  flux ∅ wid e s WRunning db → (2 ≤ s)%Z → is_continuation c = None →
  wp (append_command wid q s c) (fun s' db' => flux ∅ wid e s' WRunning db' ∧ (2 ≤ s')%Z) db.
Proof.
  intros Hfl Hs Hc. unfold append_command. destruct c as [c|c|c|c|c|c]; [done|..]; clear Hc.
  - unfold _append_marker_command. wp_auto. eapply wp_append_flux; [done..|].
    intros db1 Hfl1. wp_auto. split; [done|lia].
  - unfold _append_update_resolution. wp_auto; (eapply wp_append_flux; [|done|done|];
      [by eapply flux_core, Hfl|intros db1 Hfl1; wp_auto; split; [done|lia]]).
  - unfold _append_activity_command. wp_auto. eapply wp_append_flux; [done..|].
    intros db1 Hfl1. wp_auto. wp_frame db2 Hc2. wp_auto. split; [by eapply flux_core|lia].
  - unfold _append_timer_command. wp_auto. eapply wp_append_flux; [done..|].
    intros db1 Hfl1. wp_auto. wp_frame db2 Hc2. wp_auto. split; [by eapply flux_core|lia].
  - unfold _append_child_workflow_command. wp_auto. wp_frame db0 Hc0. wp_auto.
    eapply wp_append_flux; [by eapply flux_core, Hfl|done|done|].
    intros db1 Hfl1. wp_auto. eapply wp_create_flux; [done|done|done|].
    intros db2 Hfl2. wp_frame db3 Hc3. wp_auto. split; [by eapply flux_core|lia].
Qed.

Lemma wp_commit_continue_as_new wid tid s c e db :
  Inv ∅ db → can_append (hist wid db) s → (2 ≤ s)%Z → db_executions db !! wid = Some e →
  wp (_commit_continue_as_new wid tid s c) (fun _ => Inv ∅) db.
Proof.
  intros HI Hcan Hs He. unfold _commit_continue_as_new, no_such_workflow. wp_auto.
  apply wp_fetch_execution. rewrite He. wp_auto. wp_frame db0 Hc0. wp_auto.
  apply (wp_append ∅) with e; [apply Inv_add; by inv_core|by destruct Hc0 as [_ ->]
    |by rewrite (hist_core _ _ _ Hc0)|done|done|].
  intros db1 Hfl1 _ _ _. wp_auto. eapply wp_append_flux; [done|lia|done|].
  intros db2 Hfl2. wp_auto. eapply wp_create_flux; [done|done|done|].
  intros db3 Hfl3. wp_auto. wp_frame db4 Hc4. wp_auto.
  eapply wp_settle; [by eapply flux_core, Hfl3|simpl; lia|done|].
  intros db5 HI5 _ _. wp_auto. wp_frame db6 Hc6. wp_frame db7 Hc7. inv_core.
Qed.

Lemma wp_commit_commands task q e cs db :
  Inv ∅ db → db_executions db !! lt_workflow_id task = Some e → exec_status e = WRunning →
  wp (commit_commands task q (exec_next_seq e) cs) (fun _ => Inv ∅) db.
Proof.
  intros HI He Hr. destruct (Inv_running_append _ _ _ _ HI He Hr) as [Hcan Hs].
  unfold commit_commands. destruct cs as [|c0 cs0]; [apply wp_throw|].
  destruct (omap is_continuation (c0 :: cs0)) as [|k ks] eqn:Hcont.
  - wp_auto. eapply wp_mono.
    { apply (wp_for_each _ _ (fun s db => flux ∅ (lt_workflow_id task) e s WRunning db ∧ (2 ≤ s)%Z)).
      { split; [by apply flux_start|done]. }
      intros s c db1 Hin [Hfl1 Hs1]. apply wp_append_command; [done|done|].
      destruct (is_continuation c) as [k|] eqn:Hk; [|done].
      exfalso. apply (not_elem_of_nil k). rewrite <- Hcont.
      by apply list_elem_of_omap; exists c. }
    intros s db1 [Hfl1 Hs1]. wp_auto; [wp_frame db2 Hc2|]; wp_auto;
      (eapply wp_settle; [first [exact Hfl1|by eapply flux_core]|done|by simpl; rewrite Hr|done]).
  - wp_auto. eapply wp_mono; [by apply wp_terminate_descendants_of|].
    intros [] db1 (HI1 & Hgr1 & Hd1).
    assert (is_Some (db_executions db1 !! lt_workflow_id task)) as [e1 He1].
    { apply elem_of_dom. rewrite Hd1. by apply elem_of_dom_2 in He. }
    apply (wp_commit_continue_as_new _ _ _ _ e1); auto.
Qed.

Lemma wp_commit_cancellation task e db :
  Inv ∅ db → db_executions db !! lt_workflow_id task = Some e → exec_status e = WRunning →
  wp (commit_cancellation task e) (fun _ => Inv ∅) db.
Proof.
  intros HI He Hr. destruct (Inv_running_append _ _ _ _ HI He Hr) as [Hcan Hs].
  unfold commit_cancellation. wp_auto.
  eapply wp_mono; [by apply wp_cancel_pending_timers|].
  intros s db1 (HI1 & Hcan1 & Hs1 & Hex1). wp_auto.
  eapply wp_mono; [by apply wp_terminate_descendants_of|]. intros [] db2 (HI2 & Hgr2 & Hd2). wp_auto.
  wp_frame db3 Hc3. wp_auto.
  assert (is_Some (db_executions db3 !! lt_workflow_id task)) as [e3 He3].
  { destruct Hc3 as [_ ->]. apply elem_of_dom. rewrite Hd2, Hex1. by apply elem_of_dom_2 in He. }
  apply (wp_append ∅) with e3; [by inv_core|done| |done|done|].
  { rewrite (hist_core _ _ _ Hc3). by apply Hgr2. }
  intros db4 Hfl _ _ _. wp_auto.
  eapply wp_settle; [done|done|done|]. intros db5 HI5 _ _. wp_auto.
  wp_frame db6 Hc6. apply (wp_notify_parent ∅). by inv_core.
Qed.

Lemma wp_commit_closed task e b payload db :
  Inv ∅ db → db_executions db !! lt_workflow_id task = Some e → exec_status e = WRunning →
  wp (commit_closed task e b payload) (fun _ => Inv ∅) db.
Proof.
  intros HI He Hr. destruct (Inv_running_append _ _ _ _ HI He Hr) as [Hcan Hs].
  unfold commit_closed. cbv zeta. apply wp_bind.
  eapply wp_mono; [by apply wp_terminate_descendants_of|]. intros [] db1 (HI1 & Hgr1 & Hd1).
  apply wp_bind. wp_frame db2 Hc2. apply wp_bind.
  eapply wp_mono; [apply (wp_cancel_pending_timers ∅); [by inv_core| |done]|].
  { rewrite (hist_core _ _ _ Hc2). by apply Hgr1. }
  intros s db3 (HI3 & Hcan3 & Hs3 & Hex3). apply wp_bind.
  assert (is_Some (db_executions db3 !! lt_workflow_id task)) as [e3 He3].
  { rewrite Hex3. destruct Hc2 as [_ ->]. apply elem_of_dom. rewrite Hd1. by apply elem_of_dom_2 in He. }
  apply (wp_append ∅) with e3; [done|done|done|done|by destruct b|].
  intros db4 Hfl _ _ _.
  do 2 (wp_step; cbv beta zeta). do 2 (wp_step; cbv beta zeta). apply wp_bind.
  eapply wp_settle; [done|done|by destruct b|]. intros db5 HI5 _ _. apply wp_bind.
  wp_frame db6 Hc6. apply (wp_notify_parent ∅). by inv_core.
Qed.

Lemma inv_commit_workflow_replay task r : preserves (Inv ∅) (commit_workflow_replay task r).
Proof.
  unfold commit_workflow_replay. preserves_auto. wp_auto. apply wp_running_execution.
  intros e He Hr. apply wp_bind, (wp_mono _ (fun _ => Inv ∅)).
  - unfold commit_consequences. destruct (rr_status r); wp_auto;
      eauto using wp_commit_cancellation, wp_commit_commands, wp_commit_closed.
  - intros _ db1 HI1. wp_frame db2 Hc2. inv_core.
Qed.

(** ** Schedules *)
Lemma wp_start_occurrence id sch t b db :
  Inv ∅ db → wp (_start_occurrence id sch t b) (fun _ => Inv ∅) db.
Proof.
  intros HI. unfold _start_occurrence. wp_auto;
    (eapply wp_create_execution; [done..|]; intros ev db1 _ _ _ _ _ _ _ HI1; wp_auto;
     wp_frame db2 Hc2; wp_auto; wp_frame db3 Hc3; wp_auto; inv_core).
Qed.

Lemma wp_record_occurrence id sch t db :
  Inv ∅ db → wp (record_occurrence id sch t) (fun _ => Inv ∅) db.
Proof.
  intros HI. unfold record_occurrence. wp_auto; try (wp_frame db1 Hc1; inv_core).
  eapply wp_mono; [by apply wp_start_occurrence|]. intros w db1 HI1. by wp_auto.
Qed.

Lemma inv_create_schedule n t v i c z q sa o ct a :
  preserves (Inv ∅) (create_schedule n t v i c z q sa o ct a).
Proof.
  unfold create_schedule, clock_or_now. preserves_auto; wp_auto; wp_frame db1 Hc1; wp_auto;
    wp_frame db2 Hc2; wp_auto; wp_frame db3 Hc3; wp_auto; inv_core.
Qed.

Lemma inv_set_schedule_paused id p ct a : preserves (Inv ∅) (set_schedule_paused id p ct a).
Proof.
  unfold set_schedule_paused, clock_or_now. preserves_auto; wp_auto; wp_frame db1 Hc1; wp_auto;
    try inv_core; apply (Inv_core _ _ _ Hc1); by eapply Inv_core; [|eassumption].
Qed.

Lemma inv_materialize ct : preserves (Inv ∅) (materialize_due_schedule ct).
Proof.
  unfold materialize_due_schedule, clock_or_now. preserves_auto; wp_auto; try done;
    (eapply wp_mono; [first [by apply wp_start_occurrence | by apply wp_record_occurrence]|]);
    intros ? db1 HI1; wp_auto; inv_core.
Qed.

Lemma inv_backfill id s e n a : preserves (Inv ∅) (backfill_schedule id s e n a).
Proof.
  unfold backfill_schedule. preserves_auto. wp_auto. eapply wp_mono.
  { apply (wp_for_each _ _ (fun _ => Inv ∅)); [done|]. intros k t db1 _ HI1.
    unfold backfill_one. wp_auto; [done|].
    eapply wp_mono; [by apply wp_start_occurrence|]. intros w db2 HI2. by wp_auto. }
  intros k db1 HI1. wp_auto. wp_frame db2 Hc2. wp_auto. inv_core.
Qed.

Lemma inv_record_effect k p : preserves (Inv ∅) (record_idempotent_effect k p).
Proof.
  unfold record_idempotent_effect. preserves_auto. apply preserves_modify_db. intros. inv_core.
Qed.

Lemma inv_heartbeat_worker h p i q rs : preserves (Inv ∅) (heartbeat_worker h p i q rs).
Proof. unfold heartbeat_worker. preserves_auto. apply preserves_modify_db. intros. inv_core. Qed.

Lemma inv_stop_worker i : preserves (Inv ∅) (stop_worker i).
Proof. unfold stop_worker. preserves_auto. apply preserves_modify_db. intros. inv_core. Qed.

End store.
