(* ===== verification/System.v ===== *)
(** * The system: any interleaving of the operations

    Clients, workers and the maintenance loop run operations against one
    database, each atomic as PostgreSQL makes its transactions; a worker's step
    is several operations, so other operations may run between them.  [step] is
    one operation in any environment (clock, random values, locked rows), with
    any arguments, whether it returned or raised, and [reachable] databases are
    those the operations build from the empty one. *)
From S2P Require Import Prelude Python Serialization History Commands Context Replay Database.
From S2P Require Import Logic Store Leasing AuditLog Definitions Transitions Commit Activities.
From S2P Require Import Messages Timeouts Cron Schedules Queries Workers Frames StoreInvariant.
From stdpp Require Import relations.

(** The leased task is what the row of the task says. *)
Record genuine (db : DB) (task : LeasedTask) (t : Task) : Prop := {
  gn_row : db_tasks db !! lt_id task = Some t;
  gn_workflow : lt_workflow_id task = task_workflow_id t;
  gn_type : lt_task_type task = task_task_type t;
  gn_entity : lt_entity_id task = task_entity_id t;
  gn_command : lt_command_id task = task_command_id t;
  gn_attempt : lt_attempt task = task_attempt t;
  gn_input : lt_input task = default JNull (task_input t)
}.
Definition is_genuine (db : DB) (task : LeasedTask) : Prop := ∃ t, genuine db task t.

(** The same as a computation. *)
Definition genuineb (db : DB) (task : LeasedTask) : bool :=
  match db_tasks db !! lt_id task with
  | Some t =>
    bool_decide (lt_workflow_id task = task_workflow_id t ∧ lt_task_type task = task_task_type t ∧
      lt_entity_id task = task_entity_id t ∧ lt_command_id task = task_command_id t ∧
      lt_attempt task = task_attempt t ∧ lt_input task = default JNull (task_input t))
  | None => false
  end.
Lemma genuineb_genuine db task : genuineb db task = true → is_genuine db task.
Proof.
  unfold genuineb. destruct (db_tasks db !! lt_id task) as [t|] eqn:Ht; [|done].
  intros (? & ? & ? & ? & ? & ?)%bool_decide_eq_true. by exists t.
Qed.

Section operations.
Context `{PyStd} {commits : LeasedTask → ReplayResult → Prop} {reports : LeasedTask → Prop}.

(** The operations, with the replays [commits] allows and the outcomes of the
    leased tasks [reports] allows. *)
Inductive operation_of : ∀ A : Type, M A → Prop :=
| op_register d : operation_of _ (register_workflow_definition d)
| op_start t v i q w sa r a : operation_of _ (start_workflow t v i q w sa r a)
| op_pause w r a : operation_of _ (pause_workflow w r a)
| op_resume w r a : operation_of _ (resume_workflow w r a)
| op_retry w a : operation_of _ (retry_workflow w a)
| op_search_attributes w d u a : operation_of _ (update_search_attributes w d u a)
| op_terminate w r a : operation_of _ (terminate_workflow w r a)
| op_cancel w r a : operation_of _ (request_workflow_cancellation w r a)
| op_lease t q d : operation_of _ (lease_task t q d)
| op_renew t l d : operation_of _ (renew_lease t l d)
| op_heartbeat t l x d : operation_of _ (heartbeat_activity t l x d)
| op_reclaim n : operation_of _ (reclaim_expired_workflow_tasks n)
| op_release t d : operation_of _ (release_workflow_task t d)
| op_commit t r : commits t r → operation_of _ (commit_workflow_replay t r)
| op_complete t r : reports t → operation_of _ (complete_activity t r)
| op_fail t f r : reports t → operation_of _ (fail_activity t f r)
| op_timer q c : operation_of _ (fire_due_timer q c)
| op_timeout q r : operation_of _ (process_activity_timeout q r)
| op_signal w i n p a : operation_of _ (send_signal w i n p a)
| op_update w u n p a : operation_of _ (send_update w u n p a)
| op_create_schedule n t v i c z q sa o ct a :
    operation_of _ (create_schedule n t v i c z q sa o ct a)
| op_pause_schedule i p ct a : operation_of _ (set_schedule_paused i p ct a)
| op_materialize ct : operation_of _ (materialize_due_schedule ct)
| op_backfill i s e n a : operation_of _ (backfill_schedule i s e n a)
| op_effect k p : operation_of _ (record_idempotent_effect k p)
| op_heartbeat_worker h p i q rs : operation_of _ (heartbeat_worker h p i q rs)
| op_stop_worker i : operation_of _ (stop_worker i).

End operations.
Arguments operation_of {_} commits reports A m.

Definition operation_by `{PyStd} (commits : LeasedTask → ReplayResult → Prop) :
    ∀ A : Type, M A → Prop :=
  operation_of commits (fun _ => True).

Section System.
Context `{PyStd}.

Lemma operation_by_mono (P Q : LeasedTask → ReplayResult → Prop) A (m : M A) :
  (∀ t r, P t r → Q t r) → operation_by P A m → operation_by Q A m.
Proof. intros HPQ. destruct 1; constructor; by try apply HPQ. Qed.

Definition operation : ∀ A : Type, M A → Prop := operation_by (fun _ _ => True).

(** What an operation leaves, when [n] environment values were used before. *)
Definition leaves {A : Type} (m : M A) (env : Env) (n : nat) (db : DB) : DB :=
  w_db (m env (mk_world db n)).2.

Lemma exec_leaves {A} (m : M A) env db : (exec m env db).2 = leaves m env 0 db.
Proof. unfold exec, leaves. by destruct (m env (mk_world db 0)). Qed.

Inductive step (db : DB) : DB → Prop :=
| step_op A (m : M A) env n : operation A m → step db (leaves m env n db).

Lemma step_exec db A (m : M A) env : operation A m → step db (exec m env db).2.
Proof. rewrite exec_leaves. by constructor. Qed.

Definition reachable (db : DB) : Prop := rtc step empty_db db.

Lemma operation_inv A (m : M A) : operation A m → preserves (Inv ∅) m.
Proof.
  destruct 1; auto using inv_register_definition, inv_start, inv_pause, inv_resume, inv_retry,
    inv_search_attributes, inv_terminate, inv_request_cancellation, inv_lease_task,
    inv_renew_lease, inv_heartbeat_activity, inv_reclaim, inv_release, inv_commit_workflow_replay,
    inv_complete_activity, inv_fail_activity, inv_fire_due_timer, inv_process_timeout,
    inv_send_signal, inv_send_update, inv_create_schedule, inv_set_schedule_paused,
    inv_materialize, inv_backfill, inv_record_effect, inv_heartbeat_worker, inv_stop_worker.
Qed.

(** An invariant of every operation holds in every reachable database. *)
Lemma reachable_ind_op (I : DB → Prop) db :
  I empty_db → (∀ A (m : M A), operation A m → preserves I m) → reachable db → I db.
Proof.
  intros H0 Hop Hr. unfold reachable in Hr. remember empty_db as d eqn:E. clear E.
  induction Hr as [|d d1 d2 Hs _ IH]; [done|]. apply IH. destruct Hs as [A m env n Hm].
  by apply (Hop A m Hm env (mk_world d n)).
Qed.

Lemma Inv_empty : Inv ∅ empty_db.
Proof. split; [intros; apply history_wf_nil|done|done|done]. Qed.

Lemma reachable_Inv db : reachable db → Inv ∅ db.
Proof. intros. eapply reachable_ind_op; [apply Inv_empty|apply operation_inv|done]. Qed.

End System.

(** ** The stored order of a history is its sequence order *)
Lemma seq_le_sorted k es :
  (∀ i e, es !! i = Some e → event_seq e = (Z.of_nat i + k)%Z) → StronglySorted seq_le es.
Proof.
  revert k; induction es as [|e es IH]; intros k Hc; constructor.
  - apply (IH (k + 1)%Z). intros i x Hi. rewrite (Hc (S i) x Hi). lia.
  - apply Forall_lookup. intros i x Hi. unfold seq_le.
    rewrite (Hc 0 e eq_refl), (Hc (S i) x Hi). lia.
Qed.

Lemma history_of_hist wid db : history_wf (hist wid db) → history_of wid db = hist wid db.
Proof.
  intros Hwf. pose proof (wf_contiguous _ Hwf) as Hc. unfold history_of. fold (hist wid db).
  assert (∀ x y, x ∈ hist wid db → y ∈ hist wid db → event_seq x = event_seq y → x = y) as Huniq.
  { intros x y [i Hi]%list_elem_of_lookup [j Hj]%list_elem_of_lookup Heq.
    rewrite (Hc _ _ Hi), (Hc _ _ Hj) in Heq. assert (i = j) as -> by lia. congruence. }
  apply (StronglySorted_unique_strong seq_le).
  - intros x y Hx Hy. rewrite merge_sort_Permutation in Hx. unfold seq_le. intros ??.
    apply Huniq; [done|done|lia].
  - apply Sorted_StronglySorted; [intros ???; unfold seq_le; lia|].
    apply Sorted_merge_sort. intros x y. unfold seq_le. lia.
  - by apply (seq_le_sorted 1).
  - apply merge_sort_Permutation.
Qed.

Section properties.
Context `{PyStd}.

(** C8 Every stored history is well formed, in every reachable database: its
    events are numbered 1, 2, ..., [WorkflowExecutionStarted] is its first event
    and only that, and nothing follows a terminal event. *)
Theorem reachable_history_wf db wid i e :
  reachable db → history_of wid db !! i = Some e →
  event_seq e = (Z.of_nat i + 1)%Z ∧
  (event_type e = WorkflowExecutionStarted ↔ i = 0) ∧
  (WORKFLOW_TERMINAL_EVENT_TYPES (event_type e) = true → S i = length (history_of wid db)).
Proof.
  intros Hr. pose proof (inv_wf _ _ (reachable_Inv db Hr) wid) as Hwf.
  rewrite (history_of_hist _ _ Hwf). intros Hi. destruct Hwf as [H1 H2 H3]. split_and!; eauto.
Qed.

(** C4 The execution row agrees with its history, in every reachable database:
    the history is not empty, [next_seq] is one more than its length, and the
    status is exactly what the history says: that of its terminal event, running
    while there is none. *)
Theorem reachable_execution_agrees db wid e :
  reachable db → db_executions db !! wid = Some e →
  history_of wid db ≠ [] ∧
  exec_next_seq e = (Z.of_nat (length (history_of wid db)) + 1)%Z ∧
  exec_status e = status_of (history_of wid db) ∧
  (exec_status e = WRunning ↔
   ∀ ev, ev ∈ history_of wid db → WORKFLOW_TERMINAL_EVENT_TYPES (event_type ev) = false).
Proof.
  intros Hr He. pose proof (reachable_Inv db Hr) as HI.
  rewrite (history_of_hist _ _ (inv_wf _ _ HI wid)).
  destruct (inv_agrees _ _ HI _ _ He) as [Hs Hst Hne]; [set_solver|].
  split_and!; [done|done|done|]. rewrite Hst, status_running. split.
  - intros Hc ev Hev. by apply (existsb_false terminal_event (hist wid db)).
  - intros Hall. unfold closed. apply not_true_iff_false. intros (ev & Hev & Ht)%existsb_exists.
    apply list_elem_of_In in Hev. apply Hall in Hev. unfold terminal_event in Ht. congruence.
Qed.

(** No event belongs to a workflow without an execution. *)
Theorem reachable_no_orphan_events db wid :
  reachable db → db_executions db !! wid = None → history_of wid db = [].
Proof.
  intros Hr Hn. pose proof (reachable_Inv db Hr) as HI.
  rewrite (history_of_hist _ _ (inv_wf _ _ HI wid)). by apply (inv_foreign _ _ HI).
Qed.

End properties.
