(* ===== verification/Runner.v ===== *)
(** * The worker service (engine/workers/runner.py)

    [run_worker] runs a heartbeat loop and a loop per role until a stop event is
    set, the service is cancelled or the heartbeat fails.  [transition] is one
    scheduling of the service: a loop runs a round, falls asleep, wakes or ends,
    or something else happens in the meantime -- another process runs an operation,
    the stop event is set, the service is cancelled. *)
From S2P Require Import Prelude Python Serialization History Commands Context Replay Database.
From S2P Require Import Leasing AuditLog Definitions Transitions Commit Activities Messages.
From S2P Require Import Timeouts Cron Schedules Queries Workers Metrics System.

(** engine/workers/runner.py, lines 20-22 *)
Inductive WorkerRole : Type := workflow | activity | maintenance.
#[export] Instance WorkerRole_eq_dec : EqDecision WorkerRole.
Proof. solve_decision. Defined.
Definition role_label (r : WorkerRole) : string :=
  match r with workflow => "workflow" | activity => "activity" | maintenance => "maintenance" end.

(** [sorted(ALL_ROLES)]. *)
Definition ALL_ROLES : list WorkerRole := [activity; maintenance; workflow].

(** engine/workers/runner.py, lines 92-101: the validated roles, sorted. *)
Definition validate_worker (idle_delay heartbeat_interval : float) (roles : list string)
    : Py (list WorkerRole) :=
  if SFleb idle_delay (float_of_Z 0) then Err (ValueError "idle_delay must be positive")
  else if SFleb heartbeat_interval (float_of_Z 0) then
    Err (ValueError "heartbeat_interval must be positive")
  else if bool_decide (roles = []) || negb (forallb (fun r => bool_decide (r ∈ map role_label ALL_ROLES)) roles)
  then Err (ValueError "roles must be a non-empty subset of ['activity', 'maintenance', 'workflow']")
  else Ok (filter (fun r => role_label r ∈ roles) ALL_ROLES).

(** The parameters of a service. *)
Record Service : Type := mk_service {
  sv_registry : DefinitionRegistry;
  sv_queue_name : string;
  sv_worker_id : UUID;
  sv_roles : list WorkerRole;
  sv_hostname : string;
  sv_process_id : Z
}.

(** Where a loop stands: about to test the stop event, sleeping, or ended. *)
Inductive LoopState : Type := polling | idling | finished | failed (e : PyError) | cancelled.
#[export] Instance LoopState_eq_dec : EqDecision LoopState.
Proof. solve_decision. Defined.
Definition ended (s : LoopState) : bool :=
  match s with finished | failed _ | cancelled => true | polling | idling => false end.

Inductive Loop : Type := heartbeat_loop | role_loop (r : WorkerRole).
#[export] Instance Loop_eq_dec : EqDecision Loop.
Proof. solve_decision. Defined.

Section Runner.
Context `{PyStd}.

(** engine/workers/runner.py, lines 103-116; [None]: the step did not come to an
    end within [fuel] requests of the workflow function. *)
Definition role_step (service : Service) (fuel : nat) (role : WorkerRole) : M (option Z) :=
  match role with
  | workflow =>
    progressed ← run_workflow_task fuel (sv_registry service) (sv_queue_name service) default_lease;
    mret (Z.b2z <$> progressed)
  | activity =>
    progressed ← run_activity_task (sv_registry service) (sv_queue_name service) default_lease;
    mret (Some (Z.b2z progressed))
  | maintenance => n ← run_maintenance (Some (sv_queue_name service)) 100 None; mret (Some n)
  end.

Definition observe_duration (role : WorkerRole) (duration : float) (m : MetricsRegistry)
    : MetricsRegistry :=
  run_call m (call_observe "dwe_worker_step_duration_seconds" duration [("role", role_label role)]).

(** engine/workers/runner.py, lines 40-59: what a round does with the outcome of
    its step: the metrics, and whether it sleeps before the next. *)
Definition after_step (role : WorkerRole) (outcome : Py Z) (duration : float) (m : MetricsRegistry)
    : MetricsRegistry * LoopState :=
  let progressed := match outcome with Ok n => negb (n =? 0)%Z | Err _ => false end in
  let m := match outcome with
           | Ok _ => m
           | Err _ => run_call m (call_increment "dwe_worker_step_errors_total"
                                    [("role", role_label role)] (float_of_Z 1))
           end in
  let m := observe_duration role duration m in
  let m := run_call m (call_increment "dwe_worker_steps_total"
             [("role", role_label role); ("result", if progressed then "progressed" else "idle")]
             (float_of_Z 1)) in
  (m, if progressed then polling else idling).

(** The state of a service and of what it shares. *)
Record ServiceState : Type := mk_service_state {
  ss_db : DB;
  ss_metrics : MetricsRegistry;
  ss_stop : bool;          (* stop.is_set() *)
  ss_cancelled : bool;     (* run_worker was cancelled *)
  ss_loops : Loop → LoopState
}.

Definition set_loop (l : Loop) (s : LoopState) (st : ServiceState) : ServiceState :=
  mk_service_state (ss_db st) (ss_metrics st) (ss_stop st) (ss_cancelled st)
    (fun l' => if decide (l' = l) then s else ss_loops st l').
Definition set_db (db : DB) (st : ServiceState) : ServiceState :=
  mk_service_state db (ss_metrics st) (ss_stop st) (ss_cancelled st) (ss_loops st).
Definition set_metrics (m : MetricsRegistry) (st : ServiceState) : ServiceState :=
  mk_service_state (ss_db st) m (ss_stop st) (ss_cancelled st) (ss_loops st).
Definition set_stop (st : ServiceState) : ServiceState :=
  mk_service_state (ss_db st) (ss_metrics st) true (ss_cancelled st) (ss_loops st).
Definition set_cancelled (st : ServiceState) : ServiceState :=
  mk_service_state (ss_db st) (ss_metrics st) (ss_stop st) true (ss_loops st).

(** engine/workers/runner.py, lines 31-59: a round of a role's loop that is not
    stopped; [None] while its step does not end. *)
Definition _run_loop (service : Service) (role : WorkerRole) (fuel : nat) (env : Env) (n : nat)
    (duration : float) (st : ServiceState) : option ServiceState :=
  match role_step service fuel role env (mk_world (ss_db st) n) with
  | (Ok None, _) => None
  | (Ok (Some progress), w) =>
    let '(m, next) := after_step role (Ok progress) duration (ss_metrics st) in
    Some (set_loop (role_loop role) next (set_metrics m (set_db (w_db w) st)))
  | (Err e, w) =>
    let '(m, next) := after_step role (Err e) duration (ss_metrics st) in
    Some (set_loop (role_loop role) next (set_metrics m (set_db (w_db w) st)))
  end.

(** engine/workers/runner.py, lines 62-78: a round of the heartbeat, whose
    exceptions are not caught. *)
Definition _heartbeat_loop (service : Service) (env : Env) (n : nat) (st : ServiceState) : ServiceState :=
  match heartbeat_worker (sv_hostname service) (sv_process_id service) (sv_worker_id service)
          (sv_queue_name service) (map role_label (sv_roles service)) env (mk_world (ss_db st) n) with
  | (Ok _, w) => set_loop heartbeat_loop idling (set_db (w_db w) st)
  | (Err e, w) => set_loop heartbeat_loop (failed e) (set_db (w_db w) st)
  end.

Definition service_loops (service : Service) : list Loop :=
  heartbeat_loop :: map role_loop (sv_roles service).

(** A task group cancels its other tasks when one failed or it was cancelled. *)
Definition group_cancels (service : Service) (st : ServiceState) : bool :=
  ss_cancelled st || existsb (fun l => match ss_loops st l with failed _ => true | _ => false end)
                       (service_loops service).

(** What the loops of a service do. *)
Inductive loop_transition (service : Service) (st : ServiceState) : ServiceState → Prop :=
| lt_stops l :
    l ∈ service_loops service → ss_loops st l = polling → ss_stop st = true →
    loop_transition service st (set_loop l finished st)
| lt_runs role fuel env n duration st' :
    role_loop role ∈ service_loops service → ss_loops st (role_loop role) = polling → ss_stop st = false →
    _run_loop service role fuel env n duration st = Some st' →
    loop_transition service st st'
| lt_heartbeats env n :
    ss_loops st heartbeat_loop = polling → ss_stop st = false →
    loop_transition service st (_heartbeat_loop service env n st)
| lt_wakes l :
    l ∈ service_loops service → ss_loops st l = idling →
    loop_transition service st (set_loop l polling st)
| lt_cancelled l :
    l ∈ service_loops service → ended (ss_loops st l) = false → group_cancels service st = true →
    loop_transition service st (set_loop l cancelled st)
| lt_step_cancelled role duration :
    role_loop role ∈ service_loops service → ss_loops st (role_loop role) = polling → ss_stop st = false →
    group_cancels service st = true →
    loop_transition service st
      (set_loop (role_loop role) cancelled (set_metrics (observe_duration role duration (ss_metrics st)) st)).

(** A scheduling of the service among everything else.  What a step had done when
    it was cancelled is among the operations of [ot_operation]. *)
Inductive transition (service : Service) (st : ServiceState) : ServiceState → Prop :=
| tr_loop st' : loop_transition service st st' → transition service st st'
| tr_operation db : step (ss_db st) db → transition service st (set_db db st)
| tr_metrics c : transition service st (set_metrics (run_call (ss_metrics st) c) st)
| tr_stop : transition service st (set_stop st)
| tr_cancel : transition service st (set_cancelled st).

(** engine/workers/runner.py, lines 126-148: the group starts with every loop at
    its head. *)
Definition started_service (db : DB) (m : MetricsRegistry) (stop : bool) : ServiceState :=
  mk_service_state db m stop false (fun _ => polling).

(** engine/workers/runner.py, lines 149-155: the group ends when its loops have;
    the worker is then marked stopped, whatever that raises. *)
Definition group_ended (service : Service) (st : ServiceState) : bool :=
  forallb (fun l => ended (ss_loops st l)) (service_loops service).
Definition service_stopped (service : Service) (env : Env) (n : nat) (st : ServiceState) : DB :=
  w_db (stop_worker (sv_worker_id service) env (mk_world (ss_db st) n)).2.

(** The exception of [run_worker]: of a failed loop, or its cancellation. *)
Inductive ServiceOutcome : Type := service_returns | service_raises (e : PyError) | service_cancelled.
Definition service_outcome (service : Service) (st : ServiceState) : ServiceOutcome :=
  match omap (fun l => match ss_loops st l with failed e => Some e | _ => None end)
          (service_loops service) with
  | e :: _ => service_raises e
  | [] => if ss_cancelled st then service_cancelled else service_returns
  end.

End Runner.
