(* ===== verification/Startup.v ===== *)
(** * Starting a process (observability.py, persistence/database.py, migrations.py, api/app.py)

    What a process does before it works: it configures its log, migrates the
    schema, opens a pool of connections, and closes the pool when it ends.
    [Machine] is what such a process shares with its surroundings; what asyncpg
    does with an address is a parameter. *)
From S2P Require Import Prelude Python Serialization Database System Config Security Migrations.
From S2P Require Import Http.
From stdpp Require Import pretty relations.

(** ** Structured logging *)

(** engine/observability.py, lines 14-14: the attributes of a record the
    [logging] module makes. *)
Definition LOG_RECORD_FIELDS : list string :=
  ["name"; "msg"; "args"; "levelname"; "levelno"; "pathname"; "filename"; "module"; "exc_info";
   "exc_text"; "stack_info"; "lineno"; "funcName"; "created"; "msecs"; "relativeCreated"; "thread";
   "threadName"; "processName"; "process"; "taskName"].

(** A record: [getMessage()] may raise, the attributes are those of [__dict__] in
    order, with [str] of the ones that are not JSON ([default=str]). *)
Record LogRecord : Type := mk_log_record {
  lr_levelname : string;
  lr_name : string;
  lr_message : Py string;
  lr_attributes : dict;
  lr_exception : option string       (* formatException(exc_info) *)
}.

(** [key not in LOG_RECORD_FIELDS and not key.startswith("_")]. *)
Definition contextual (key : string) : bool :=
  negb (bool_decide (key ∈ LOG_RECORD_FIELDS)) && negb (String.prefix "_" key).

(** engine/observability.py, lines 18-33: the object that is printed. *)
Definition JSONFormatter_format `{PyStd} (now : Timestamp) (record : LogRecord) : Py JSON :=
  message ← lr_message record;
  let payload := [("timestamp", JStr (isoformat (utc now)));
                  ("level", JStr (lr_levelname record));
                  ("logger", JStr (lr_name record));
                  ("message", JStr message)] in
  let payload := dict_merge payload (filter (fun kv => contextual kv.1 = true) (lr_attributes record)) in
  let payload := match lr_exception record with
                 | Some text => dict_set "exception" (JStr text) payload
                 | None => payload
                 end in
  Ok (sort_keys (JObj payload)).

Inductive LogFormat : Type := json_format | text_format.

(** The root logger: the formats of its handlers, and its level. *)
Record RootLogger : Type := mk_root_logger { handlers : list LogFormat; level : Z }.

(** [getattr(logging, name, None)] where it is an [int], of a name in upper case. *)
Definition logging_level (name : string) : option Z :=
  dict_get name [("CRITICAL", 50); ("FATAL", 50); ("ERROR", 40); ("WARNING", 30); ("WARN", 30);
                 ("INFO", 20); ("DEBUG", 10); ("NOTSET", 0)]%Z.

(** engine/observability.py, lines 36-53 *)
Definition configure_logging `{PyText} (process : Process) (root : RootLogger) : Py RootLogger :=
  let level_name := str_upper (default "INFO" (environ process "LOG_LEVEL")) in
  match logging_level level_name with
  | None => Err (RuntimeError ("invalid LOG_LEVEL: " +:+ level_name))
  | Some level =>
    let log_format := str_lower (default "json" (environ process "DWE_LOG_FORMAT")) in
    if String.eqb log_format "json" then Ok (mk_root_logger [json_format] level)
    else if String.eqb log_format "text" then Ok (mk_root_logger [text_format] level)
    else Err (RuntimeError "DWE_LOG_FORMAT must be 'json' or 'text'")
  end.

(** ** The machine *)

(** What asyncpg does with the address of a database: [asyncpg_connect] opens a
    connection or raises, [asyncpg_create_pool] opens a pool, raises, or returns
    [None] ([Ok false]). *)
Record PoolOptions : Type := mk_pool_options {
  po_database_url : string;
  po_min_size : Z;
  po_max_size : Z;
  po_command_timeout : float;
  po_server_settings : list (string * string)
}.
Class Asyncpg : Type := {
  asyncpg_connect : string → Py unit;
  asyncpg_create_pool : PoolOptions → Py bool
}.

(** What a process shares with its surroundings: the schema of the database and
    its rows, how many operations it ran, the pools it has open, what it printed,
    its logger, how often it read the performance counter. *)
Record Machine (S : Type) : Type := mk_machine {
  mc_schema : SchemaDB S;
  mc_db : DB;
  mc_calls : nat;
  mc_pools : list PoolOptions;
  mc_output : list JSON;
  mc_logger : RootLogger;
  mc_readings : nat
}.
Arguments mk_machine {S}.
Arguments mc_schema {S}.
Arguments mc_db {S}.
Arguments mc_calls {S}.
Arguments mc_pools {S}.
Arguments mc_output {S}.
Arguments mc_logger {S}.
Arguments mc_readings {S}.
#[export] Instance eta_machine S : Eta (Machine S) := fun r =>
  mk_machine (mc_schema r) (mc_db r) (mc_calls r) (mc_pools r) (mc_output r) (mc_logger r)
    (mc_readings r).

(** The environment of each operation of the process, what other processes did to
    the database before it, the readings of [time.perf_counter()], and in which
    order operations end that are started together: after so many operations, so
    many of them. *)
Record Surroundings : Type := mk_surroundings {
  su_env : nat → Env;
  su_meanwhile : nat → DB → DB;
  su_perf_counter : nat → float;
  su_order : nat → nat → list nat
}.

Definition IO (S A : Type) : Type := Surroundings → Machine S → Py A * Machine S.
#[export] Instance IO_ret (S : Type) : MRet (IO S) := fun A a _ mc => (Ok a, mc).
#[export] Instance IO_bind (S : Type) : MBind (IO S) := fun A B k m su mc =>
  match m su mc with
  | (Ok a, mc) => k a su mc
  | (Err e, mc) => (Err e, mc)
  end.

Section io.
Context {S : Type}.

(** A value or an exception. *)
Definition io {A : Type} (r : Py A) : IO S A := fun _ mc => (r, mc).

(** An operation of the database, through a connection of a pool. *)
Definition on_database {A : Type} (m : M A) : IO S A := fun su mc =>
  let n := mc_calls mc in
  let '(r, db) := exec m (su_env su n) (su_meanwhile su n (mc_db mc)) in
  (r, mc <| mc_db := db |> <| mc_calls := n + 1 |>).

(** [print(json.dumps(v, sort_keys=True))]: the object that is printed. *)
Definition print_line (v : JSON) : IO S unit := fun _ mc =>
  (Ok tt, mc <| mc_output := mc_output mc ++ [sort_keys v] |>).

(** [try: body finally: final]: the exception of [final] replaces the outcome. *)
Definition finally {A : Type} (body : IO S A) (final : IO S unit) : IO S A := fun su mc =>
  let '(r, mc) := body su mc in
  match final su mc with
  | (Ok _, mc) => (r, mc)
  | (Err e, mc) => (Err e, mc)
  end.
End io.

Section Startup.
Context `{PyStd} `{PyText} {S : Type} (run_sql : string → S → Py S) `{Asyncpg}.
Context (files : list (string * string)) (process : Process).

(** engine/persistence/database.py, lines 32-54 *)
Definition create_pool (database_url : string) (min_size max_size : Z) (command_timeout : float)
    (statement_timeout_ms : Z) (application_name : string) : IO S PoolOptions := fun _ mc =>
  let options := mk_pool_options database_url min_size max_size command_timeout
    [("application_name", application_name);
     ("statement_timeout", pretty statement_timeout_ms);
     ("idle_in_transaction_session_timeout", "30000")] in
  match asyncpg_create_pool options with
  | Err e => (Err e, mc)
  | Ok false => (Err (RuntimeError "asyncpg returned no connection pool"), mc)
  | Ok true => (Ok options, mc <| mc_pools := options :: mc_pools mc |>)
  end.

(** engine/persistence/database.py, lines 57-65 *)
Definition create_configured_pool (config : DatabaseConfig) : IO S PoolOptions :=
  create_pool (dc_url config) (dc_min_pool_size config) (dc_max_pool_size config)
    (dc_command_timeout_seconds config) (dc_statement_timeout_ms config)
    (dc_application_name config).

(** engine/persistence/database.py, lines 29-29: closing the pool opened last. *)
Definition close_pool : IO S unit := fun _ mc =>
  (Ok tt, mc <| mc_pools := tail (mc_pools mc) |>).

Definition run_migrations (migrations : list Migration) : IO S unit := fun _ mc =>
  let '(r, schema) := apply_migrations run_sql migrations (mc_schema mc) in
  (r, mc <| mc_schema := schema |>).

(** engine/persistence/migrations.py, lines 112-117: [files] are those of the
    directory; the connection is closed in any case. *)
Definition migrate (database_url : string) : IO S unit :=
  _ ← io (asyncpg_connect database_url);
  migrations ← io (discover_migrations files);
  run_migrations migrations.

(** engine/persistence/migrations.py, lines 120-130: of the option, if it was
    given; [None]: the usage error of argparse. *)
Definition migrations_main (database_url : option string) : IO S (option unit) :=
  match (match database_url with Some u => Some u | None => environ process "DATABASE_URL" end) with
  | None | Some "" => mret None
  | Some url => _ ← migrate url; mret (Some tt)
  end.

Definition configure_root : IO S unit := fun _ mc =>
  match configure_logging process (mc_logger mc) with
  | Err e => (Err e, mc)
  | Ok root => (Ok tt, mc <| mc_logger := root |>)
  end.

(** ** The application *)

(** engine/api/app.py, lines 192-197: [files] are the migrations the process
    ships; [auth] is given by tests. *)
Definition create_app (auth : option AuthConfig) : Py (Application * AppState * float) :=
  auth_config ← match auth with Some a => Ok a | None => auth_from_env process end;
  health_timeout ← positive_float process "DWE_HEALTH_TIMEOUT_SECONDS" (float_of_Z 2);
  migrations ← discover_migrations files;
  let latest := match last migrations with Some m => mig_version m | None => "" end in
  Ok (mk_application auth_config latest,
      mk_app_state (mk_rate_limiter (auth_requests_per_minute auth_config) ∅) Metrics.empty_metrics,
      health_timeout).

(** engine/api/app.py, lines 199-216: the application serves between start and
    shutdown ([serving]), with the pool given to it or its own. *)
Definition lifespan (app : Application) (pool_given : bool) (serving : IO S unit) : IO S unit :=
  _ ← configure_root;
  _ ← io (validate (app_auth app));
  if pool_given then serving
  else
    database ← io (database_from_env process None "dwe-api");
    _ ← migrate (dc_url database);
    _ ← create_configured_pool database;
    finally serving close_pool.

End Startup.
