(* ===== verification/Cli.v ===== *)
(** * The command line (engine/cli.py)

    The commands of the [engine] program as actions of a process ([IO]).  argparse
    is a parameter: the parsers are data ([build_parser]), and [conforms] is what
    argparse promises about the values it returns.  So are the import of a module
    by name, the random token, and the worker service, whose runs are those of
    Runner ([runs_service]). *)
From S2P Require Import Prelude Python Serialization History Commands Context Replay Database.
From S2P Require Import Leasing AuditLog Definitions Transitions Workers Debugger System Config.
From S2P Require Import Security Metrics Migrations Api Runner Startup.
From stdpp Require Import pretty relations.

(** ** Arguments *)
Inductive ArgValue : Type :=
| arg_none
| arg_str (s : string)
| arg_int (n : Z)
| arg_float (f : float)
| arg_list (l : list string).

Inductive ArgType : Type := type_str | type_int | type_float.

(** What [add_argument] is told. *)
Record Argument : Type := mk_argument {
  ag_name : string;
  ag_type : ArgType;
  ag_required : bool;
  ag_default : ArgValue;
  ag_choices : option (list string);
  ag_append : bool
}.

Record SubParser : Type := mk_sub_parser { sp_command : string; sp_arguments : list Argument }.

Definition option_required (name : string) (type : ArgType) : Argument :=
  mk_argument name type true arg_none None false.
Definition option_default (name : string) (type : ArgType) (v : ArgValue) : Argument :=
  mk_argument name type false v None false.
Definition positional (name : string) : Argument := mk_argument name type_str true arg_none None false.

(** The attribute of the namespace: without the leading dashes, inner dashes as
    underscores. *)
Fixpoint underscores (s : string) : string :=
  match s with
  | EmptyString => ""
  | String a s => String (if Ascii.eqb a (Ascii.ascii_of_N 45) then Ascii.ascii_of_N 95 else a) (underscores s)
  end.
Definition dest (name : string) : string :=
  underscores (if String.prefix "--" name then String.substring 2 (String.length name - 2) name else name).

Definition Namespace : Type := gmap string ArgValue.

(** The values argparse leaves for an argument. *)
Definition has_type (t : ArgType) (v : ArgValue) : Prop :=
  match t, v with type_str, arg_str _ | type_int, arg_int _ | type_float, arg_float _ => True | _, _ => False end.
Definition chosen (choices : option (list string)) (v : ArgValue) : Prop :=
  match choices, v with
  | Some cs, arg_str s => s ∈ cs
  | Some cs, arg_list l => Forall (fun s => s ∈ cs) l
  | Some _, _ => False
  | None, _ => True
  end.
Definition argument_value (a : Argument) (v : ArgValue) : Prop :=
  (ag_required a = false ∧ v = ag_default a) ∨
  (chosen (ag_choices a) v ∧
   if ag_append a then ∃ l, v = arg_list l ∧ l ≠ [] else has_type (ag_type a) v).

(** A namespace of the chosen subparser. *)
Definition conforms (parser : list SubParser) (ns : Namespace) : Prop :=
  ∃ sub, sub ∈ parser ∧ ns !! "command" = Some (arg_str (sp_command sub)) ∧
    ∀ a, a ∈ sp_arguments sub → ∃ v, ns !! dest (ag_name a) = Some v ∧ argument_value a v.

(** argparse returns a namespace, or prints and leaves with a status (2 for a
    usage error, 0 for [--help]). *)
Inductive Parsed : Type := parsed (ns : Namespace) | parser_exits (status : Z).
Class Argparse : Type := { parse_args : list SubParser → list string → Parsed }.
Class ArgparseLaws `{Argparse} : Prop := {
  parse_conforms parser argv ns : parse_args parser argv = parsed ns → conforms parser ns
}.

(** [args.name], cast to the type it has. *)
Definition attribute_error {A : Type} (name : string) : Py A := Err (UserError "AttributeError" name).
Definition get_str (ns : Namespace) (name : string) : Py string :=
  match ns !! name with Some (arg_str s) => Ok s | _ => attribute_error name end.
Definition get_int (ns : Namespace) (name : string) : Py Z :=
  match ns !! name with Some (arg_int n) => Ok n | _ => attribute_error name end.
Definition get_float (ns : Namespace) (name : string) : Py float :=
  match ns !! name with Some (arg_float f) => Ok f | _ => attribute_error name end.
Definition get_list (ns : Namespace) (name : string) : Py (list string) :=
  match ns !! name with
  | Some (arg_list l) => Ok l
  | Some arg_none => Ok []
  | _ => attribute_error name
  end.

(** ** What a reference names *)
Inductive ModuleValue : Type :=
| module_definition (d : WorkflowDefinition)
| module_registry (r : DefinitionRegistry)
| module_other.

(** [getattr(importlib.import_module(module), attribute)]. *)
Class Imports : Type := { module_attribute : string → string → Py ModuleValue }.

(** [KeyboardInterrupt], and the cancellation of a task. *)
Definition KeyboardInterrupt : PyError := UserError "KeyboardInterrupt" "".
Definition CancelledError : PyError := UserError "CancelledError" "".

(** [asdict] of the values that are printed, [str] of identifiers. *)
Definition report_json `{PyStd} (r : ReplayCheckReport) : JSON :=
  JObj [("workflow_id", JStr (uuid_str (rep_workflow_id r)));
        ("workflow_type", JStr (rep_workflow_type r));
        ("stored_version", JInt (rep_stored_version r));
        ("against_version", JInt (rep_against_version r));
        ("compatible", JBool (rep_compatible r));
        ("replay_status", json_opt (fun s => JStr (replay_status_value s)) (rep_replay_status r));
        ("divergence_command_id", json_opt JInt (rep_divergence_command_id r));
        ("message", json_opt JStr (rep_message r))].
Definition started_json `{PyStd} (s : StartedWorkflow) : JSON :=
  JObj [("workflow_id", JStr (uuid_str (started_workflow_id s)));
        ("workflow_type", JStr (started_workflow_type s));
        ("definition_version", JInt (started_definition_version s))].
Definition registered_json (definitions : list WorkflowDefinition) : JSON :=
  JObj [("registered", JList (map (fun d =>
    JObj [("workflow_type", JStr (wd_name d)); ("version", JInt (wd_version d))]) definitions))].

Section Cli.
Context `{PyStd} `{PyText} `{PyJson} `{Imports} `{Argparse} `{Asyncpg}.
Context {S : Type} (run_sql : string → S → Py S) (files : list (string * string)) (process : Process).

Abbreviation IO := (IO S).

(** engine/cli.py, lines 32-39 *)
Definition _load_definition (reference : string) : Py WorkflowDefinition :=
  let '(module_name, attribute) := partition_on (Ascii.ascii_of_N 58) reference in
  if String.eqb module_name "" || String.eqb (default "" attribute) "" then
    Err (ValueError "definition must use module:attribute syntax")
  else
    value ← module_attribute module_name (default "" attribute);
    match value with
    | module_definition d => Ok d
    | _ => Err (TypeError (reference +:+ " is not a workflow definition"))
    end.

(** engine/cli.py, lines 42-49 *)
Definition _load_registry (reference : string) : Py DefinitionRegistry :=
  let '(module_name, attribute) := partition_on (Ascii.ascii_of_N 58) reference in
  if String.eqb module_name "" || String.eqb (default "" attribute) "" then
    Err (ValueError "definitions must use module:attribute syntax")
  else
    value ← module_attribute module_name (default "" attribute);
    match value with
    | module_registry r => Ok r
    | _ => Err (TypeError (reference +:+ " is not a definition registry"))
    end.

(** engine/cli.py, lines 52-53: [JSONDecodeError] is a [ValueError]; its text is
    not modelled. *)
Definition _json_input (raw : string) : Py JSON :=
  match json_loads raw with Some v => Ok v | None => Err (ValueError "invalid JSON") end.

(** [UUID(text)]. *)
Definition uuid_of (text : string) : Py UUID :=
  match uuid_parse text with
  | Some u => Ok u
  | None => Err (ValueError "badly formed hexadecimal UUID string")
  end.

(** engine/cli.py, lines 56-58 *)
Definition _configured_pool (database_url application_name : string) : IO PoolOptions :=
  config ← io (database_from_env process (Some database_url) application_name);
  create_configured_pool config.

(** engine/cli.py, lines 61-63 *)
Definition _registered_pool (database_url application_name : string) : IO PoolOptions :=
  _ ← migrate run_sql files database_url;
  _configured_pool database_url application_name.

(** engine/cli.py, lines 66-84.  [None]: the replay does not end within [fuel]
    requests of the workflow function. *)
Definition _run_replay_check (fuel : nat) (args : Namespace) : IO (option Z) :=
  reference ← io (get_str args "definition");
  definition ← io (_load_definition reference);
  against_version ← io (get_int args "against_version");
  if negb (wd_version definition =? against_version)%Z then
    io (Err (ValueError ("loaded definition version " +:+ pretty (wd_version definition) +:+
                         " does not match --against-version " +:+ pretty against_version)))
  else
    database_url ← io (get_str args "database_url");
    _ ← _configured_pool database_url "dwe-replay-check";
    report ← finally
      (text ← io (get_str args "workflow_id");
       workflow_id ← io (uuid_of text);
       on_database (replay_check fuel workflow_id definition))
      close_pool;
    match report with
    | None => mret None
    | Some report =>
      _ ← print_line (report_json report);
      mret (Some (if rep_compatible report then 0%Z else 1%Z))
    end.

(** [for definition in registry.workflows: await register_workflow_definition(...)]. *)
Fixpoint register_each (definitions : list WorkflowDefinition) : IO unit :=
  match definitions with
  | [] => mret tt
  | d :: definitions =>
    _ ← on_database (register_workflow_definition d); register_each definitions
  end.

(** engine/cli.py, lines 87-107 *)
Definition _run_register (args : Namespace) : IO Z :=
  database_url ← io (get_str args "database_url");
  reference ← io (get_str args "definitions");
  registry ← io (_load_registry reference);
  _ ← _registered_pool database_url "dwe-register";
  _ ← finally (register_each (registry_workflows registry)) close_pool;
  _ ← print_line (registered_json (registry_workflows registry));
  mret 0%Z.

(** engine/cli.py, lines 110-123 *)
Definition _run_start (args : Namespace) : IO Z :=
  database_url ← io (get_str args "database_url");
  _ ← _registered_pool database_url "dwe-start";
  started ← finally
    (workflow_type ← io (get_str args "workflow_type");
     version ← io (get_int args "version");
     raw ← io (get_str args "input");
     workflow_input ← io (_json_input raw);
     queue ← io (get_str args "queue");
     on_database (start_workflow workflow_type version workflow_input queue None [] None None))
    close_pool;
  _ ← print_line (started_json started);
  mret 0%Z.

(** The call of [run_worker]: registry, queue, roles, the two delays. *)
Definition WorkerCall : Type := DefinitionRegistry → string → list string → float → float → IO unit.

(** engine/cli.py, lines 126-150: the signal handlers only set the event that
    stops the service. *)
Definition _run_worker (run_worker : WorkerCall) (args : Namespace) : IO Z :=
  database_url ← io (get_str args "database_url");
  reference ← io (get_str args "definitions");
  registry ← io (_load_registry reference);
  _ ← _registered_pool database_url "dwe-worker";
  _ ← finally
    (_ ← register_each (registry_workflows registry);
     roles ← io (get_list args "role");
     queue ← io (get_str args "queue");
     idle_delay ← io (get_float args "poll_interval");
     heartbeat_interval ← io (get_float args "heartbeat_interval");
     run_worker registry queue
       (if bool_decide (roles = []) then ["workflow"; "activity"; "maintenance"] else roles)
       idle_delay heartbeat_interval)
    close_pool;
  mret 0%Z.

(** engine/cli.py, lines 162-178: with the token [secrets] drew. *)
Definition auth_entry (key_id role token : string) : string :=
  key_id +:+ ":" +:+ role +:+ ":" +:+ hexdigest token.
Definition _run_auth_key (token : string) (args : Namespace) : IO Z :=
  key_id ← io (get_str args "key_id");
  role ← io (get_str args "role");
  _ ← print_line (JObj [("key_id", JStr key_id); ("role", JStr role); ("token", JStr token);
                        ("configuration", JStr (auth_entry key_id role token))]);
  mret 0%Z.

(** engine/cli.py, lines 153-159 *)
Definition _database_argument : Py Argument :=
  default_url ← secret_value process "DATABASE_URL" false;
  Ok match default_url with
     | Some url => option_default "--database-url" type_str (arg_str url)
     | None => option_required "--database-url" type_str
     end.

(** engine/cli.py, lines 181-222 *)
Definition build_parser : Py (list SubParser) :=
  database ← _database_argument;
  Ok [mk_sub_parser "auth-key"
        [option_required "--key-id" type_str;
         mk_argument "--role" type_str true arg_none (Some ["viewer"; "operator"; "admin"]) false];
      mk_sub_parser "replay-check"
        [positional "workflow_id";
         option_required "--against-version" type_int;
         option_required "--definition" type_str;
         database];
      mk_sub_parser "register" [option_required "--definitions" type_str; database];
      mk_sub_parser "start"
        [positional "workflow_type";
         option_required "--version" type_int;
         option_default "--input" type_str (arg_str "null");
         option_default "--queue" type_str (arg_str "default");
         database];
      mk_sub_parser "worker"
        [option_required "--definitions" type_str;
         option_default "--queue" type_str (arg_str "default");
         mk_argument "--role" type_str false arg_none
           (Some ["workflow"; "activity"; "maintenance"]) true;
         option_default "--poll-interval" type_float (arg_float (decimal 5 100));
         option_default "--heartbeat-interval" type_float (arg_float (float_of_Z 10));
         database]].

(** How the process ends: with a status, with a traceback, by falling off the end
    of [main], or never (a workflow function that makes endless requests). *)
Inductive ProcessEnd : Type :=
| exits (status : Z)
| uncaught (e : PyError)
| returns
| spins.

(** A process that ends with the integer its command returned. *)
Definition system_exit (r : Py Z) : ProcessEnd :=
  match r with Ok n => exits n | Err e => uncaught e end.

(** engine/cli.py, lines 229-241: the command the namespace names. *)
Definition dispatch (run_worker : WorkerCall) (fuel : nat) (token : string) (args : Namespace)
    (su : Surroundings) (mc : Machine S) : ProcessEnd * Machine S :=
  let run (m : IO Z) := let '(r, mc) := m su mc in (system_exit r, mc) in
  match get_str args "command" with
  | Err e => (uncaught e, mc)
  | Ok command =>
    if String.eqb command "auth-key" then run (_run_auth_key token args)
    else if String.eqb command "replay-check" then
      match _run_replay_check fuel args su mc with
      | (Ok (Some n), mc) => (exits n, mc)
      | (Ok None, mc) => (spins, mc)
      | (Err e, mc) => (uncaught e, mc)
      end
    else if String.eqb command "register" then run (_run_register args)
    else if String.eqb command "start" then run (_run_start args)
    else if String.eqb command "worker" then
      match _run_worker run_worker args su mc with
      | (Ok n, mc) => (exits n, mc)
      | (Err e, mc) => (if bool_decide (e = KeyboardInterrupt) then exits 130 else uncaught e, mc)
      end
    else (returns, mc)
  end.

(** engine/cli.py, lines 225-228 *)
Definition main (run_worker : WorkerCall) (fuel : nat) (argv : list string) (token : string)
    (su : Surroundings) (mc : Machine S) : ProcessEnd * Machine S :=
  match configure_root process su mc with
  | (Err e, mc) => (uncaught e, mc)
  | (Ok _, mc) =>
    match build_parser with
    | Err e => (uncaught e, mc)
    | Ok parser =>
      match parse_args parser argv with
      | parser_exits status => (exits status, mc)
      | parsed args => dispatch run_worker fuel token args su mc
      end
    end
  end.

End Cli.
