(* ===== verification/Views.v ===== *)
(** * What the queries return

    Paging through a history returns it once, in order; the tail is its end; the
    counts of executions add up. *)
From S2P Require Import Prelude Python Serialization History Database Logic Store Queries System.

(** ** Rows in the order of their numbers *)
Definition row_seq (r : HistoryRow) : Z := event_seq (hr_event r).

(** The [k]-th row is numbered [k + 1]. *)
Definition numbered (rows : list HistoryRow) : Prop :=
  ∀ k r, rows !! k = Some r → row_seq r = (Z.of_nat k + 1)%Z.

Lemma numbered_nth rows k : numbered rows → k < length rows →
  ∃ r, rows !! k = Some r ∧ row_seq r = (Z.of_nat k + 1)%Z.
Proof. intros Hn [r Hr]%lookup_lt_is_Some_2. eauto. Qed.

Lemma numbered_sorted rows :
  numbered rows → StronglySorted (le_rel (fun a b => (row_seq a <=? row_seq b)%Z)) rows.
Proof.
  intros Hn. assert (∀ k, (∀ j r, rows !! j = Some r → row_seq r = (Z.of_nat j + k)%Z) →
    StronglySorted (le_rel (fun a b => (row_seq a <=? row_seq b)%Z)) rows) as Hgen.
  { clear Hn. induction rows as [|r rows IH]; intros k Hk; constructor.
    - apply (IH (k + 1)%Z). intros j x Hj. rewrite (Hk (S j) x Hj). lia.
    - apply Forall_lookup. intros j x Hj. unfold le_rel.
      rewrite (Hk 0 r eq_refl), (Hk (S j) x Hj). apply Z.leb_le. lia. }
  by apply (Hgen 1%Z).
Qed.

Lemma numbered_order rows : numbered rows →
  order_by (fun a b => (row_seq a <=? row_seq b)%Z) rows = rows.
Proof.
  intros Hn. apply order_by_id; [intros x y z; rewrite !Z.leb_le; lia|intros; rewrite !Z.leb_le; lia| |].
  - by apply numbered_sorted.
  - intros x y [i Hi]%list_elem_of_lookup [j Hj]%list_elem_of_lookup ?%Z.leb_le ?%Z.leb_le.
    pose proof (Hn _ _ Hi). pose proof (Hn _ _ Hj). assert (i = j) as -> by lia. congruence.
Qed.

(** [where seq > n] drops the first [n] rows. *)
Lemma numbered_after rows n :
  numbered rows → filter (fun r => (Z.of_nat n < row_seq r)%Z) rows = drop n rows.
Proof.
  intros Hn. rewrite <- (take_drop n rows) at 1. rewrite filter_app.
  assert (filter (fun r => (Z.of_nat n < row_seq r)%Z) (take n rows) = []) as ->.
  { apply elem_of_nil_inv. intros r [Hlt Hin]%list_elem_of_filter.
    apply list_elem_of_lookup in Hin as [k Hk].
    apply lookup_take_Some in Hk as [Hk Hkn]. rewrite (Hn _ _ Hk) in Hlt. lia. }
  simpl.
  assert (∀ r, r ∈ drop n rows → (Z.of_nat n < row_seq r)%Z) as Hall.
  { intros r [k Hk]%list_elem_of_lookup. rewrite lookup_drop in Hk. rewrite (Hn _ _ Hk). lia. }
  clear Hn. induction (drop n rows) as [|r l IH]; [done|].
  rewrite filter_cons_True by (apply Hall; by left). f_equal. apply IH. intros r' ?. apply Hall. by right.
Qed.

Section views.
Context `{PyStd}.

(** The rows of a reachable history. *)
Lemma reachable_numbered db wid :
  reachable db → numbered (rows_of wid db) ∧ seq_rows wid db = rows_of wid db.
Proof.
  intros Hr. assert (numbered (rows_of wid db)) as Hn.
  { intros k r Hk. pose proof (inv_wf _ _ (reachable_Inv db Hr) wid) as Hwf.
    apply (wf_contiguous _ Hwf). unfold hist. by rewrite list_lookup_fmap, Hk. }
  split; [done|]. by apply numbered_order.
Qed.

(** A client that follows the cursors: the pages from [after_seq] on. *)
Fixpoint read_pages (fuel : nat) (wid : UUID) (after_seq limit : Z) : M (option (list HistoryRecord)) :=
  match fuel with
  | O => mret None
  | S fuel =>
    page ← get_history_page wid after_seq limit;
    match page_next_after_seq page with
    | None => mret (Some (page_items page))
    | Some next =>
      rest ← read_pages fuel wid next limit;
      mret (app (page_items page) <$> rest)
    end
  end.

Lemma page_run wid after limit env db n :
  (0 ≤ after)%Z → (1 ≤ limit ≤ 1000)%Z →
  get_history_page wid after limit env (mk_world db n) =
    (let rows := take (Z.to_nat (limit + 1)) (filter (fun r => (after < row_seq r)%Z) (seq_rows wid db)) in
     let items := map history_record (take (Z.to_nat limit) rows) in
     (Ok (mk_page items (if (limit <? Z.of_nat (length rows))%Z then hrec_seq <$> last items else None)),
      mk_world db n)).
Proof.
  intros Ha Hl. unfold get_history_page, check_limit.
  rewrite (proj2 (Z.ltb_ge after 0)) by lia.
  rewrite (proj2 (Z.ltb_ge limit 1)), (proj2 (Z.ltb_ge 1000 limit)) by lia. done.
Qed.

Lemma read_pages_all wid limit env db n fuel k :
  (1 ≤ limit ≤ 1000)%Z → numbered (rows_of wid db) → seq_rows wid db = rows_of wid db →
  length (rows_of wid db) - k < fuel →
  read_pages fuel wid (Z.of_nat k) limit env (mk_world db n) =
    (Ok (Some (map history_record (drop k (rows_of wid db)))), mk_world db n).
Proof.
  intros Hl Hn Hseq. revert k. induction fuel as [|fuel IH]; intros k Hf; [lia|].
  cbn [read_pages]. unfold mbind at 1, M_bind at 1. rewrite page_run by lia. cbv zeta.
  rewrite Hseq, numbered_after by done. set (rows := rows_of wid db) in *.
  set (L := Z.to_nat limit). assert (1 ≤ L) by lia.
  replace (Z.to_nat (limit + 1)) with (S L) by lia.
  rewrite take_take, Nat.min_l, length_take by lia.
  destruct (Z.ltb_spec limit (Z.of_nat (S L `min` length (drop k rows)))) as [Hmore|Hend]; cbn [page_next_after_seq page_items].
  - assert (L < length (drop k rows)) as Hlen by lia. rewrite length_drop in Hlen.
    assert (hrec_seq <$> last (map history_record (take L (drop k rows))) = Some (Z.of_nat (k + L))) as ->.
    { change (map history_record) with (fmap (M:=list) history_record). rewrite fmap_last, last_lookup, length_take, length_drop.
      replace (Init.Nat.pred (L `min` (length rows - k))) with (L - 1) by lia.
      rewrite lookup_take_lt, lookup_drop by lia.
      destruct (numbered_nth rows (k + (L - 1)) Hn) as (r & -> & Hr); [lia|].
      simpl. f_equal. unfold row_seq in Hr. rewrite Hr. lia. }
    unfold mbind at 1, M_bind at 1. rewrite IH by lia. cbn [mret M_ret].
    unfold mret, M_ret. simpl. do 3 f_equal.
    rewrite <- map_app. f_equal. rewrite <- drop_drop. apply take_drop.
  - unfold mret, M_ret. rewrite take_ge; [done|]. rewrite length_drop in *. lia.
Qed.

(** C38 Reading a history page by page: whatever the page size, a client that
    follows [next_after_seq] from 0 terminates after at most one page per event,
    and has read every event once, in order: what [get_history] returns. *)
Theorem history_pages_complete db wid limit env fuel :
  reachable db → (1 ≤ limit ≤ 1000)%Z → length (rows_of wid db) < fuel →
  ∃ history, exec (get_history wid) env db = (Ok history, db) ∧
    exec (read_pages fuel wid 0 limit) env db = (Ok (Some history), db).
Proof.
  intros Hr Hl Hf. destruct (reachable_numbered db wid Hr) as [Hn Hseq].
  eexists. unfold exec, get_history, mbind, M_bind, get_db, mret, M_ret. split; [reflexivity|].
  pose proof (read_pages_all wid limit env db 0 fuel 0 Hl Hn Hseq ltac:(lia)) as Hp.
  change (Z.of_nat 0) with 0%Z in Hp. rewrite Hp. cbn [w_db]. by rewrite Hseq.
Qed.

(** The tail of a history is its last [limit] events, in order. *)
Theorem history_tail_suffix db wid limit env :
  reachable db → (1 ≤ limit ≤ 1000)%Z →
  ∃ history tail, exec (get_history wid) env db = (Ok history, db) ∧
    exec (get_history_tail wid limit) env db = (Ok tail, db) ∧
    tail `suffix_of` history ∧ length tail = Nat.min (Z.to_nat limit) (length history).
Proof.
  intros Hr Hl. destruct (reachable_numbered db wid Hr) as [Hn Hseq].
  unfold exec, get_history, get_history_tail, check_limit, mbind, M_bind, get_db, mret, M_ret, of_result.
  rewrite (proj2 (Z.ltb_ge limit 1)), (proj2 (Z.ltb_ge 1000 limit)) by lia. cbn [orb].
  eexists _, _. split; [reflexivity|]. split; [reflexivity|]. cbn [w_db].
  rewrite List.firstn_rev, rev_involutive. split.
  - exists (map history_record (take (length (seq_rows wid db) - Z.to_nat limit) (seq_rows wid db))).
    by rewrite <- map_app, take_drop.
  - rewrite !length_map, length_drop. lia.
Qed.

(** The counts of executions by status add up to their number. *)
Theorem execution_stats_total env db :
  ∃ stats, exec get_execution_stats env db = (Ok stats, db) ∧
    st_total stats = st_running stats + st_completed stats + st_failed stats + st_terminated stats.
Proof.
  eexists. split; [reflexivity|]. simpl. unfold count_status.
  rewrite <- length_map_to_list. induction (map_to_list (db_executions db)) as [|[id e] l IH]; [done|].
  rewrite !filter_cons. simpl. destruct (exec_status e); simpl; lia.
Qed.

End views.
