(* ===== verification/Atomicity.v ===== *)
(** * Atomicity and append-only histories

    [atomic m]: an operation that raises leaves the database as it found it.
    [appends m]: an operation only appends rows to [history_events]. *)
From S2P Require Import Prelude Python Serialization History Commands Context Replay Database.
From S2P Require Import Logic Leasing AuditLog Definitions Transitions Commit Activities Messages.
From S2P Require Import Timeouts Cron Schedules Queries Workers Store StoreInvariant System.
From stdpp Require Import relations.

(** ** Operations that raise change nothing *)
Definition reads {A : Type} (m : M A) : Prop := ∀ env w, w_db (m env w).2 = w_db w.
Definition returns {A : Type} (m : M A) : Prop := ∀ env w, is_ok (m env w).1 = true.
Definition atomic {A : Type} (m : M A) : Prop :=
  ∀ env w, is_ok (m env w).1 = false → w_db (m env w).2 = w_db w.

Section rules.
Context {A B : Type}.

Lemma reads_atomic (m : M A) : reads m → atomic m. Proof. intros Hm env w _. apply Hm. Qed.
Lemma returns_atomic (m : M A) : returns m → atomic m.
Proof. intros Hm env w. by rewrite Hm. Qed.
Lemma atomic_transaction (m : M A) : atomic (transaction m).
Proof. intros env w. unfold transaction. by destruct (m env w) as [[]]. Qed.
Lemma atomic_bind (m : M A) (k : A → M B) : reads m → (∀ a, atomic (k a)) → atomic (m ≫= k).
Proof.
  intros Hm Hk env w. unfold mbind, M_bind. pose proof (Hm env w) as Hw.
  destruct (m env w) as [[a|e] w1]; simpl in *; [|done]. intros ?%Hk. congruence.
Qed.
Lemma atomic_bind_returns (m : M A) (k : A → M B) :
  atomic m → (∀ a, returns (k a)) → atomic (m ≫= k).
Proof.
  intros Hm Hk env w. unfold mbind, M_bind. pose proof (Hm env w) as Hw.
  destruct (m env w) as [[a|e] w1]; simpl in *; [by rewrite Hk|done].
Qed.
Lemma reads_bind (m : M A) (k : A → M B) : reads m → (∀ a, reads (k a)) → reads (m ≫= k).
Proof.
  intros Hm Hk env w. unfold mbind, M_bind. pose proof (Hm env w) as Hw.
  destruct (m env w) as [[a|e] w1]; simpl in *; [|done]. by rewrite Hk.
Qed.
Lemma reads_ret (a : A) : reads (mret a). Proof. done. Qed.
Lemma reads_throw e : reads (throw (A:=A) e). Proof. done. Qed.
Lemma reads_of_result (r : Py A) : reads (of_result r). Proof. done. Qed.
Lemma returns_ret (a : A) : returns (mret a). Proof. done. Qed.
End rules.

Lemma atomic_modify f : atomic (modify_db f). Proof. done. Qed.
Lemma reads_get_db : reads get_db. Proof. done. Qed.
Lemma reads_db_now : reads db_now. Proof. done. Qed.
Lemma reads_utc_now : reads utc_now. Proof. done. Qed.
Lemma reads_uuid4 : reads uuid4. Proof. done. Qed.
Lemma reads_random : reads random_random. Proof. done. Qed.
Lemma reads_locked : reads locked_rows. Proof. done. Qed.
Lemma reads_fetch id : reads (fetch_execution id). Proof. done. Qed.
Lemma reads_clock c : reads (clock_or_now c). Proof. by destruct c. Qed.

Create HintDb atomic.
#[export] Hint Resolve reads_atomic atomic_transaction reads_ret reads_throw reads_of_result
  returns_ret atomic_modify reads_get_db reads_db_now reads_utc_now reads_uuid4 reads_random
  reads_locked reads_fetch reads_clock : atomic.

Ltac atomic_step :=
  lazymatch goal with
  | |- atomic (match ?x with _ => _ end) => destruct x
  | |- reads (match ?x with _ => _ end) => destruct x
  | |- atomic (mbind _ _) =>
    first [apply atomic_bind; [solve [repeat atomic_step]|intros ?]
          |apply atomic_bind_returns; [|intros ?]]
  | |- reads (mbind _ _) => apply reads_bind; [|intros ?]
  | |- _ => progress eauto with atomic
  end.
Ltac atomic_auto := cbv zeta; repeat (atomic_step; cbv beta zeta).

Section atomic.
Context `{PyStd}.

Lemma atomic_start t v i q w sa r a : atomic (start_workflow t v i q w sa r a).
Proof. unfold start_workflow, insert_started. atomic_auto. Qed.
Lemma atomic_set_task id t : atomic (set_task id t). Proof. done. Qed.
Hint Resolve atomic_start atomic_set_task : atomic.

Lemma operation_atomic A (m : M A) : operation A m → atomic m.
Proof.
  destruct 1; unfold retry_workflow, update_search_attributes, lease_task,
    renew_lease, heartbeat_activity, reclaim_expired_workflow_tasks, release_workflow_task,
    commit_workflow_replay, complete_activity, fail_activity, record_failure, send_signal,
    send_update, process_activity_timeout, create_schedule, set_schedule_paused,
    materialize_due_schedule, backfill_schedule, record_idempotent_effect,
    heartbeat_worker, stop_worker; atomic_auto.
Qed.
End atomic.

(** ** Operations only append to the histories *)

(** The histories of [db'] are those of [db] with events of [ok] appended. *)
Definition extends (ok : UUID → HistoryEvent → Prop) (db db' : DB) : Prop :=
  ∃ l, db_history db' = db_history db ++ l ∧ Forall (fun r => ok (hr_workflow_id r) (hr_event r)) l.

#[export] Instance extends_preorder ok : PreOrder (extends ok).
Proof.
  split.
  - intros db. exists []. by rewrite app_nil_r.
  - intros d1 d2 d3 (l1 & E1 & H1) (l2 & E2 & H2). exists (l1 ++ l2).
    rewrite E2, E1, (assoc_L (++)). split; [done|]. by apply Forall_app.
Qed.

Definition appends (ok : UUID → HistoryEvent → Prop) {A : Type} (m : M A) : Prop :=
  ∀ env w, extends ok (w_db w) (w_db (m env w).2).

Section appends_rules.
Context (ok : UUID → HistoryEvent → Prop) {A B : Type}.
Abbreviation appends := (appends ok).
Lemma appends_reads (m : M A) : reads m → appends m.
Proof. intros Hm env w. by rewrite Hm. Qed.
Lemma appends_bind (m : M A) (k : A → M B) : appends m → (∀ a, appends (k a)) → appends (m ≫= k).
Proof.
  intros Hm Hk env w. unfold mbind, M_bind. pose proof (Hm env w) as Hw.
  destruct (m env w) as [[a|e] w1]; simpl in *; [|done]. etrans; [done|apply Hk].
Qed.
Lemma appends_transaction (m : M A) : appends m → appends (transaction m).
Proof.
  intros Hm env w. unfold transaction. pose proof (Hm env w) as Hw. by destruct (m env w) as [[]].
Qed.
End appends_rules.

Lemma appends_for_each ok {A S : Type} (l : list A) (s : S) body :
  (∀ s x, appends ok (body s x)) → appends ok (for_each l s body).
Proof.
  intros Hb. revert s. induction l as [|x l IH]; intros s; simpl; [by apply appends_reads|].
  by apply appends_bind.
Qed.
Lemma appends_modify ok f : (∀ db, extends ok db (f db)) → appends ok (modify_db f).
Proof. intros Hf env w. apply Hf. Qed.

Create HintDb appends discriminated.
#[export] Hint Opaque insert_event insert_execution insert_task wake_workflow insert_workflow_task
  update_tasks record_api_audit running_execution require_definition update_execution set_task
  kill_tasks set_next_seq _reject_pending_updates _cancel_pending_timers audit_duplicate
  audit_accepted no_such_workflow kill_open_tasks _notify_parent_of_child_terminal terminate_descendants
  _terminate_descendants start_workflow complete_task _start_occurrence append_command
  commit_consequences : appends.

Lemma appends_insert_event `{PyStd} ok wid s t c n x a :
  (∀ e, event_type e = t → ok wid e) → appends ok (insert_event wid s t c n x a).
Proof.
  intros Ht. unfold insert_event.
  do 4 (apply appends_bind; [by apply appends_reads|intros ?]). apply appends_modify.
  intros db. eexists. simpl. split; [done|]. apply Forall_singleton. by apply Ht.
Qed.

(** The events [insert_event] appends: an outcome, or a command of the workflow
    whose events are all allowed. *)
Ltac case_events :=
  let e := fresh "e" in let He := fresh "He" in intros e He;
  first [assumption
        |match goal with Hall : ∀ e, ?ok ?wid e |- ?ok ?wid _ => apply Hall end
        |match goal with Hok : ∀ wid e, _ → ?ok wid e |- ?ok _ _ => apply Hok end;
         rewrite He; by repeat match goal with |- context [match ?x with _ => _ end] => destruct x end].

Ltac appends_step :=
  lazymatch goal with
  | |- appends _ (match ?x with _ => _ end) => destruct x
  | |- appends _ (mbind _ _) => apply appends_bind; [|intros ?]
  | |- appends _ (transaction _) => apply appends_transaction
  | |- appends _ (for_each _ _ _) => apply appends_for_each; intros ? ?
  | |- appends _ (modify_db _) => apply appends_modify; intros ?; by exists []; rewrite app_nil_r
  | |- appends _ (mret _) => apply appends_reads, reads_ret
  | |- appends _ (throw _) => apply appends_reads, reads_throw
  | |- appends _ (of_result _) => apply appends_reads, reads_of_result
  | |- appends _ get_db => apply appends_reads, reads_get_db
  | |- appends _ db_now => apply appends_reads, reads_db_now
  | |- appends _ utc_now => apply appends_reads, reads_utc_now
  | |- appends _ uuid4 => apply appends_reads, reads_uuid4
  | |- appends _ random_random => apply appends_reads, reads_random
  | |- appends _ locked_rows => apply appends_reads, reads_locked
  | |- appends _ (fetch_execution _) => apply appends_reads, reads_fetch
  | |- appends _ (clock_or_now _) => apply appends_reads, reads_clock
  | |- appends _ (insert_event _ _ _ _ _ _ _) => apply appends_insert_event; case_events
  | |- appends _ _ => solve [auto 2 with appends nocore]
  end.
Ltac appends_auto := cbv zeta; repeat (appends_step; cbv beta zeta).

Section appends.
Context `{PyStd} (ok : UUID → HistoryEvent → Prop).
Context (Hok : ∀ wid e, SCHEDULE_EVENT_TYPES (event_type e) = false → ok wid e).
Abbreviation appends := (appends ok).

Ltac appends_of := intros; appends_auto.
Lemma appends_insert_execution id e : appends (insert_execution id e).
Proof. unfold insert_execution. appends_of. Qed.
Lemma appends_insert_task id t : appends (insert_task id t).
Proof. unfold insert_task. appends_of. Qed.
Hint Resolve appends_insert_execution appends_insert_task : appends.
Lemma appends_wake w q : appends (wake_workflow w q).
Proof. unfold wake_workflow, insert_workflow_task. appends_of. Qed.
Lemma appends_insert_workflow_task i w q : appends (insert_workflow_task i w q).
Proof. unfold insert_workflow_task. appends_of. Qed.
Lemma appends_update_tasks p f : appends (update_tasks p f).
Proof. unfold update_tasks. appends_of. Qed.
Lemma appends_audit c w b d : appends (record_api_audit c w b d).
Proof. unfold record_api_audit. appends_of. Qed.
Lemma appends_running id : appends (running_execution id).
Proof. unfold running_execution. appends_of. Qed.
Lemma appends_require t v : appends (require_definition t v).
Proof. unfold require_definition. appends_of. Qed.
Lemma appends_update_execution id f : appends (update_execution id f).
Proof. unfold update_execution. appends_of. Qed.
Lemma appends_set_task id t : appends (set_task id t).
Proof. unfold set_task. appends_of. Qed.
Hint Resolve appends_wake appends_insert_workflow_task appends_update_tasks appends_audit
  appends_running appends_require appends_update_execution appends_set_task : appends.
Lemma appends_kill p : appends (kill_tasks p).
Proof. unfold kill_tasks. appends_of. Qed.
Lemma appends_set_next_seq id s : appends (set_next_seq id s).
Proof. unfold set_next_seq. appends_of. Qed.
Lemma appends_reject w r : appends (_reject_pending_updates w r).
Proof. unfold _reject_pending_updates. appends_of. Qed.
Lemma appends_cancel_timers w s r : appends (_cancel_pending_timers w s r).
Proof. unfold _cancel_pending_timers, cancel_timer. appends_of. Qed.
Lemma appends_duplicate c w r : appends (audit_duplicate c w r).
Proof. unfold audit_duplicate. appends_of. Qed.
Lemma appends_accepted c w r : appends (audit_accepted c w r).
Proof. unfold audit_accepted. appends_of. Qed.
Lemma appends_no_such_workflow {A} w : appends (no_such_workflow (A:=A) w).
Proof. unfold no_such_workflow. appends_of. Qed.
Hint Resolve appends_duplicate appends_accepted appends_no_such_workflow appends_kill
  appends_set_next_seq appends_reject appends_cancel_timers : appends.
Lemma appends_kill_open w x : appends (kill_open_tasks w x).
Proof. apply appends_kill. Qed.
Lemma appends_notify c p s v : appends (_notify_parent_of_child_terminal c p s v).
Proof. destruct s; unfold _notify_parent_of_child_terminal; appends_of. Qed.
Hint Resolve appends_kill_open appends_notify : appends.
Lemma appends_terminate_descendants fuel p : appends (terminate_descendants fuel p).
Proof.
  revert p; induction fuel as [|fuel IH]; intros p; simpl; unfold terminate_child; appends_of.
Qed.
Hint Resolve appends_terminate_descendants : appends.
Lemma appends_descendants p : appends (_terminate_descendants p).
Proof. unfold _terminate_descendants. appends_of. Qed.
Lemma appends_start t v i q w sa r a : appends (start_workflow t v i q w sa r a).
Proof. unfold start_workflow, insert_started. appends_of. Qed.
Lemma appends_complete_task t : appends (complete_task t).
Proof. unfold complete_task, finish_task. appends_of. Qed.
Lemma appends_start_occurrence i s t b : appends (_start_occurrence i s t b).
Proof. unfold _start_occurrence, start_buffered, insert_occurrence. appends_of. Qed.
Lemma appends_append_command w q s c : (∀ e, ok w e) → appends (append_command w q s c).
Proof.
  unfold append_command, _append_activity_command, _append_timer_command, _append_marker_command,
    _append_child_workflow_command, _append_update_resolution. appends_of.
Qed.
Hint Resolve appends_descendants appends_start appends_complete_task appends_start_occurrence
  appends_append_command : appends.
Lemma appends_cancellation t e : appends (commit_cancellation t e).
Proof. unfold commit_cancellation. appends_of. Qed.
Lemma appends_closed t e b v : appends (commit_closed t e b v).
Proof. unfold commit_closed. appends_of. Qed.
Hint Resolve appends_cancellation appends_closed : appends.
Lemma appends_consequences t q e r : (∀ e, ok (lt_workflow_id t) e) → appends (commit_consequences t q e r).
Proof.
  unfold commit_consequences, commit_commands,
    _commit_continue_as_new, no_such_workflow. appends_of.
Qed.
Hint Resolve appends_consequences : appends.

Lemma operation_appends A (m : M A) :
  operation_by (fun task _ => ∀ e, ok (lt_workflow_id task) e) A m → appends m.
Proof.
  destruct 1; unfold register_workflow_definition, pause_workflow, resume_workflow,
    retry_workflow, update_search_attributes, terminate_workflow,
    request_workflow_cancellation, lease_task, renew_lease, heartbeat_activity,
    reclaim_expired_workflow_tasks, release_workflow_task, commit_workflow_replay,
    complete_activity, fail_activity, record_failure, finish_task, fire_due_timer, send_signal,
    send_update, insert_update, process_activity_timeout, record_timeout, create_schedule,
    insert_schedule, set_schedule_paused, materialize_due_schedule, record_occurrence,
    insert_occurrence, backfill_schedule, backfill_one, record_idempotent_effect,
    heartbeat_worker, stop_worker; appends_auto.
Qed.
End appends.

#[export] Hint Resolve appends_insert_execution appends_insert_task appends_wake appends_update_tasks
  appends_running appends_require appends_update_execution appends_set_next_seq appends_reject
  appends_no_such_workflow appends_kill_open appends_descendants appends_complete_task
  appends_cancellation appends_closed : appends.

Lemma extends_leaves ok {A} (m : M A) env n db : appends ok m → extends ok db (leaves m env n db).
Proof. intros Hm. apply Hm. Qed.

Lemma extends_prefix ok w db db' : extends ok db db' → hist w db `prefix_of` hist w db'.
Proof. intros (l & Hh & _). unfold hist, rows_of. rewrite Hh, filter_app, fmap_app. by eexists. Qed.

Section properties.
Context `{PyStd}.

Lemma rtc_extends db db' : rtc step db db' → extends (fun _ _ => True) db db'.
Proof.
  induction 1 as [|d1 d2 d3 Hs _ IH]; [done|]. destruct Hs as [A m env n Hm].
  etrans; [|exact IH]. apply (extends_leaves _ m). apply operation_appends; [done|].
  by eapply operation_by_mono.
Qed.

(** C17 Every operation is all or nothing: if it raises, in any environment, the
    database is exactly what it was. *)
Theorem operation_rolls_back A (m : M A) env db e db' :
  operation A m → exec m env db = (Err e, db') → db' = db.
Proof.
  intros Hm. pose proof (operation_atomic _ _ Hm env (mk_world db 0)) as Ha. unfold exec.
  destruct (m env (mk_world db 0)) as [r w]. intros [= -> <-]. by apply Ha.
Qed.

(** Histories are append-only: whatever operations run, the stored events
    stay, in their order, and new ones only follow them. *)
Theorem history_append_only db db' wid :
  rtc step db db' → hist wid db `prefix_of` hist wid db'.
Proof.
  intros Hr. by eapply extends_prefix, rtc_extends.
Qed.

(** A closed execution stays as it is. *)
Lemma closed_stays db db' wid e :
  reachable db → rtc step db db' → db_executions db !! wid = Some e → exec_status e ≠ WRunning →
  history_of wid db' = history_of wid db ∧
  ∃ e', db_executions db' !! wid = Some e' ∧ exec_status e' = exec_status e.
Proof.
  intros Hr Hs He Hc. assert (reachable db') as Hr' by (unfold reachable in *; by etrans).
  pose proof (reachable_Inv _ Hr) as HI. pose proof (reachable_Inv _ Hr') as HI'.
  rewrite !history_of_hist by (by eapply inv_wf).
  destruct (inv_agrees _ _ HI _ _ He) as [_ Hst Hne]; [set_solver|].
  assert (hist wid db' = hist wid db) as Hh.
  { destruct (rtc_extends _ _ Hs) as (l & Hl & _).
    destruct (extends_prefix _ wid _ _ (rtc_extends _ _ Hs)) as [k Hk].
    destruct k as [|x k]; [by rewrite Hk, app_nil_r|exfalso].
    apply Hc. rewrite Hst. apply status_running. apply not_true_iff_false.
    intros (ev & Hev & Ht)%existsb_exists. apply list_elem_of_In, list_elem_of_lookup in Hev as [n Hn].
    pose proof (lookup_lt_Some _ _ _ Hn). pose proof (wf_closed _ (inv_wf _ _ HI' wid) n ev) as Hw.
    rewrite Hk in Hw. rewrite lookup_app_l in Hw by done. specialize (Hw Hn Ht).
    rewrite length_app in Hw. simpl in Hw. lia. }
  split; [done|]. destruct (db_executions db' !! wid) as [e'|] eqn:He'.
  - exists e'. split; [done|]. destruct (inv_agrees _ _ HI' _ _ He') as [_ Hst' _]; [set_solver|]. congruence.
  - pose proof (inv_foreign _ _ HI' _ He'). congruence.
Qed.

(** Executions are never removed. *)
Lemma execution_stays db db' wid e :
  reachable db → rtc step db db' → db_executions db !! wid = Some e →
  ∃ e', db_executions db' !! wid = Some e'.
Proof.
  intros Hr Hs He. assert (reachable db') as Hr' by (unfold reachable in *; by etrans).
  destruct (inv_agrees _ _ (reachable_Inv _ Hr) _ _ He) as [_ _ Hne]; [set_solver|].
  destruct (db_executions db' !! wid) as [e'|] eqn:He'; [by exists e'|exfalso].
  pose proof (inv_foreign _ _ (reachable_Inv _ Hr') _ He') as Hnil.
  pose proof (extends_prefix _ wid _ _ (rtc_extends _ _ Hs)) as Hp. rewrite Hnil in Hp.
  by apply prefix_nil_inv in Hp.
Qed.

(** C10 The end of an execution is final: once it is completed, failed or
    terminated, no sequence of operations changes its status, removes it or adds
    an event to its history. *)
Theorem closed_execution_final db db' wid e :
  reachable db → rtc step db db' → db_executions db !! wid = Some e → exec_status e ≠ WRunning →
  history_of wid db' = history_of wid db ∧
  ∃ e', db_executions db' !! wid = Some e' ∧ exec_status e' = exec_status e.
Proof. apply closed_stays. Qed.

End properties.
