(* ===== verification/Writes.v ===== *)
(** * Operations as sequences of writes

    Every operation changes the database by a sequence of elementary writes,
    each to one table: [writes m].  A write says which rows it may touch and
    which columns it keeps, so an invariant of the tables is proved once per
    kind of write instead of once per operation. *)
From S2P Require Import Prelude Python Serialization History Commands Context Replay Database.
From S2P Require Import Logic Leasing AuditLog Definitions Transitions Commit Activities Messages.
From S2P Require Import Timeouts Cron Schedules Queries Workers Store Frames StoreInvariant.
From S2P Require Import System Atomicity.
From stdpp Require Import relations.

(** ** How rows change *)

(** Rows are neither added nor removed, and each one stays or changes by [R]. *)
Definition evolves {K V} `{Countable K} (R : V → V → Prop) (m m' : gmap K V) : Prop :=
  ∀ k, match m !! k, m' !! k with
       | Some v, Some v' => v' = v ∨ R v v'
       | None, None => True
       | _, _ => False
       end.

Section evolves.
Context {K V} `{Countable K} (R : V → V → Prop).
Implicit Types m : gmap K V.

Lemma evolves_refl m : evolves R m m.
Proof. intros k. destruct (m !! k); [by left|done]. Qed.

Lemma evolves_update_where m p f :
  (∀ k v, m !! k = Some v → p k v = true → R v (f v)) → evolves R m (update_where p f m).
Proof.
  intros Hp k. unfold update_where. rewrite map_lookup_imap. destruct (m !! k) as [v|] eqn:E; simpl; [|done].
  destruct (p k v) eqn:Epk; [right|by left]. by eapply Hp.
Qed.

Lemma evolves_insert m k v v' : m !! k = Some v → R v v' → evolves R m (<[k := v']> m).
Proof.
  intros Hk Hv k'. destruct (decide (k' = k)) as [->|].
  - rewrite lookup_insert_eq, Hk. by right.
  - rewrite lookup_insert_ne by done. apply (evolves_refl m).
Qed.

Lemma evolves_alter m k f :
  (∀ v, m !! k = Some v → f v = v ∨ R v (f v)) → evolves R m (alter f k m).
Proof.
  intros Hf k'. destruct (decide (k' = k)) as [->|].
  - rewrite lookup_alter_eq. destruct (m !! k) as [v|] eqn:E; simpl; [|done]. by apply Hf.
  - rewrite lookup_alter_ne by done. apply (evolves_refl m).
Qed.

Lemma evolves_mono (R' : V → V → Prop) m m' :
  (∀ v v', R v v' → R' v v') → evolves R m m' → evolves R' m m'.
Proof.
  intros HR Hm k. specialize (Hm k). destruct (m !! k), (m' !! k); try done.
  destruct Hm as [->|Hv]; auto.
Qed.

Lemma evolves_some m m' k v :
  evolves R m m' → m !! k = Some v → ∃ v', m' !! k = Some v' ∧ (v' = v ∨ R v v').
Proof. intros Hm Hk. specialize (Hm k). rewrite Hk in Hm. destruct (m' !! k); [eauto|done]. Qed.

Lemma evolves_back m m' k v' :
  evolves R m m' → m' !! k = Some v' → ∃ v, m !! k = Some v ∧ (v' = v ∨ R v v').
Proof. intros Hm Hk. specialize (Hm k). rewrite Hk in Hm. destruct (m !! k); [eauto|done]. Qed.
End evolves.

(** The columns of a task that are written once. *)
Definition task_identity (t : Task) :=
  (task_workflow_id t, task_task_type t, task_queue_name t, task_entity_id t, task_command_id t,
   task_attempt t, task_input t).

(** A task changes while it is open, keeps its identity, and stays within the
    constraints of its table. *)
Record task_change (t t' : Task) : Prop := {
  tc_open : is_open t = true;
  tc_identity : task_identity t' = task_identity t;
  tc_ok : task_ok t = true → task_ok t' = true
}.

(** The columns of an execution that are written once. *)
Definition exec_identity (e : Execution) :=
  (exec_workflow_type e, exec_definition_version e, exec_input e, exec_queue_name e,
   exec_created_at e, exec_retry_of e, (exec_schedule_id e, exec_scheduled_at e),
   (exec_parent_workflow_id e, exec_parent_command_id e, exec_parent_close_policy e),
   exec_continued_from e).

(** The checks of the row of an execution other than that of its counter. *)
Definition row_ok (e : Execution) : bool := execution_ok (e <| exec_next_seq := 1%Z |>).


(** An update changes while it is pending, and keeps its name and payload. *)
Record update_change (u u' : UpdateRow) : Prop := {
  uc_pending : upd_status u = UPending;
  uc_resolved : upd_status u' ≠ UPending;
  uc_request : (upd_name u', upd_payload u', upd_created_at u') =
               (upd_name u, upd_payload u, upd_created_at u)
}.

(** A buffered occurrence is started. *)
Definition occurrence_change (o o' : OccurrenceRow) : Prop :=
  occ_status o = OBuffered ∧ occ_status o' = OStarted ∧ occ_created_at o' = occ_created_at o.

(** A schedule keeps everything but its clock. *)
Definition schedule_change (s s' : ScheduleRow) : Prop :=
  (sch_name s', sch_workflow_type s', sch_definition_version s', sch_input s', sch_queue_name s',
   sch_search_attributes s', sch_cron_expression s', sch_timezone s', sch_overlap_policy s',
   sch_created_at s') =
  (sch_name s, sch_workflow_type s, sch_definition_version s, sch_input s, sch_queue_name s,
   sch_search_attributes s, sch_cron_expression s, sch_timezone s, sch_overlap_policy s,
   sch_created_at s).

(** ** The writes

    Some of them only some operations do: creating an execution for an occurrence
    of a schedule (continuations inherit the occurrence), creating the task of
    another attempt, and deciding over executions, that is closing them and
    creating children.  [may] says which of these are among the writes. *)
Inductive Privilege : Type := Starting | Retrying | Deciding.
Definition but (p : Privilege) : Privilege → Prop := fun q => q ≠ p.
Definition anything : Privilege → Prop := fun _ => True.

(** An execution keeps its identity, and, unless somebody decided over it, its
    status and the checks of its row. *)
Record exec_change (may : Privilege → Prop) (e e' : Execution) : Prop := {
  xc_identity : exec_identity e' = exec_identity e;
  xc_status : exec_status e' = exec_status e ∨ may Deciding;
  xc_row : (row_ok e = true → row_ok e' = true) ∨ may Deciding
}.

Inductive write (may : Privilege → Prop) (db : DB) : DB → Prop :=
| write_definition key h :
    default h (db_definitions db !! key) = h →
    write may db (db <| db_definitions := <[key := h]> (db_definitions db) |>)
| write_new_execution id e :
    check_execution db id e = Ok tt →
    exec_schedule_id e = None ∨ is_Some (exec_continued_from e) ∨ may Starting →
    exec_parent_workflow_id e = None ∨ may Deciding →
    write may db (db <| db_executions := <[id := e]> (db_executions db) |>)
| write_executions m :
    evolves (exec_change may) (db_executions db) m → write may db (db <| db_executions := m |>)
| write_event wid e now :
    check_history db wid e = Ok tt →
    write may db (db <| db_history := db_history db ++ [mk_history_row wid e now] |>)
| write_new_task id t :
    check_task db id t = Ok tt → task_attempt t = 1%Z ∨ may Retrying →
    write may db (db <| db_tasks := <[id := t]> (db_tasks db) |>)
| write_tasks m :
    evolves task_change (db_tasks db) m → write may db (db <| db_tasks := m |>)
| write_new_update key u :
    db_updates db !! key = None → upd_status u = UPending →
    write may db (db <| db_updates := <[key := u]> (db_updates db) |>)
| write_updates m :
    evolves update_change (db_updates db) m → write may db (db <| db_updates := m |>)
| write_effect k v :
    db_effects db !! k = None →
    write may db (db <| db_effects := <[k := v]> (db_effects db) |>)
| write_audit r : write may db (db <| db_audit := db_audit db ++ [r] |>)
| write_new_schedule id r :
    db_schedules db !! id = None →
    (∀ id' r', db_schedules db !! id' = Some r' → sch_name r' ≠ sch_name r) →
    write may db (db <| db_schedules := <[id := r]> (db_schedules db) |>)
| write_schedules m :
    evolves schedule_change (db_schedules db) m → write may db (db <| db_schedules := m |>)
| write_new_occurrence key o :
    db_occurrences db !! key = None →
    (occ_status o = OBuffered →
     ∀ key' o', db_occurrences db !! key' = Some o' → key'.1 = key.1 → occ_status o' ≠ OBuffered) →
    write may db (db <| db_occurrences := <[key := o]> (db_occurrences db) |>)
| write_occurrences m :
    evolves occurrence_change (db_occurrences db) m → write may db (db <| db_occurrences := m |>)
| write_workers m : write may db (db <| db_workers := m |>).

Definition written (may : Privilege → Prop) : relation DB := rtc (write may).

Definition writes (may : Privilege → Prop) {A : Type} (m : M A) : Prop :=
  ∀ env w, written may (w_db w) (w_db (m env w).2).

Lemma write_mono (P Q : Privilege → Prop) db db' : (∀ p, P p → Q p) → write P db db' → write Q db db'.
Proof.
  intros HPQ. destruct 1; constructor;
    first [done|naive_solver|eapply evolves_mono; [|done]; intros ? ? []; split; naive_solver].
Qed.

(** ** Compositional rules *)
Section rules.
Context {may : Privilege → Prop} {A B : Type}.
Abbreviation write := (write may).
Abbreviation written := (written may).
Abbreviation writes := (writes may).
Lemma writes_reads (m : M A) : reads m → writes m.
Proof. intros Hm env w. by rewrite Hm. Qed.
Lemma writes_bind (m : M A) (k : A → M B) : writes m → (∀ a, writes (k a)) → writes (m ≫= k).
Proof.
  intros Hm Hk env w. unfold mbind, M_bind. pose proof (Hm env w) as Hw.
  destruct (m env w) as [[a|e] w1]; simpl in *; [|done]. etrans; [done|apply Hk].
Qed.
Lemma writes_transaction (m : M A) : writes m → writes (transaction m).
Proof.
  intros Hm env w. unfold transaction. pose proof (Hm env w) as Hw. by destruct (m env w) as [[]].
Qed.
(** A transaction whose body writes from the database it starts on. *)
Lemma writes_transaction_wp (m : M A) :
  (∀ db, wp m (fun _ db' => written db db') db) → writes (transaction m).
Proof.
  intros Hm env [db n]. unfold transaction. pose proof (Hm db env n) as Hw. simpl.
  destruct (m env (mk_world db n)) as [[a|e] w1]; simpl; [by eapply Hw|done].
Qed.
Lemma wp_writes (m : M A) db0 db (Q : A → DB → Prop) :
  writes m → written db0 db → (∀ a db', written db0 db' → written db db' → Q a db') → wp m Q db.
Proof.
  intros Hm Hs HQ env n a w' E. pose proof (Hm env (mk_world db n)) as Hw. rewrite E in Hw.
  apply HQ; [by etrans|done].
Qed.
End rules.

Lemma writes_for_each {may : Privilege → Prop} {A S : Type} (l : list A) (s : S) body :
  (∀ s x, writes may (body s x)) → writes may (for_each l s body).
Proof.
  intros Hb. revert s. induction l as [|x l IH]; intros s; simpl; [by intros env w|].
  by apply writes_bind.
Qed.

Lemma writes_modify {may : Privilege → Prop} f : (∀ db, write may db (f db)) → writes may (modify_db f).
Proof. intros Hf env w. apply rtc_once, Hf. Qed.

(** ** Changes of tasks *)
Lemma close_task_change s now t :
  is_open t = true → s = TCompleted ∨ s = TDead → task_change t (close_task s now t).
Proof.
  intros Ho Hs. split; [done|by destruct t|]. destruct t. unfold task_ok, close_task. simpl.
  rewrite !andb_true_iff. intros H. decompose [and] H. destruct Hs as [-> | ->]; by split_and!.
Qed.

Lemma kill_task_change now t :
  is_open t = true →
  task_change t (t <| task_status := TDead |> <| task_completed_at := Some now |>).
Proof. intros Ho. apply (close_task_change TDead); auto. Qed.

Lemma shift_task_change d t : task_status t = TPending → task_change t (shift_task d t).
Proof. intros Ht. split; [unfold is_open; by rewrite Ht|done|by destruct t]. Qed.

(** Runs the checks of a row whose fields are known. *)
Ltac task_change_of :=
  let t := fresh "t" in let Ht := fresh "Ht" in let H := fresh "H" in
  intros t Ht; split; [unfold is_open; by rewrite Ht|by destruct t|];
  destruct t; unfold task_ok; simpl in *; subst;
  rewrite !andb_true_iff; intros H; decompose [and] H; by split_and!.

Lemma lease_row_change now token d ty :
  ∀ t, task_status t = TPending → task_change t (lease_row now token d ty t).
Proof. task_change_of. Qed.

Lemma clear_lease_change v :
  ∀ t, task_status t = TLeased → task_change t (clear_lease v t).
Proof. task_change_of. Qed.

Lemma reclaim_change now :
  ∀ t, task_status t = TLeased →
  task_change t (clear_lease now t <| task_start_to_close_deadline := None |>
    <| task_heartbeat_at := None |> <| task_heartbeat_details := None |>).
Proof. task_change_of. Qed.

Lemma renew_change x :
  ∀ t, task_status t = TLeased → task_change t (t <| task_lease_expires_at := Some x |>).
Proof. task_change_of. Qed.

Lemma heartbeat_change now d x :
  ∀ t, task_status t = TLeased →
  task_change t (t <| task_heartbeat_at := Some now |> <| task_heartbeat_details := Some d |>
    <| task_lease_expires_at := Some x |>).
Proof. task_change_of. Qed.

(** ** Writes from a given database

    [writes_at db m]: what [m] read of [db] is known up to its first write. *)
Definition writes_at (may : Privilege → Prop) {A : Type} (db : DB) (m : M A) : Prop :=
  ∀ env n, written may db (w_db (m env (mk_world db n)).2).

Section rules_at.
Context {may : Privilege → Prop} {A B : Type} (db : DB).
Abbreviation write := (write may).
Abbreviation written := (written may).
Abbreviation writes := (writes may).
Abbreviation writes_at := (writes_at may).
Lemma writes_of_at (m : M A) : (∀ db, writes_at db m) → writes m.
Proof. intros Hm env [d n]. apply Hm. Qed.
Lemma writes_at_of (m : M A) : writes m → writes_at db m.
Proof. intros Hm env n. apply (Hm env (mk_world db n)). Qed.
Lemma writes_at_reads (m : M A) : reads m → writes_at db m.
Proof. intros Hm. by apply writes_at_of, writes_reads. Qed.
Lemma writes_at_transaction (m : M A) : writes_at db m → writes_at db (transaction m).
Proof.
  intros Hm env n. unfold transaction. pose proof (Hm env n) as Hw.
  by destruct (m env (mk_world db n)) as [[]].
Qed.
Lemma writes_at_get_db (k : DB → M B) : writes_at db (k db) → writes_at db (get_db ≫= k).
Proof. intros Hk env n. apply Hk. Qed.
Lemma writes_at_fetch id (k : option Execution → M B) :
  writes_at db (k (db_executions db !! id)) → writes_at db (fetch_execution id ≫= k).
Proof. intros Hk env n. apply Hk. Qed.
Lemma writes_at_of_result (r : Py A) (k : A → M B) :
  (∀ a, r = Ok a → writes_at db (k a)) → writes_at db (of_result r ≫= k).
Proof.
  intros Hk env n. unfold mbind, M_bind, of_result. destruct r as [a|e]; [by apply Hk|done].
Qed.
Lemma writes_at_bind_reads (m : M A) (k : A → M B) :
  reads m → (∀ a, writes_at db (k a)) → writes_at db (m ≫= k).
Proof.
  intros Hm Hk env n. unfold mbind, M_bind. pose proof (Hm env (mk_world db n)) as Hw.
  destruct (m env (mk_world db n)) as [[a|e] [db1 n1]]; simpl in *; subst; [apply Hk|done].
Qed.
Lemma writes_at_bind (m : M A) (k : A → M B) :
  writes_at db m → (∀ a, writes (k a)) → writes_at db (m ≫= k).
Proof.
  intros Hm Hk env n. unfold mbind, M_bind. pose proof (Hm env n) as Hw.
  destruct (m env (mk_world db n)) as [[a|e] w1]; simpl in *; [|done]. etrans; [done|apply Hk].
Qed.
End rules_at.

Lemma writes_at_modify {may : Privilege → Prop} db f :
  write may db (f db) → writes_at may db (modify_db f).
Proof. intros Hf env n. by apply rtc_once. Qed.

Create HintDb writes discriminated.
#[export] Hint Opaque insert_event insert_execution insert_task wake_workflow insert_workflow_task
  update_tasks record_api_audit running_execution require_definition update_execution set_task
  kill_tasks set_next_seq _reject_pending_updates _cancel_pending_timers audit_duplicate
  audit_accepted no_such_workflow kill_open_tasks _notify_parent_of_child_terminal
  terminate_descendants _terminate_descendants start_workflow finish_task complete_task
  _start_occurrence append_command commit_consequences insert_occurrence start_buffered
  insert_update insert_schedule : writes.

(** A filter of open tasks. *)
Ltac open_task :=
  let H := fresh in
  rewrite ?andb_true_iff, ?bool_decide_eq_true; intros H; decompose [and] H; unfold is_open;
  repeat match goal with E : task_status _ = _ |- _ => rewrite E end; done.

(** The programs [writes_step] looks into. *)
Ltac writes_enter m :=
  lazymatch m with
  | mbind _ _ => idtac | transaction _ => idtac | match _ with _ => _ end => idtac
  | mret _ => idtac | throw _ => idtac | of_result _ => idtac | uuid4 => idtac
  | modify_db _ => idtac
  end; apply writes_of_at; intros ?.

Ltac writes_step :=
  lazymatch goal with
  | |- writes_at _ _ (match ?x with _ => _ end) => destruct x eqn:?
  | |- writes_at _ _ (get_db ≫= _) => apply writes_at_get_db
  | |- writes_at _ _ (fetch_execution _ ≫= _) => apply writes_at_fetch
  | |- writes_at _ _ (of_result _ ≫= _) => apply writes_at_of_result; intros ? ?
  | |- writes_at _ _ (db_now ≫= _) => apply writes_at_bind_reads; [apply reads_db_now|intros ?]
  | |- writes_at _ _ (utc_now ≫= _) => apply writes_at_bind_reads; [apply reads_utc_now|intros ?]
  | |- writes_at _ _ (uuid4 ≫= _) => apply writes_at_bind_reads; [apply reads_uuid4|intros ?]
  | |- writes_at _ _ (random_random ≫= _) => apply writes_at_bind_reads; [apply reads_random|intros ?]
  | |- writes_at _ _ (locked_rows ≫= _) => apply writes_at_bind_reads; [apply reads_locked|intros ?]
  | |- writes_at _ _ (clock_or_now _ ≫= _) => apply writes_at_bind_reads; [apply reads_clock|intros ?]
  | |- writes_at _ _ (mbind _ _) => apply writes_at_bind; [|intros ?]
  | |- writes_at _ _ (transaction _) => apply writes_at_transaction
  | |- writes_at _ _ (modify_db _) => apply writes_at_modify
  | |- writes_at _ _ (mret _) => apply writes_at_reads, reads_ret
  | |- writes_at _ _ (throw _) => apply writes_at_reads, reads_throw
  | |- writes_at _ _ (of_result _) => apply writes_at_reads, reads_of_result
  | |- writes_at _ _ uuid4 => apply writes_at_reads, reads_uuid4
  | |- writes_at _ _ (set_task _ _) => fail
  | |- writes_at _ _ _ => apply writes_at_of
  | |- writes _ (for_each _ _ _) => apply writes_for_each; intros ? ?
  | |- writes _ ?m => first [solve [auto 2 with writes nocore] | writes_enter m]
  end.
Ltac writes_auto := cbv zeta; repeat (writes_step; cbv beta zeta).

Lemma writes_update_tasks {may : Privilege → Prop} p f :
  (∀ id t, p id t = true → task_change t (f t)) → writes may (update_tasks p f).
Proof.
  intros Hp. unfold update_tasks. writes_auto. constructor. apply evolves_update_where. eauto.
Qed.

(** An object is stored as an object. *)
Lemma to_jsonb_obj `{PyStd} d v : to_jsonb (JObj d) = Ok v → ∃ d', v = JObj d'.
Proof.
  unfold to_jsonb. simpl. destruct (canonical_json _); simpl; [|done]. intros [= <-]. by eexists.
Qed.

(** The checks of the insertions. *)
Lemma exists_row_false {K V} `{Countable K} (p : K → V → bool) m k v :
  exists_row p m = false → m !! k = Some v → p k v = false.
Proof.
  intros He Hk. apply (existsb_false _ _ (k, v)) in He; [done|]. by apply elem_of_map_to_list.
Qed.

Ltac row_absent :=
  match goal with E : bool_decide (is_Some _) = false |- _ =>
    by apply bool_decide_eq_false, eq_None_not_Some in E end.

Lemma find_task_some db id p t :
  find_task db id p = Some t → db_tasks db !! id = Some t ∧ p t = true.
Proof.
  unfold find_task. destruct (db_tasks db !! id) as [t1|]; [|done].
  destruct (p t1) eqn:E; [|done]. by intros [= <-].
Qed.

(** A selected row, and the condition it met. *)
Ltac conjuncts H :=
  rewrite ?andb_true_iff, ?bool_decide_eq_true in H; try (progress decompose [and] H).
Ltac selected :=
  let Hs := fresh "Hs" in
  lazymatch goal with
  | E : find_task _ _ _ = Some _ |- _ => apply find_task_some in E as [? Hs]; conjuncts Hs
  | E : head (select _ _ _) = Some _ |- _ =>
    apply head_Some_elem_of in E; apply elem_of_select in E as [? Hs]; conjuncts Hs
  end.

Section writes.
Context `{PyStd} {may : Privilege → Prop}.
Abbreviation write := (write may).
Abbreviation written := (written may).
Abbreviation writes := (writes may).
Abbreviation writes_at := (writes_at may).

Lemma writes_insert_event wid s t c n x a : writes (insert_event wid s t c n x a).
Proof. unfold insert_event. writes_auto. constructor. by destruct a1. Qed.
Lemma writes_insert_execution id e :
  exec_schedule_id e = None ∨ is_Some (exec_continued_from e) ∨ may Starting →
  exec_parent_workflow_id e = None ∨ may Deciding →
  writes (insert_execution id e).
Proof. intros He Hp. unfold insert_execution. writes_auto. constructor; [by destruct a|done..]. Qed.
Lemma writes_insert_task id t :
  task_attempt t = 1%Z ∨ may Retrying → writes (insert_task id t).
Proof. intros Ht. unfold insert_task. writes_auto. constructor; [by destruct a|done]. Qed.
Hint Resolve writes_insert_event : writes.
Hint Extern 2 (Writes.writes _ (insert_task _ _)) =>
  apply writes_insert_task; solve [by left|by right] : writes.
Hint Extern 2 (Writes.writes _ (insert_execution _ _)) =>
  apply writes_insert_execution; solve [by left|right; left; by eexists|by right] : writes.
Lemma writes_insert_workflow_task i w q : writes (insert_workflow_task i w q).
Proof. unfold insert_workflow_task. writes_auto. Qed.
Hint Resolve writes_insert_workflow_task : writes.
Lemma writes_wake w q : writes (wake_workflow w q).
Proof. unfold wake_workflow. writes_auto. Qed.
Lemma writes_audit c w b d : writes (record_api_audit c w b d).
Proof. unfold record_api_audit. writes_auto. constructor. Qed.
Lemma writes_running id : writes (running_execution id).
Proof. unfold running_execution. writes_auto. Qed.
Lemma writes_require t v : writes (require_definition t v).
Proof. unfold require_definition. writes_auto. Qed.
Lemma writes_update_execution id f :
  (∀ e, exec_change may e (f e)) → writes (update_execution id f).
Proof. intros Hf. unfold update_execution. writes_auto. constructor. apply evolves_alter. auto. Qed.
Lemma writes_set_next_seq id s : writes (set_next_seq id s).
Proof. unfold set_next_seq. apply writes_update_execution. intros []. split; auto. Qed.
Hint Resolve writes_wake writes_audit writes_running writes_require writes_set_next_seq : writes.
(** An update the caller may make whatever it does to the row. *)
Lemma writes_decide id f :
  (∀ e, exec_identity (f e) = exec_identity e) → may Deciding → writes (update_execution id f).
Proof. intros Hf Hm. apply writes_update_execution. intros e. split; auto. Qed.
(** An update of none of the columns the checks are about. *)
Lemma writes_inert id f :
  (∀ e, exec_identity (f e) = exec_identity e ∧ exec_status (f e) = exec_status e ∧
     row_ok (f e) = row_ok e) → writes (update_execution id f).
Proof.
  intros Hf. apply writes_update_execution. intros e. destruct (Hf e) as (?&?&E).
  split; [done|by left|]. left. by rewrite E.
Qed.
Hint Extern 2 (Writes.writes _ (update_execution _ _)) =>
  first [apply writes_inert; by intros []|apply writes_decide; [by intros []|done]] : writes.
Lemma writes_reject w r : writes (_reject_pending_updates w r).
Proof.
  unfold _reject_pending_updates. writes_auto. constructor. apply evolves_update_where.
  intros k u _ [_ Hu%bool_decide_eq_true]%andb_true_iff. by split.
Qed.
Lemma writes_kill p : (∀ id t, p id t = true → is_open t = true) → writes (kill_tasks p).
Proof.
  intros Hp. unfold kill_tasks. writes_auto. apply writes_update_tasks. intros.
  eapply kill_task_change; eauto.
Qed.
Lemma writes_kill_open w x : writes (kill_open_tasks w x).
Proof. apply writes_kill. intros id t. by intros [_ ?]%andb_true_iff. Qed.
Lemma writes_cancel_timers w s r : writes (_cancel_pending_timers w s r).
Proof.
  unfold _cancel_pending_timers, cancel_timer. writes_auto. apply writes_update_tasks.
  intros id t Ht. apply close_task_change; [|by right]. revert Ht. open_task.
Qed.
Lemma writes_duplicate c w r : writes (audit_duplicate c w r).
Proof. unfold audit_duplicate. writes_auto. Qed.
Lemma writes_accepted c w r : writes (audit_accepted c w r).
Proof. unfold audit_accepted. writes_auto. Qed.
Lemma writes_no_such_workflow {A} w : writes (no_such_workflow (A:=A) w).
Proof. unfold no_such_workflow. writes_auto. Qed.
Lemma writes_finish t s : s = TCompleted ∨ s = TDead → writes (finish_task t s).
Proof.
  intros Hs. unfold finish_task. writes_auto. apply writes_update_tasks.
  intros id x Hx. apply close_task_change; [|done]. revert Hx. open_task.
Qed.
Lemma writes_complete_task t : writes (complete_task t).
Proof. unfold complete_task. writes_auto. apply writes_finish. by left. Qed.
Hint Resolve writes_reject writes_kill_open writes_cancel_timers writes_duplicate
  writes_accepted writes_no_such_workflow writes_complete_task : writes.
Lemma writes_notify c p s v : writes (_notify_parent_of_child_terminal c p s v).
Proof. unfold _notify_parent_of_child_terminal. writes_auto. Qed.
Lemma writes_terminate_descendants fuel p :
  may Deciding → writes (terminate_descendants fuel p).
Proof.
  intros Hm. revert p; induction fuel as [|fuel IH]; intros p; simpl; unfold terminate_child;
    [by writes_auto|]. writes_auto. 
Qed.
Hint Resolve writes_notify writes_terminate_descendants : writes.
Lemma writes_descendants p : may Deciding → writes (_terminate_descendants p).
Proof. intros Hm. unfold _terminate_descendants. writes_auto. Qed.
Lemma writes_start t v i q w sa r a : writes (start_workflow t v i q w sa r a).
Proof. unfold start_workflow, insert_started. writes_auto. Qed.
Lemma writes_insert_occurrence s t st w r : writes (insert_occurrence s t st w r).
Proof.
  unfold insert_occurrence. writes_auto. constructor; [by row_absent|]. simpl. intros -> key' o' Ho Hk Hb.
  match goal with E : bool_decide (OBuffered = OBuffered) && _ = false |- _ =>
    rewrite bool_decide_eq_true_2 in E by done; eapply exists_row_false in Ho; [|exact E] end.
  simpl in Ho. by rewrite !bool_decide_eq_true_2 in Ho.
Qed.
Lemma writes_start_buffered s t w : writes (start_buffered s t w).
Proof.
  unfold start_buffered. writes_auto. constructor. apply evolves_alter. intros o _.
  destruct (bool_decide_reflect (occ_status o = OBuffered)); [by right|by left].
Qed.
Hint Resolve writes_descendants writes_start writes_insert_occurrence writes_start_buffered : writes.
Lemma writes_start_occurrence i s t b : may Starting → writes (_start_occurrence i s t b).
Proof. intros Hs. unfold _start_occurrence. writes_auto; apply writes_insert_execution; auto. Qed.
Lemma writes_update_resolution w s c : writes (_append_update_resolution w s c).
Proof.
  unfold _append_update_resolution. writes_auto. apply write_updates.
  match goal with E : negb (bool_decide _) = false |- _ =>
    apply negb_false_iff, bool_decide_eq_true in E end.
  eapply evolves_insert; [done|]. by destruct (ru_accepted c).
Qed.
Hint Resolve writes_start_occurrence writes_update_resolution : writes.
Lemma writes_append_command w q s c : may Deciding → writes (append_command w q s c).
Proof.
  intros Hm. unfold append_command, _append_activity_command, _append_timer_command, _append_marker_command,
    _append_child_workflow_command. writes_auto.
Qed.
Hint Resolve writes_append_command : writes.
Lemma writes_consequences t q e r : may Deciding → writes (commit_consequences t q e r).
Proof.
  intros Hm. unfold commit_consequences, commit_cancellation, commit_commands, commit_closed,
    _commit_continue_as_new. writes_auto.
Qed.
Hint Resolve writes_consequences : writes.
Lemma writes_insert_update w u n p : writes (insert_update w u n p).
Proof.
  unfold insert_update. writes_auto. constructor; [by row_absent|done].
Qed.
Lemma writes_insert_schedule i r : writes (insert_schedule i r).
Proof.
  unfold insert_schedule. writes_auto. constructor; [by row_absent|].
  intros id' r' Hr Hn. eapply exists_row_false in Hr; [|done].
  by apply String.eqb_neq in Hr.
Qed.
Hint Resolve writes_insert_update writes_insert_schedule : writes.

(** ** The operations that write a row they selected *)
Lemma holds_lease_leased now token t : holds_lease now token t = true → task_status t = TLeased.
Proof. unfold holds_lease. rewrite !andb_true_iff, bool_decide_eq_true. by intros [[]]. Qed.

Lemma holds_lease_open now token t : holds_lease now token t = true → is_open t = true.
Proof. intros Ht%holds_lease_leased. unfold is_open. by rewrite Ht. Qed.

Lemma write_set_task db id t t' :
  db_tasks db !! id = Some t → task_change t t' → writes_at db (set_task id t').
Proof. intros Ht Hc. apply writes_at_modify, write_tasks. by eapply evolves_insert. Qed.

Lemma writes_lease_task ty q d : writes (lease_task ty q d).
Proof.
  unfold lease_task. writes_auto;
    unfold _lease_candidate, runnable in *; selected;
    (eapply write_set_task; [done|by apply lease_row_change]).
Qed.

Lemma writes_renew t l d : writes (renew_lease t l d).
Proof.
  unfold renew_lease. writes_auto. selected. eapply write_set_task; [done|].
  apply renew_change. by eapply holds_lease_leased.
Qed.

Lemma writes_heartbeat t l x d : writes (heartbeat_activity t l x d).
Proof.
  unfold heartbeat_activity. writes_auto. selected. eapply write_set_task; [done|].
  apply heartbeat_change. by eapply holds_lease_leased.
Qed.

Lemma writes_release t d : writes (release_workflow_task t d).
Proof.
  unfold release_workflow_task. writes_auto. selected. eapply write_set_task; [done|].
  apply clear_lease_change. by eapply holds_lease_leased.
Qed.

Lemma writes_reclaim n : writes (reclaim_expired_workflow_tasks n).
Proof.
  unfold reclaim_expired_workflow_tasks. writes_auto. apply write_tasks, evolves_update_where.
  intros id x Hx Hin%bool_decide_eq_true. apply reclaim_change.
  apply list_elem_of_fmap in Hin as ([id' t'] & -> & Hin%subseteq_take). simpl in Hx.
  apply elem_of_select in Hin as [Ht' Hp]. rewrite Hx in Ht'. injection Ht' as <-.
  rewrite !andb_true_iff, !bool_decide_eq_true in Hp. by decompose [and] Hp.
Qed.

(** [update tasks set ... where id = $1], of a task found open. *)
Lemma wp_writes_update_one id s now db0 db t (Q : nat → DB → Prop) :
  written db0 db → db_tasks db !! id = Some t → is_open t = true → s = TCompleted ∨ s = TDead →
  (∀ n db', written db0 db' → Q n db') →
  wp (update_tasks (fun id' _ => bool_decide (id' = id)) (close_task s now)) Q db.
Proof.
  intros Hs Ht Ho Hst HQ. unfold update_tasks. wp_auto. apply HQ. etrans; [done|]. apply rtc_once.
  apply write_tasks, evolves_update_where. intros id' t' Ht' ->%bool_decide_eq_true.
  assert (t' = t) as -> by congruence. by apply close_task_change.
Qed.

Lemma wp_writes_insert_event db0 wid s t c n x a (Q : unit → DB → Prop) db :
  written db0 db →
  (∀ db', written db0 db' → db_tasks db' = db_tasks db → Q tt db') →
  wp (insert_event wid s t c n x a) Q db.
Proof.
  intros Hw HQ. unfold insert_event. wp_auto. apply HQ; [|done]. etrans; [done|]. apply rtc_once.
  apply write_event. by destruct a1.
Qed.

(** [wp] through an operation that writes, [Hw] being what is known so far. *)
Ltac wp_written Hw :=
  eapply wp_writes; [solve [writes_auto]|exact Hw|clear Hw; intros ? ? Hw _; cbv beta].

Lemma writes_fire_due_timer q c : writes (fire_due_timer q c).
Proof.
  unfold fire_due_timer. apply writes_transaction_wp. intros db. wp_auto; [|done].
  apply wp_fetch_execution. wp_auto; try done. unfold due_timer in *. selected.
  apply (wp_writes_insert_event db); [done|]. intros db1 Hw Htk. wp_auto.
  eapply wp_writes_update_one; [done|by rewrite Htk| |by left|].
  { unfold is_open. by match goal with E : task_status _ = _ |- _ => rewrite E end. }
  clear Hw. intros k db2 Hw. wp_auto. wp_written Hw. wp_auto. wp_written Hw. by wp_auto.
Qed.

Lemma timed_out_open db now q t : timed_out db now q t = true → is_open t = true.
Proof.
  unfold timed_out, is_open. rewrite !andb_true_iff, orb_true_iff, !andb_true_iff, !bool_decide_eq_true.
  by intros [_ [[-> _]|[-> _]]].
Qed.

Lemma writes_process_timeout q r : may Retrying → writes (process_activity_timeout q r).
Proof.
  intros Hmay.   unfold process_activity_timeout.
  apply writes_bind; [destruct r; by apply writes_reads|intros rv].
  apply writes_transaction_wp. intros db. wp_auto; [|done].
  apply wp_fetch_execution. wp_auto; try done. unfold due_timeout in *. selected.
  unfold record_timeout. wp_auto.
  apply (wp_writes_insert_event db); [done|]. intros db1 Hw Htk. wp_auto.
  eapply wp_writes_update_one; [done|by rewrite Htk|by eapply timed_out_open|by case_match; auto|].
  clear Hw. intros k db2 Hw. wp_auto; wp_written Hw; wp_auto; wp_written Hw; by wp_auto.
Qed.

Hint Resolve writes_fire_due_timer writes_process_timeout writes_lease_task writes_renew
  writes_heartbeat writes_release writes_reclaim : writes.

Lemma writes_register d : writes (register_workflow_definition d).
Proof.
  unfold register_workflow_definition. writes_auto. constructor.
  by destruct (db_definitions db !! _).
Qed.

Lemma writes_record_failure t f b v : may Retrying → writes (record_failure t f b v).
Proof. intros Hmay. unfold record_failure. writes_auto. apply writes_finish. destruct b; auto. Qed.

Hint Resolve writes_register writes_record_failure : writes.

(** The operations that need a privilege. *)
Inductive privileged (reports : LeasedTask → Prop) : Privilege → ∀ A : Type, M A → Prop :=
| starting_materialize ct : privileged reports Starting _ (materialize_due_schedule ct)
| starting_backfill i s e n a : privileged reports Starting _ (backfill_schedule i s e n a)
| retrying_failure t f r : reports t → privileged reports Retrying _ (fail_activity t f r)
| retrying_timeout q r : privileged reports Retrying _ (process_activity_timeout q r)
| deciding_terminate w r a : privileged reports Deciding _ (terminate_workflow w r a)
| deciding_commit t r : privileged reports Deciding _ (commit_workflow_replay t r).

Lemma privileged_writes reports p A (m : M A) : privileged reports p A m → may p → writes m.
Proof.
  destruct 1; intros Hmay; unfold materialize_due_schedule, record_occurrence, backfill_schedule,
    backfill_one, fail_activity, terminate_workflow, commit_workflow_replay; writes_auto.
  - apply write_schedules, evolves_alter. by right.
  - by apply writes_reads.
Qed.

Lemma operation_writes_unless commits reports A (m : M A) :
  operation_of commits reports A m → (∃ p, privileged reports p A m) ∨ writes m.
Proof.
  destruct 1; try solve [left; eexists; by constructor]; right; try solve [auto 2 with writes nocore];
    unfold pause_workflow, resume_workflow, retry_workflow, update_search_attributes,
    request_workflow_cancellation, complete_activity, send_signal, send_update, create_schedule, set_schedule_paused, record_idempotent_effect,
    heartbeat_worker, stop_worker; writes_auto.
  - apply writes_update_tasks. intros id t Ht. apply shift_task_change. revert Ht. open_task.
  - match goal with E : to_jsonb (JObj _) = Ok _ |- _ => apply to_jsonb_obj in E as [d' ->] end.
    apply writes_update_execution. intros x. split; [by destruct x|by left|left].
    destruct x. unfold row_ok, execution_ok. simpl. by rewrite !andb_true_iff; intros [[[? ?] ?] _].
  - apply writes_kill. intros id t. open_task.
  - apply write_schedules, evolves_alter. by right.
  - by apply write_effect.
  - apply write_workers.
  - apply write_workers.
Qed.

End writes.

Section steps.
Context `{PyStd}.

Lemma operation_writes A (m : M A) : operation A m → writes anything m.
Proof.
  intros Hm. destruct (operation_writes_unless (may:=anything) _ _ _ _ Hm) as [[p Hp]|]; [|done].
  by eapply privileged_writes.
Qed.

(** What happens to a database is a sequence of writes. *)
Lemma rtc_written db db' : rtc step db db' → written anything db db'.
Proof.
  induction 1 as [|d1 d2 d3 Hs _ IH]; [done|]. destruct Hs as [A m env n Hm].
  etrans; [|exact IH]. apply (operation_writes _ _ Hm env (mk_world d1 n)).
Qed.

(** An invariant of the writes holds in every reachable database. *)
Lemma reachable_write_ind (I : DB → Prop) db :
  I empty_db → (∀ d d', write anything d d' → I d → I d') → reachable db → I db.
Proof.
  intros H0 Hw Hr%rtc_written. revert H0. induction Hr as [|d1 d2 d3 H1 _ IH]; [done|].
  intros HI. by eapply IH, Hw.
Qed.

End steps.

#[export] Hint Resolve writes_insert_event
  writes_insert_workflow_task writes_wake writes_audit writes_running writes_require
  writes_set_next_seq writes_reject writes_kill_open writes_cancel_timers writes_duplicate
  writes_accepted writes_no_such_workflow writes_complete_task writes_notify
  writes_terminate_descendants writes_descendants writes_start writes_insert_occurrence
  writes_start_buffered writes_start_occurrence writes_append_command writes_consequences
  writes_insert_update writes_insert_schedule writes_update_resolution : writes.
#[export] Hint Extern 2 (writes _ (update_execution _ _)) =>
  first [apply writes_inert; by intros []|apply writes_decide; [by intros []|done]] : writes.
#[export] Hint Extern 2 (writes _ (insert_execution _ _)) =>
  apply writes_insert_execution; solve [by left|right; left; by eexists|by right] : writes.
#[export] Hint Extern 2 (writes _ (insert_task _ _)) =>
  apply writes_insert_task; solve [by left|by right] : writes.
