(* ===== verification/Tables.v ===== *)
(** * The constraints of the tables

    PostgreSQL checks a row when it is inserted and when it is updated; the
    model checks the insertions.  Here: no update breaks a constraint, so the
    database would have refused none of them.  The constraints on the columns
    that close an execution are apart, in [Store]. *)
From S2P Require Import Prelude Python Serialization History Database Schedules Store System.
From S2P Require Import Writes.
From stdpp Require Import relations.

(** ** Unique columns *)
Definition unique {K V} `{Countable K} (same : K → V → K → V → bool) (m : gmap K V) : Prop :=
  ∀ k k' v v', m !! k = Some v → m !! k' = Some v' → same k v k' v' = true → k = k'.

Section unique.
Context {K V} `{Countable K} (same : K → V → K → V → bool).
Implicit Types m : gmap K V.

Lemma unique_insert m k v :
  (∀ k v k' v', same k v k' v' = same k' v' k v) →
  unique same m → (∀ k' v', m !! k' = Some v' → same k v k' v' = false) →
  unique same (<[k := v]> m).
Proof.
  intros Hsym Hm Hk k1 k2 v1 v2. rewrite !lookup_insert_Some.
  intros [[<- <-]|[Hn1 E1]] [[<- <-]|[Hn2 E2]] Hs; [done| | |by eapply Hm].
  - by rewrite (Hk _ _ E2) in Hs.
  - by rewrite Hsym, (Hk _ _ E1) in Hs.
Qed.

Lemma unique_evolves (R : V → V → Prop) m m' :
  (∀ k v w k' v' w', (w = v ∨ R v w) → (w' = v' ∨ R v' w') →
     same k w k' w' = true → same k v k' v' = true) →
  evolves R m m' → unique same m → unique same m'.
Proof.
  intros HR Hev Hm k k' w w' Hk Hk' Hs.
  destruct (evolves_back _ _ _ _ _ Hev Hk) as (v & Hv & Hvw).
  destruct (evolves_back _ _ _ _ _ Hev Hk') as (v' & Hv' & Hvw'). eapply Hm; eauto.
Qed.
End unique.

Lemma same_attempt_sym t t' : same_attempt t t' = same_attempt t' t.
Proof.
  unfold same_attempt. apply eq_true_iff_eq. rewrite !andb_true_iff, !bool_decide_eq_true.
  split; intros [[[[Hs ?] ?] He] ?]; rewrite <- ?He, ?He in *; by split_and!.
Qed.

Lemma same_parent_command_sym e e' : same_parent_command e e' = same_parent_command e' e.
Proof.
  unfold same_parent_command. apply eq_true_iff_eq. rewrite !andb_true_iff, !bool_decide_eq_true.
  split; intros [[Hs He] ?]; rewrite <- ?He, ?He in *; by split_and!.
Qed.

Lemma same_continuation_sym e e' : same_continuation e e' = same_continuation e' e.
Proof.
  unfold same_continuation. apply eq_true_iff_eq. rewrite !andb_true_iff, !bool_decide_eq_true.
  split; intros [Hs He]; rewrite <- ?He, ?He in *; by split_and!.
Qed.

(** A row that stayed or changed kept its identity. *)
Lemma same_attempt_kept t u t' u' :
  (u = t ∨ task_change t u) → (u' = t' ∨ task_change t' u') →
  same_attempt u u' = true → same_attempt t t' = true.
Proof.
  intros Hu Hu'.
  assert (task_identity u = task_identity t) as [= E1 E2 E3 E4 E5 E6 E7].
  { by destruct Hu as [->|[_ ? _]]. }
  assert (task_identity u' = task_identity t') as [= F1 F2 F3 F4 F5 F6 F7].
  { by destruct Hu' as [->|[_ ? _]]. }
  unfold same_attempt. by rewrite E1, E2, E4, E6, F1, F2, F4, F6.
Qed.

Lemma exec_kept may e f : (f = e ∨ exec_change may e f) → exec_identity f = exec_identity e.
Proof. by intros [->|[]]. Qed.

(** ** The constraints *)
Record constraints (db : DB) : Prop := {
  c_task : ∀ id t, db_tasks db !! id = Some t →
    task_ok t = true ∧ is_Some (db_executions db !! task_workflow_id t);
  c_attempt : unique (fun _ t _ t' => same_attempt t t') (db_tasks db);
  c_definition : ∀ id e, db_executions db !! id = Some e →
    is_Some (db_definitions db !! (exec_workflow_type e, exec_definition_version e));
  c_parent : ∀ id e, db_executions db !! id = Some e →
    reference_ok db (exec_parent_workflow_id e) = true ∧
    reference_ok db (exec_retry_of e) = true ∧ reference_ok db (exec_continued_from e) = true;
  c_child : unique (fun _ e _ e' => same_parent_command e e') (db_executions db);
  c_continuation : unique (fun _ e _ e' => same_continuation e e') (db_executions db);
  c_name : unique (fun _ s _ s' => String.eqb (sch_name s) (sch_name s')) (db_schedules db);
  c_buffered : unique (fun k o k' o' => bool_decide (k.1 = k'.1)
                 && bool_decide (occ_status o = OBuffered)
                 && bool_decide (occ_status o' = OBuffered)) (db_occurrences db);
  c_identities : ∀ wid i j e e', hist wid db !! i = Some e → hist wid db !! j = Some e' →
    same_command e e' || same_external e e' = true → i = j
}.

Lemma constraints_empty : constraints empty_db.
Proof. by split. Qed.

Lemma check_task_ok db id t :
  check_task db id t = Ok tt →
  db_tasks db !! id = None ∧ is_Some (db_executions db !! task_workflow_id t) ∧ task_ok t = true ∧
  ∀ id' t', db_tasks db !! id' = Some t' → same_attempt t t' = false.
Proof.
  unfold check_task.
  destruct (bool_decide_reflect (is_Some (db_tasks db !! id))) as [|Hn]; [done|].
  destruct (bool_decide_reflect (db_executions db !! task_workflow_id t = None)) as [|Hx]; [done|].
  destruct (task_ok t); [|done]. destruct (exists_row _ _) eqn:He; [done|]. intros _.
  split_and!; [by apply eq_None_not_Some|by apply not_eq_None_Some|done|].
  intros id' t' Ht'. by eapply (exists_row_false _ _ _ _ He).
Qed.

Lemma check_execution_ok db id e :
  check_execution db id e = Ok tt →
  db_executions db !! id = None ∧
  is_Some (db_definitions db !! (exec_workflow_type e, exec_definition_version e)) ∧
  (reference_ok db (exec_parent_workflow_id e) = true ∧
   reference_ok db (exec_retry_of e) = true ∧ reference_ok db (exec_continued_from e) = true) ∧
  (∀ id' e', db_executions db !! id' = Some e' → same_parent_command e e' = false) ∧
  (∀ id' e', db_executions db !! id' = Some e' → same_continuation e e' = false).
Proof.
  unfold check_execution.
  destruct (bool_decide_reflect (is_Some (db_executions db !! id))) as [|Hn]; [done|].
  destruct (bool_decide_reflect
    (db_definitions db !! (exec_workflow_type e, exec_definition_version e) = None)) as [|Hx]; [done|].
  destruct (negb _) eqn:Hr; [done|]. destruct (_ || _); [done|].
  destruct (exists_row _ _) eqn:Hp; [done|]. destruct (exists_row (fun _ => same_continuation e) _) eqn:Hc; [done|].
  intros _. apply negb_false_iff in Hr. rewrite !andb_true_iff in Hr. destruct Hr as [[[??]?]?].
  split_and!; try done; [by apply eq_None_not_Some|by apply not_eq_None_Some|..];
    intros id' e' He'; [by eapply (exists_row_false _ _ _ _ Hp)|by eapply (exists_row_false _ _ _ _ Hc)].
Qed.

(** ** The writes keep them *)

Lemma reference_grows db db' r :
  (∀ id, is_Some (db_executions db !! id) → is_Some (db_executions db' !! id)) →
  reference_ok db r = true → reference_ok db' r = true.
Proof.
  unfold reference_ok. destruct r as [u|]; [|done]. rewrite !bool_decide_eq_true. auto.
Qed.

Lemma insert_is_Some {K V} `{Countable K} (m : gmap K V) k v k' :
  is_Some (m !! k') → is_Some (<[k := v]> m !! k').
Proof. rewrite lookup_insert_is_Some'. auto. Qed.

(** Other tables. *)
Lemma constraints_same db db' :
  db_tasks db' = db_tasks db → db_executions db' = db_executions db →
  db_definitions db' = db_definitions db → db_schedules db' = db_schedules db →
  db_occurrences db' = db_occurrences db → db_history db' = db_history db →
  constraints db → constraints db'.
Proof.
  intros Ht He Hd Hs Ho Hh [H1 H2 H3 H4 H5 H6 H7 H8 H9].
  split; rewrite ?Ht, ?He, ?Hd, ?Hs, ?Ho; try done.
  - intros id e Hi. destruct (H4 id e Hi) as (?&?&?). unfold reference_ok. by rewrite He.
  - intros wid. unfold hist, rows_of. rewrite Hh. apply H9.
Qed.

Lemma constraints_new_execution db id e :
  check_execution db id e = Ok tt → constraints db →
  constraints (db <| db_executions := <[id := e]> (db_executions db) |>).
Proof.
  intros (Hf & Hd & Hr & Hp & Hc)%check_execution_ok [H1 H2 H3 H4 H5 H6 H7 H8 H9].
  assert (∀ r, reference_ok db r = true →
    reference_ok (db <| db_executions := <[id := e]> (db_executions db) |>) r = true) as Hg.
  { intros r. apply reference_grows. intros. by apply insert_is_Some. }
  split; simpl; try done.
  - intros i t Ht. destruct (H1 i t Ht). split; [done|by apply insert_is_Some].
  - intros i x [[<- <-]|[_ Hx]]%lookup_insert_Some; [done|by eapply H3].
  - intros i x [[<- <-]|[_ Hx]]%lookup_insert_Some; [|destruct (H4 _ _ Hx) as (?&?&?)];
      [destruct Hr as (?&?&?)|]; split_and!; by apply Hg.
  - apply unique_insert; [intros; apply same_parent_command_sym|done..].
  - apply unique_insert; [intros; apply same_continuation_sym|done..].
Qed.

Lemma constraints_executions may db m :
  evolves (exec_change may) (db_executions db) m → constraints db →
  constraints (db <| db_executions := m |>).
Proof.
  intros Hm [H1 H2 H3 H4 H5 H6 H7 H8 H9].
  assert (∀ id, is_Some (db_executions db !! id) → is_Some (m !! id)) as Hg.
  { intros id [e He]. destruct (evolves_some _ _ _ _ _ Hm He) as (e' & -> & _). eauto. }
  split; simpl; try done.
  - intros i t Ht. destruct (H1 i t Ht). auto.
  - intros i x Hx. destruct (evolves_back _ _ _ _ _ Hm Hx) as (e & He & [= E1 E2]%exec_kept).
    rewrite E1, E2. by eapply H3.
  - intros i x Hx. destruct (evolves_back _ _ _ _ _ Hm Hx) as (e & He & Hk%exec_kept).
    destruct (H4 _ _ He) as (?&?&?). injection Hk as _ _ _ _ _ Er _ _ Ep _ _ Ec.
    rewrite Er, Ep, Ec. split_and!; by eapply reference_grows.
  - eapply unique_evolves; [|exact Hm|exact H5].
    intros _ v w _ v' w' Hv%exec_kept Hv'%exec_kept. unfold same_parent_command.
    injection Hv as _ _ _ _ _ _ _ _ -> -> _ _. by injection Hv' as _ _ _ _ _ _ _ _ -> -> _ _.
  - eapply unique_evolves; [|exact Hm|exact H6].
    intros _ v w _ v' w' Hv%exec_kept Hv'%exec_kept. unfold same_continuation.
    injection Hv as _ _ _ _ _ _ _ _ _ _ _ ->. by injection Hv' as _ _ _ _ _ _ _ _ _ _ _ ->.
Qed.

Lemma constraints_new_task db id t :
  check_task db id t = Ok tt → constraints db →
  constraints (db <| db_tasks := <[id := t]> (db_tasks db) |>).
Proof.
  intros (Hf & Hx & Hok & Hs)%check_task_ok [H1 H2 H3 H4 H5 H6 H7 H8 H9].
  split; simpl; try done.
  - intros i x [[<- <-]|[_ Hi]]%lookup_insert_Some; [done|by eapply H1].
  - apply unique_insert; [intros; apply same_attempt_sym|done..].
Qed.

Lemma constraints_tasks db m :
  evolves task_change (db_tasks db) m → constraints db → constraints (db <| db_tasks := m |>).
Proof.
  intros Hm [H1 H2 H3 H4 H5 H6 H7 H8 H9]. split; simpl; try done.
  - intros i x Hx. destruct (evolves_back _ _ _ _ _ Hm Hx) as (t & Ht & [->|[_ Hid Hok]]);
      destruct (H1 _ _ Ht) as [Ho Hw]; [done|]. injection Hid as -> _ _ _ _ _ _. auto.
  - eapply unique_evolves; [|exact Hm|exact H2]. intros _ v w _ v' w'. apply same_attempt_kept.
Qed.

Lemma constraints_definition db key h :
  constraints db → constraints (db <| db_definitions := <[key := h]> (db_definitions db) |>).
Proof.
  intros [H1 H2 H3 H4 H5 H6 H7 H8 H9]. split; simpl; try done.
  intros id e He. apply insert_is_Some. by eapply H3.
Qed.

Lemma constraints_new_schedule db id r :
  (∀ id' r', db_schedules db !! id' = Some r' → sch_name r' ≠ sch_name r) → constraints db →
  constraints (db <| db_schedules := <[id := r]> (db_schedules db) |>).
Proof.
  intros Hn [H1 H2 H3 H4 H5 H6 H7 H8 H9]. split; simpl; try done.
  apply unique_insert; [intros; by rewrite String.eqb_sym|done|].
  intros i x Hx. apply String.eqb_neq. intros E. by apply (Hn _ _ Hx).
Qed.

Lemma constraints_schedules db m :
  evolves schedule_change (db_schedules db) m → constraints db →
  constraints (db <| db_schedules := m |>).
Proof.
  intros Hm [H1 H2 H3 H4 H5 H6 H7 H8 H9]. split; simpl; try done.
  eapply unique_evolves; [|exact Hm|exact H7]. intros _ v w _ v' w' Hv Hv'.
  assert (sch_name w = sch_name v) as -> by (destruct Hv as [->|E]; [done|by injection E]).
  by assert (sch_name w' = sch_name v') as -> by (destruct Hv' as [->|E]; [done|by injection E]).
Qed.

Lemma constraints_new_occurrence db key o :
  (occ_status o = OBuffered →
   ∀ key' o', db_occurrences db !! key' = Some o' → key'.1 = key.1 → occ_status o' ≠ OBuffered) →
  constraints db → constraints (db <| db_occurrences := <[key := o]> (db_occurrences db) |>).
Proof.
  intros Ho [H1 H2 H3 H4 H5 H6 H7 H8 H9]. split; simpl; try done.
  apply unique_insert; [|done|].
  - intros k v k' v'. apply eq_true_iff_eq. rewrite !andb_true_iff, !bool_decide_eq_true. naive_solver.
  - intros k' o' Hk'. apply not_true_iff_false. rewrite !andb_true_iff, !bool_decide_eq_true.
    intros [[Hk Hs] Hs']. by eapply (Ho Hs k' o').
Qed.

Lemma constraints_occurrences db m :
  evolves occurrence_change (db_occurrences db) m → constraints db →
  constraints (db <| db_occurrences := m |>).
Proof.
  intros Hm [H1 H2 H3 H4 H5 H6 H7 H8 H9]. split; simpl; try done.
  eapply unique_evolves; [|exact Hm|exact H8]. intros k v w k' v' w' Hv Hv'.
  rewrite !andb_true_iff, !bool_decide_eq_true. intros [[-> Hs] Hs'].
  destruct Hv as [->|(? & ? & _)]; [|congruence]. by destruct Hv' as [->|(? & ? & _)]; [|congruence].
Qed.

(** The unique indexes of a history, when an event follows it. *)
Lemma check_history_free db wid e e' :
  check_history db wid e = Ok tt → e' ∈ hist wid db → same_command e e' || same_external e e' = false.
Proof.
  unfold check_history. fold (hist wid db). case_match; [done|]. destruct (_ || _); [done|].
  destruct (existsb _ (hist wid db)); [done|].
  destruct (existsb (same_command e) _) eqn:Hc; [done|].
  destruct (existsb (same_external e) _) eqn:Hx; [done|]. intros _ He'.
  by rewrite (existsb_false _ _ _ Hc He'), (existsb_false _ _ _ Hx He').
Qed.

Lemma same_identity_sym e e' :
  same_command e e' || same_external e e' = same_command e' e || same_external e' e.
Proof.
  apply eq_true_iff_eq. unfold same_command, same_external.
  rewrite !orb_true_iff, !andb_true_iff, !bool_decide_eq_true.
  split; (intros [[[[Ha Hb] Hs] He]|[Hs He]]; rewrite <- ?He, ?He in *; [left|right]; by split_and!).
Qed.

Lemma constraints_event db wid e now :
  check_history db wid e = Ok tt → constraints db →
  constraints (db <| db_history := db_history db ++ [mk_history_row wid e now] |>).
Proof.
  intros Hck [H1 H2 H3 H4 H5 H6 H7 H8 H9]. split; try done.
  intros w i j x y. rewrite !hist_append. case_bool_decide; [subst|by apply H9].
  intros [[? Hx]|[-> ->]]%lookup_snoc_Some [[? Hy]|[-> ->]]%lookup_snoc_Some Hs; [by eapply H9| | |done].
  - rewrite same_identity_sym, (check_history_free db wid) in Hs;
      [done..|by eapply list_elem_of_lookup_2].
  - rewrite (check_history_free db wid) in Hs; [done..|by eapply list_elem_of_lookup_2].
Qed.

Lemma write_constraints db db' : write anything db db' → constraints db → constraints db'.
Proof.
  destruct 1;
    eauto using constraints_definition, constraints_new_execution, constraints_executions,
      constraints_event, constraints_new_task, constraints_tasks, constraints_new_schedule,
      constraints_schedules, constraints_new_occurrence, constraints_occurrences;
    by apply constraints_same.
Qed.

Section properties.
Context `{PyStd}.


End properties.
