(* ===== verification/Records.v ===== *)
(** * What is recorded stays

    Definitions, the identity of executions, events, resolved updates, effects
    and started occurrences are never changed or removed. *)
From S2P Require Import Prelude Python Serialization History Context Database Logic Leasing.
From S2P Require Import AuditLog.
From S2P Require Import Definitions Transitions Commit Activities Messages Timeouts Cron.
From S2P Require Import Schedules.
From S2P Require Import Queries Workers Store Frames StoreInvariant System Atomicity Writes.
From S2P Require Import Tables.
From stdpp Require Import relations.

(** What a database has recorded, another one has too. *)
Record keeps (db db' : DB) : Prop := {
  keep_definition : ∀ key h, db_definitions db !! key = Some h → db_definitions db' !! key = Some h;
  keep_execution : ∀ id e, db_executions db !! id = Some e →
    ∃ e', db_executions db' !! id = Some e' ∧ exec_identity e' = exec_identity e;
  keep_update : ∀ key u, db_updates db !! key = Some u →
    ∃ u', db_updates db' !! key = Some u' ∧ (upd_status u ≠ UPending → u' = u);
  keep_effect : ∀ k v, db_effects db !! k = Some v → db_effects db' !! k = Some v;
  keep_schedule : ∀ id s, db_schedules db !! id = Some s →
    ∃ s', db_schedules db' !! id = Some s' ∧ (s' = s ∨ schedule_change s s');
  keep_occurrence : ∀ key o, db_occurrences db !! key = Some o →
    ∃ o', db_occurrences db' !! key = Some o' ∧ (occ_status o ≠ OBuffered → o' = o);
  keep_history : db_history db `prefix_of` db_history db';
  keep_audit : db_audit db `prefix_of` db_audit db'
}.

#[export] Instance keeps_preorder : PreOrder keeps.
Proof.
  split.
  - intros db. split; eauto; done.
  - intros d1 d2 d3 [A1 A2 A3 A4 A5 A6 A7 A8] [B1 B2 B3 B4 B5 B6 B7 B8]. split; eauto.
    + intros id e (e1 & (e2 & -> & <-)%B2 & <-)%A2. eauto.
    + intros key u (u1 & Hu1 & E1)%A3. destruct (B3 _ _ Hu1) as (u2 & -> & E2).
      exists u2. split; [done|]. intros Hs. rewrite (E1 Hs) in E2. auto.
    + intros id s (s1 & Hs1 & E1)%A5. destruct (B5 _ _ Hs1) as (s2 & -> & E2).
      exists s2. split; [done|]. destruct E1 as [->|E1], E2 as [->|E2]; eauto.
      right. unfold schedule_change in *. congruence.
    + intros key o (o1 & Ho1 & E1)%A6. destruct (B6 _ _ Ho1) as (o2 & -> & E2).
      exists o2. split; [done|]. intros Hs. rewrite (E1 Hs) in E2. auto.
    + by etrans.
    + by etrans.
Qed.

Lemma lookup_insert_fresh {K V} `{Countable K} (m : gmap K V) k v k' v' :
  m !! k = None → m !! k' = Some v' → <[k := v]> m !! k' = Some v'.
Proof. intros Hk Hk'. rewrite lookup_insert_ne; [done|congruence]. Qed.

Lemma write_keeps db db' : write anything db db' → keeps db db'.
Proof.
  destruct 1 as [key h Hh|id e Hc|m Hm|wid e now Hc|id t Hc|m Hm|key u Hn _|m Hm|k v Hn|r|id r Hn _
                |m Hm|key o Hn _|m Hm|m]; split; simpl; eauto; try done.
  - intros key' h' Hk'. destruct (decide (key' = key)) as [->|];
      [rewrite lookup_insert_eq; rewrite Hk' in Hh; by rewrite <- Hh|by rewrite lookup_insert_ne].
  - intros id' e' He'. exists e'. split; [|done].
    apply lookup_insert_fresh; [by apply (check_execution_ok _ _ _ Hc)|done].
  - intros id' e' He'. destruct (evolves_some _ _ _ _ _ Hm He') as (e1 & -> & E%exec_kept). eauto.
  - by apply prefix_app_r.
  - intros key' u' Hu'. exists u'. split; [by apply lookup_insert_fresh|done].
  - intros key' u' Hu'. destruct (evolves_some _ _ _ _ _ Hm Hu') as (u1 & -> & E). exists u1.
    split; [done|]. intros Hs. destruct E as [->|[? _ _]]; done.
  - intros k' v' Hk'. by apply lookup_insert_fresh.
  - by apply prefix_app_r.
  - intros id' s' Hs'. exists s'. split; [by apply lookup_insert_fresh|by left].
  - intros id' s' Hs'. destruct (evolves_some _ _ _ _ _ Hm Hs') as (s1 & -> & E). eauto.
  - intros key' o' Ho'. exists o'. split; [by apply lookup_insert_fresh|done].
  - intros key' o' Ho'. destruct (evolves_some _ _ _ _ _ Hm Ho') as (o1 & -> & E). exists o1.
    split; [done|]. intros Hs. destruct E as [->|[? _]]; done.
Qed.

Lemma written_keeps db db' : written anything db db' → keeps db db'.
Proof. induction 1 as [|d1 d2 d3 ?%write_keeps _ IH]; [done|]. by etrans. Qed.

Section properties.
Context `{PyStd}.

Lemma rtc_keeps db db' : rtc step db db' → keeps db db'.
Proof. by intros ?%rtc_written%written_keeps. Qed.

(** C32 What is recorded stays: whatever operations run, a registered definition
    keeps its code hash, an execution its identity, a schedule its settings; a
    resolved update, an effect and a started or skipped occurrence never change;
    events and audit records are only appended. *)
Theorem records_stay db db' : rtc step db db' → keeps db db'.
Proof. apply rtc_keeps. Qed.

(** C31 An execution is pinned to its definition: its type, version, input, queue
    and origin never change, the code registered for it is for ever the same, and
    registering other code under its name and version is refused. *)
Theorem execution_pinned db db' id e :
  reachable db → rtc step db db' → db_executions db !! id = Some e →
  ∃ e' h, db_executions db' !! id = Some e' ∧ exec_identity e' = exec_identity e ∧
    db_definitions db !! (exec_workflow_type e, exec_definition_version e) = Some h ∧
    db_definitions db' !! (exec_workflow_type e', exec_definition_version e') = Some h ∧
    ∀ d env, (wd_name d, wd_version d) = (exec_workflow_type e, exec_definition_version e) →
      wd_code_hash d ≠ h → ∃ r, exec (register_workflow_definition d) env db' = (Err r, db').
Proof.
  intros Hr Hs He.
  destruct (c_definition _ (reachable_write_ind _ _ constraints_empty write_constraints Hr) _ _ He) as [h Hh].
  destruct (keep_execution _ _ (rtc_keeps _ _ Hs) _ _ He) as (e' & He' & Hid).
  pose proof (keep_definition _ _ (rtc_keeps _ _ Hs) _ _ Hh) as Hh'.
  exists e', h. split_and!; [done|done|done|by injection Hid as -> -> _ _ _ _ _ _ _ _ _ _|].
  intros d env Hd Hne. unfold exec, register_workflow_definition, transaction, get_db, mbind, M_bind.
  cbn [w_db]. destruct (_ <=? 0)%Z; [by eexists|]. rewrite Hd, Hh'. simpl.
  apply String.eqb_neq in Hne. rewrite String.eqb_sym in Hne. rewrite Hne. by eexists.
Qed.

(** C30 An effect is recorded once per key: after [record_idempotent_effect]
    returned true, no later call with the key returns true or changes anything,
    whatever its payload and whatever happened in between. *)
Theorem effect_recorded_once k p env db db1 db2 p' env' r db3 :
  exec (record_idempotent_effect k p) env db = (Ok true, db1) → rtc step db1 db2 →
  exec (record_idempotent_effect k p') env' db2 = (r, db3) →
  r ≠ Ok true ∧ db3 = db2 ∧ db_effects db2 !! k = db_effects db1 !! k ∧
  is_Some (db_effects db1 !! k).
Proof.
  intros E Hs E'. assert (is_Some (db_effects db1 !! k)) as [v Hv].
  { unfold exec, record_idempotent_effect, of_result, get_db, modify_db, mbind, M_bind in E.
    destruct (String.eqb k ""); [done|]. destruct (clone_json p); [|done].
    destruct (to_jsonb _); [|done]. cbn [w_db] in E. destruct (db_effects db !! k) eqn:Hk; [done|].
    injection E as <-. simpl. rewrite lookup_insert_eq. by eexists. }
  pose proof (keep_effect _ _ (rtc_keeps _ _ Hs) _ _ Hv) as Hv2. rewrite Hv2, Hv.
  unfold exec, record_idempotent_effect, of_result, get_db, mbind, M_bind in E'.
  destruct (String.eqb k ""); [by injection E' as <- <-|].
  destruct (clone_json p'); [|by injection E' as <- <-].
  destruct (to_jsonb _); [|by injection E' as <- <-]. cbn [w_db] in E'. rewrite Hv2 in E'.
  by injection E' as <- <-.
Qed.

End properties.
