(* ===== verification/Occurrences.v ===== *)
(** * An occurrence of a schedule is started once

    [accounted]: every execution a schedule started has its occurrence row, which
    names it.  The row is written in the transaction that starts the execution,
    and a started occurrence keeps its row ([Records]). *)
From S2P Require Import Prelude Python Serialization History Context Database Logic Leasing.
From S2P Require Import AuditLog.
From S2P Require Import Definitions Transitions Commit Activities Messages Timeouts Cron.
From S2P Require Import Schedules.
From S2P Require Import Queries Workers Store Frames StoreInvariant System Atomicity Writes.
From S2P Require Import Tables.
From S2P Require Import Records.
From stdpp Require Import relations.

Definition accounted_for (id : UUID) (e : Execution) (db : DB) : Prop :=
  ∀ s, exec_schedule_id e = Some s → exec_continued_from e = None →
  ∃ t o, exec_scheduled_at e = Some t ∧ db_occurrences db !! (s, t) = Some o ∧
    occ_status o = OStarted ∧ occ_workflow_id o = Some id.

Definition accounted (db : DB) : Prop :=
  ∀ id e, db_executions db !! id = Some e → accounted_for id e db.

(** Every started occurrence stays. *)
Lemma accounted_for_keeps id e db db' :
  keeps db db' → accounted_for id e db → accounted_for id e db'.
Proof.
  intros Hk He s Hs Hc. destruct (He s Hs Hc) as (t & o & Ht & Ho & Hst & Hw).
  destruct (keep_occurrence _ _ Hk _ _ Ho) as (o' & Ho' & E).
  rewrite E in Ho' by (by rewrite Hst). eauto 6.
Qed.

Lemma accounted_for_identity id e e' db :
  exec_identity e' = exec_identity e → accounted_for id e db → accounted_for id e' db.
Proof.
  unfold accounted_for. intros [= _ _ _ _ _ _ Es Et _ _ _ Ec]. by rewrite Es, Et, Ec.
Qed.

Lemma write_accounted db db' : write (but Starting) db db' → accounted db → accounted db'.
Proof.
  intros Hw HJ. assert (keeps db db') as Hk.
  { apply write_keeps. by eapply write_mono; [|done]. }
  assert (∀ id e, db_executions db !! id = Some e → accounted_for id e db') as HJ'.
  { intros id e He. eapply accounted_for_keeps; [done|]. by apply HJ. }
  destruct Hw as [|id e Hc Hs _|m Hm| | | | | | | | | | | |]; try exact HJ'.
  - intros i x. simpl. rewrite lookup_insert_Some. intros [[<- <-]|[_ Hi]]; [|by apply HJ'].
    intros s Hx Hn. destruct Hs as [Hs|[[? Hs]|Hs]]; congruence.
  - intros i x Hx. destruct (evolves_back _ _ _ _ _ Hm Hx) as (e & He & Hid%exec_kept).
    eapply accounted_for_identity; [done|]. by apply HJ'.
Qed.

Lemma written_accounted db db' : written (but Starting) db db' → accounted db → accounted db'.
Proof.
  induction 1 as [|d1 d2 d3 Hw _ IH]; [done|]. intros HJ. by eapply IH, write_accounted.
Qed.

Section occurrences.
Context `{PyStd}.

(** Programs that only write the histories and the tasks. *)
Definition same_schedules (db db' : DB) : Prop :=
  db_executions db' = db_executions db ∧ db_occurrences db' = db_occurrences db ∧
  db_schedules db' = db_schedules db.

Lemma wp_insert_event_same wid s t c n x a db :
  wp (insert_event wid s t c n x a) (fun _ => same_schedules db) db.
Proof. unfold insert_event. by wp_auto. Qed.

Lemma wp_wake_same w q db : wp (wake_workflow w q) (fun _ => same_schedules db) db.
Proof. unfold wake_workflow, insert_workflow_task, insert_task. by wp_auto. Qed.

(** The row that accounts for a new execution. *)
Definition accounts (sid : UUID) (at_ : Timestamp) (id : UUID) (db db' : DB) : Prop :=
  db_executions db' = db_executions db ∧ keeps db db' ∧
  ∃ o, db_occurrences db' !! (sid, at_) = Some o ∧ occ_status o = OStarted ∧
    occ_workflow_id o = Some id.

(** What is written keeps what is recorded, whatever else is known of it. *)
Lemma wp_keeps {A} (m : M A) (Q : A → DB → Prop) db :
  writes anything m → wp m Q db → wp m (fun a db' => Q a db' ∧ keeps db db') db.
Proof.
  intros Hw HQ env n a w' E. split; [by eapply HQ|].
  pose proof (Hw env (mk_world db n)) as Hk. rewrite E in Hk. by apply written_keeps in Hk.
Qed.

Lemma wp_start_buffered sid at_ id o db :
  db_occurrences db !! (sid, at_) = Some o → occ_status o = OBuffered →
  wp (start_buffered sid at_ id) (fun _ => accounts sid at_ id db) db.
Proof.
  intros Ho Hs. eapply wp_mono.
  - apply (wp_keeps _ (fun _ db' => db_executions db' = db_executions db ∧
      ∃ o, db_occurrences db' !! (sid, at_) = Some o ∧ occ_status o = OStarted ∧
        occ_workflow_id o = Some id)); [apply writes_start_buffered|].
    unfold start_buffered. wp_auto. simpl. split; [done|].
    rewrite lookup_alter_eq, Ho. simpl. rewrite bool_decide_eq_true_2 by done. eauto.
  - intros _ db' [[] ?]. by split_and!.
Qed.

Lemma wp_insert_started sid at_ id db :
  wp (insert_occurrence sid at_ OStarted (Some id) None) (fun _ => accounts sid at_ id db) db.
Proof.
  eapply wp_mono.
  - apply (wp_keeps _ (fun _ db' => db_executions db' = db_executions db ∧
      ∃ o, db_occurrences db' !! (sid, at_) = Some o ∧ occ_status o = OStarted ∧
        occ_workflow_id o = Some id)); [apply writes_insert_occurrence|].
    unfold insert_occurrence. wp_auto. simpl. split; [done|]. rewrite lookup_insert_eq. eauto.
  - intros _ db' [[] ?]. by split_and!.
Qed.

Lemma accounts_accounted sid at_ id e db db1 db2 :
  accounted db → exec_schedule_id e = Some sid → exec_scheduled_at e = Some at_ →
  db_executions db1 = <[id := e]> (db_executions db) → db_occurrences db1 = db_occurrences db →
  accounts sid at_ id db1 db2 → accounted db2.
Proof.
  intros HJ Hs Ht Hx Ho (Hx2 & Hk & o & Hoc & Hst & Hw) i x. rewrite Hx2, Hx, lookup_insert_Some.
  intros [[<- <-]|[_ Hi]].
  - intros s Hs' _. assert (s = sid) as -> by congruence. eauto 6.
  - apply (accounted_for_keeps _ _ db1); [done|]. unfold accounted_for. rewrite Ho. by apply HJ.
Qed.

Lemma wp_start_accounted sid sch at_ b db :
  accounted db →
  (b = true → ∃ o, db_occurrences db !! (sid, at_) = Some o ∧ occ_status o = OBuffered) →
  wp (_start_occurrence sid sch at_ b) (fun _ => accounted) db.
Proof.
  intros HJ Hb. unfold _start_occurrence, insert_execution.
  do 2 (wp_step; wp_step; cbv beta). wp_auto;
    (eapply wp_mono; [apply wp_insert_event_same|]; intros _ db2 (Hx2 & Ho2 & _); wp_auto;
     eapply wp_mono; [apply wp_wake_same|]; intros _ db3 (Hx3 & Ho3 & _); wp_auto);
    rewrite Hx2 in Hx3; rewrite Ho2 in Ho3.
  - destruct (Hb eq_refl) as (o & Ho & Hs). eapply wp_mono.
    { eapply wp_start_buffered; [|done]. by rewrite Ho3. }
    intros [] db4 Hacc. wp_auto. eapply (accounts_accounted _ _ _ _ db db3);
      [done| | |exact Hx3|exact Ho3|exact Hacc]; done.
  - eapply wp_mono; [apply wp_insert_started|]. intros [] db4 Hacc. wp_auto.
    eapply (accounts_accounted _ _ _ _ db db3);
      [done| | |exact Hx3|exact Ho3|exact Hacc]; done.
Qed.

(** A transaction that writes nothing else keeps the occurrences accounted for. *)
Lemma wp_accounted {A} (m : M A) db :
  writes (but Starting) m → accounted db → wp m (fun _ => accounted) db.
Proof.
  intros Hm HJ env n a w' E. pose proof (Hm env (mk_world db n)) as Hw. rewrite E in Hw.
  by apply (written_accounted _ _ Hw).
Qed.

Lemma wp_write_accounted f db (Q : unit → DB → Prop) :
  accounted db → write (but Starting) db (f db) → (∀ db', accounted db' → Q tt db') → wp (modify_db f) Q db.
Proof. intros HJ Hw HQ. apply wp_modify_db, HQ. by eapply write_accounted. Qed.

Lemma materialize_accounted ct : preserves accounted (materialize_due_schedule ct).
Proof.
  unfold materialize_due_schedule. apply preserves_bind.
  { intros env w. by rewrite (reads_clock ct env w). }
  intros now. apply preserves_transaction. intros db HJ. wp_auto; try done.
  - unfold buffered_occurrence in *. selected.
    eapply (wp_mono _ (fun _ => accounted)); [|intros ? ? Hx; by wp_auto].
    apply wp_start_accounted; [done|]. intros _. eauto.
  - eapply (wp_mono _ (fun _ => accounted)).
    + unfold record_occurrence. wp_auto; try (apply wp_accounted; [solve [writes_auto]|done]).
      eapply (wp_mono _ (fun _ => accounted)); [by apply wp_start_accounted|].
      intros ? ? Hx. by wp_auto.
    + intros [] db1 HJ1. apply wp_bind, wp_write_accounted; [done| |].
      { apply write_schedules, evolves_alter. by right. }
      intros db2 HJ2. by wp_auto.
Qed.

Lemma backfill_accounted id s e n a : preserves accounted (backfill_schedule id s e n a).
Proof.
  unfold backfill_schedule. preserves_auto. wp_auto. eapply wp_mono.
  { apply (wp_for_each _ _ (fun _ => accounted)); [done|]. intros k t db1 _ HJ1.
    unfold backfill_one. wp_auto; [done|].
    eapply wp_mono; [by apply wp_start_accounted|]. intros w db2 HJ2. by wp_auto. }
  intros k db1 HJ1. wp_auto. eapply wp_mono; [apply wp_accounted; [solve [writes_auto]|done]|].
  intros [] db2 HJ2. by wp_auto.
Qed.

Lemma operation_accounted A (m : M A) : operation A m → preserves accounted m.
Proof.
  intros Hm. destruct (operation_writes_unless (may:=but Starting) _ _ _ _ Hm) as [[p Hp]|Hw].
  - clear Hm. destruct Hp; [apply materialize_accounted|apply backfill_accounted|..];
      intros env wd HJ;
      (eapply written_accounted; [|exact HJ]; by eapply (privileged_writes (fun _ => True)); [by constructor|]).
  - intros env w HJ. by apply (written_accounted _ _ (Hw env w)).
Qed.

Lemma reachable_accounted db : reachable db → accounted db.
Proof. apply reachable_ind_op; [done|apply operation_accounted]. Qed.

(** C16 An occurrence of a schedule is started once: in every reachable database
    an execution that a schedule started -- not by continuing another -- has its
    occurrence row, started, with its identity, so no two executions started for
    the same instant of the same schedule. *)
Theorem occurrence_started_once db id e s :
  reachable db → db_executions db !! id = Some e →
  exec_schedule_id e = Some s → exec_continued_from e = None →
  ∃ t o, exec_scheduled_at e = Some t ∧ db_occurrences db !! (s, t) = Some o ∧
    occ_status o = OStarted ∧ occ_workflow_id o = Some id ∧
    ∀ id' e', db_executions db !! id' = Some e' → exec_schedule_id e' = Some s →
      exec_continued_from e' = None → exec_scheduled_at e' = Some t → id' = id.
Proof.
  intros Hr He Hs Hc. pose proof (reachable_accounted _ Hr) as HJ.
  destruct (HJ _ _ He s Hs Hc) as (t & o & Ht & Ho & Hst & Hw). exists t, o. split_and!; try done.
  intros id' e' He' Hs' Hc' Ht'. destruct (HJ _ _ He' s Hs' Hc') as (t' & o' & ? & Ho' & _ & Hw').
  assert (t' = t) as -> by congruence. assert (o' = o) as -> by congruence. congruence.
Qed.

End occurrences.
