(* ===== verification/Backfill.v ===== *)
(** * Backfilling a schedule

    [backfill_schedule] starts exactly the occurrences of an interval that have
    no row yet.  An occurrence it starts ahead of the schedule blocks the
    materialisation of schedules. *)
From S2P Require Import Prelude Python Serialization History Context Database Logic Leasing.
From S2P Require Import AuditLog.
From S2P Require Import Definitions Transitions Cron CronSpec Schedules Workers Store System.
From S2P Require Import Atomicity.
From S2P Require Import Writes Tables Records Occurrences.
From stdpp Require Import relations.

(** ** The occurrences of an interval *)
Section occurrences.
Context `{PyStd} (expression timezone_name : string) (limit : Z) (end_at : Timestamp).

(** What the loop has collected when its cursor is at [now]. *)
Definition collected (parsed : CronExpression) (timezone : Timestamp → Z) (lo now : Timestamp)
    (l : list Timestamp) : Prop :=
  StronglySorted Z.lt l ∧ ∀ t, t ∈ l ↔ occurs parsed timezone t ∧ (lo < t ≤ now)%Z.

Lemma sorted_snoc l t : StronglySorted Z.lt l → (∀ x, x ∈ l → (x < t)%Z) → StronglySorted Z.lt (l ++ [t]).
Proof.
  induction 1 as [|x l Hs IH Hx]; intros Hl; simpl; [by repeat constructor|].
  constructor; [apply IH; intros y Hy; apply Hl; by right|].
  apply Forall_app. split; [done|]. constructor; [apply Hl; by left|done].
Qed.

Lemma collected_snoc parsed timezone lo now l t :
  collected parsed timezone lo now l → (lo ≤ now)%Z → occurs parsed timezone t → (now < t)%Z →
  (∀ t', (now < t' < t)%Z → ¬ occurs parsed timezone t') →
  collected parsed timezone lo t (l ++ [t]).
Proof.
  intros [Hs Hl] Hlo Ht Hnow Hno. split.
  - apply sorted_snoc; [done|]. intros x [_ Hx]%Hl. lia.
  - intros t'. rewrite elem_of_app, list_elem_of_singleton, Hl. split.
    + intros [[? ?]| ->]; (split; [done|lia]).
    + intros [Ho Hb]. destruct (Z.lt_trichotomy t' t) as [Hlt|[->|?]]; [|by right|lia].
      left. split; [done|]. destruct (Z_le_gt_dec t' now); [lia|]. destruct (Hno t'); [lia|done].
Qed.

Lemma collected_end parsed timezone lo now l t :
  collected parsed timezone lo now l → (now ≤ end_at < t)%Z →
  (∀ t', (now < t' < t)%Z → ¬ occurs parsed timezone t') →
  collected parsed timezone lo end_at l.
Proof.
  intros [Hs Hl] Hb Hno. split; [done|]. intros t'. rewrite Hl. split; intros [Ho ?]; (split; [done|]).
  - lia.
  - destruct (Z_le_gt_dec t' now); [lia|]. destruct (Hno t'); [lia|done].
Qed.

(** The loop returns the occurrences up to [end_at], at most [limit]. *)
Lemma backfill_collects parsed timezone lo fuel cursor offset l r :
  parse_cron expression = Ok parsed → zone_info timezone_name = Ok timezone →
  dt_offset cursor = Some offset →
  (lo ≤ dt_wall cursor - offset ≤ end_at)%Z →
  collected parsed timezone lo (dt_wall cursor - offset) l → (Z.of_nat (length l) ≤ limit)%Z →
  backfill_occurrences fuel expression timezone_name limit cursor end_at l = Ok r →
  collected parsed timezone lo end_at r ∧ (Z.of_nat (length r) ≤ limit)%Z.
Proof.
  intros Hp Hz. revert cursor offset l.
  induction fuel as [|fuel IH]; intros cursor offset l Ho Hlo Hc Hl; simpl; unfold mbind, Result_bind;
    (destruct (next_cron_time expression cursor timezone_name) as [t|] eqn:Hn; [|done]);
    destruct (next_cron_found _ _ _ _ _ _ _ Ho Hp Hz Hn) as (Ht & Hb & Hno); cbv zeta in *;
    (destruct (Z.ltb_spec end_at t);
      [intros [= <-]; split; [|done]; by apply (collected_end _ _ _ _ _ t Hc); [lia|]|]);
    (destruct (Z.ltb_spec limit (Z.of_nat (length (l ++ [t])))); [done|]); [done|].
  apply (IH (utc t) 0%Z); [done|simpl; lia| |done]. simpl. rewrite Z.sub_0_r.
  apply (collected_snoc _ _ _ _ _ _ Hc); [lia|done|lia|done].
Qed.

(** With one unit more than the limit the fuel is never used up. *)
Lemma backfill_fuel fuel cursor l e :
  (limit < Z.of_nat (fuel + length l))%Z →
  backfill_occurrences fuel expression timezone_name limit cursor end_at l = Err e →
  (∃ c, next_cron_time expression c timezone_name = Err e) ∨
  e = ValueError "backfill exceeds the occurrence limit".
Proof.
  revert cursor l. induction fuel as [|fuel IH]; intros cursor l Hf; simpl; unfold mbind, Result_bind;
    (destruct (next_cron_time expression cursor timezone_name) as [t|e'] eqn:Hn;
      [|intros [= ->]; left; by exists cursor]);
    (destruct (Z.ltb_spec end_at t); [done|]); rewrite length_app; simpl;
    (destruct (Z.ltb_spec limit (Z.of_nat (length l + 1))); [intros [= <-]; by right|]); [lia|].
  apply IH. rewrite length_app. simpl. lia.
Qed.

End occurrences.

(** ** Starting them *)
Section backfill.
Context `{PyStd}.

(** An execution that was started for an occurrence. *)
Definition started_for (db : DB) (id : UUID) (schedule : ScheduleRow) (t : Timestamp) : Prop :=
  ∃ w o e, db_occurrences db !! (id, t) = Some o ∧ occ_status o = OStarted ∧ occ_workflow_id o = Some w ∧
    db_executions db !! w = Some e ∧ exec_schedule_id e = Some id ∧ exec_scheduled_at e = Some t ∧
    exec_workflow_type e = sch_workflow_type schedule ∧
    exec_definition_version e = sch_definition_version schedule ∧
    exec_queue_name e = sch_queue_name schedule.

Lemma started_for_keeps db db' id schedule t :
  keeps db db' → started_for db id schedule t → started_for db' id schedule t.
Proof.
  intros Hk (w & o & e & Ho & Hs & Hw & He & F1 & F2 & F3 & F4 & F5).
  destruct (keep_occurrence _ _ Hk _ _ Ho) as (o' & Ho' & E). rewrite E in Ho' by by rewrite Hs.
  destruct (keep_execution _ _ Hk _ _ He) as (e' & He' & [= E1 E2 _ E3 _ _ E4 E5 _ _ _ _]).
  exists w, o, e'. split_and!; congruence.
Qed.

(** The rows a started occurrence adds. *)
Lemma wp_start_started id schedule t db :
  wp (_start_occurrence id schedule t false)
    (fun _ db' => keeps db db' ∧ started_for db' id schedule t ∧
      ∀ key, key ≠ (id, t) → db_occurrences db' !! key = db_occurrences db !! key) db.
Proof.
  eapply wp_mono.
  - apply (wp_keeps _ (fun _ db' => started_for db' id schedule t ∧
      ∀ key, key ≠ (id, t) → db_occurrences db' !! key = db_occurrences db !! key));
      [eapply writes_start_occurrence; done|].
    unfold _start_occurrence, insert_execution. do 2 (wp_step; wp_step; cbv beta). wp_auto.
    eapply wp_mono; [apply wp_insert_event_same|]. intros _ db2 (Hx2 & Ho2 & _). wp_auto.
    eapply wp_mono; [apply wp_wake_same|]. intros _ db3 (Hx3 & Ho3 & _).
    unfold insert_occurrence. wp_auto. split.
    + eexists _, _, _. simpl. rewrite lookup_insert_eq, Hx3, Hx2. simpl. rewrite lookup_insert_eq.
      by split_and!.
    + intros key Hne. simpl. by rewrite lookup_insert_ne, Ho3, Ho2 by done.
  - intros w db' [[? ?] ?]. done.
Qed.

(** The occurrences that have no row. *)
Definition missing (db : DB) (id : UUID) (l : list Timestamp) : list Timestamp :=
  filter (fun t => db_occurrences db !! (id, t) = None) l.

(** What a backfill of [l] did: it started the missing ones and nothing else. *)
Definition backfilled (id : UUID) (schedule : ScheduleRow) (l : list Timestamp) (db db' : DB) : Prop :=
  keeps db db' ∧ (∀ t, t ∈ missing db id l → started_for db' id schedule t) ∧
  ∀ key, (key.1 = id → key.2 ∉ missing db id l) → db_occurrences db' !! key = db_occurrences db !! key.

Lemma missing_cons db id t l :
  missing db id (t :: l) = if decide (db_occurrences db !! (id, t) = None) then t :: missing db id l
                           else missing db id l.
Proof. unfold missing. rewrite filter_cons. by repeat case_decide. Qed.

Lemma missing_same db db' id l :
  (∀ t, t ∈ l → db_occurrences db' !! (id, t) = db_occurrences db !! (id, t)) →
  missing db' id l = missing db id l.
Proof.
  induction l as [|t l IH]; intros Hs; [done|]. rewrite !missing_cons, (Hs t) by by left.
  rewrite IH; [done|]. intros x Hx. apply Hs. by right.
Qed.

Lemma wp_backfill_each id schedule l k db :
  NoDup l →
  wp (for_each l k (backfill_one id schedule))
    (fun k' db' => k' = (k + Z.of_nat (length (missing db id l)))%Z ∧ backfilled id schedule l db db') db.
Proof.
  intros Hnd. revert k db. induction Hnd as [|t l Ht Hnd IH]; intros k db; simpl.
  { apply wp_ret. split; [simpl; lia|]. split_and!; [done| |done]. intros t Hin. by apply elem_of_nil in Hin. }
  apply wp_bind. unfold backfill_one. wp_auto.
  - destruct (decide (db_occurrences db !! (id, t) = None)) as [E|E].
    { rewrite E in *. match goal with Hs : bool_decide _ = true |- _ =>
        apply bool_decide_eq_true in Hs as [? ?]; done end. }
    eapply wp_mono; [apply IH|]. intros k' db' [Hk Hb]. unfold backfilled in *.
    by rewrite missing_cons, decide_False by done.
  - match goal with Hs : bool_decide _ = false |- _ =>
      apply bool_decide_eq_false, eq_None_not_Some in Hs; rename Hs into E end.
    eapply wp_mono; [apply wp_start_started|]. intros w db1 (Hk1 & Hst & Hsame). wp_auto.
    assert (missing db1 id l = missing db id l) as Hm.
    { apply missing_same. intros x Hx. apply Hsame. intros [= ->]. done. }
    eapply wp_mono; [apply IH|]. intros k' db' [-> (Hk & Hs & Ho)]. rewrite Hm in *.
    unfold backfilled. rewrite missing_cons, decide_True by done. split; [simpl; lia|].
    split_and!; [by etrans| |].
    + intros x [->|Hx]%elem_of_cons; [by eapply started_for_keeps|by apply Hs].
    + intros key Hkey. rewrite Ho, Hsame; [done| |].
      * intros ->. apply Hkey; [done|]. by left.
      * intros Hid Hin. apply Hkey; [done|]. by right.
Qed.

(** The occurrences of a schedule between two instants, in order. *)
Definition schedule_minutes (schedule : ScheduleRow) (lo hi : Timestamp) (l : list Timestamp) : Prop :=
  ∃ parsed timezone, parse_cron (sch_cron_expression schedule) = Ok parsed ∧
    zone_info (sch_timezone schedule) = Ok timezone ∧ StronglySorted Z.lt l ∧
    ∀ t, t ∈ l ↔ occurs parsed timezone t ∧ (lo < t ≤ hi)%Z.

Lemma next_cron_parses expression timezone_name cursor t :
  next_cron_time expression cursor timezone_name = Ok t →
  ∃ parsed timezone, parse_cron expression = Ok parsed ∧ zone_info timezone_name = Ok timezone.
Proof.
  unfold next_cron_time, mbind, Result_bind. destruct (dt_offset cursor); [|done].
  destruct (parse_cron expression); [|done].
  destruct (zone_info timezone_name) as [zone|[]]; try done. by eauto.
Qed.

Lemma backfill_minutes schedule fuel limit cursor offset hi l :
  dt_offset cursor = Some offset → (dt_wall cursor - offset ≤ hi)%Z → (0 ≤ limit)%Z →
  backfill_occurrences fuel (sch_cron_expression schedule) (sch_timezone schedule) limit cursor hi [] = Ok l →
  schedule_minutes schedule (dt_wall cursor - offset) hi l ∧ (Z.of_nat (length l) ≤ limit)%Z.
Proof.
  intros Ho Hle Hlim Hl.
  assert (∃ t, next_cron_time (sch_cron_expression schedule) cursor (sch_timezone schedule) = Ok t) as [t Ht].
  { destruct fuel; simpl in Hl; unfold mbind, Result_bind in Hl; destruct (next_cron_time _ _ _); try done; eauto. }
  apply next_cron_parses in Ht as (parsed & timezone & Hp & Hz).
  apply (backfill_collects _ _ _ _ parsed timezone (dt_wall cursor - offset) _ _ offset) in Hl
    as [[Hs Hin] Hlen]; [|done|done|done|lia| |simpl; lia].
  - split; [|done]. by exists parsed, timezone.
  - split; [constructor|]. intros x. split; [intros Hx; by apply elem_of_nil in Hx|lia].
Qed.

Lemma schedule_minutes_nodup schedule lo hi l : schedule_minutes schedule lo hi l → NoDup l.
Proof.
  intros (_ & _ & _ & _ & Hs & _). induction Hs as [|t l _ IH Ht]; constructor; [|done].
  intros Hin. rewrite Forall_forall in Ht. specialize (Ht _ Hin). lia.
Qed.

Lemma wp_backfill id start_at end_at limit audit db :
  wp (backfill_schedule id start_at end_at limit audit)
    (fun n db' => ∃ schedule start_offset end_offset l,
      db_schedules db !! id = Some schedule ∧
      dt_offset start_at = Some start_offset ∧ dt_offset end_at = Some end_offset ∧
      schedule_minutes schedule (dt_wall start_at - start_offset - minute_us)
        (dt_wall end_at - end_offset) l ∧ (Z.of_nat (length l) ≤ limit)%Z ∧
      n = Z.of_nat (length (missing db id l)) ∧ backfilled id schedule l db db') db.
Proof.
  unfold backfill_schedule. destruct (dt_offset start_at) as [so|] eqn:Hso; [|apply wp_throw].
  destruct (dt_offset end_at) as [eo|] eqn:Heo; [|apply wp_throw]. cbv zeta.
  destruct (Z.ltb_spec (dt_wall end_at - eo) (dt_wall start_at - so)); [apply wp_throw|].
  destruct ((limit <? 1)%Z || (100 <? limit)%Z) eqn:Hlim; [apply wp_throw|].
  apply wp_transaction, wp_bind, wp_get_db.
  destruct (db_schedules db !! id) as [schedule|] eqn:Hsch; [|apply wp_throw].
  apply wp_bind, wp_of_result. intros l Hl.
  apply (backfill_minutes _ _ _ _ so) in Hl as [Hmin Hlen]; [|done|simpl; unfold minute_us; lia|lia].
  simpl in Hmin. replace (dt_wall start_at - minute_us - so)%Z
    with (dt_wall start_at - so - minute_us)%Z in Hmin by lia.
  apply wp_bind. eapply wp_mono; [apply wp_backfill_each; by eapply schedule_minutes_nodup|].
  intros n db1 [-> Hb]. apply wp_bind. eapply wp_mono.
  { apply (wp_keeps _ (fun _ db' => db_occurrences db' = db_occurrences db1)); [apply writes_audit|].
    unfold record_api_audit. by wp_auto. }
  intros [] db2 [Ho Hk]. apply wp_ret. exists schedule, so, eo, l. split_and!; try done.
  destruct Hb as (Hk1 & Hst & Hrest). split_and!; [by etrans| |by rewrite Ho].
  intros t Ht. by eapply started_for_keeps, Hst.
Qed.

(** C23 A backfill starts exactly what is missing: when it returns, the minutes of
    the schedule's expression from a minute before the start to the end -- in the
    schedule's time zone, at most [limit] -- all have their occurrence; those that
    had none were started now, as executions of the schedule's definition, and
    counted; no other occurrence was touched. *)
Theorem backfill_exact id start_at end_at limit audit env db n db' :
  exec (backfill_schedule id start_at end_at limit audit) env db = (Ok n, db') →
  ∃ schedule start_offset end_offset l,
    db_schedules db !! id = Some schedule ∧
    dt_offset start_at = Some start_offset ∧ dt_offset end_at = Some end_offset ∧
    schedule_minutes schedule (dt_wall start_at - start_offset - minute_us)
      (dt_wall end_at - end_offset) l ∧ (Z.of_nat (length l) ≤ limit)%Z ∧
    n = Z.of_nat (length (missing db id l)) ∧ backfilled id schedule l db db'.
Proof.
  unfold exec. destruct (backfill_schedule id start_at end_at limit audit env (mk_world db 0)) as [r w] eqn:E.
  intros [= -> <-]. by apply wp_backfill in E.
Qed.

(** ** A backfill ahead of the schedule *)

Lemma wp_insert_existing id t status w r o db Q :
  db_occurrences db !! (id, t) = Some o → wp (insert_occurrence id t status w r) Q db.
Proof.
  intros Ho. unfold insert_occurrence. wp_auto. rewrite Ho in *.
  match goal with Hs : bool_decide _ = false |- _ => apply bool_decide_eq_false in Hs; by destruct Hs end.
Qed.

Lemma wp_record_existing id schedule t o db Q :
  db_occurrences db !! (id, t) = Some o → wp (record_occurrence id schedule t) Q db.
Proof.
  intros Ho. unfold record_occurrence. wp_auto; try by eapply wp_insert_existing.
  unfold _start_occurrence, insert_execution. do 2 (wp_step; wp_step; cbv beta). wp_auto.
  eapply wp_mono; [apply wp_insert_event_same|]. intros _ db2 (_ & Ho2 & _). wp_auto.
  eapply wp_mono; [apply wp_wake_same|]. intros _ db3 (_ & Ho3 & _). wp_auto.
  eapply wp_insert_existing. by rewrite Ho3, Ho2.
Qed.

(** An occurrence that already has a row blocks the materialisation: while its
    schedule is the first due one and no buffered occurrence can start, every
    pass raises and changes nothing, so no schedule is served. *)
Lemma materialize_blocked now id row o env db :
  buffered_occurrence db (env_locked env) = None →
  due_schedule db (env_locked env) now = Some (id, row) →
  db_occurrences db !! (id, sch_next_run_at row) = Some o →
  ∃ e, exec (materialize_due_schedule (Some now)) env db = (Err e, db).
Proof.
  intros Hb Hd Ho.
  pose proof (operation_atomic _ _ (op_materialize (Some now)) env (mk_world db 0)) as Hat.
  unfold exec. destruct (materialize_due_schedule (Some now) env (mk_world db 0)) as [[b|e] w] eqn:E.
  - exfalso. unfold materialize_due_schedule, clock_or_now, transaction, locked_rows, get_db, of_result,
      mbind, M_bind, mret, M_ret in E. cbn [w_db] in E. rewrite Hb, Hd in E.
    destruct (next_run _ _ _) as [next|]; [|done].
    destruct (record_occurrence id row (sch_next_run_at row) env (mk_world db 0)) as [[[]|] w1] eqn:Er;
      [|done]. by apply (wp_record_existing _ _ _ _ _ (fun _ _ => False) Ho) in Er.
  - exists e. f_equal. by apply (Hat eq_refl).
Qed.

End backfill.
