(* ===== verification/Retries.v ===== *)
(** * Activity attempts are bounded

    A retry is another task of the same activity, with the next attempt number
    and the recorded policy; the last attempt the policy allows has no retry.
    The holder of a task reports what the task's row says ([System.genuine]), which
    never changes ([Records]). *)
From S2P Require Import Prelude Python Serialization History Context Database Logic Leasing.
From S2P Require Import AuditLog.
From S2P Require Import Definitions Transitions Commit Activities Messages Timeouts Cron.
From S2P Require Import Schedules.
From S2P Require Import Queries Workers Store Frames StoreInvariant System Atomicity Writes.
From S2P Require Import Tables.
From stdpp Require Import relations.

(** The attempts of a policy are not exceeded. *)
Definition within (t : Task) : Prop :=
  ∀ policy max_attempts, task_task_type t = TActivity →
    recorded_policy (default JNull (task_input t)) = Ok (policy, max_attempts) →
    (task_attempt t ≤ Z.max 1 max_attempts)%Z.

Definition bounded (db : DB) : Prop := ∀ id t, db_tasks db !! id = Some t → within t.

Lemma within_identity t t' : task_identity t' = task_identity t → within t → within t'.
Proof. unfold within. by intros [= _ -> _ _ _ -> ->]. Qed.

Lemma write_bounded db db' : write (but Retrying) db db' → bounded db → bounded db'.
Proof.
  intros Hw HB. destruct Hw as [| | | |id t _ [Ht|Ht]|m Hm| | | | | | | | |]; try exact HB.
  - intros i x. simpl. rewrite lookup_insert_Some. intros [[<- <-]|[_ Hi]]; [|by eapply HB].
    intros p k _ _. lia.
  - by destruct Ht.
  - intros i x Hx. destruct (evolves_back _ _ _ _ _ Hm Hx) as (t & Ht & [->|[_ Hid _]]);
      [by eapply HB|]. eapply within_identity; [done|by eapply HB].
Qed.

Lemma written_bounded db db' : written (but Retrying) db db' → bounded db → bounded db'.
Proof.
  induction 1 as [|d1 d2 d3 Hw _ IH]; [done|]. intros HB. by eapply IH, write_bounded.
Qed.

Section retries.
Context `{PyStd}.

Lemma wp_insert_within id t db :
  bounded db → within t → wp (insert_task id t) (fun _ => bounded) db.
Proof.
  intros HB Ht. unfold insert_task. wp_auto. intros i x. simpl. rewrite lookup_insert_Some.
  intros [[<- <-]|[_ Hi]]; [done|by eapply HB].
Qed.

(** The task of the next attempt, when the attempt was not the last. *)
Lemma within_retry_task w t e c n v now policy max_attempts :
  recorded_policy (default JNull (task_input t)) = Ok (policy, max_attempts) →
  (n < max_attempts)%Z → within (retry_task w t e c (n + 1) v now).
Proof. intros Hp Hn p k _. simpl. rewrite Hp. intros [= <- <-]. lia. Qed.

(** Writes without a retry, from a bounded database. *)
Lemma wp_bounded {A} (m : M A) db :
  writes (but Retrying) m → bounded db → wp m (fun _ => bounded) db.
Proof.
  intros Hm HB env n a w' E. pose proof (Hm env (mk_world db n)) as Hw. rewrite E in Hw.
  by apply (written_bounded _ _ Hw).
Qed.

Ltac wp_bounds := eapply wp_mono; [apply wp_bounded; [solve [writes_auto]|done]|intros ? ? ?; cbv beta].

Lemma timeout_bounded q r : preserves bounded (process_activity_timeout q r).
Proof.
  unfold process_activity_timeout. apply preserves_bind.
  { destruct r; [apply preserves_ret|apply preserves_random]. }
  intros rv. apply preserves_transaction. intros db HB. wp_auto; [|done].
  apply wp_fetch_execution. wp_auto; try done. unfold due_timeout in *. selected.
  unfold record_timeout. wp_auto.
  eapply (wp_writes_insert_event (may:=but Retrying) db); [done|]. intros db1 Hw Htk. wp_auto.
  eapply wp_writes_update_one; [done|by rewrite Htk|by eapply timed_out_open|by case_match; auto|].
  clear Hw. intros k db2 Hw. pose proof (written_bounded _ _ Hw HB) as HB2. wp_auto.
  - wp_bounds. wp_bounds. by wp_auto.
  - eapply wp_mono; [apply wp_insert_within; [done|]|].
    + eapply within_retry_task; [done|lia].
    + intros [] db3 HB3. wp_bounds. by wp_auto.
Qed.

Lemma wp_record_failure_bounded task f is_final v policy max_attempts db :
  is_genuine db task → bounded db → recorded_policy (lt_input task) = Ok (policy, max_attempts) →
  is_final = (max_attempts <=? lt_attempt task)%Z →
  wp (record_failure task f is_final v) (fun _ => bounded) db.
Proof.
  intros [t [Ht _ _ _ _ Hat Hin]] HB Hp Hfinal. unfold record_failure. wp_auto.
  match goal with E : find_task _ _ _ = Some _ |- _ => apply find_task_some in E as [Ht' _] end.
  assert (t1 = t) as -> by congruence.
  eapply wp_mono; [apply wp_bounded; [solve [writes_auto]|exact HB]|]. intros e db1 HB1. wp_auto.
  wp_bounds. wp_auto.
  eapply wp_mono; [apply wp_bounded; [apply writes_finish; by case_match; auto|done]|].
  intros k db3 HB3. cbv beta. destruct is_final; wp_auto.
  - wp_bounds. wp_bounds. by wp_auto.
  - eapply wp_mono; [apply wp_insert_within; [done|]|].
    + rewrite Hat. rewrite Hin in Hp. eapply within_retry_task; [done|lia].
    + intros [] db4 HB4. wp_bounds. by wp_auto.
Qed.

Lemma failure_bounded task f r env n db :
  is_genuine db task → bounded db → bounded (leaves (fail_activity task f r) env n db).
Proof.
  intros Hg HB. unfold leaves, fail_activity. case_match; try done. case_match; [|done].
  case_match; [|done]. unfold of_result at 1, mbind at 1, M_bind at 1.
  destruct (recorded_policy (lt_input task)) as [[policy max_attempts]|] eqn:Hp; [|done].
  set (is_final := (max_attempts <=? lt_attempt task)%Z).
  destruct r as [rv|]; unfold random_random, utc_now, of_result, mbind, M_bind, mret, M_ret;
    (destruct (if is_final then _ else _) as [delay|]; [|done]); cbn [w_db w_ticks];
    (destruct (datetime_add _ delay) as [v|]; [|done]);
    match goal with |- bounded (w_db (record_failure ?t ?f ?b ?v ?env ?w).2) =>
      pose proof (wp_record_failure_bounded t f b v _ _ _ Hg HB Hp eq_refl env (w_ticks w)) as Hwp;
      unfold record_failure, transaction in *; cbn [w_ticks] in Hwp;
      match goal with |- context [match ?m env w with _ => _ end] =>
        destruct (m env w) as [[a|e] w'] eqn:E; [|exact HB]
      end end; by eapply Hwp.
Qed.

(** A step of a system whose workers report the rows of their tasks. *)
Inductive attempt_step (db : DB) : DB → Prop :=
| attempt_op A (m : M A) env n :
    operation_of (fun _ _ => True) (is_genuine db) A m → attempt_step db (leaves m env n db).

Lemma genuine_operation db A (m : M A) :
  operation_of (fun _ _ => True) (is_genuine db) A m → operation A m.
Proof. destruct 1; by constructor. Qed.

Lemma attempt_step_step db db' : attempt_step db db' → step db db'.
Proof. destruct 1 as [A m env n Hm]. by apply step_op, (genuine_operation db). Qed.

Lemma attempt_step_bounded db db' : attempt_step db db' → bounded db → bounded db'.
Proof.
  destruct 1 as [A m env n Hm]; intros HB.
  destruct (operation_writes_unless (may:=but Retrying) _ _ _ _ Hm) as [[p Hp]|Hw].
  - clear Hm. destruct Hp; [| |by apply failure_bounded|by apply (timeout_bounded _ _ env (mk_world db n))|..];
      (eapply written_bounded; [|exact HB]);
      (eapply (fun p m Hp Hq =>
         privileged_writes (may:=but Retrying) (is_genuine db) p _ m Hp Hq env (mk_world db n));
       [constructor|done]).
  - by apply (written_bounded _ _ (Hw env (mk_world db n))).
Qed.

End retries.

Section properties.
Context `{PyStd}.


End properties.

(** ** Backoff that overflows *)
Section overflow.
Context `{PyStd}.

(** [coefficient ** (attempt - 1)] is computed before the maximum applies, so an
    overflow is not caught by [maximum_interval_seconds]. *)
Lemma retry_delay_overflow policy attempt r initial coefficient maximum :
  SFleb (S754_zero false) r = true → SFleb r (float_of_Z 1) = true →
  (v ← dict_item "initial_interval_seconds" policy; py_float v) = Ok initial →
  (v ← dict_item "backoff_coefficient" policy; py_float v) = Ok coefficient →
  py_float (dict_get_json "maximum_interval_seconds" policy) = Ok maximum →
  float_pow coefficient (attempt - 1) = None →
  retry_delay policy attempt r = Err (OverflowError "Numerical result out of range").
Proof.
  intros H0 H1 Hi Hc Hm Hp. unfold retry_delay. rewrite H0, H1, Hi, Hc.
  unfold mbind, Result_bind. simpl negb. cbv iota.
  destruct (dict_get_json "maximum_interval_seconds" policy) eqn:Em; try discriminate Hm;
    rewrite ?Hm; by rewrite Hp.
Qed.

(** The pass over timed-out attempts then raises, and it is the same attempt
    that is found again: no other attempt of the queue is timed out. *)
Lemma timeout_overflow q rv env db id t policy max_attempts x :
  due_timeout db (env_now env) (env_locked env) q = Some (id, t) →
  recorded_policy (default JNull (task_input t)) = Ok (policy, max_attempts) →
  (task_attempt t < max_attempts)%Z → retry_delay policy (task_attempt t) rv = Err x →
  exec (process_activity_timeout q (Some rv)) env db = (Err x, db).
Proof.
  intros Hdue Hp Hat Hd. pose proof Hdue as Hsel. unfold due_timeout in Hsel. selected.
  assert (∃ e, db_executions db !! task_workflow_id t = Some e ∧ exec_status e = WRunning) as (e & He & Hr).
  { match goal with E : timed_out _ _ _ _ = true |- _ => unfold timed_out, with_execution in E;
      destruct (db_executions db !! task_workflow_id t) as [e|]; [exists e|by rewrite andb_false_r in E] end.
    split; [done|]. match goal with E : context [exec_status e] |- _ =>
      rewrite !andb_true_iff, !bool_decide_eq_true in E; by decompose [and] E end. }
  unfold exec, process_activity_timeout, transaction, fetch_execution, db_now, locked_rows, get_db,
    of_result, mbind, M_bind, mret, M_ret. cbn [w_db w_ticks]. rewrite Hdue. cbn [w_db w_ticks].
  rewrite He, bool_decide_eq_true_2 by done. cbn [negb]. rewrite Hp.
  rewrite (proj2 (Z.leb_gt _ _) Hat), Hd. done.
Qed.

End overflow.
