(* ===== verification/Families.v ===== *)
(** * Parents and children

    A child with the parent close policy [terminate] does not outlive its parent
    ([family]): whatever closes an execution first terminates the running
    children of that policy, and their descendants before them.  The cascade
    ends: parents are older than their children. *)
From S2P Require Import Prelude Python Serialization History Commands Context Replay Database.
From S2P Require Import Logic Leasing AuditLog Definitions Transitions Commit Activities Messages.
From S2P Require Import Timeouts Cron Schedules Queries Workers Store Frames StoreInvariant.
From S2P Require Import System.
From S2P Require Import Atomicity Writes Tables.
From stdpp Require Import relations.

(** [e] is a child of [p] that does not outlive it. *)
Definition dependent (p : UUID) (e : Execution) : Prop :=
  exec_parent_workflow_id e = Some p ∧ exec_parent_close_policy e = Some "terminate".

Definition running_in (db : DB) (id : UUID) : Prop :=
  ∃ e, db_executions db !! id = Some e ∧ exec_status e = WRunning.

Record family (db : DB) : Prop := {
  fam_rows : ∀ id e, db_executions db !! id = Some e → row_ok e = true;
  fam_parent : ∀ c e p, db_executions db !! c = Some e → dependent p e → exec_status e = WRunning →
    running_in db p
}.

(** No dependent child of [p] is running. *)
Definition childless (p : UUID) (db : DB) : Prop :=
  ∀ c e, db_executions db !! c = Some e → dependent p e → exec_status e ≠ WRunning.

(** [w] runs, or was taken down as a child. *)
Definition closable (w : UUID) (db : DB) : Prop :=
  ∃ e, db_executions db !! w = Some e ∧
    (exec_status e = WRunning ∨ exec_status e = WTerminated ∧ is_Some (exec_parent_workflow_id e)).

Definition closing (w : UUID) (db : DB) : Prop := family db ∧ childless w db ∧ closable w db.
Definition alive (w : UUID) (db : DB) : Prop := family db ∧ running_in db w.

(** ** Writes that decide nothing *)
Lemma identity_dependent p e e' : exec_identity e' = exec_identity e → dependent p e' → dependent p e.
Proof. unfold dependent. by intros [= _ _ _ _ _ _ _ _ -> _ -> _]. Qed.

Lemma quiet_change e e' :
  (e' = e ∨ exec_change (but Deciding) e e') →
  exec_identity e' = exec_identity e ∧ exec_status e' = exec_status e ∧
  (row_ok e = true → row_ok e' = true).
Proof. intros [->|[Hi [Hs|Hs] [Hr|Hr]]]; first [done|by destruct Hs|by destruct Hr]. Qed.

Lemma execution_ok_row e : execution_ok e = true → row_ok e = true.
Proof.
  destruct e. unfold row_ok, execution_ok. simpl. rewrite !andb_true_iff. intros [[[? ?] ?] ?].
  by split_and!.
Qed.

Lemma check_execution_row db id e : check_execution db id e = Ok tt → execution_ok e = true.
Proof.
  unfold check_execution. destruct (bool_decide _); [done|]. destruct (bool_decide _); [done|].
  destruct (negb _); [done|]. destruct (_ || _) eqn:E; [done|]. intros _.
  by apply orb_false_iff in E as [E%negb_false_iff _].
Qed.

(** What a write that decides nothing does to the executions. *)
Lemma quiet_executions db db' :
  write (but Deciding) db db' →
  evolves (exec_change (but Deciding)) (db_executions db) (db_executions db') ∨
  ∃ id e, db_executions db !! id = None ∧ db_executions db' = <[id := e]> (db_executions db) ∧
    row_ok e = true ∧ exec_parent_workflow_id e = None.
Proof.
  destruct 1 as [|id e Hc Hs Hp|m Hm| | | | | | | | | | | |]; try (left; apply evolves_refl).
  - right. exists id, e. destruct Hp as [Hp|Hp]; [|by destruct Hp].
    pose proof (check_execution_ok _ _ _ Hc) as (Hf & _). split_and!; try done.
    apply execution_ok_row. by eapply check_execution_row.
  - by left.
Qed.

Lemma running_quiet db db' id : write (but Deciding) db db' → running_in db id → running_in db' id.
Proof.
  intros [Hm|(i & x & Hf & Hx & _)]%quiet_executions (e & He & Hr).
  - destruct (evolves_some _ _ _ _ _ Hm He) as (e' & He' & (_ & Hs & _)%quiet_change).
    exists e'. split; [done|congruence].
  - exists e. split; [|done]. rewrite Hx, lookup_insert_ne; [done|congruence].
Qed.

Lemma family_quiet db db' : write (but Deciding) db db' → family db → family db'.
Proof.
  intros Hw [H1 H2]. assert (∀ p, running_in db p → running_in db' p) as Hr.
  { intros p. by apply running_quiet. }
  apply quiet_executions in Hw as [Hm|(i & x & Hf & Hx & Hok & Hp)].
  - split.
    + intros id e' He'. destruct (evolves_back _ _ _ _ _ Hm He') as (e & He & (_ & _ & Hrow)%quiet_change).
      eauto.
    + intros c e' p He' Hd Hst.
      destruct (evolves_back _ _ _ _ _ Hm He') as (e & He & (Hi & Hs & _)%quiet_change).
      apply Hr, (H2 c e); [done|by eapply identity_dependent|congruence].
  - split; rewrite Hx.
    + intros id e [[<- <-]|[_ He]]%lookup_insert_Some; eauto.
    + intros c e p [[<- <-]|[_ He]]%lookup_insert_Some; [|eauto]. intros [? _]. congruence.
Qed.

Lemma childless_quiet w db db' : write (but Deciding) db db' → childless w db → childless w db'.
Proof.
  intros [Hm|(i & x & Hf & Hx & Hok & Hp)]%quiet_executions Hc c e'.
  - intros He' Hd. destruct (evolves_back _ _ _ _ _ Hm He') as (e & He & (Hi & -> & _)%quiet_change).
    apply (Hc c e He). by eapply identity_dependent.
  - rewrite Hx, lookup_insert_Some. intros [[<- <-]|[_ He]]; [|by eapply Hc]. intros [? _]. congruence.
Qed.

Lemma closable_quiet w db db' : write (but Deciding) db db' → closable w db → closable w db'.
Proof.
  intros [Hm|(i & x & Hf & Hx & _)]%quiet_executions (e & He & Hs).
  - destruct (evolves_some _ _ _ _ _ Hm He) as (e' & He' & (Hi & Hst & _)%quiet_change).
    exists e'. split; [done|]. rewrite Hst.
    injection Hi as _ _ _ _ _ _ _ _ -> _ _ _. done.
  - exists e. split; [|done]. rewrite Hx, lookup_insert_ne; [done|congruence].
Qed.

(** ** Programs that decide nothing *)
Section quiet.
Context (I : DB → Prop) (HI : ∀ db db', write (but Deciding) db db' → I db → I db').
Lemma written_quiet db db' : written (but Deciding) db db' → I db → I db'.
Proof. induction 1; eauto. Qed.
Lemma wp_quiet {A} (m : M A) db : writes (but Deciding) m → I db → wp m (fun _ => I) db.
Proof.
  intros Hm Hdb env n a w' E. pose proof (Hm env (mk_world db n)) as Hw. rewrite E in Hw.
  by apply (written_quiet _ _ Hw).
Qed.
End quiet.

Lemma closing_quiet w db db' : write (but Deciding) db db' → closing w db → closing w db'.
Proof. intros Hw (?&?&?). split_and!; eauto using family_quiet, childless_quiet, closable_quiet. Qed.
Lemma alive_quiet w db db' : write (but Deciding) db db' → alive w db → alive w db'.
Proof. intros Hw (?&?). split; eauto using family_quiet, running_quiet. Qed.

(** [wp] through a program that decides nothing, keeping [I]. *)
Ltac wp_calm HI :=
  eapply wp_mono; [apply (wp_quiet _ HI); [solve [writes_auto]|done]|intros ? ? ?; cbv beta in *].

(** ** The cascade *)

(** A child taken down with its parent. *)
Definition open_or_killed (e : Execution) : Prop :=
  exec_status e = WRunning ∨ exec_status e = WTerminated.
Record killed (e e' : Execution) : Prop := {
  k_identity : exec_identity e' = exec_identity e;
  k_child : is_Some (exec_parent_workflow_id e);
  k_status : exec_status e' = WTerminated;
  k_open : open_or_killed e
}.

Lemma identity_parent e e' :
  exec_identity e' = exec_identity e → exec_parent_workflow_id e' = exec_parent_workflow_id e.
Proof. by intros [= _ _ _ _ _ _ _ _ -> _ _ _]. Qed.

Lemma killed_trans e1 e2 e3 : killed e1 e2 → killed e2 e3 → killed e1 e3.
Proof. intros [? ? ? ?] [? ? ? ?]. split; [congruence|done..]. Qed.

Lemma evolves_trans {K V} `{Countable K} (R : V → V → Prop) (m1 m2 m3 : gmap K V) :
  (∀ a b c, R a b → R b c → R a c) → evolves R m1 m2 → evolves R m2 m3 → evolves R m1 m3.
Proof.
  intros HR H1 H2 k. specialize (H1 k). specialize (H2 k).
  destruct (m1 !! k), (m2 !! k), (m3 !! k); try done.
  destruct H1 as [->|H1], H2 as [->|H2]; eauto.
Qed.

(** What closing an execution asks of its new row. *)
Definition closes (f : Execution → Execution) (w : UUID) (db : DB) : Prop :=
  ∀ e, db_executions db !! w = Some e →
    exec_identity (f e) = exec_identity e ∧ exec_status (f e) ≠ WRunning ∧
    (row_ok e = true → row_ok (f e) = true).

Lemma family_close w f db :
  family db → childless w db → closes f w db →
  family (db <| db_executions := alter f w (db_executions db) |>).
Proof.
  intros [H1 H2] Hc Hf. split; simpl.
  - intros id e. destruct (decide (id = w)) as [->|].
    + rewrite lookup_alter_eq. intros (e0 & He0 & ->)%fmap_Some. destruct (Hf _ He0) as (_&_&?). eauto.
    + rewrite lookup_alter_ne by done. apply H1.
  - intros c e p. destruct (decide (c = w)) as [->|].
    + rewrite lookup_alter_eq. intros (e0 & He0 & ->)%fmap_Some.
      by destruct (Hf _ He0) as (_&?&_).
    + rewrite lookup_alter_ne by done. intros He Hd Hr. destruct (H2 _ _ _ He Hd Hr) as (ep & Hep & Hst).
      exists ep. split; [|done]. simpl. rewrite lookup_alter_ne; [done|]. intros ->. by apply (Hc c e).
Qed.

Lemma childless_killed w m db :
  evolves killed (db_executions db) m → childless w db → childless w (db <| db_executions := m |>).
Proof.
  intros Hm Hc c e' He' Hd. simpl in He'.
  destruct (evolves_back _ _ _ _ _ Hm He') as (e & He & [->|[Hi _ Hs _]]); [by eapply Hc|]. by rewrite Hs.
Qed.

(** The new row of a terminated execution. *)
Lemma row_ok_terminated e now failure n :
  open_or_killed e → row_ok e = true →
  row_ok (e <| exec_status := WTerminated |> <| exec_next_seq := n |>
            <| exec_closed_at := Some now |> <| exec_failure := failure |>) = true.
Proof.
  destruct e. unfold open_or_killed, row_ok, execution_ok. simpl.
  intros [-> | ->]; rewrite !andb_true_iff; intros H; decompose [and] H; by split_and!.
Qed.

Section families.
Context `{PyStd}.

Lemma wp_same_executions {A} (m : M A) db (Q : A → DB → Prop) :
  frame m → (∀ a db', db_executions db' = db_executions db → Q a db') → wp m Q db.
Proof. intros Hm HQ. eapply wp_mono; [apply Hm|]. intros a db' [_ Hx]. by apply HQ. Qed.

(** [family] and [childless] depend on the executions only. *)
Lemma family_same db db' : db_executions db' = db_executions db → family db → family db'.
Proof. intros E [H1 H2]. split; unfold running_in; rewrite E; eauto. Qed.
Lemma childless_same w db db' : db_executions db' = db_executions db → childless w db → childless w db'.
Proof. unfold childless. by intros ->. Qed.

Lemma wp_terminate_child_family c s db :
  family db → childless c db →
  (∃ e, db_executions db !! c = Some e ∧ open_or_killed e ∧ is_Some (exec_parent_workflow_id e)) →
  wp (terminate_child c s) (fun _ db' => family db' ∧ ¬ running_in db' c ∧
    evolves killed (db_executions db) (db_executions db')) db.
Proof.
  intros HF Hc (e & He & Ho & Hp). unfold terminate_child. wp_auto. apply wp_insert_event_raw.
  intros ev db1 _ _ _ Happ. pose proof (app_executions _ _ _ _ Happ) as Hx. wp_auto.
  unfold update_execution. wp_auto. unfold kill_open_tasks, kill_tasks.
  apply wp_same_executions; [apply frame_kill_tasks|]. intros _ db2 Hx2.
  apply wp_same_executions; [apply frame_reject_pending_updates|]. intros _ db3 Hx3.
  set (f := fun e0 : Execution => _) in Hx2.
  assert (db_executions db3 = alter f c (db_executions db)) as Hx' by (rewrite Hx3, Hx2; simpl; by rewrite Hx).
  split_and!.
  - eapply family_same; [|apply (family_close c f db HF Hc)]; [done|].
    intros e0 He0. assert (e0 = e) as -> by congruence. split_and!; [by destruct e|done|].
    by apply row_ok_terminated.
  - intros (e' & He' & Hr). rewrite Hx', lookup_alter_eq, He in He'. injection He' as <-. done.
  - rewrite Hx'. apply evolves_alter. intros e0 He0. assert (e0 = e) as -> by congruence.
    right. split; [by destruct e|done|done|done].
Qed.

Lemma killed_not_running id db db' :
  evolves killed (db_executions db) (db_executions db') → ¬ running_in db id → ¬ running_in db' id.
Proof.
  intros Hm Hn (e' & He' & Hr). destruct (evolves_back _ _ _ _ _ Hm He') as (e & He & [->|[_ _ Hs _]]);
    [apply Hn; by exists e|congruence].
Qed.

(** One pass over children that were running in [db0]. *)
Lemma wp_terminate_children fuel p db0 l db :
  (∀ q db, family db → wp (terminate_descendants fuel q) (fun _ db' => family db' ∧ childless q db' ∧
     evolves killed (db_executions db) (db_executions db')) db) →
  (∀ c e, (c, e) ∈ l → db_executions db0 !! c = Some e ∧ dependent p e ∧ exec_status e = WRunning) →
  family db → evolves killed (db_executions db0) (db_executions db) →
  wp (for_each l tt (fun _ child =>
        _ ← terminate_descendants fuel child.1;
        terminate_child child.1 (exec_next_seq child.2)))
    (fun _ db' => family db' ∧ evolves killed (db_executions db) (db_executions db') ∧
       ∀ c e, (c, e) ∈ l → ¬ running_in db' c) db.
Proof.
  intros IH. revert db. induction l as [|[c e] l IHl]; intros db Hl HF Hev; simpl.
  { apply wp_ret. split_and!; [done|apply evolves_refl|]. intros c e []%not_elem_of_nil. }
  destruct (Hl c e) as (He & Hd & Hr); [by left|]. wp_auto.
  eapply wp_mono; [by apply IH|]. intros [] db1 (HF1 & Hc1 & Hev1). cbv beta.
  pose proof (evolves_trans _ _ _ _ killed_trans Hev Hev1) as Hev01.
  eapply wp_mono; [apply wp_terminate_child_family; [done|done|]|].
  { destruct (evolves_some _ _ _ _ _ Hev01 He) as (e1 & He1 & [->|[Hi Hp Hs Ho]]).
    - exists e. split_and!; [done|by left|]. destruct Hd as [-> _]. by eexists.
    - exists e1. split_and!; [done|by right|]. by rewrite (identity_parent _ _ Hi). }
  intros [] db2 (HF2 & Hn2 & Hev2). cbv beta.
  eapply wp_mono; [apply IHl; [by intros; apply Hl; right|done|]|].
  { by eapply evolves_trans; [apply killed_trans|exact Hev01|]. }
  intros [] db3 (HF3 & Hev3 & Hn3). split_and!; [done| |].
  - eapply evolves_trans; [apply killed_trans|exact Hev1|].
    by eapply evolves_trans; [apply killed_trans|exact Hev2|].
  - intros x y [[= -> ->]|Hin]%elem_of_cons; [|by eapply Hn3]. by eapply killed_not_running.
Qed.

Lemma wp_terminate_family fuel p db :
  family db →
  wp (terminate_descendants fuel p) (fun _ db' => family db' ∧ childless p db' ∧
    evolves killed (db_executions db) (db_executions db')) db.
Proof.
  revert p db. induction fuel as [|fuel IH]; intros p db HF; simpl; [apply wp_throw|]. wp_auto.
  assert (∀ c e, (c, e) ∈ dependent_children db p ↔
    db_executions db !! c = Some e ∧ dependent p e ∧ exec_status e = WRunning) as Hl.
  { intros c e. unfold dependent_children, dependent.
    rewrite elem_of_select, !andb_true_iff, !bool_decide_eq_true. tauto. }
  eapply wp_mono; [apply (wp_terminate_children fuel p db); [done| |done|apply evolves_refl]|].
  { intros c e. apply Hl. }
  intros [] db' (HF' & Hev & Hn). split_and!; [done| |done].
  intros c e' He' Hd Hr. destruct (evolves_back _ _ _ _ _ Hev He') as (e & He & Hk).
  apply (Hn c e); [|by exists e']. apply Hl. destruct Hk as [->|[Hi _ Hs _]]; [done|congruence].
Qed.

Lemma wp_descendants_closing w db :
  alive w db → wp (_terminate_descendants w) (fun _ db' => closing w db' ∧
    evolves killed (db_executions db) (db_executions db')) db.
Proof.
  intros (HF & e & He & Hr). unfold _terminate_descendants. wp_auto.
  eapply wp_mono; [by apply wp_terminate_family|]. intros [] db' (HF' & Hc & Hev).
  split; [|done]. split_and!; [done..|].
  destruct (evolves_some _ _ _ _ _ Hev He) as (e' & He' & Hk). exists e'. split; [done|].
  destruct Hk as [->|[Hi Hp Hs _]]; [by left|]. right. by rewrite (identity_parent _ _ Hi).
Qed.

(** ** The operations *)

(** The update that closes [w], once it is childless. *)
Lemma wp_close w f (Q : unit → DB → Prop) db :
  closing w db → closes f w db → (∀ db', family db' → Q tt db') → wp (update_execution w f) Q db.
Proof.
  intros (HF & Hc & _) Hf HQ. unfold update_execution. wp_auto. apply HQ. by apply family_close.
Qed.

Lemma closable_open w db e :
  closable w db → db_executions db !! w = Some e → open_or_killed e.
Proof. intros (e' & He' & Hs) He. assert (e' = e) as <- by congruence. destruct Hs as [|[]]; [by left|by right]. Qed.

Lemma closes_terminated w n now db :
  closing w db →
  closes (fun e => e <| exec_status := WTerminated |> <| exec_next_seq := n |>
                     <| exec_closed_at := Some now |>) w db.
Proof.
  intros (_ & _ & Hc) e He. pose proof (closable_open _ _ _ Hc He) as Ho.
  split_and!; [by destruct e|done|]. intros Hrow.
  pose proof (row_ok_terminated e now (exec_failure e) n Ho Hrow) as E. by destruct e.
Qed.

Lemma terminate_workflow_family w r a : preserves family (terminate_workflow w r a).
Proof.
  unfold terminate_workflow, no_such_workflow. apply preserves_transaction. intros db HF. wp_auto.
  apply wp_fetch_execution. destruct (db_executions db !! w) as [e|] eqn:He; wp_auto;
    [|by wp_calm family_quiet].
  eapply wp_mono; [apply wp_descendants_closing; split; [done|by exists e]|].
  intros [] db1 [Hc1 _]. wp_auto.
  do 2 (wp_calm (closing_quiet w); wp_auto). wp_calm (closing_quiet w). wp_auto.
  eapply wp_close; [done|by apply closes_terminated|]. intros db5 HF5. wp_auto.
  do 2 (wp_calm family_quiet; wp_auto). by wp_calm family_quiet.
Qed.

Lemma wp_commit_closed_family task e b payload db :
  alive (lt_workflow_id task) db → wp (commit_closed task e b payload) (fun _ => family) db.
Proof.
  intros HA. unfold commit_closed. cbv zeta. apply wp_bind.
  eapply wp_mono; [by apply wp_descendants_closing|]. intros [] db1 [Hc1 _].
  do 3 (apply wp_bind; wp_calm (closing_quiet (lt_workflow_id task))).
  do 2 (apply wp_bind; wp_step; cbv beta). apply wp_bind. eapply wp_close; [done| |].
  { intros x Hx. split_and!; [by destruct x|by destruct b|]. intros Hrow. destruct x.
    unfold row_ok, execution_ok in *. simpl in *. destruct b; simpl;
      rewrite !andb_true_iff in *; decompose [and] Hrow; by split_and!. }
  intros db5 HF5. apply wp_bind. wp_calm family_quiet. by wp_calm family_quiet.
Qed.

Lemma wp_commit_cancellation_family task e db :
  alive (lt_workflow_id task) db → wp (commit_cancellation task e) (fun _ => family) db.
Proof.
  intros HA. unfold commit_cancellation. wp_auto.
  wp_calm (alive_quiet (lt_workflow_id task)). wp_auto.
  eapply wp_mono; [by apply wp_descendants_closing|]. intros [] db2 [Hc2 _]. wp_auto.
  do 2 (wp_calm (closing_quiet (lt_workflow_id task)); wp_auto).
  eapply wp_close; [done|by apply closes_terminated|]. intros db5 HF5. wp_auto.
  wp_calm family_quiet. by wp_calm family_quiet.
Qed.

(** An execution without a parent is not taken down. *)
Lemma wp_continue_family w tid s c db :
  closing w db →
  (∀ e, db_executions db !! w = Some e → exec_parent_workflow_id e = None → exec_status e = WRunning) →
  wp (_commit_continue_as_new w tid s c) (fun _ => family) db.
Proof.
  intros Hc Hrun. unfold _commit_continue_as_new, no_such_workflow. wp_auto. apply wp_fetch_execution.
  destruct (db_executions db !! w) as [e|] eqn:He; wp_auto.
  match goal with E : bool_decide (is_Some _) = false |- _ =>
    apply bool_decide_eq_false, eq_None_not_Some in E; rename E into Hp end.
  assert (alive w db) as HA by (split; [apply Hc|exists e; auto]).
  set (open := fun db => closing w db ∧ running_in db w).
  assert (∀ d d', write (but Deciding) d d' → open d → open d') as Hopen.
  { intros d d' Hw [? ?]. split; [by eapply closing_quiet|by eapply running_quiet]. }
  assert (open db) as Hdb by (split; [done|apply HA]).
  do 6 (wp_calm Hopen; wp_auto).
  eapply wp_close; [by match goal with H : open _ |- _ => apply H end| |].
  { intros x Hx. split_and!; [by destruct x|done|]. intros Hrow.
    match goal with H : open _ |- _ => destruct H as [_ (x' & Hx' & Hr)] end.
    assert (x' = x) as -> by congruence. destruct x. unfold row_ok, execution_ok in *. simpl in *. subst.
    rewrite !andb_true_iff in *. decompose [and] Hrow. by split_and!. }
  intros db8 HF8. wp_auto. wp_calm family_quiet. by wp_calm family_quiet.
Qed.

(** A child of a running execution. *)
Lemma alive_child w id e db :
  alive w db → check_execution db id e = Ok tt → exec_parent_workflow_id e = Some w →
  alive w (db <| db_executions := <[id := e]> (db_executions db) |>).
Proof.
  intros ([H1 H2] & Hr) Hck Hp. pose proof (check_execution_ok _ _ _ Hck) as (Hf & _).
  assert (∀ p, running_in db p → running_in (db <| db_executions := <[id := e]> (db_executions db) |>) p) as Hg.
  { intros p (x & Hx & Hs). exists x. split; [|done]. simpl. rewrite lookup_insert_ne; [done|congruence]. }
  split; [|by apply Hg]. split; simpl.
  - intros i x. rewrite lookup_insert_Some. intros [[<- <-]|[_ Hx]]; [|eauto].
    apply execution_ok_row. by eapply check_execution_row.
  - intros c x p. rewrite lookup_insert_Some. intros [[<- <-]|[_ Hx]] Hd Hs; apply Hg; [|eauto].
    destruct Hd as [Hd _]. by assert (p = w) as -> by congruence.
Qed.

(** A command of a running execution. *)
Lemma wp_append_command_alive w q s c db :
  alive w db → wp (append_command w q s c) (fun _ => alive w) db.
Proof.
  intros HA. unfold append_command. destruct c as [c|c|c|c|c|c].
  all: try (unfold _append_activity_command, _append_timer_command, _append_marker_command;
    apply wp_quiet; [apply alive_quiet|solve [writes_auto]|done]).
  unfold _append_child_workflow_command. wp_auto. wp_calm (alive_quiet w). wp_auto.
  wp_calm (alive_quiet w). wp_auto.
  eapply (wp_mono _ (fun _ => alive w)).
  - unfold insert_execution. wp_auto. apply alive_child; [done|by destruct a3|done].
  - intros _ db3 HA3. wp_calm (alive_quiet w). wp_calm (alive_quiet w). by wp_auto.
Qed.

Lemma wp_commit_commands_family task q s cs db :
  alive (lt_workflow_id task) db → wp (commit_commands task q s cs) (fun _ => family) db.
Proof.
  intros HA. unfold commit_commands. destruct cs as [|c0 cs0]; [apply wp_throw|].
  destruct (omap is_continuation (c0 :: cs0)) as [|k ks].
  - wp_auto. eapply wp_mono.
    { apply (wp_for_each _ _ (fun _ => alive (lt_workflow_id task))); [done|].
      intros n c db1 _ HA1. by apply wp_append_command_alive. }
    intros n db1 HA1. cbv beta. wp_calm (alive_quiet (lt_workflow_id task)).
    match goal with Hx : alive _ ?d |- family ?d => apply Hx end.
  - wp_auto. eapply wp_mono; [by apply wp_descendants_closing|]. intros [] db1 [Hc1 Hev].
    apply wp_continue_family; [done|]. intros e1 He1 Hp.
    destruct HA as (_ & e & He & Hr). destruct (evolves_some _ _ _ _ _ Hev He) as (e' & He' & Hk).
    assert (e1 = e') as -> by congruence. destruct Hk as [->|[Hi [? Hc] _ _]]; [done|].
    rewrite (identity_parent _ _ Hi) in Hp. congruence.
Qed.

Lemma commit_family task r : preserves family (commit_workflow_replay task r).
Proof.
  unfold commit_workflow_replay. preserves_auto. wp_auto. apply wp_running_execution.
  intros e He Hr. assert (alive (lt_workflow_id task) db) as HA by (split; [done|by exists e]).
  apply wp_bind, (wp_mono _ (fun _ => family)).
  - unfold commit_consequences. destruct (rr_status r); wp_auto;
      eauto using wp_commit_cancellation_family, wp_commit_commands_family, wp_commit_closed_family.
  - intros _ db1 HF1. by wp_calm family_quiet.
Qed.

Lemma operation_family A (m : M A) : operation A m → preserves family m.
Proof.
  intros Hm. destruct (operation_writes_unless (may:=but Deciding) _ _ _ _ Hm) as [[p Hp]|Hw].
  - clear Hm. destruct Hp; try solve [apply terminate_workflow_family|apply commit_family];
      intros env wd HF; (eapply (written_quiet _ family_quiet); [|exact HF]);
      (eapply (privileged_writes (fun _ => True)); [by constructor|done]).
  - intros env wd HF. by apply (written_quiet _ family_quiet _ _ (Hw env wd)).
Qed.

Lemma reachable_family db : reachable db → family db.
Proof. apply reachable_ind_op; [by split|apply operation_family]. Qed.

(** ** The cascade ends *)

(** A rank that grows from parents to children, below the number of
    executions. *)
Record ranked_by (rank : UUID → nat) (db : DB) : Prop := {
  rank_bound : ∀ id, is_Some (db_executions db !! id) → rank id < size (db_executions db);
  rank_parent : ∀ c e p, db_executions db !! c = Some e → exec_parent_workflow_id e = Some p →
    is_Some (db_executions db !! p) ∧ rank p < rank c
}.

Lemma evolves_size {K V} `{Countable K} (R : V → V → Prop) (m m' : gmap K V) :
  evolves R m m' → size m' = size m.
Proof.
  intros Hm. rewrite <- !size_dom. f_equal. apply set_eq. intros k. rewrite !elem_of_dom.
  specialize (Hm k). destruct (m !! k), (m' !! k); naive_solver.
Qed.

Lemma ranked_evolves (R : Execution → Execution → Prop) rank db m :
  (∀ e e', R e e' → exec_identity e' = exec_identity e) →
  evolves R (db_executions db) m → ranked_by rank db → ranked_by rank (db <| db_executions := m |>).
Proof.
  intros HR Hm [H1 H2]. split; simpl.
  - intros id [e' He']. rewrite (evolves_size _ _ _ Hm).
    destruct (evolves_back _ _ _ _ _ Hm He') as (e & He & _). eauto.
  - intros c e' p He' Hp. destruct (evolves_back _ _ _ _ _ Hm He') as (e & He & Hk).
    destruct (H2 c e p He) as [[ep Hep] Hlt].
    { rewrite <- Hp. destruct Hk as [->|Hk]; [done|]. symmetry. by apply identity_parent, HR. }
    split; [|done]. destruct (evolves_some _ _ _ _ _ Hm Hep) as (ep' & -> & _). by eexists.
Qed.

Lemma ranked_same rank db db' :
  db_executions db' = db_executions db → ranked_by rank db → ranked_by rank db'.
Proof. intros E [H1 H2]. split; rewrite E; auto. Qed.

Lemma write_ranked db db' :
  write anything db db' → (∃ rank, ranked_by rank db) → ∃ rank, ranked_by rank db'.
Proof.
  intros Hw [rank Hr]. destruct Hw as [|id e Hc _ _|m Hm| | | | | | | | | | | |];
    try (exists rank; by apply (ranked_same rank db)).
  - destruct (check_execution_ok _ _ _ Hc) as (Hf & _ & (Hp & _) & _). destruct Hr as [H1 H2].
    exists (fun u => if decide (u = id) then size (db_executions db) else rank u). split; simpl.
    + intros u Hu. rewrite map_size_insert_None by done. case_decide; [lia|].
      rewrite lookup_insert_ne in Hu by done. apply H1 in Hu. lia.
    + intros c x p. rewrite lookup_insert_Some. intros [[<- <-]|[Hne Hx]] Hxp.
      * rewrite Hxp in Hp. unfold reference_ok in Hp. apply bool_decide_eq_true in Hp.
        rewrite (decide_True (P:=id = id)) by done.
        assert (p ≠ id) as Hne by (intros ->; rewrite Hf in Hp; by destruct Hp).
        rewrite (decide_False (P:=p = id)), lookup_insert_ne by done. auto.
      * rewrite (decide_False (P:=c = id)) by done. destruct (H2 _ _ _ Hx Hxp) as [Hpx ?].
        assert (p ≠ id) as Hpn by (intros ->; rewrite Hf in Hpx; by destruct Hpx).
        by rewrite (decide_False (P:=p = id)), lookup_insert_ne by done.
  - exists rank. eapply ranked_evolves; [|exact Hm|done]. by intros ? ? [].
Qed.

Lemma reachable_ranked db : reachable db → ∃ rank, ranked_by rank db.
Proof.
  apply (reachable_write_ind (fun db => ∃ rank, ranked_by rank db)); [|apply write_ranked].
  exists (fun _ => 0). split; cbn [empty_db db_executions]; [|by intros c e p; rewrite lookup_empty].
  intros id. rewrite lookup_empty. by intros [].
Qed.

(** Two loops whose bodies agree while an invariant holds. *)
Lemma for_each_agree {A} (I : DB → Prop) (l : list A) (body body' : unit → A → M unit) env db n :
  I db →
  (∀ x db n, x ∈ l → I db → body tt x env (mk_world db n) = body' tt x env (mk_world db n)) →
  (∀ x db, x ∈ l → I db → wp (body tt x) (fun _ => I) db) →
  for_each l tt body env (mk_world db n) = for_each l tt body' env (mk_world db n).
Proof.
  intros HI Hb Hw. revert db n HI. induction l as [|x l IH]; intros db n HI; [done|].
  simpl. unfold mbind, M_bind. rewrite <- Hb; [|by left|done].
  destruct (body tt x env (mk_world db n)) as [[[]|e] [db1 n1]] eqn:E; [|done].
  apply IH; [by intros; apply Hb; [right|]|by intros; apply Hw; [right|]|].
  by apply (Hw x db ltac:(by left) HI env n tt (mk_world db1 n1)).
Qed.

(** What the cascade needs of the database it runs on. *)
Definition bounded_below (rank : UUID → nat) (k : nat) (db : DB) : Prop :=
  family db ∧ ranked_by rank db ∧ size (db_executions db) = k.

Lemma bounded_below_killed rank k db db' :
  family db' → evolves killed (db_executions db) (db_executions db') →
  bounded_below rank k db → bounded_below rank k db'.
Proof.
  intros HF Hev (_ & Hr & <-). split_and!; [done| |by apply (evolves_size killed)].
  eapply (ranked_same _ (db <| db_executions := db_executions db' |>)); [done|].
  eapply ranked_evolves; [|exact Hev|done]. by intros ? ? [].
Qed.

Lemma wp_bounded_below fuel rank k p db :
  bounded_below rank k db → wp (terminate_descendants fuel p) (fun _ => bounded_below rank k) db.
Proof.
  intros Hb. eapply wp_mono; [apply wp_terminate_family, Hb|].
  intros [] db' (HF & _ & Hev). by eapply bounded_below_killed.
Qed.

Lemma terminate_fuel rank k fuel fuel' p env db n :
  bounded_below rank k db → is_Some (db_executions db !! p) →
  k ≤ rank p + fuel → k ≤ rank p + fuel' →
  terminate_descendants fuel p env (mk_world db n) = terminate_descendants fuel' p env (mk_world db n).
Proof.
  revert fuel' p db n. induction fuel as [|fuel IH]; intros [|fuel'] p db n (HF & Hr & Hk) Hp Hle Hle';
    try (pose proof (rank_bound _ _ Hr _ Hp); lia).
  assert (∀ c e, (c, e) ∈ dependent_children db p → db_executions db !! c = Some e ∧ rank p < rank c ∧
    exec_status e = WRunning ∧ is_Some (exec_parent_workflow_id e)) as Hl.
  { intros c e. unfold dependent_children. rewrite elem_of_select, !andb_true_iff, !bool_decide_eq_true.
    intros (He & (Hpar & _) & Hst). split_and!; [done|by eapply (rank_parent _ _ Hr)|done|by rewrite Hpar]. }
  cbn [terminate_descendants]. unfold get_db, mbind at 1 3, M_bind at 1 3. cbn [w_db].
  set (J := fun d => bounded_below rank k d ∧ evolves killed (db_executions db) (db_executions d)).
  apply (for_each_agree J).
  - split; [done|apply evolves_refl].
  - intros [c e] d m Hin [Hd Hev]. destruct (Hl c e Hin) as (He & Hlt & _). cbn [fst snd].
    unfold mbind, M_bind. rewrite (IH fuel' c d m Hd); [done| |lia|lia].
    destruct (evolves_some _ _ _ _ _ Hev He) as (e' & -> & _). by eexists.
  - intros [c e] d Hin [Hd Hev]. destruct (Hl c e Hin) as (He & _ & Hst & Hpar). cbn [fst snd].
    apply wp_bind. eapply wp_mono; [apply wp_terminate_family, Hd|]. intros [] d1 (HF1 & Hc1 & Hev1).
    pose proof (evolves_trans _ _ _ _ killed_trans Hev Hev1) as Hev01.
    eapply wp_mono; [apply wp_terminate_child_family; [done|done|]|].
    { destruct (evolves_some _ _ _ _ _ Hev01 He) as (e1 & He1 & [->|[Hi Hpe Hs Ho]]).
      - exists e. split_and!; [done|by left|done].
      - exists e1. split_and!; [done|by right|]. by rewrite (identity_parent _ _ Hi). }
    intros [] d2 (HF2 & _ & Hev2). cbv beta. split.
    + eapply bounded_below_killed; [done|exact Hev2|]. by eapply bounded_below_killed.
    + by eapply evolves_trans; [apply killed_trans|exact Hev01|].
Qed.

(** The cascade that terminates the descendants of an execution ends: its
    fuel, one more than the number of executions, is never used up -- any
    greater fuel gives the same outcome and the same database. *)
Theorem terminate_descendants_ends fuel p env db n :
  reachable db → is_Some (db_executions db !! p) → size (db_executions db) < fuel →
  _terminate_descendants p env (mk_world db n) = terminate_descendants fuel p env (mk_world db n).
Proof.
  intros Hr Hp Hf. destruct (reachable_ranked _ Hr) as [rank Hrank].
  unfold _terminate_descendants, get_db, mbind at 1, M_bind at 1. cbn [w_db].
  apply (terminate_fuel rank (size (db_executions db))); [|done|lia|lia].
  split_and!; [by apply reachable_family|done|done].
Qed.

(** C14 A child does not outlive its parent: in every reachable database, a running
    execution whose parent close policy is [terminate] has a running parent --
    whatever closed, cancelled, failed or continued the parent. *)
Theorem children_closed_with_parent db c e p :
  reachable db → db_executions db !! c = Some e → exec_parent_workflow_id e = Some p →
  exec_parent_close_policy e = Some "terminate" → exec_status e = WRunning →
  ∃ ep, db_executions db !! p = Some ep ∧ exec_status ep = WRunning.
Proof.
  intros Hr He Hp Hpol Hs. apply (fam_parent _ (reachable_family _ Hr) c e p); [done| |done].
  by split.
Qed.


End families.
