(* ===== verification/Client.v ===== *)
(** * The direct client (engine/client.py)

    Handles run operations and poll the database for an outcome.  A poll sees the
    database as it is then; between polls anything happens. *)
From S2P Require Import Prelude Python Serialization History Commands Context Replay Database.
From S2P Require Import Logic Leasing AuditLog Definitions Transitions Commit Activities Messages.
From S2P Require Import Timeouts Cron Schedules Queries Workers Store StoreInvariant System.
From S2P Require Import Atomicity.
From stdpp Require Import relations.

(** engine/client.py, lines 51-54 *)
Record WorkflowSnapshot : Type := mk_snapshot {
  snap_execution : ExecutionSummary;
  snap_history : list HistoryRecord
}.

(** engine/client.py, lines 57-61 *)
Record UpdateHandle : Type := mk_update_handle { uh_workflow_id : UUID; uh_update_id : string }.

(** When a poll looks: the environment and the database it finds. *)
Definition Poll : Type := Env * DB.

Section Client.
Context `{PyStd}.

(** engine/client.py, lines 63-67 *)
Definition update_describe (handle : UpdateHandle) : M UpdateRow :=
  record ← get_update (uh_workflow_id handle) (uh_update_id handle);
  match record with
  | None =>
    throw (WorkflowNotFoundError ("workflow update " +:+ py_repr (JStr (uh_update_id handle)) +:+
                                  " does not exist"))
  | Some row => mret row
  end.

(** [while True: ...; await asyncio.sleep(poll_interval)]: [look] gives the
    outcome of a poll, or [None] to go on; the polls made so far may be too few. *)
Fixpoint poll_until {A R : Type} (describe : M A) (look : A → option (Py R)) (polls : list Poll)
    : option (Py R) :=
  match polls with
  | [] => None
  | (env, db) :: polls =>
    match (exec describe env db).1 with
    | Err e => Some (Err e)
    | Ok a => match look a with Some r => Some r | None => poll_until describe look polls end
    end
  end.

(** [result]: with a timeout, [polls] are those before it expires. *)
Definition result_of {A R : Type} (describe : M A) (look : A → option (Py R)) (timeout : option float)
    (poll_interval : float) (polls : list Poll) : option (Py R) :=
  if SFleb poll_interval (float_of_Z 0) then Some (Err (ValueError "poll_interval must be positive"))
  else match poll_until describe look polls, timeout with
       | Some r, _ => Some r
       | None, Some _ => Some (Err TimeoutError)
       | None, None => None
       end.

(** engine/client.py, lines 75-80 *)
Definition update_outcome (update_id : string) (record : UpdateRow) : option (Py JSON) :=
  match upd_status record with
  | UCompleted => Some (Ok (_json (upd_result record)))
  | URejected => Some (Err (WorkflowUpdateRejectedError update_id (_json (upd_failure record))))
  | UPending => None
  end.

(** engine/client.py, lines 69-86 *)
Definition update_result (handle : UpdateHandle) : option float → float → list Poll → option (Py JSON) :=
  result_of (update_describe handle) (update_outcome (uh_update_id handle)).

(** engine/client.py, lines 93-97 *)
Definition describe (id : UUID) : M ExecutionSummary :=
  execution ← get_execution id;
  match execution with
  | None => throw (WorkflowNotFoundError ("workflow " +:+ uuid_str id +:+ " does not exist"))
  | Some e => mret e
  end.

(** engine/client.py, lines 99-101 *)
Definition snapshot (id : UUID) : M WorkflowSnapshot :=
  execution ← describe id;
  history ← get_history id;
  mret (mk_snapshot execution history).

(** engine/client.py, lines 103-105 *)
Definition query {Q : Type} (id : UUID) (projection : WorkflowSnapshot → Py Q) : M Q :=
  s ← snapshot id; of_result (projection s).

(** engine/client.py, lines 107-114 *)
Definition client_signal (id : UUID) (name : string) (payload : JSON) (signal_id : string) : M bool :=
  send_signal id signal_id name payload None.

(** engine/client.py, lines 116-130 *)
Definition client_update (id : UUID) (name : string) (payload : JSON) (update_id : string)
    : M UpdateHandle :=
  _ ← send_update id update_id name payload None;
  mret (mk_update_handle id update_id).

(** engine/client.py, lines 132-136 *)
Definition client_cancel (id : UUID) (reason : option string) : M bool :=
  request_workflow_cancellation id reason None.
Definition client_terminate (id : UUID) (reason : option string) : M bool :=
  terminate_workflow id reason None.

(** engine/client.py, lines 144-149 *)
Definition execution_outcome (execution : ExecutionSummary) : option (Py JSON) :=
  if String.eqb (sum_status execution) "completed" then Some (Ok (sum_result execution))
  else if String.eqb (sum_status execution) "failed" || String.eqb (sum_status execution) "terminated"
  then Some (Err (WorkflowClosedError (sum_id execution) (sum_status execution) (sum_failure execution)))
  else None.

(** engine/client.py, lines 138-154 *)
Definition workflow_result (id : UUID) : option float → float → list Poll → option (Py JSON) :=
  result_of (describe id) execution_outcome.

(** engine/client.py, lines 164-182 *)
Definition client_start (definition : WorkflowDefinition) (input : JSON) (queue_name : string)
    (search_attributes : dict) (workflow_id : option UUID) : M UUID :=
  started ← start_workflow (wd_name definition) (wd_version definition) input queue_name workflow_id
              search_attributes None None;
  mret (started_workflow_id started).

(** ** Waiting for a result *)

Lemma describe_finds id env db e :
  db_executions db !! id = Some e → (exec (describe id) env db).1 = Ok (_execution (id, e)).
Proof.
  intros He. unfold exec, describe, get_execution, get_db, mbind, M_bind, mret, M_ret.
  cbn [w_db fst]. by rewrite He.
Qed.

Lemma outcome_running id e :
  exec_status e = WRunning → execution_outcome (_execution (id, e)) = None.
Proof. intros He. unfold execution_outcome, _execution. cbn [sum_status]. by rewrite He. Qed.

(** The outcome of a closed execution. *)
Definition outcome_for (id : UUID) (status : WorkflowStatus) (r : Py JSON) : Prop :=
  match status with
  | WRunning => False
  | WCompleted => ∃ v, r = Ok v
  | WFailed | WTerminated =>
    ∃ failure, r = Err (WorkflowClosedError id (workflow_status_name status) failure)
  end.

Lemma outcome_closed id e :
  exec_status e ≠ WRunning →
  ∃ r, execution_outcome (_execution (id, e)) = Some r ∧ outcome_for id (exec_status e) r.
Proof.
  intros He. unfold execution_outcome, _execution. cbn [sum_status sum_result sum_failure sum_id].
  destruct (exec_status e); [done|..]; eexists; (split; [reflexivity|]); by eexists.
Qed.

(** The databases of successive polls: any operations run between two polls. *)
Definition successive (polls : list Poll) : Prop :=
  StronglySorted (fun p q => rtc step p.2 q.2) polls.

Lemma poll_until_outcome id polls env db e env0 db0 e0 :
  reachable db0 → successive ((env0, db0) :: polls) → db_executions db0 !! id = Some e0 →
  (env, db) ∈ (env0, db0) :: polls → db_executions db !! id = Some e → exec_status e ≠ WRunning →
  ∃ r, poll_until (describe id) execution_outcome ((env0, db0) :: polls) = Some r ∧
       outcome_for id (exec_status e) r.
Proof.
  revert env0 db0 e0. induction polls as [|[env1 db1] polls IH]; intros env0 db0 e0 Hr Hs He0 Hin He Hc;
    simpl; rewrite (describe_finds _ _ _ _ He0).
  - apply list_elem_of_singleton in Hin as [= -> ->]. rewrite He in He0. injection He0 as <-.
    destruct (outcome_closed id e Hc) as (r & -> & Ho). by exists r.
  - inversion Hs as [|? ? Hs1 Hall]; subst. apply Forall_cons in Hall as Hall'. destruct Hall' as [H01 _].
    destruct (decide (exec_status e0 = WRunning)) as [Hrun|Hrun].
    + rewrite (outcome_running _ _ Hrun).
      apply elem_of_cons in Hin as [[= -> ->]|Hin]; [congruence|].
      destruct (execution_stays _ _ _ _ Hr H01 He0) as [e1 He1].
      eapply IH; [|done..]. unfold reachable in *. by etrans.
    + destruct (outcome_closed id e0 Hrun) as (r & -> & Ho). exists r. split; [done|].
      apply elem_of_cons in Hin as [[= -> ->]|Hin]; [congruence|].
      rewrite Forall_forall in Hall. specialize (Hall _ Hin). simpl in Hall.
      destruct (closed_stays _ _ _ _ Hr Hall He0 Hrun) as (_ & e' & He' & Hst). congruence.
Qed.


End Client.
