(* ===== verification/Audits.v ===== *)
(** * Who did it: the audit trail of an operation

    [logs c k m]: when [m] returns, it has appended audit records of the request
    [c], at least [k] of them, and changed no other. *)
From S2P Require Import Prelude Python Serialization History Commands Context Replay Database.
From S2P Require Import Logic Leasing AuditLog Definitions Transitions Commit Activities Messages.
From S2P Require Import Timeouts Cron Schedules Queries Workers Store StoreInvariant System.
From S2P Require Import Atomicity.

(** A record made for the request [c]. *)
Definition made_by (c : AuditContext) (row : AuditRow) : Prop :=
  audit_request_id row = request_id c ∧ audit_actor_key_id row = actor_key_id c ∧
  audit_actor_role row = actor_role c ∧ audit_action row = action c.

(** The audit log of [db'] is that of [db] with [k] or more records of [c]. *)
Definition records_of (c : AuditContext) (k : nat) (db db' : DB) : Prop :=
  ∃ rows, db_audit db' = db_audit db ++ rows ∧ Forall (made_by c) rows ∧ k ≤ length rows.

Definition logs {A : Type} (c : AuditContext) (k : nat) (m : M A) : Prop :=
  ∀ env w a w', m env w = (Ok a, w') → records_of c k (w_db w) (w_db w').

Lemma records_of_trans c i j db1 db2 db3 :
  records_of c i db1 db2 → records_of c j db2 db3 → records_of c (i + j) db1 db3.
Proof.
  intros (l1 & E1 & H1 & L1) (l2 & E2 & H2 & L2). exists (l1 ++ l2).
  rewrite E2, E1, (assoc_L (++)), length_app. split_and!; [done|by apply Forall_app|lia].
Qed.

Lemma records_of_same c db db' : db_audit db' = db_audit db → records_of c 0 db db'.
Proof. intros E. exists []. by rewrite E, app_nil_r. Qed.

Section rules.
Context (c : AuditContext) {A B : Type}.
Lemma logs_reads (m : M A) : reads m → logs c 0 m.
Proof. intros Hm env w a w' E. apply records_of_same. specialize (Hm env w). rewrite E in Hm. by simpl in Hm; rewrite Hm. Qed.
Lemma logs_throw k e : logs c k (throw (A:=A) e). Proof. by intros env w a w'. Qed.
Lemma logs_bind i j (m : M A) (k : A → M B) :
  logs c i m → (∀ a, logs c j (k a)) → logs c (i + j) (m ≫= k).
Proof.
  intros Hm Hk env w b w'. unfold mbind, M_bind. destruct (m env w) as [[a|e] w1] eqn:E; [|done].
  intros E2. eapply records_of_trans; [by eapply Hm|by eapply Hk].
Qed.
Lemma logs_bind_quiet j (m : M A) (k : A → M B) :
  logs c 0 m → (∀ a, logs c j (k a)) → logs c j (m ≫= k).
Proof. apply (logs_bind 0 j). Qed.
Lemma logs_bind_first (m : M A) (k : A → M B) :
  logs c 1 m → (∀ a, logs c 0 (k a)) → logs c 1 (m ≫= k).
Proof. apply (logs_bind 1 0). Qed.
Lemma logs_transaction k (m : M A) : logs c k m → logs c k (transaction m).
Proof.
  intros Hm env w a w'. unfold transaction. destruct (m env w) as [[x|e] w1] eqn:E; [|done].
  intros [= <- <-]. by eapply Hm.
Qed.
End rules.

Lemma logs_for_each c {A S : Type} (l : list A) (s : S) body :
  (∀ s x, logs c 0 (body s x)) → logs c 0 (for_each l s body).
Proof.
  intros Hb. revert s. induction l as [|x l IH]; intros s; simpl.
  - by apply logs_reads.
  - apply (logs_bind c 0 0); [done|]. intros. apply IH.
Qed.

Lemma logs_modify c f : (∀ db, db_audit (f db) = db_audit db) → logs c 0 (modify_db f).
Proof. intros Hf env w a w' [= <- <-]. apply records_of_same, Hf. Qed.

Create HintDb logs discriminated.
Ltac logs_step :=
  lazymatch goal with
  | |- logs _ _ (throw _) => apply logs_throw
  | |- logs _ _ (match ?x with _ => _ end) => destruct x
  | |- logs _ 1 (mbind _ _) =>
    first [apply logs_bind_first; [solve [auto 1 with logs nocore]|intros ?]
          |apply logs_bind_quiet; [|intros ?]]
  | |- logs _ _ (mbind _ _) => apply logs_bind_quiet; [|intros ?]
  | |- logs _ _ (transaction _) => apply logs_transaction
  | |- logs _ 0 (for_each _ _ _) => apply logs_for_each; intros ? ?
  | |- logs _ 0 (modify_db _) => apply logs_modify; intros ?; reflexivity
  | |- logs _ 0 (mret _) => apply logs_reads, reads_ret
  | |- logs _ 0 (of_result _) => apply logs_reads, reads_of_result
  | |- logs _ 0 get_db => apply logs_reads, reads_get_db
  | |- logs _ 0 db_now => apply logs_reads, reads_db_now
  | |- logs _ 0 utc_now => apply logs_reads, reads_utc_now
  | |- logs _ 0 uuid4 => apply logs_reads, reads_uuid4
  | |- logs _ 0 locked_rows => apply logs_reads, reads_locked
  | |- logs _ 0 (fetch_execution _) => apply logs_reads, reads_fetch
  | |- logs _ 0 (clock_or_now _) => apply logs_reads, reads_clock
  | |- logs _ _ _ => solve [auto 2 with logs nocore]
  end.
Ltac logs_auto := cbv zeta; repeat (logs_step; cbv beta zeta).

Section logs.
Context `{PyStd} (c : AuditContext).
Ltac logs_of := intros; logs_auto.

Lemma logs_audit w b d : logs c 1 (record_api_audit (Some c) w b d).
Proof.
  intros env wd a w'. unfold record_api_audit, of_result, db_now, get_db, modify_db, throw, mbind, M_bind.
  destruct (clone_json d) as [v|]; [|done]. destruct (to_jsonb v) as [v'|]; [|done].
  destruct (negb (existsb _ _)); [done|]. destruct (negb (reference_ok _ _)); [done|].
  intros [= <- <-]. simpl. eexists. split; [reflexivity|]. split; [|done].
  constructor; [done|constructor].
Qed.
Lemma logs_no_audit w b d : logs c 0 (record_api_audit None w b d).
Proof. apply logs_reads, reads_ret. Qed.
Lemma logs_insert_event wid s t k n x a : logs c 0 (insert_event wid s t k n x a).
Proof. unfold insert_event. logs_of. Qed.
Lemma logs_insert_execution id e : logs c 0 (insert_execution id e).
Proof. unfold insert_execution. logs_of. Qed.
Lemma logs_insert_task id t : logs c 0 (insert_task id t).
Proof. unfold insert_task. logs_of. Qed.
Hint Resolve logs_audit logs_no_audit logs_insert_event logs_insert_execution logs_insert_task : logs.
Lemma logs_wake w q : logs c 0 (wake_workflow w q).
Proof. unfold wake_workflow, insert_workflow_task. logs_of. Qed.
Lemma logs_insert_workflow_task i w q : logs c 0 (insert_workflow_task i w q).
Proof. unfold insert_workflow_task. logs_of. Qed.
Lemma logs_update_tasks p f : logs c 0 (update_tasks p f).
Proof. unfold update_tasks. logs_of. Qed.
Lemma logs_running id : logs c 0 (running_execution id).
Proof. unfold running_execution. logs_of. Qed.
Lemma logs_require t v : logs c 0 (require_definition t v).
Proof. unfold require_definition. logs_of. Qed.
Lemma logs_update_execution id f : logs c 0 (update_execution id f).
Proof. unfold update_execution. logs_of. Qed.
Lemma logs_set_task id t : logs c 0 (set_task id t).
Proof. unfold set_task. logs_of. Qed.
Hint Resolve logs_wake logs_insert_workflow_task logs_update_tasks logs_running logs_require
  logs_update_execution logs_set_task : logs.
Lemma logs_kill p : logs c 0 (kill_tasks p).
Proof. unfold kill_tasks. logs_of. Qed.
Lemma logs_set_next_seq id s : logs c 0 (set_next_seq id s).
Proof. unfold set_next_seq. logs_of. Qed.
Lemma logs_reject w r : logs c 0 (_reject_pending_updates w r).
Proof. unfold _reject_pending_updates. logs_of. Qed.
Lemma logs_cancel_timers w s r : logs c 0 (_cancel_pending_timers w s r).
Proof. unfold _cancel_pending_timers, cancel_timer. logs_of. Qed.
Lemma logs_duplicate w r : logs c 1 (audit_duplicate (Some c) w r).
Proof. unfold audit_duplicate. logs_of. Qed.
Lemma logs_accepted w r : logs c 1 (audit_accepted (Some c) w r).
Proof. unfold audit_accepted. logs_of. Qed.
Lemma logs_no_such_workflow {A} k w : logs c k (no_such_workflow (A:=A) w).
Proof. unfold no_such_workflow. logs_of. Qed.
Hint Resolve logs_kill logs_set_next_seq logs_reject logs_cancel_timers logs_duplicate logs_accepted
  logs_no_such_workflow : logs.
Lemma logs_kill_open w x : logs c 0 (kill_open_tasks w x).
Proof. apply logs_kill. Qed.
Lemma logs_notify k p s v : logs c 0 (_notify_parent_of_child_terminal k p s v).
Proof. unfold _notify_parent_of_child_terminal. logs_of. Qed.
Hint Resolve logs_kill_open logs_notify : logs.
Lemma logs_terminate_descendants fuel p : logs c 0 (terminate_descendants fuel p).
Proof. revert p; induction fuel as [|fuel IH]; intros p; simpl; unfold terminate_child; logs_of; apply IH. Qed.
Hint Resolve logs_terminate_descendants : logs.
Lemma logs_descendants p : logs c 0 (_terminate_descendants p).
Proof. unfold _terminate_descendants. logs_of. Qed.
Lemma logs_started e t x v i sa q s r : logs c 1 (insert_started e t x v i sa q s r (Some c)).
Proof. unfold insert_started. logs_of. Qed.
Hint Resolve logs_started : logs.
Lemma logs_start t v i q w sa r : logs c 1 (start_workflow t v i q w sa r (Some c)).
Proof. unfold start_workflow. logs_of. Qed.
Lemma logs_start_quiet t v i q w sa r : logs c 0 (start_workflow t v i q w sa r None).
Proof. unfold start_workflow, insert_started. logs_of. Qed.
Hint Resolve logs_descendants logs_start logs_start_quiet : logs.
Lemma logs_start_occurrence i s t b : logs c 0 (_start_occurrence i s t b).
Proof. unfold _start_occurrence, start_buffered, insert_occurrence. logs_of. Qed.
Hint Resolve logs_start_occurrence : logs.

Lemma logs_pause w r : logs c 1 (pause_workflow w r (Some c)).
Proof. unfold pause_workflow. logs_of. Qed.
Lemma logs_resume w r : logs c 1 (resume_workflow w r (Some c)).
Proof. unfold resume_workflow. logs_of. Qed.
Lemma logs_retry w : logs c 1 (retry_workflow w (Some c)).
Proof. unfold retry_workflow. logs_of. Qed.
Lemma logs_search_attributes w d u : logs c 1 (update_search_attributes w d u (Some c)).
Proof. unfold update_search_attributes. logs_of. Qed.
Lemma logs_terminate w r : logs c 1 (terminate_workflow w r (Some c)).
Proof. unfold terminate_workflow. logs_of. Qed.
Lemma logs_cancel w r : logs c 1 (request_workflow_cancellation w r (Some c)).
Proof. unfold request_workflow_cancellation. logs_of. Qed.
Lemma logs_signal w i n p : logs c 1 (send_signal w i n p (Some c)).
Proof. unfold send_signal. logs_of. Qed.
Lemma logs_update w u n p : logs c 1 (send_update w u n p (Some c)).
Proof. unfold send_update, insert_update. logs_of. Qed.
Lemma logs_create_schedule n t v i k z q sa o ct : logs c 1 (create_schedule n t v i k z q sa o ct (Some c)).
Proof. unfold create_schedule, insert_schedule. logs_of. Qed.
Lemma logs_pause_schedule i p ct : logs c 1 (set_schedule_paused i p ct (Some c)).
Proof. unfold set_schedule_paused. logs_of. Qed.
Lemma logs_backfill i s e n : logs c 1 (backfill_schedule i s e n (Some c)).
Proof. unfold backfill_schedule, backfill_one. logs_of. Qed.

End logs.
