(* ===== verification/HttpTheory.v ===== *)
(** * What the HTTP application promises

    A request changes the database only as one operation, for a principal whose
    role allows it, and leaves an audit record with its name; a request that is
    refused or fails changes nothing. *)
From S2P Require Import Prelude Python Serialization History Commands Context Replay Database.
From S2P Require Import Logic Leasing AuditLog Definitions Transitions Commit Activities Messages.
From S2P Require Import Timeouts Cron Schedules Queries Workers Debugger Config Security Metrics.
From S2P Require Import Api Http Store StoreInvariant System Atomicity Audits.
From stdpp Require Import relations.

(** The role a route that changes the database requires. *)
Definition command_role (e : Endpoint) : option Role :=
  match e with
  | e_create_schedule _ | e_pause_schedule _ _ | e_start _ | e_search_attributes _ _
  | e_signal _ _ | e_update _ _ | e_pause _ _ | e_resume _ _ | e_cancel _ _ => Some operator
  | e_backfill _ _ | e_terminate _ _ | e_retry _ => Some admin
  | _ => None
  end.

(** The name of the action in the audit log. *)
Definition command_action (e : Endpoint) : string :=
  match e with
  | e_create_schedule _ => "schedule.create"
  | e_pause_schedule _ paused => if paused then "schedule.pause" else "schedule.resume"
  | e_backfill _ _ => "schedule.backfill"
  | e_start _ => "workflow.start"
  | e_search_attributes _ _ => "workflow.search-attributes.update"
  | e_signal _ _ => "workflow.signal"
  | e_update _ _ => "workflow.update"
  | e_terminate _ _ => "workflow.terminate"
  | e_pause _ _ => "workflow.pause"
  | e_resume _ _ => "workflow.resume"
  | e_retry _ => "workflow.retry"
  | e_cancel _ _ => "workflow.cancel"
  | _ => ""
  end.

(** The audit context of a request of [p]. *)
Definition request_audit (request_id : UUID) (p : Principal) (e : Endpoint) : AuditContext :=
  mk_audit_context request_id (principal_key_id p) (role_name (principal_role p)) (command_action e).

Section handlers.
Context `{PyStd} `{PyText} `{PgText} `{PyJson} (format_g : float → string).

(** ** Queries change nothing *)
Lemma reads_requires caller minimum : reads (requires caller minimum).
Proof. done. Qed.

Ltac reads_of := repeat (cbv beta zeta; atomic_step).
Lemma reads_existing id : reads (existing_workflow id).
Proof. unfold existing_workflow, get_execution, not_found. reads_of. Qed.
Hint Resolve reads_requires reads_existing : atomic.

Lemma query_reads app registry caller e :
  command_role e = None → reads (handle format_g app registry caller e).
Proof.
  intros Hc. destruct e; try done; unfold handle, session, workflows, stats, workers, metrics,
    audit_records, dead_letter_records, schedules, schedule_occurrences, execution,
    continuation_chain, debug_trace, debug_compare, history, history_tail, workflow_updates,
    workflow_update, list_executions, get_execution_stats, list_worker_heartbeats,
    get_operational_gauges, list_api_audit, list_dead_tasks, list_schedules,
    list_schedule_occurrences, get_continuation_chain, get_history_page, get_history_tail,
    list_updates, get_update, not_found; reads_of.
Qed.

(** ** Commands *)

(** What a handled command did: nothing if it raised; the operation, for an
    allowed principal, with its audit record, if it answered. *)
Definition handled (caller : Caller) (e : Endpoint) (env : Env) (n : nat) (db db' : DB)
    (r : Py HttpResponse) : Prop :=
  db' = db ∨
  ∃ p minimum A (m : M A) response,
    cl_principal caller = Some p ∧ command_role e = Some minimum ∧
    (ROLE_LEVEL minimum ≤ ROLE_LEVEL (principal_role p))%Z ∧
    operation A m ∧ db' = leaves m env n db ∧
    records_of (request_audit (cl_request_id caller) p e) 1 db db' ∧
    r = Ok response ∧ rs_status response = endpoint_status e.

Lemma command_handled {A} caller e minimum errors (op : Principal → M A) (answer : A → Payload) env n db r w' :
  command_role e = Some minimum →
  (∀ p, operation A (op p)) →
  (∀ p, logs (request_audit (cl_request_id caller) p e) 1 (op p)) →
  (payload ← (principal ← requires caller minimum; a ← conflict_on errors (op principal);
              mret (answer a));
   mret (mk_response (endpoint_status e) ∅ payload)) env (mk_world db n) = (r, w') →
  handled caller e env n db (w_db w') r.
Proof.
  intros Hrole Hop Hlogs. unfold mbind, M_bind, requires, of_result, conflict_on, mret, M_ret.
  destruct (require_role (cl_principal caller) minimum) as [p|e0] eqn:Hr; [|intros [= <- <-]; by left].
  pose proof (operation_atomic _ _ (Hop p) env (mk_world db n)) as Hat.
  pose proof (Hlogs p env (mk_world db n)) as Hl.
  destruct (op p env (mk_world db n)) as [[a|e1] w1] eqn:Em.
  - intros [= <- <-]. right. exists p, minimum, A, (op p). eexists. unfold leaves. rewrite Em.
    unfold require_role in Hr. destruct (cl_principal caller) as [p'|]; [|done].
    destruct (Z.ltb_spec (ROLE_LEVEL (principal_role p')) (ROLE_LEVEL minimum)); [done|].
    injection Hr as ->. split_and!; try done. by apply (Hl a w1).
  - specialize (Hat eq_refl). simpl in Hat. destruct (errors e1); intros [= <- <-]; by left.
Qed.

Lemma endpoint_handled app registry caller e env n db r w' :
  handle format_g app registry caller e env (mk_world db n) = (r, w') →
  handled caller e env n db (w_db w') r.
Proof.
  intros E. destruct (command_role e) as [minimum|] eqn:Hrole.
  - destruct e; simpl in Hrole; simplify_eq; simpl in E;
      (eapply command_handled; [reflexivity| | |exact E]);
      try (intros p; by constructor); intros p; unfold _audit;
      try (match goal with |- logs _ _ (set_schedule_paused _ ?b _ _) => destruct b end);
      auto using logs_create_schedule, logs_pause_schedule, logs_backfill, logs_start,
        logs_search_attributes, logs_signal, logs_update, logs_terminate, logs_pause, logs_resume,
        logs_retry, logs_cancel.
  - left. pose proof (query_reads app registry caller e Hrole env (mk_world db n)) as Hq.
    by rewrite E in Hq.
Qed.

Lemma call_next_handled app registry caller request env n db r w' :
  call_next format_g app registry caller request env (mk_world db n) = (r, w') →
  w_db w' = db ∨
  ∃ e, rq_target request = target e ∧ valid_endpoint e = true ∧
    body_limit (auth_max_request_bytes (app_auth app)) true (rq_content_length request) (rq_body request)
      = app_answers ∧
    handled caller e env n db (w_db w') r.
Proof.
  unfold call_next. destruct (body_limit _ _ _ _); [|intros [= <- <-]; by left].
  destruct (rq_target request) as [e|s]; [|intros [= <- <-]; by left].
  destruct (valid_endpoint e) eqn:Hv; simpl; [|intros [= <- <-]; by left].
  destruct (handle format_g app registry caller e env (mk_world db n)) as [r1 w1] eqn:E.
  apply endpoint_handled in E as Hh. intros Hr.
  destruct r1 as [response|[]]; injection Hr as <- <-;
    first [right; exists e; by split_and!
          |left; destruct Hh as [?|(? & ? & ? & ? & ? & _ & _ & _ & _ & _ & _ & ? & _)]; done].
Qed.

End handlers.

Section http.
Context `{PyStd} `{PyText} `{PgText} `{PyJson} (format_g : float → string).

(** The request was admitted for [p]. *)
Definition admitted (app : Application) (limiter : FixedWindowRateLimiter) (request : HttpRequest)
    (p : Principal) : Prop :=
  _public_path (rq_path request) = false ∧
  authenticate (app_auth app) (default "" (bearer_token (rq_authorization request))) = Some p ∧
  ∃ wait, (allow limiter (principal_key_id p) (rq_monotonic request)).1 = Ok (true, wait).

(** A change through the application, seen from outside. *)
Record changed (app : Application) (request : HttpRequest) (limiter : FixedWindowRateLimiter)
    (env : Env) (n : nat) (db db' : DB) (r : Py HttpResponse) (p : Principal) (e : Endpoint)
    : Prop := mk_changed {
  changed_admitted : admitted app limiter request p;
  changed_target : rq_target request = target e ∧ valid_endpoint e = true;
  changed_role : ∃ minimum, command_role e = Some minimum ∧
    (ROLE_LEVEL minimum ≤ ROLE_LEVEL (principal_role p))%Z;
  changed_by : ∃ A (m : M A), operation A m ∧ db' = leaves m env (S n) db;
  changed_audit : records_of (request_audit (env_uuid4 env n) p e) 1 db db';
  changed_answer : ∃ response, r = Ok response ∧ rs_status response = endpoint_status e
}.

Lemma serve_changes app request state env n db r state' w' :
  serve format_g app request state env (mk_world db n) = (Ok (r, state'), w') →
  w_db w' = db ∨
  ∃ p e, changed app request (as_limiter state) env n db (w_db w') r p e.
Proof.
  unfold serve, uuid4, mbind, M_bind. cbn [w_db w_ticks]. intros E.
  assert (∀ principal limiter,
    (match call_next format_g app (as_metrics state) (mk_caller (env_uuid4 env n) principal) request env
             (mk_world db (S n)) with
     | (Ok response, w) =>
       let '(response, m) := finish request (env_uuid4 env n) response (as_metrics state) in
       (Ok (Ok response, mk_app_state limiter m), w)
     | (Err e, w) =>
       (Ok (Err e, mk_app_state limiter (run_call (as_metrics state)
          (call_increment "dwe_http_requests_total"
             [("method", rq_method request); ("route", "unhandled"); ("status", "500")]
             (float_of_Z 1)))), w)
     end : Py (Py HttpResponse * AppState) * World) = (Ok (r, state'), w') →
    w_db w' = db ∨ ∃ p e, principal = Some p ∧ rq_target request = target e ∧ valid_endpoint e = true ∧
      ∃ r0, handled (mk_caller (env_uuid4 env n) principal) e env (S n) db (w_db w') r0 ∧
        (∀ response, r0 = Ok response → ∃ response', r = Ok response' ∧ rs_status response' = rs_status response))
    as Hproceed.
  { intros principal limiter Hp.
    destruct (call_next _ _ _ _ _ _ _) as [r0 w0] eqn:Ec.
    apply call_next_handled in Ec as [Hdb|(e & Ht & Hv & _ & Hh)].
    { left. destruct r0; unfold finish in Hp; by injection Hp as <- <- <-. }
    destruct Hh as [Hdb|Hh]; [left; destruct r0; unfold finish in Hp; by injection Hp as <- <- <-|].
    right. pose proof Hh as (p & mi & A & m & resp & Hc & _ & _ & _ & _ & _ & -> & _).
    exists p, e. split_and!; [done|done|done|]. unfold finish in Hp. injection Hp as <- <- <-.
    exists (Ok resp). split; [by right|]. intros ? [= <-]. by eexists. }
  destruct (_public_path (rq_path request)) eqn:Hpub.
  { apply Hproceed in E as [?|(p & e & [=] & _)]. by left. }
  unfold identify in E.
  destruct (authenticate _ _) as [p|] eqn:Hauth; [|left; unfold finish, mret, M_ret in E; by injection E as <- <- <-].
  destruct (allow (as_limiter state) (principal_key_id p) (rq_monotonic request)) as [ra limiter] eqn:Hal.
  destruct ra as [[[] wait]|e]; [|left; unfold finish, mret, M_ret in E; by injection E as <- <- <-..].
  apply Hproceed in E as [?|(p' & e & [= <-] & Ht & Hv & r0 & Hh & Hr)]; [by left|].
  destruct Hh as [?|(p' & mi & A & m & resp & [= <-] & Hrole & Hlv & Hop & Hdb & Hrec & -> & Hst)]; [by left|].
  right. exists p, e. destruct (Hr _ eq_refl) as (resp' & -> & Hst'). split.
  - split_and!; [done|done|]. exists wait. by rewrite Hal.
  - done.
  - by exists mi.
  - by exists A, m.
  - exact Hrec.
  - exists resp'. split; [done|]. congruence.
Qed.


(** C19 Refinement: a request to the application is at most one operation of the
    system; a request that is refused, invalid, conflicting or failing -- an
    exception included -- leaves the database as it was. *)
Theorem http_request_refines app request state env n db r state' w' :
  serve format_g app request state env (mk_world db n) = (Ok (r, state'), w') →
  (w_db w' = db ∨ ∃ A (m : M A), operation A m ∧ w_db w' = leaves m env (S n) db) ∧
  ((∀ response, r = Ok response → (400 ≤ rs_status response)%Z) → w_db w' = db).
Proof.
  intros [?|(p & e & Hc)]%serve_changes; [by auto|].
  destruct Hc as [_ _ _ Hby _ (response & Hr & Hst)]. split; [by right|].
  intros Hbad. specialize (Hbad _ Hr). rewrite Hst in Hbad. by destruct e.
Qed.

(** How the errors of messages are answered: a [TransitionError] of a signal or
    an update is a conflict, 409; any other error of an update that is a
    [ValueError] is a conflict too, but of a signal it propagates, to an
    unhandled 500. *)
Theorem message_errors app registry caller p id sb ub env w e w1 e2 w2 :
  cl_principal caller = Some p → (ROLE_LEVEL operator ≤ ROLE_LEVEL (principal_role p))%Z →
  send_signal id (sgr_signal_id sb) (sgr_name sb) (sgr_payload sb)
    (_audit caller p "workflow.signal") env w = (Err e, w1) →
  send_update id (upr_update_id ub) (upr_name ub) (upr_payload ub)
    (_audit caller p "workflow.update") env w = (Err e2, w2) →
  handle format_g app registry caller (e_signal id sb) env w =
    (Err (if is_transition_error e then HTTPException 409 (exn_str e) else e), w1) ∧
  handle format_g app registry caller (e_update id ub) env w =
    (Err (if is_transition_error e2 || is_value_error e2 then HTTPException 409 (exn_str e2) else e2), w2).
Proof.
  intros Hp Hl E1 E2. assert (require_role (cl_principal caller) operator = Ok p) as Hr.
  { unfold require_role. rewrite Hp. by rewrite (proj2 (Z.ltb_ge _ _)). }
  unfold handle, signal, update_workflow, transition_conflicts, value_conflicts, conflict_on, requires,
    of_result, mbind, M_bind.
  rewrite Hr, E1, E2. by destruct (is_transition_error e), (is_transition_error e2 || is_value_error e2).
Qed.

End http.
