(* ===== verification/Service.v ===== *)
(** * What the worker service promises

    A worker changes the database by operations only, one after the other; its
    role loops survive every exception of a step; once it is told to stop it
    starts nothing more and comes to an end. *)
From S2P Require Import Prelude Python Serialization History Commands Context Replay Database.
From S2P Require Import Logic Leasing AuditLog Definitions Transitions Commit Activities Messages.
From S2P Require Import Timeouts Cron Schedules Queries Workers Metrics Store StoreInvariant.
From S2P Require Import System.
From S2P Require Import Atomicity Runner.
From stdpp Require Import relations.

(** ** Programs that are sequences of operations *)
Definition runs `{PyStd} {A : Type} (m : M A) : Prop :=
  ∀ env n db, rtc step db (leaves m env n db).

Section runs.
Context `{PyStd}.

Lemma runs_operation {A} (m : M A) : operation A m → runs m.
Proof. intros Hm env n db. apply rtc_once. by constructor. Qed.
Lemma runs_reads {A} (m : M A) : reads m → runs m.
Proof. intros Hm env n db. unfold leaves. by rewrite Hm. Qed.
Lemma runs_bind {A B} (m : M A) (k : A → M B) : runs m → (∀ a, runs (k a)) → runs (m ≫= k).
Proof.
  intros Hm Hk env n db. unfold leaves, mbind, M_bind. pose proof (Hm env n db) as H1.
  unfold leaves in H1. destruct (m env (mk_world db n)) as [[a|e] [db1 n1]]; simpl in *; [|done].
  etrans; [exact H1|]. apply (Hk a env n1 db1).
Qed.

Lemma runs_bind_result {A B} (r : Py A) (k : A → M B) :
  (∀ a, r = Ok a → runs (k a)) → runs (of_result r ≫= k).
Proof.
  intros Hk env n db. destruct r as [a|e]; [by apply (Hk a)|]. by apply (runs_reads (throw (A:=B) e)).
Qed.

Lemma reads_load task : reads (load_workflow_replay_state task).
Proof.
  unfold load_workflow_replay_state, running_execution.
  repeat atomic_step.
Qed.

Ltac runs_step :=
  lazymatch goal with
  | |- runs (match ?x with _ => _ end) => destruct x
  | |- runs (mbind _ (of_result _)) => apply runs_bind_result; intros ? ?
  | |- runs (mbind _ _) => apply runs_bind; [|intros ?]
  | |- runs (mret _) => apply runs_reads, reads_ret
  | |- runs (throw _) => apply runs_reads, reads_throw
  | |- runs (of_result _) => apply runs_reads, reads_of_result
  | |- runs (load_workflow_replay_state _) => apply runs_reads, reads_load
  | |- runs _ => first [assumption | apply runs_operation; by constructor]
  end.
Ltac runs_auto := repeat (cbv beta zeta; runs_step).

Lemma runs_workflow_task fuel registry q d : runs (run_workflow_task fuel registry q d).
Proof. unfold run_workflow_task. runs_auto. Qed.

Lemma runs_maintenance q n c : runs (run_maintenance q n c).
Proof. unfold run_maintenance. runs_auto. Qed.

(** Activity code reaches the database through operations. *)
Definition activities_by_operations (registry : DefinitionRegistry) : Prop :=
  ∀ name definition current args kwargs,
    reg_activities registry !! name = Some definition →
    (∀ context details duration, current = Some context → runs (aec_heartbeat context details duration)) →
    runs (fn_body (ad_function definition) current args kwargs).

Lemma runs_call_activity body current args kwargs :
  runs (body current args kwargs) → runs (call_activity body current args kwargs).
Proof.
  intros Hb env n db. pose proof (Hb env n db) as Hw. unfold leaves, call_activity in *.
  destruct (body current args kwargs env (mk_world db n)) as [[v|e] w]; [done|]. by destruct e.
Qed.

Lemma runs_activity_task registry q d :
  activities_by_operations registry → runs (run_activity_task registry q d).
Proof.
  intros Hreg. unfold run_activity_task. runs_auto.
  apply runs_call_activity. unfold registry_activity in *. case_match; simplify_eq.
  eapply Hreg; [done|]. intros context details duration [= <-]. simpl. runs_auto.
Qed.

Lemma runs_role_step service fuel role :
  activities_by_operations (sv_registry service) → runs (role_step service fuel role).
Proof.
  intros Hreg. destruct role; unfold role_step; runs_auto;
    auto using runs_workflow_task, runs_activity_task, runs_maintenance.
Qed.
End runs.

(** ** Invariants of the service *)
Section service.
Context `{PyStd} (service : Service).

Lemma run_loop_db role fuel env n duration st st' :
  _run_loop service role fuel env n duration st = Some st' →
  ss_db st' = leaves (role_step service fuel role) env n (ss_db st) ∧
  ss_stop st' = ss_stop st ∧ ss_cancelled st' = ss_cancelled st ∧
  ∃ next, (next = polling ∨ next = idling) ∧
    ∀ l, ss_loops st' l = if decide (l = role_loop role) then next else ss_loops st l.
Proof.
  unfold _run_loop, leaves. intros Hr.
  destruct (role_step service fuel role env (mk_world (ss_db st) n)) as [[[p|]|e] w]; [|done|];
    cbn -[run_call observe_duration] in Hr; injection Hr as <-; simpl;
    (split_and!; [done..|]); eexists; (split; [|done]); try case_match; auto.
Qed.

Lemma heartbeat_db env n st :
  ss_db (_heartbeat_loop service env n st) =
    leaves (heartbeat_worker (sv_hostname service) (sv_process_id service) (sv_worker_id service)
      (sv_queue_name service) (map role_label (sv_roles service))) env n (ss_db st) ∧
  ss_stop (_heartbeat_loop service env n st) = ss_stop st ∧
  ss_cancelled (_heartbeat_loop service env n st) = ss_cancelled st ∧
  ∃ next, (next = idling ∨ ∃ e, next = failed e) ∧
    ∀ l, ss_loops (_heartbeat_loop service env n st) l =
         if decide (l = heartbeat_loop) then next else ss_loops st l.
Proof.
  unfold _heartbeat_loop, leaves. destruct (heartbeat_worker _ _ _ _ _ env _) as [[u|e] w]; simpl;
    (split_and!; [done..|]); eexists; (split; [|done]); eauto.
Qed.

Lemma transition_steps st st' :
  activities_by_operations (sv_registry service) → transition service st st' →
  rtc step (ss_db st) (ss_db st').
Proof.
  intros Hreg [st1 Hl|db Hs|c| |]; [|by apply rtc_once|apply rtc_refl..].
  destruct Hl as [|role fuel env n d st1 _ _ _ Hrun|env n| | |]; try apply rtc_refl.
  - apply run_loop_db in Hrun as (-> & _). by apply runs_role_step.
  - destruct (heartbeat_db env n st) as (-> & _). apply runs_operation. constructor.
Qed.


(** Why a loop ended. *)
Definition justified (st : ServiceState) : Prop :=
  ∀ role, role_loop role ∈ service_loops service →
    match ss_loops st (role_loop role) with
    | failed _ => False
    | finished => ss_stop st = true
    | cancelled => ss_cancelled st = true ∨ ∃ e, ss_loops st heartbeat_loop = failed e
    | polling | idling => True
    end.

Lemma group_cancels_why st :
  justified st → group_cancels service st = true →
  ss_cancelled st = true ∨ ∃ e, ss_loops st heartbeat_loop = failed e.
Proof.
  intros Hj [?|(l & Hl & Hf)%existsb_exists]%orb_true_iff; [by left|right].
  apply list_elem_of_In in Hl. destruct l as [|role].
  - destruct (ss_loops st heartbeat_loop) as [| | |e|]; try done. by exists e.
  - specialize (Hj role Hl). by destruct (ss_loops st (role_loop role)).
Qed.

Lemma justified_transition st st' : justified st → transition service st st' → justified st'.
Proof.
  intros Hj [st1 Hl|db _|c| |] role Hin; pose proof (Hj role Hin) as Hr;
    [|simpl; exact Hr|simpl; exact Hr|simpl; by case_match|simpl; case_match; auto].
  destruct Hl as [l Hl Hp Hs|role' fuel env n d st1 Hin' Hp Hs Hrun|env n Hp Hs|l Hl Hi|l Hl He Hg|role' d Hin' Hp Hs Hg].
  - simpl. destruct (decide (role_loop role = l)) as [<-|]; [done|].
    destruct (ss_loops st (role_loop role)); try done. destruct Hr as [?|[e He]]; [by left|right].
    case_decide; [|by exists e]. subst. by rewrite He in Hp.
  - apply run_loop_db in Hrun as (_ & -> & -> & next & Hn & Hls). rewrite !Hls.
    destruct (decide (role_loop role = role_loop role')); [by destruct Hn as [->| ->]|].
    by rewrite decide_False.
  - destruct (heartbeat_db env n st) as (_ & -> & -> & next & Hn & Hls). rewrite !Hls.
    rewrite decide_False by done. rewrite decide_True by done.
    destruct (ss_loops st (role_loop role)); try done.
    destruct Hr as [?|[e He]]; [by left|]. by rewrite He in Hp.
  - simpl. destruct (decide (role_loop role = l)) as [<-|]; [done|].
    destruct (ss_loops st (role_loop role)); try done. destruct Hr as [?|[e He]]; [by left|right].
    case_decide; [|by exists e]. subst. by rewrite He in Hi.
  - pose proof (group_cancels_why st Hj Hg) as Hw. simpl.
    destruct (decide (role_loop role = l)) as [<-|].
    + destruct Hw as [?|[e Hw]]; [by left|right]. rewrite decide_False by done. by exists e.
    + destruct (ss_loops st (role_loop role)); try done. destruct Hr as [?|[e Hx]]; [by left|right].
      case_decide; [|by exists e]. subst. by rewrite Hx in He.
  - pose proof (group_cancels_why st Hj Hg) as Hw. simpl.
    by destruct (decide (role_loop role = role_loop role')).
Qed.


(** ** Shutting down *)

(** The transitions a loop still has once the service is stopping. *)
Definition loop_work (s : LoopState) : nat :=
  match s with idling => 2 | polling => 1 | finished | failed _ | cancelled => 0 end.
Definition work_left (st : ServiceState) : nat :=
  sum_list_with (fun l => loop_work (ss_loops st l)) (service_loops service).

(** [n] transitions of the loops, with anything else between them. *)
Inductive schedule : nat → ServiceState → ServiceState → Prop :=
| schedule_nil st : schedule 0 st st
| schedule_loop n st st1 st2 :
    loop_transition service st st1 → schedule n st1 st2 → schedule (S n) st st2
| schedule_other n st st1 st2 :
    transition service st st1 → ss_loops st1 = ss_loops st → schedule n st1 st2 → schedule n st st2.

Lemma sum_set_loop l s st ls :
  l ∈ ls → loop_work s < loop_work (ss_loops st l) →
  sum_list_with (fun l' => loop_work (ss_loops (set_loop l s st) l')) ls <
  sum_list_with (fun l' => loop_work (ss_loops st l')) ls.
Proof.
  intros Hin Hlt. assert (∀ ls,
    sum_list_with (fun l' => loop_work (ss_loops (set_loop l s st) l')) ls ≤
    sum_list_with (fun l' => loop_work (ss_loops st l')) ls) as Hle.
  { induction ls0 as [|l0 ls0 IH]; [done|]. simpl in *. case_decide; subst; lia. }
  induction ls as [|l0 ls IH]; [by apply not_elem_of_nil in Hin|]. simpl in *.
  specialize (Hle ls). simpl in Hle.
  apply elem_of_cons in Hin as [->|Hin]; [rewrite decide_True by done; lia|].
  specialize (IH Hin). case_decide; subst; lia.
Qed.

Lemma work_left_ended st : work_left st = 0 ↔ group_ended service st = true.
Proof.
  unfold work_left, group_ended. induction (service_loops service) as [|l ls IH]; [done|].
  simpl. rewrite andb_true_iff, <- IH. destruct (ss_loops st l); simpl; naive_solver lia.
Qed.

(** A stopping loop does no work: it does not touch the database. *)
Lemma stopping_transition st st' :
  ss_stop st = true → loop_transition service st st' →
  ss_stop st' = true ∧ ss_db st' = ss_db st ∧ work_left st' < work_left st.
Proof.
  intros Hs Hl. destruct Hl as [l Hl Hp _|? ? ? ? ? ? _ _ Hf _|? ? _ Hf|l Hl Hi|l Hl He _|? ? _ _ Hf _];
    try congruence; (split; [done|]); (split; [done|]); (apply sum_set_loop; [done|]).
  - by rewrite Hp; simpl; lia.
  - by rewrite Hi; simpl; lia.
  - destruct (ss_loops st l); simpl in *; done || lia.
Qed.

Lemma stopping_progress st :
  ss_stop st = true → group_ended service st = false → ∃ st', loop_transition service st st'.
Proof.
  intros Hs Hg. unfold group_ended in Hg.
  assert (∃ l, l ∈ service_loops service ∧ ended (ss_loops st l) = false) as (l & Hl & He).
  { induction (service_loops service) as [|l ls IH]; [done|]. simpl in Hg.
    destruct (ended (ss_loops st l)) eqn:E; [|exists l; split; [by left|done]].
    destruct (IH Hg) as (l' & ? & ?). exists l'. split; [by right|done]. }
  destruct (ss_loops st l) eqn:E; try done; eexists.
  - by apply (lt_stops _ _ l).
  - by apply (lt_wakes _ _ l).
Qed.


End service.
