(* ===== verification/CliTheory.v ===== *)
(** * What the command line promises

    Every command changes the database only by operations of the system and
    closes the pools it opened, whatever it ends with.  [settled] is what an
    action of a process does in every case, [opening] what one that opens a pool
    does. *)
From S2P Require Import Prelude Python Serialization History Commands Context Replay Database.
From S2P Require Import Logic Leasing AuditLog Definitions Transitions Workers Store Debugger.
From S2P Require Import Queries System.
From S2P Require Import Atomicity Config Security Metrics Migrations Http Api Runner Startup Cli.
From S2P Require Import Service Writes Tables Records.
From stdpp Require Import relations.

(** What other processes do are operations. *)
Definition by_operations `{PyStd} (su : Surroundings) : Prop :=
  ∀ n db, rtc step db (su_meanwhile su n db).

Section rules.
Context `{PyStd} {S : Type}.

Definition settled {A : Type} (m : IO S A) : Prop := ∀ su mc, by_operations su →
  mc_pools (m su mc).2 = mc_pools mc ∧ rtc step (mc_db mc) (mc_db (m su mc).2).

Definition opening {A : Type} (m : IO S A) : Prop := ∀ su mc, by_operations su →
  rtc step (mc_db mc) (mc_db (m su mc).2) ∧
  match m su mc with
  | (Ok _, mc') => tail (mc_pools mc') = mc_pools mc
  | (Err _, mc') => mc_pools mc' = mc_pools mc
  end.

Lemma settled_ret {A} (a : A) : settled (mret a).
Proof. done. Qed.
Lemma settled_io {A} (r : Py A) : settled (io r).
Proof. done. Qed.
Lemma settled_print v : settled (print_line v).
Proof. done. Qed.

Lemma settled_bind {A B} (m : IO S A) (k : A → IO S B) :
  settled m → (∀ a, settled (k a)) → settled (m ≫= k).
Proof.
  intros Hm Hk su mc Hsu. destruct (Hm su mc Hsu) as [Hp Hr]. unfold mbind, IO_bind.
  destruct (m su mc) as [[a|e] mc1]; simpl in *; [|done].
  destruct (Hk a su mc1 Hsu) as [Hp' Hr']. split; [congruence|by etrans].
Qed.

Lemma settled_bind_io {A B} (r : Py A) (k : A → IO S B) :
  (∀ a, r = Ok a → settled (k a)) → settled (io r ≫= k).
Proof. intros Hk su mc Hsu. destruct r as [a|e]; [by apply (Hk a)|done]. Qed.

Lemma opening_bind {A B} (m : IO S A) (k : A → IO S B) :
  settled m → (∀ a, opening (k a)) → opening (m ≫= k).
Proof.
  intros Hm Hk su mc Hsu. destruct (Hm su mc Hsu) as [Hp Hr]. unfold mbind, IO_bind.
  destruct (m su mc) as [[a|e] mc1]; simpl in *; [|done].
  destruct (Hk a su mc1 Hsu) as [Hr' Hp']. split; [by etrans|].
  destruct (k a su mc1) as [[]]; congruence.
Qed.

Lemma settled_on_database {A} (m : M A) : runs m → settled (on_database m).
Proof.
  intros Hm su mc Hsu. unfold on_database. pose proof (Hm (su_env su (mc_calls mc)) 0
    (su_meanwhile su (mc_calls mc) (mc_db mc))) as Hr. rewrite <- exec_leaves in Hr.
  destruct (exec _ _ _) as [r db]. simpl in *. split; [done|]. etrans; [apply Hsu|done].
Qed.

(** [pool = await ...; try: ... finally: await pool.close()]. *)
Lemma settled_with_pool {A B C} (m : IO S A) (body : A → IO S B) (k : B → IO S C) :
  opening m → (∀ a, settled (body a)) → (∀ b, settled (k b)) →
  settled (m ≫= fun a => finally (body a) close_pool ≫= k).
Proof.
  intros Hm Hb Hk su mc Hsu. destruct (Hm su mc Hsu) as [Hr Hp]. unfold mbind, IO_bind.
  destruct (m su mc) as [[a|e] mc1]; simpl in *; [|done]. unfold finally.
  destruct (Hb a su mc1 Hsu) as [Hp1 Hr1]. destruct (body a su mc1) as [r mc2]. simpl in *.
  assert (rtc step (mc_db mc) (mc_db mc2)) as Hr2 by by etrans.
  destruct r as [b|e]; simpl; [|split; [congruence|done]].
  destruct (Hk b su (mc2 <| mc_pools := tail (mc_pools mc2) |>) Hsu) as [Hp3 Hr3]. simpl in *.
  split; [congruence|by etrans].
Qed.

End rules.

Create HintDb settled.
#[export] Hint Resolve settled_ret settled_io settled_print : settled.

Ltac settled_auto :=
  repeat match goal with
  | |- settled (_ ≫= fun _ => finally _ close_pool ≫= _) =>
    apply settled_with_pool; [|intros ?|intros ?]
  | |- settled (io _ ≫= _) => apply settled_bind_io; intros ? ?
  | |- settled (_ ≫= _) => apply settled_bind; [|intros ?]
  | |- settled (if ?b then _ else _) => destruct b
  | |- settled (match ?x with _ => _ end) => destruct x
  | |- settled _ => solve [eauto with settled]
  | |- opening _ => solve [eauto with settled]
  end.

(** ** The actions *)
Section actions.
Context `{PyStd} `{PyText} `{Asyncpg} {S : Type} (run_sql : string → S → Py S).
Context (files : list (string * string)) (process : Process).

Lemma settled_configure : settled (configure_root (S:=S) process).
Proof. intros su mc _. unfold configure_root. by case_match. Qed.

Lemma settled_migrate url : settled (migrate run_sql files url).
Proof.
  unfold migrate. settled_auto. intros su mc _. unfold run_migrations.
  by destruct (apply_migrations _ _ _).
Qed.

Lemma opening_create_pool u a b c d e : opening (create_pool (S:=S) u a b c d e).
Proof. intros su mc _. unfold create_pool. by destruct (asyncpg_create_pool _) as [[]|]. Qed.

Lemma opening_configured url name : opening (_configured_pool (S:=S) process url name).
Proof. apply opening_bind; [apply settled_io|intros config]. apply opening_create_pool. Qed.

Lemma opening_registered url name : opening (_registered_pool run_sql files process url name).
Proof. apply opening_bind; [apply settled_migrate|intros _]. apply opening_configured. Qed.

(** Starting and stopping the application, around what it serves. *)
Lemma settled_lifespan app given serving :
  settled serving → settled (lifespan run_sql files process app given serving).
Proof.
  intros Hs. unfold lifespan. apply settled_bind; [apply settled_configure|intros _].
  apply settled_bind; [apply settled_io|intros _]. destruct given; [done|].
  apply settled_bind; [apply settled_io|intros config].
  apply settled_bind; [apply settled_migrate|intros _]. intros su mc Hsu.
  pose proof (settled_with_pool (create_configured_pool config) (fun _ => serving) mret
    (opening_create_pool _ _ _ _ _ _) (fun _ => Hs) settled_ret su mc Hsu) as Hw.
  unfold mbind, IO_bind in *. destruct (create_configured_pool config su mc) as [[p|e] mc1]; [|done].
  destruct (finally serving close_pool su mc1) as [[[]|e] mc2]; done.
Qed.

End actions.
#[export] Hint Resolve settled_configure settled_migrate opening_configured opening_registered
  settled_lifespan : settled.

(** ** The commands *)
Section commands.
Context `{PyStd} `{PyText} `{PyJson} `{Imports} `{Argparse} `{Asyncpg}.
Context {S : Type} (run_sql : string → S → Py S) (files : list (string * string)) (process : Process).

(** The calls of [run_worker] that come to an end are runs of the service. *)
Definition runs_service (run_worker : WorkerCall (S:=S)) : Prop :=
  ∀ registry queue roles idle_delay heartbeat_interval su mc r mc',
    run_worker registry queue roles idle_delay heartbeat_interval su mc = (r, mc') →
    match validate_worker idle_delay heartbeat_interval roles with
    | Err e => r = Err e ∧ mc' = mc
    | Ok selected =>
      ∃ worker_id hostname process_id m stop st env n,
        let service := mk_service registry queue worker_id selected hostname process_id in
        rtc (transition service) (started_service (mc_db mc) m stop) st ∧
        group_ended service st = true ∧
        r = match service_outcome service st with
            | service_returns => Ok tt
            | service_raises e => Err e
            | service_cancelled => Err CancelledError
            end ∧
        mc' = mc <| mc_db := service_stopped service env n st |>
    end.

(** The registries that can be imported hold activities made of operations. *)
Definition imports_operations : Prop := ∀ m a registry,
  module_attribute m a = Ok (module_registry registry) → activities_by_operations registry.

Lemma settled_run_worker run_worker registry queue roles i h :
  runs_service run_worker → activities_by_operations registry →
  settled (run_worker registry queue roles i h).
Proof.
  intros Hs Hreg su mc _. destruct (run_worker registry queue roles i h su mc) as [r mc'] eqn:E.
  apply Hs in E. destruct (validate_worker i h roles) as [selected|]; [|by destruct E as [_ ->]].
  destruct E as (worker_id & hostname & pid & m & stop & st & env & n & Hr & _ & _ & ->).
  split; [done|]. simpl. etrans.
  - assert (∀ st1 st2, rtc (transition (mk_service registry queue worker_id selected hostname pid)) st1 st2 →
      rtc step (ss_db st1) (ss_db st2)) as Hsteps.
    { induction 1 as [|st1 st2 st3 Ht _ IH]; [done|].
      etrans; [by eapply (transition_steps (mk_service registry queue worker_id selected hostname pid))|done]. }
    apply Hsteps in Hr. exact Hr.
  - apply rtc_once. apply (step_op _ _ (stop_worker worker_id)). constructor.
Qed.

Lemma runs_replay_check fuel id d : runs (replay_check fuel id d).
Proof.
  apply runs_reads. intros env w. unfold replay_check, mbind, M_bind, fetch_execution, get_db.
  simpl. by repeat (case_match; try done); simplify_eq.
Qed.

Lemma settled_register_each definitions : settled (S:=S) (register_each definitions).
Proof.
  induction definitions as [|d ds IH]; simpl; settled_auto.
  apply settled_on_database, runs_operation. constructor.
Qed.

Lemma load_registry_operations reference registry :
  imports_operations → _load_registry reference = Ok registry → activities_by_operations registry.
Proof.
  intros Hi. unfold _load_registry. destruct (partition_on _ _) as [m a]. case_match; [done|].
  unfold mbind, Result_bind. case_match; [|done]. case_match; intros; simplify_eq. by eapply Hi.
Qed.

Hint Resolve settled_register_each opening_registered opening_configured : settled.

Lemma settled_commands run_worker fuel token args :
  runs_service run_worker → imports_operations →
  settled (_run_auth_key (S:=S) token args) ∧ settled (_run_replay_check (S:=S) process fuel args) ∧
  settled (_run_register run_sql files process args) ∧ settled (_run_start run_sql files process args) ∧
  settled (_run_worker run_sql files process run_worker args).
Proof.
  intros Hs Hi. split_and!.
  - unfold _run_auth_key. settled_auto.
  - unfold _run_replay_check. settled_auto. by apply settled_on_database, runs_replay_check.
  - unfold _run_register. settled_auto.
  - unfold _run_start. settled_auto. apply settled_on_database, runs_operation. constructor.
  - unfold _run_worker. settled_auto;
      (eapply settled_run_worker; [done|by eapply load_registry_operations]).
Qed.

(** Opening a pool leaves everything else. *)
Lemma configured_only_opens url name su mc p mc1 :
  _configured_pool (S:=S) process url name su mc = (Ok p, mc1) →
  mc_schema mc1 = mc_schema mc ∧ mc_db mc1 = mc_db mc ∧ mc_calls mc1 = mc_calls mc ∧
  mc_output mc1 = mc_output mc.
Proof.
  unfold _configured_pool, mbind, IO_bind, io, create_configured_pool, create_pool.
  repeat case_match; intros; by simplify_eq.
Qed.

(** The replay closes as the execution did, if it is closed by its own code. *)
Definition replay_agrees (e : Execution) (replay : ReplayResult) : Prop :=
  match exec_status e with
  | WCompleted => rr_status replay = COMPLETED ∧
                  json_equal (rr_result replay) (default JNull (exec_result e)) = true
  | WFailed => rr_status replay = FAILED ∧
               json_equal (rr_failure replay) (default JNull (exec_failure e)) = true
  | WRunning | WTerminated => True
  end.

Lemma terminal_mismatch_none e replay : terminal_mismatch e replay = None ↔ replay_agrees e replay.
Proof.
  unfold terminal_mismatch, replay_agrees, status_mismatch.
  destruct (exec_status e); try done; case_bool_decide; simpl; try (split; [done|naive_solver]);
    destruct (json_equal _ _); naive_solver.
Qed.

Lemma replay_check_compatible fuel id definition env db report db' :
  exec (replay_check fuel id definition) env db = (Ok (Some report), db') →
  db' = db ∧ rep_workflow_id report = id ∧ rep_against_version report = wd_version definition ∧
  (rep_compatible report = true ↔ ∃ e replay, db_executions db !! id = Some e ∧
    exec_workflow_type e = wd_name definition ∧
    replay_workflow fuel (fn_body (wd_function definition)) id (exec_input e) (history_of id db)
      = Some (Ok replay) ∧ replay_agrees e replay).
Proof.
  clear run_sql.
  unfold exec, replay_check, mbind, M_bind, mret, M_ret, fetch_execution, get_db. simpl.
  destruct (db_executions db !! id) as [e|] eqn:He; simpl; [|done].
  destruct (String.eqb_spec (wd_name definition) (exec_workflow_type e)) as [Hn|Hn]; simpl.
  - destruct (replay_workflow _ _ _ _ _) as [[replay|err]|] eqn:Hrep; [|destruct err; try done|done].
    + pose proof (terminal_mismatch_none e replay) as Hm.
      destruct (terminal_mismatch e replay); intros [= <- <-]; simpl; (split_and!; [done..|]).
      * split; [done|]. intros (e' & replay' & ? & _ & ? & Ha). simplify_eq. by apply Hm in Ha.
      * split; [|done]. intros _. exists e, replay. split_and!; [done..|by apply Hm].
    + intros [= <- <-]. simpl. split_and!; [done..|]. split; [done|]. naive_solver.
  - intros [= <- <-]. simpl. split_and!; [done..|]. split; [done|]. intros (e' & replay & ? & Hn' & _).
    simplify_eq.
Qed.

(** argparse gives the command of a parser. *)
Lemma parser_command parser argv args :
  ArgparseLaws → build_parser process = Ok parser → parse_args parser argv = parsed args →
  ∃ command, get_str args "command" = Ok command ∧
    command ∈ ["auth-key"; "replay-check"; "register"; "start"; "worker"].
Proof.
  intros Hlaws Hb Hp. apply parse_conforms in Hp as (sub & Hsub & Hc & _).
  exists (sp_command sub). unfold get_str. rewrite Hc. split; [done|].
  unfold build_parser, mbind, Result_bind in Hb. destruct (_database_argument process); [|done].
  injection Hb as <-. repeat (apply elem_of_cons in Hsub as [->|Hsub]; [by set_solver|]).
  by apply elem_of_nil in Hsub.
Qed.


(** What prints nothing. *)
Lemma registered_prints url name su mc p mc1 :
  _registered_pool run_sql files process url name su mc = (Ok p, mc1) → mc_output mc1 = mc_output mc.
Proof.
  unfold _registered_pool, mbind, IO_bind. destruct (migrate run_sql files url su mc) as [[[]|] mc0] eqn:E; [|done].
  intros Hp. apply configured_only_opens in Hp as (_ & _ & _ & ->).
  revert E. unfold migrate, mbind, IO_bind, io, run_migrations. repeat case_match; intros; by simplify_eq.
Qed.

Lemma register_each_prints ds su mc r mc1 :
  register_each (S:=S) ds su mc = (r, mc1) → mc_output mc1 = mc_output mc.
Proof.
  revert mc. induction ds as [|d ds IH]; intros mc; simpl; [by intros [= <- <-]|].
  unfold mbind, IO_bind, on_database. destruct (exec _ _ _) as [[[]|] db]; [|by intros [= <- <-]].
  by intros ->%IH.
Qed.

(** Registering what is registered changes nothing, now and later. *)
Lemma register_stored d env db :
  (0 < wd_version d)%Z → db_definitions db !! (wd_name d, wd_version d) = Some (wd_code_hash d) →
  exec (register_workflow_definition d) env db = (Ok tt, db).
Proof.
  intros Hv Hd. unfold exec, register_workflow_definition, transaction, mbind, M_bind, get_db, modify_db.
  cbn [w_db]. assert ((wd_version d <=? 0)%Z = false) as -> by lia. rewrite Hd. simpl.
  rewrite String.eqb_refl, insert_id by done. by destruct db.
Qed.

Lemma register_stores d env db db' :
  exec (register_workflow_definition d) env db = (Ok tt, db') →
  (0 < wd_version d)%Z ∧ db_definitions db' !! (wd_name d, wd_version d) = Some (wd_code_hash d).
Proof.
  unfold exec, register_workflow_definition, transaction, mbind, M_bind, get_db, modify_db.
  cbn [w_db]. destruct (Z.leb_spec (wd_version d) 0); [done|].
  destruct (String.eqb_spec (default (wd_code_hash d) (db_definitions db !! (wd_name d, wd_version d)))
    (wd_code_hash d)) as [Hh|]; [|done].
  intros [= <-]. simpl. split; [done|]. by rewrite Hh, lookup_insert_eq.
Qed.

Lemma register_each_stores ds su mc mc1 :
  by_operations su → register_each (S:=S) ds su mc = (Ok tt, mc1) →
  ∀ d, d ∈ ds → (0 < wd_version d)%Z ∧
    db_definitions (mc_db mc1) !! (wd_name d, wd_version d) = Some (wd_code_hash d).
Proof.
  intros Hsu. revert mc. induction ds as [|d0 ds IH]; intros mc; simpl;
    [intros _ d Hd; by apply elem_of_nil in Hd|].
  unfold mbind, IO_bind. unfold on_database at 1. destruct (exec _ _ _) as [[[]|] db] eqn:E; [|done].
  intros Hr d [->|Hd]%elem_of_cons; [|by eapply IH]. apply register_stores in E as [Hv Hh].
  split; [done|]. match type of Hr with register_each _ _ ?mc0 = _ =>
    pose proof (settled_register_each ds su mc0 Hsu) as [_ Hs] end. rewrite Hr in Hs. simpl in Hs.
  by apply (keep_definition _ _ (rtc_keeps _ _ Hs)).
Qed.

(** When [register] succeeds, every definition of the registry is stored with
    its code hash, and stays: whatever happens later, registering it again
    succeeds and changes nothing. *)
Theorem register_persists args su mc status mc1 :
  by_operations su → _run_register run_sql files process args su mc = (Ok status, mc1) →
  status = 0%Z ∧ ∃ reference registry, get_str args "definitions" = Ok reference ∧
    _load_registry reference = Ok registry ∧
    mc_output mc1 = mc_output mc ++ [sort_keys (registered_json (registry_workflows registry))] ∧
    ∀ d db env, d ∈ registry_workflows registry → rtc step (mc_db mc1) db →
      db_definitions db !! (wd_name d, wd_version d) = Some (wd_code_hash d) ∧
      exec (register_workflow_definition d) env db = (Ok tt, db).
Proof.
  intros Hsu. unfold _run_register, mbind at 1, IO_bind at 1, io at 1.
  destruct (get_str args "database_url") as [url|]; [|done]. unfold mbind at 1, IO_bind at 1, io at 1.
  destruct (get_str args "definitions") as [reference|] eqn:Href; [|done].
  unfold mbind at 1, IO_bind at 1, io at 1.
  destruct (_load_registry reference) as [registry|] eqn:Hreg; [|done].
  unfold mbind at 1, IO_bind at 1. destruct (_registered_pool _ _ _ _ _ su mc) as [[p|] mc0] eqn:Hp; [|done].
  apply registered_prints in Hp.
  unfold mbind, IO_bind, finally, close_pool, print_line, mret, IO_ret.
  destruct (register_each (registry_workflows registry) su mc0) as [[[]|] mc2] eqn:E; [|done].
  pose proof (register_each_stores _ _ _ _ Hsu E) as Hst. apply register_each_prints in E.
  intros [= <- <-]. split; [done|]. exists reference, registry. simpl.
  split_and!; [done|done|congruence|]. intros d db env Hd Hs.
  destruct (Hst d Hd) as [Hv Hh]. apply (keep_definition _ _ (rtc_keeps _ _ Hs)) in Hh.
  split; [done|by apply register_stored].
Qed.


End commands.
