(* ===== verification/ApiKeys.v ===== *)
(** * The keys the command line makes

    [engine auth-key] prints a token and the entry of [DWE_API_KEYS] that lets
    the API accept it: what cli.py writes, api/security.py reads. *)
From S2P Require Import Prelude Python Serialization Config Security Startup Cli.

(** ** ASCII text *)
Lemma ascii_cases (P : Ascii.ascii → bool) :
  forallb (fun n => P (Ascii.ascii_of_nat n)) (seq 0 256) = true → ∀ a, P a = true.
Proof.
  intros Hall a. rewrite <- (Ascii.ascii_nat_embedding a).
  rewrite forallb_forall in Hall. apply Hall, in_seq. pose proof (Ascii.nat_ascii_bounded a). lia.
Qed.

Lemma all_chars_app p s t : all_chars p (s +:+ t) = all_chars p s && all_chars p t.
Proof.
  induction s as [|a s IH]; [done|]. change (String a s +:+ t) with (String a (s +:+ t)). simpl.
  by rewrite IH, andb_assoc.
Qed.

Lemma all_chars_mono (p q : Ascii.ascii → bool) s :
  (∀ a, implb (p a) (q a) = true) → all_chars p s = true → all_chars q s = true.
Proof.
  intros Hpq. induction s as [|a s IH]; [done|]. simpl. rewrite !andb_true_iff. intros [Hp Hs].
  specialize (Hpq a). rewrite Hp in Hpq. by split; [|apply IH].
Qed.

Lemma hex_digit_hex n : (n < 16)%N → is_hex_char (hex_digit n) = true.
Proof.
  intros Hn. assert (forallb (fun n => is_hex_char (hex_digit (N.of_nat n))) (seq 0 16) = true) as Hall
    by by vm_compute.
  rewrite forallb_forall in Hall. rewrite <- (N2Nat.id n). apply Hall, in_seq. lia.
Qed.

Lemma all_hex k n : all_chars is_hex_char (hex k n) = true.
Proof.
  revert n. induction k as [|k IH]; intros n; [done|]. cbn [hex]. rewrite all_chars_app, IH. simpl.
  by rewrite hex_digit_hex by (apply N.mod_lt; lia).
Qed.

Lemma length_app_string s t : String.length (s +:+ t) = String.length s + String.length t.
Proof.
  induction s as [|a s IH]; [done|]. change (String a s +:+ t) with (String a (s +:+ t)). simpl. by rewrite IH.
Qed.
Lemma length_hex_digits k n : String.length (hex k n) = k.
Proof. revert n. induction k as [|k IH]; intros n; [done|]. cbn [hex]. rewrite length_app_string, IH. simpl. lia. Qed.

(** ASCII text has a code point per byte. *)
Lemma py_len_visible s : all_chars ascii_visible s = true → py_len s = Z.of_nat (String.length s).
Proof.
  induction s as [|a s IH]; [done|]. simpl. rewrite andb_true_iff. intros [Ha Hs].
  assert (implb (ascii_visible a) (negb (is_continuation_byte a)) = true) as Hc
    by (revert a Ha; intros a _; revert a; apply ascii_cases; by vm_compute).
  rewrite Ha in Hc. simpl in Hc. apply negb_true_iff in Hc. rewrite Hc, IH by done. lia.
Qed.

Lemma split_on_app sep s t :
  all_chars (fun a => negb (Ascii.eqb a sep)) s = true →
  split_on sep (s +:+ String sep t) = s :: split_on sep t.
Proof.
  induction s as [|a s IH]; intros Hs.
  - change ("" +:+ String sep t) with (String sep t). simpl. by rewrite Ascii.eqb_refl.
  - change (String a s +:+ String sep t) with (String a (s +:+ String sep t)). simpl in *.
    apply andb_true_iff in Hs as [Ha%negb_true_iff Hs]. by rewrite Ha, IH.
Qed.

Lemma split_on_none sep s :
  all_chars (fun a => negb (Ascii.eqb a sep)) s = true → split_on sep s = [s].
Proof.
  induction s as [|a s IH]; intros Hs; [done|]. simpl in *.
  apply andb_true_iff in Hs as [Ha%negb_true_iff Hs]. by rewrite Ha, IH.
Qed.

(** ** Keys *)

(** What the documentation calls a key ID: letters, digits, hyphens and
    underscores, at least one of them a letter or a digit. *)
Definition key_char (a : Ascii.ascii) : bool :=
  ascii_alnum a || bool_decide (Ascii.N_of_ascii a ∈ [45; 95]%N).
Definition proper_key_id (id : string) : Prop :=
  all_chars key_char id = true ∧ remove_chars [45; 95]%N id ≠ "" ∧ (String.length id ≤ 100)%nat.

Lemma remove_chars_alnum id :
  all_chars key_char id = true → all_chars ascii_alnum (remove_chars [45; 95]%N id) = true.
Proof.
  induction id as [|a id IH]; [done|]. simpl. rewrite andb_true_iff. unfold key_char at 1.
  intros [Ha Hid]. case_bool_decide; [by apply IH|]. simpl. rewrite IH by done.
  by rewrite orb_false_r in Ha; rewrite Ha.
Qed.

Ltac char_facts := apply all_chars_mono, ascii_cases; by vm_compute.

Section keys.
Context `{PyStd} `{PyText} `{!PyTextLaws}.

Lemma hexdigest_chars token : all_chars is_hex_char (hexdigest token) = true.
Proof. apply all_hex. Qed.

Lemma parse_auth_entry id role token :
  proper_key_id id → _parse_key (auth_entry id (role_name role) token) =
  Ok (mk_api_key id role (hexdigest token)).
Proof.
  intros (Hid & Hne & Hlen). unfold _parse_key, auth_entry.
  pose proof (hexdigest_chars token) as Hhex.
  assert (all_chars ascii_visible id = true) as Hvis by (revert Hid; char_facts).
  assert (all_chars ascii_visible (hexdigest token) = true) as Hhv by (revert Hhex; char_facts).
  rewrite strip_visible.
  2: { rewrite !all_chars_app, Hvis, Hhv. by destruct role. }
  change (":" +:+ role_name role +:+ ":" +:+ hexdigest token)
    with (String (Ascii.ascii_of_N 58) (role_name role +:+ String (Ascii.ascii_of_N 58) (hexdigest token))).
  rewrite split_on_app by (revert Hid; char_facts).
  rewrite split_on_app by by destruct role.
  rewrite split_on_none by (revert Hhex; char_facts).
  assert (String.eqb id "" = false) as ->.
  { apply String.eqb_neq. intros ->. by apply Hne. }
  rewrite py_len_visible by done. assert ((100 <? Z.of_nat (String.length id))%Z = false) as -> by lia.
  rewrite isalnum_ascii by (try done; by apply remove_chars_alnum).
  rewrite lower_lowercase by (revert Hhex; char_facts).
  rewrite py_len_visible by done. unfold hexdigest at 1. rewrite length_hex_digits, Hhex.
  by destruct role.
Qed.


End keys.

(** The command does not check the key ID: for one with a colon it prints an entry
    that the configuration refuses. *)
Lemma improper_key_id_refused `{PyStd} `{PyText} `{!PyTextLaws} token :
  _parse_key (auth_entry "team:ci" "viewer" token) =
  Err (RuntimeError "each DWE_API_KEYS entry must use key-id:role:sha256-digest").
Proof.
  unfold _parse_key, auth_entry. pose proof (hexdigest_chars token) as Hhex.
  assert (all_chars ascii_visible (hexdigest token) = true) as Hhv by (revert Hhex; char_facts).
  rewrite strip_visible by by rewrite !all_chars_app, Hhv.
  change ("team:ci" +:+ ":" +:+ "viewer" +:+ ":" +:+ hexdigest token)
    with ("team" +:+ String (Ascii.ascii_of_N 58) ("ci" +:+ String (Ascii.ascii_of_N 58)
            ("viewer" +:+ String (Ascii.ascii_of_N 58) (hexdigest token)))).
  rewrite !split_on_app by done. by rewrite split_on_none by (revert Hhex; char_facts).
Qed.
