(* ===== verification/Demo.v ===== *)
(** * The order workflow and the demo (examples/*.py)

    The workflow of the README, its activities, the definitions of the demo and
    the script that seeds it: programs written against the engine, as their own
    models.  [Program] is a workflow function as the requests it makes, each with
    what follows its response. *)
From S2P Require Import Prelude Python Serialization Commands Context Replay Database Leasing.
From S2P Require Import AuditLog Definitions Transitions Messages Queries System Config.
From S2P Require Import Migrations.
From S2P Require Import Startup.

(** ** Workflow functions as programs *)
Inductive Program : Type :=
| ask (r : Request) (k : Response → Program)
| give (v : JSON)
| fail_with (e : PyError).

(** The request a program makes after some responses. *)
Fixpoint after_responses (p : Program) (rs : list Response) {struct rs} : Request :=
  match p with
  | give v => ReqReturn v
  | fail_with e => ReqRaise e
  | ask r k => match rs with [] => r | x :: rs => after_responses (k x) rs end
  end.
Definition coroutine (p : JSON → Program) : Coroutine := fun input => after_responses (p input).

(** A request whose exception the function does not catch.  [f] takes the kind of
    response the operation has; no operation gives another. *)
Definition await (r : Request) (f : Response → option Program) : Program :=
  ask r (fun x => match x with
    | RExn e => fail_with e
    | _ => default (fail_with (TypeError "unexpected response")) (f x)
    end).
Definition await_value (r : Request) (k : JSON → Program) : Program :=
  await r (fun x => match x with RValue v => Some (k v) | _ => None end).
Definition await_none (r : Request) (k : Program) : Program :=
  await r (fun x => match x with RNone => Some k | _ => None end).
Definition call_activity_ref (call : ActivityCall) (k : nat → Program) : Program :=
  await (ReqActivity call) (fun x => match x with RActivityCall n => Some (k n) | _ => None end).

(** ** The order workflow *)
Section Demo.
Context `{PyStd} (getsource : string → option string).

(** The single parameter of an activity, by position or by name. *)
Definition one_argument (args : list JSON) (kwargs : dict) : Py JSON :=
  match args, kwargs with
  | [v], [] => Ok v
  | [], [(name, v)] => if String.eqb name "order" then Ok v else Err (TypeError "unexpected keyword argument")
  | _, _ => Err (TypeError "one argument expected")
  end.

Definition status_with_order (status : string) (order : JSON) : dict :=
  [("status", JStr status); ("order", order)].

(** src/examples/order_workflow.py, lines 12-18 *)
Definition charge_card : ActivityBody := fun current args kwargs =>
  order ← of_result (one_argument args kwargs);
  context ← of_result (current_activity_context current);
  mret (JObj (status_with_order "charged" order ++
                [("idempotency_key", JStr (aec_idempotency_key context))])).

(** src/examples/order_workflow.py, lines 21-23 *)
Definition reserve_inventory : ActivityBody := fun _ args kwargs =>
  order ← of_result (one_argument args kwargs); mret (JObj (status_with_order "reserved" order)).

(** src/examples/order_workflow.py, lines 26-28 *)
Definition book_courier : ActivityBody := fun _ args kwargs =>
  order ← of_result (one_argument args kwargs); mret (JObj (status_with_order "booked" order)).

Definition second : TimeDelta := 1000000.

(** src/examples/order_workflow.py, lines 31-52 *)
Definition order_fulfillment (order : JSON) : Program :=
  call_activity_ref (mk_activity_call "charge-card" [order] []
      (Some (mk_retry_policy 5 second (float_of_Z 2) None)) None (Some (30 * second)%Z) None None)
  (fun charge_ref => await_value (ReqAwaitActivity charge_ref)
  (fun charge => await_none (ReqSleep second)
  (call_activity_ref (mk_activity_call "reserve-inventory" [order] [] None None None None None)
  (fun inventory_ref =>
   call_activity_ref (mk_activity_call "book-courier" [order] [] None None None None None)
  (fun courier_ref => await (ReqGather [inventory_ref; courier_ref])
  (fun x => match x with
  | RValues [inventory; courier] => Some (await_value (ReqWaitSignal "delivery_confirmed" None)
    (fun confirmation => await ReqNow
    (fun x => match x with
    | RDatetime time => Some (await ReqUuid
      (fun x => match x with
      | RUuid id => Some (give (JObj
          [("charge", charge); ("inventory", inventory); ("courier", courier);
           ("confirmation", confirmation); ("workflow_time", JStr (isoformat time));
           ("confirmation_id", JStr (uuid_str id))]))
      | _ => None
      end))
    | _ => None
    end)))
  | _ => None
  end)))))).

(** src/examples/demo_workflows.py, lines 11-16 *)
Definition payment_review (request : JSON) : Program :=
  await ReqNow (fun x => match x with
  | RDatetime time =>
    match request with
    | JObj d =>
      match dict_get "approved" d with
      | Some (JBool false) =>
        Some (fail_with (ValueError ("Payment declined by demo risk review at " +:+ isoformat time)))
      | _ => Some (fail_with (ValueError "demo review requires an explicitly declined payment"))
      end
    | _ => Some (fail_with (ValueError "demo review requires an explicitly declined payment"))
    end
  | _ => None
  end).

(** ** The registries *)
Definition function_of {B : Type} (identity : N) (module name : string) (body : B) : PyFunction B :=
  mk_py_function identity module name name (getsource name) body.

(** src/examples/order_workflow.py, lines 55-59 *)
Definition order_registry : Py DefinitionRegistry :=
  definition ← decorate_workflow 1 (Some "order-fulfillment")
    (function_of 1 "examples.order_workflow" "order_fulfillment" (coroutine order_fulfillment));
  registry ← register_workflow empty_registry definition;
  foldM register_activity registry
    [decorate_activity (Some "charge-card")
       (function_of 2 "examples.order_workflow" "charge_card" charge_card);
     decorate_activity (Some "reserve-inventory")
       (function_of 3 "examples.order_workflow" "reserve_inventory" reserve_inventory);
     decorate_activity (Some "book-courier")
       (function_of 4 "examples.order_workflow" "book_courier" book_courier)].

(** src/examples/demo_workflows.py, lines 19-24 *)
Definition registry : Py DefinitionRegistry :=
  orders ← order_registry;
  registry ← foldM register_workflow empty_registry (registry_workflows orders);
  registry ← foldM register_activity registry (registry_activities orders);
  definition ← decorate_workflow 1 (Some "payment-review")
    (function_of 5 "examples.demo_workflows" "payment_review" (coroutine payment_review));
  register_workflow registry definition.

(** ** Seeding *)
(** src/examples/seed_demo.py, lines 22-24 *)
Definition DEMO_NAMESPACE : UUID := 0xac0982f730634f26a163048a0a10bca2%N.
Definition SCENARIOS : list string :=
  ["awaiting-confirmation"; "completed-order"; "paused-order"; "declined-payment"].
Definition QUEUE : string := "demo".

(** src/examples/seed_demo.py, lines 27-28 *)
Definition scenario_id (name : string) : UUID := uuid5 DEMO_NAMESPACE name.

Context `{PyText}.

(** src/examples/seed_demo.py, lines 36-67: one scenario. *)
Definition seed_scenario (name : string) : M unit :=
  let workflow_id := scenario_id name in
  existing ← get_execution workflow_id;
  match existing with
  | Some _ => mret tt
  | None =>
    let is_declined := String.eqb name "declined-payment" in
    _ ← start_workflow (if is_declined then "payment-review" else "order-fulfillment") 1
          (if is_declined then JObj [("order_id", JStr "DEMO-104"); ("approved", JBool false)]
           else JObj [("order_id", JStr ("DEMO-" +:+ str_upper name))])
          QUEUE (Some workflow_id)
          [("demo_scenario", JStr name); ("source", JStr "local-showcase")] None None;
    _ ← (if String.eqb name "completed-order" then
           _ ← send_signal workflow_id "demo-delivery-confirmed" "delivery_confirmed"
                 (JObj [("received", JBool true); ("source", JStr "demo")]) None; mret tt
         else mret tt);
    if String.eqb name "paused-order" then
      _ ← pause_workflow workflow_id
            (Some "Demo: inspect the paused execution, then resume it") None; mret tt
    else mret tt
  end.

(** src/examples/seed_demo.py, lines 31-68 *)
Definition seed_demo (definitions : list WorkflowDefinition) : M dict :=
  _ ← for_each definitions tt (fun _ => register_workflow_definition);
  _ ← for_each SCENARIOS tt (fun _ => seed_scenario);
  mret (map (fun name => (name, JStr (uuid_str (scenario_id name)))) SCENARIOS).

(** src/examples/seed_demo.py, lines 71-78: the registry is made when the module
    is imported. *)
Definition seed_main `{Asyncpg} {S : Type} (run_sql : string → S → Py S)
    (files : list (string * string)) (process : Process) : IO S unit :=
  demo ← io registry;
  config ← io (database_from_env process None "dwe-demo-seed");
  _ ← migrate run_sql files (dc_url config);
  _ ← create_configured_pool config;
  result ← finally (on_database (seed_demo (registry_workflows demo))) close_pool;
  print_line (JObj result).

End Demo.
