(* ===== verification/DemoTheory.v ===== *)
(** * What the demo promises

    Seeding is idempotent; the order workflow makes a bounded number of requests. *)
From S2P Require Import Prelude Python Serialization Commands Context Replay Database Logic.
From S2P Require Import Leasing.
From S2P Require Import AuditLog Definitions Transitions Messages Queries Workers Store System.
From S2P Require Import Atomicity Runner Service Writes Tables Records Config Startup Demo.
From S2P Require Import CliTheory.
From stdpp Require Import relations.

(** ** Loops that establish something for each element *)
Section loops.
Context `{PyStd} {A : Type} (P : A → DB → Prop) (body : A → M unit).
Hypothesis stable : ∀ x db db', rtc step db db' → P x db → P x db'.

Lemma runs_for_each l : (∀ x, x ∈ l → runs (body x)) → runs (for_each l tt (fun _ => body)).
Proof.
  induction l as [|z l IH]; intros Hr; simpl; [by apply runs_reads|].
  apply runs_bind; [apply Hr; by left|intros []]. apply IH. intros. apply Hr. by right.
Qed.

Lemma for_each_establishes l :
  (∀ x, x ∈ l → runs (body x)) → (∀ x db, x ∈ l → wp (body x) (fun _ db' => P x db') db) →
  ∀ db, wp (for_each l tt (fun _ => body)) (fun _ db' => ∀ x, x ∈ l → P x db') db.
Proof.
  induction l as [|y l IH]; intros Hr Hb db; simpl.
  { apply wp_ret. intros x Hx. by apply elem_of_nil in Hx. }
  assert (∀ x, x ∈ l → runs (body x)) as Hrl by (intros; apply Hr; by right).
  apply wp_bind. eapply wp_mono; [apply Hb; by left|]. intros [] db1 Hy env n [] w' E.
  pose proof (runs_for_each l Hrl env n db1) as Hs. unfold leaves in Hs. rewrite E in Hs.
  intros x [->|Hx]%elem_of_cons; [by eapply stable|]. revert x Hx.
  eapply (IH Hrl); [intros; apply Hb; by right|exact E].
Qed.

(** A loop whose bodies have nothing left to do. *)
Lemma for_each_idle (l : list A) env w :
  (∀ x, x ∈ l → body x env w = (Ok tt, w)) → for_each l tt (fun _ => body) env w = (Ok tt, w).
Proof.
  induction l as [|x l IH]; intros Hb; simpl; [done|]. unfold mbind, M_bind.
  rewrite Hb by by left. apply IH. intros. apply Hb. by right.
Qed.
End loops.

Section demo.
Context `{PyStd} `{PyText}.

(** A started execution has a row. *)
Lemma start_workflow_row t v i q id sa r a db :
  wp (start_workflow t v i q (Some id) sa r a) (fun _ db' => is_Some (db_executions db' !! id)) db.
Proof.
  unfold start_workflow. wp_auto. unfold insert_started, require_definition, insert_execution. wp_auto.
  match goal with |- wp _ _ ?d =>
    assert (is_Some (db_executions d !! id)) as [e He] by (simpl; rewrite lookup_insert_eq; by eexists);
    eapply (wp_writes (may:=anything) _ d); [by writes_auto|done|] end.
  intros [] db2 Hk1 _. eapply (wp_writes (may:=anything)); [writes_auto|exact Hk1|].
  intros [] db3 Hk2 _. eapply (wp_writes (may:=anything)); [writes_auto|exact Hk2|].
  intros [] db4 Hk%written_keeps _. wp_auto.
  destruct (keep_execution _ _ Hk _ _ He) as (e' & He' & _). by eexists.
Qed.

Definition seeded (name : string) (db : DB) : Prop := is_Some (db_executions db !! scenario_id name).
Definition definition_stored (d : WorkflowDefinition) (db : DB) : Prop :=
  (0 < wd_version d)%Z ∧ db_definitions db !! (wd_name d, wd_version d) = Some (wd_code_hash d).

Lemma seeded_stable name db db' : rtc step db db' → seeded name db → seeded name db'.
Proof.
  intros Hs [e He]. destruct (keep_execution _ _ (rtc_keeps _ _ Hs) _ _ He) as (e' & He' & _). by eexists.
Qed.
Lemma definition_stable d db db' : rtc step db db' → definition_stored d db → definition_stored d db'.
Proof. intros Hs [? Hd]. split; [done|]. by apply (keep_definition _ _ (rtc_keeps _ _ Hs)). Qed.

Lemma runs_register d : runs (register_workflow_definition d).
Proof. apply runs_operation. constructor. Qed.
Lemma runs_seed name : runs (seed_scenario name).
Proof.
  unfold seed_scenario. apply runs_bind; [by apply runs_reads|intros [x|]]; [by apply runs_reads|].
  cbv zeta. apply runs_bind; [apply runs_operation; constructor|intros _].
  apply runs_bind; [|intros _].
  - case_match; [|by apply runs_reads]. apply runs_bind; [apply runs_operation; constructor|intros _].
    by apply runs_reads.
  - case_match; [|by apply runs_reads]. apply runs_bind; [apply runs_operation; constructor|intros _].
    by apply runs_reads.
Qed.

(** What runs after a normal return keeps what that return established. *)
Lemma wp_then {A B} (m : M A) (k : A → M B) (P : DB → Prop) db :
  (∀ db db', rtc step db db' → P db → P db') → wp m (fun _ => P) db → (∀ a, runs (k a)) →
  wp (m ≫= k) (fun _ => P) db.
Proof.
  intros Hst Hm Hk. apply wp_bind. eapply wp_mono; [exact Hm|]. intros a db1 HP env n b w' E.
  eapply Hst; [|exact HP]. pose proof (Hk a env n db1) as Hs. unfold leaves in Hs. by rewrite E in Hs.
Qed.

Lemma seed_scenario_seeds name db : wp (seed_scenario name) (fun _ => seeded name) db.
Proof.
  unfold seed_scenario, get_execution. cbv zeta. apply wp_bind, wp_bind, wp_get_db, wp_ret.
  destruct (db_executions db !! scenario_id name) eqn:E; simpl.
  - apply wp_ret. by eexists.
  - apply wp_then; [apply seeded_stable|apply start_workflow_row|intros _].
    apply runs_bind; [|intros _].
    + case_match; [|by apply runs_reads]. apply runs_bind; [apply runs_operation; constructor|intros _].
      by apply runs_reads.
    + case_match; [|by apply runs_reads]. apply runs_bind; [apply runs_operation; constructor|intros _].
      by apply runs_reads.
Qed.

Lemma register_establishes d db : wp (register_workflow_definition d) (fun _ => definition_stored d) db.
Proof.
  unfold register_workflow_definition. wp_auto.
  match goal with Hh : String.eqb _ _ = true |- _ => apply String.eqb_eq in Hh end.
  split; [lia|]. simpl. rewrite lookup_insert_eq. by f_equal.
Qed.

Definition demo_answer : dict :=
  map (fun name => (name, JStr (uuid_str (scenario_id name)))) SCENARIOS.

Lemma seed_demo_establishes definitions db :
  wp (seed_demo definitions) (fun answer db' => (∀ d, d ∈ definitions → definition_stored d db') ∧
    (∀ name, name ∈ SCENARIOS → seeded name db') ∧ answer = demo_answer) db.
Proof.
  unfold seed_demo. apply wp_bind. eapply wp_mono.
  { apply (for_each_establishes definition_stored); [apply definition_stable|intros; apply runs_register|].
    intros. apply register_establishes. }
  intros [] db1 Hd. apply wp_bind.
  intros env n [] w' E. pose proof (runs_for_each seed_scenario SCENARIOS
    (fun name _ => runs_seed name) env n db1) as Hs. unfold leaves in Hs. rewrite E in Hs.
  apply wp_ret. split_and!; [intros d Hin; by eapply definition_stable, Hd| |done].
  eapply (for_each_establishes seeded); [apply seeded_stable|intros; apply runs_seed| |exact E].
  intros. apply seed_scenario_seeds.
Qed.

Lemma register_idle d env w :
  definition_stored d (w_db w) → register_workflow_definition d env w = (Ok tt, w).
Proof.
  intros [Hv Hd]. unfold register_workflow_definition, transaction, mbind, M_bind, get_db, modify_db.
  assert ((wd_version d <=? 0)%Z = false) as -> by lia. rewrite Hd. simpl.
  rewrite String.eqb_refl, insert_id by done. by destruct w as [[] ?].
Qed.

Lemma seed_idle name env w : seeded name (w_db w) → seed_scenario name env w = (Ok tt, w).
Proof.
  intros [e He]. unfold seed_scenario, get_execution, mbind, M_bind, get_db, mret, M_ret. by rewrite He.
Qed.

(** Seeding the demo is idempotent: once it succeeded, seeding again -- after
    whatever happened to the executions in between -- gives the same answer and
    changes nothing. *)
Theorem seed_demo_idempotent definitions env db answer db1 db2 env' :
  exec (seed_demo definitions) env db = (Ok answer, db1) → rtc step db1 db2 →
  exec (seed_demo definitions) env' db2 = (Ok answer, db2).
Proof.
  intros E Hs. unfold exec in E.
  destruct (seed_demo definitions env (mk_world db 0)) as [r w1] eqn:E1. injection E as -> <-.
  apply (seed_demo_establishes definitions db) in E1 as (Hd & Hn & ->).
  unfold exec, seed_demo, mbind, M_bind.
  rewrite (for_each_idle register_workflow_definition definitions).
  2: { intros d Hd'%Hd. by apply register_idle, (definition_stable _ _ _ Hs). }
  rewrite (for_each_idle seed_scenario SCENARIOS); [done|].
  intros name Hn'%Hn. by apply seed_idle, (seeded_stable _ _ _ Hs).
Qed.

End demo.

(** ** The order workflow makes at most nine requests *)
Fixpoint within (n : nat) (p : Program) : Prop :=
  match p, n with
  | ask _ _, O => False
  | ask _ k, S n => ∀ x, within n (k x)
  | _, _ => True
  end.

Lemma within_give n v : within n (give v).
Proof. by destruct n. Qed.
Lemma within_fail n e : within n (fail_with e).
Proof. by destruct n. Qed.
Lemma within_await n r f : (∀ x p, f x = Some p → within n p) → within (S n) (await r f).
Proof.
  intros Hf x. destruct x; try apply within_fail;
    (destruct (f _) as [p|] eqn:E; [by eapply Hf|apply within_fail]).
Qed.

Lemma within_ends `{PyStd} n p rs : within n p → n ≤ length rs → exec_request (after_responses p rs) = None.
Proof.
  revert p rs. induction n as [|n IH]; intros [r k|v|e] rs Hw Hl; try done; try (by destruct rs).
  destruct rs as [|x rs]; simpl in *; [lia|]. apply IH; [done|lia].
Qed.

Lemma order_fulfillment_bounded `{PyStd} input rs :
  9 ≤ length rs → exec_request (coroutine order_fulfillment input rs) = None.
Proof.
  apply within_ends. unfold order_fulfillment, call_activity_ref, await_value, await_none.
  repeat (apply within_await; intros x p Hx; destruct x as [|vs| | | | | | | | | |]; try done;
    try (destruct vs as [|? [|? [|]]]; try done); apply (inj Some) in Hx; subst p).
  apply within_give.
Qed.

(** Seeding as a process: pools are closed, and only operations happen. *)
Lemma settled_seed_main `{PyStd} `{PyText} `{Asyncpg} {S} getsource (run_sql : string → S → Py S) files process :
  settled (seed_main getsource run_sql files process).
Proof.
  unfold seed_main. settled_auto; [apply opening_create_pool|]. apply settled_on_database.
  unfold seed_demo. apply runs_bind; [apply runs_for_each; intros; apply runs_register|intros []].
  apply runs_bind; [apply runs_for_each; intros; apply runs_seed|intros []]. by apply runs_reads.
Qed.
