(* ===== verification/Benchmarks.v ===== *)
(** * The benchmarks (benchmarks/run.py)

    The program that measures the engine: the workflow functions it runs, the
    history it generates for replay, and the actions of the process on a
    database.  The times are the readings of the surroundings; operations started
    together by [asyncio.gather] end in the order the surroundings choose. *)
From S2P Require Import Prelude Python Serialization History Commands Context Replay Database.
From S2P Require Import Leasing AuditLog Definitions Transitions Commit Activities Messages.
From S2P Require Import Timeouts Workers System Config Security Migrations Metrics Startup Demo.
From stdpp Require Import pretty.

Definition AssertionError : PyError := UserError "AssertionError" "".
Definition ZeroDivisionError : PyError := UserError "ZeroDivisionError" "division by zero".
Definition assert_ (b : bool) : Py unit := if b then Ok tt else Err AssertionError.

(** ** The workflow functions *)

(** benchmarks/run.py, lines 35-35 *)
Definition BENCHMARK_WORKFLOW_ID : UUID := 0x079f51ca740148238fd56cc47f9c0af3%N.

(** benchmarks/run.py, lines 38-40 *)
Definition benchmark_identity : ActivityBody := fun _ args kwargs =>
  match args, kwargs with
  | [value], [] => mret value
  | [], [("value", value)] => mret value
  | _, _ => throw (TypeError "one argument expected")
  end.
Definition identity_call (value : JSON) (retry : option RetryPolicy) : ActivityCall :=
  mk_activity_call "benchmark-identity" [value] [] retry None None None None.

(** [for index in range(count): result = await ctx.activity(benchmark_identity, index)],
    [n] of them from [index]. *)
Fixpoint await_identities (n : nat) (index : Z) (result : JSON) : Program :=
  match n with
  | O => give result
  | S n =>
    call_activity_ref (identity_call (JInt index) None) (fun ref =>
      await_value (ReqAwaitActivity ref) (await_identities n (index + 1)))
  end.

(** benchmarks/run.py, lines 43-51 *)
Definition benchmark_replay (value : JSON) : Program :=
  match value with
  | JObj d =>
    match dict_get "count" d with
    | Some (JInt count) => await_identities (Z.to_nat count) 0 JNull
    | Some (JBool count) => await_identities (if count then 1 else 0) 0 JNull
    | Some _ => fail_with AssertionError
    | None => fail_with (KeyError "count")
    end
  | _ => fail_with AssertionError
  end.

(** benchmarks/run.py, lines 54-57 *)
Definition benchmark_start (value : JSON) : Program := give value.

(** benchmarks/run.py, lines 60-63 *)
Definition benchmark_timer (value : JSON) : Program := await_none (ReqSleep 1000) (give value).

(** benchmarks/run.py, lines 66-72 *)
Definition benchmark_activity_dispatch (value : JSON) : Program :=
  call_activity_ref (identity_call value (Some (mk_retry_policy 2 0 (float_of_Z 2) None))) (fun ref =>
    await_value (ReqAwaitActivity ref) give).

(** ** Statistics *)
Definition sorted_floats : list float → list float := merge_sort (fun x y => SFleb x y = true).

(** benchmarks/run.py, lines 75-78 *)
Definition percentile (samples : list float) (fraction : float) : Py float :=
  let ordered := sorted_floats samples in
  let index := Z.min (Z.of_nat (length ordered) - 1)
                 (Z.max 0 (float_trunc (float_mul (float_of_Z (Z.of_nat (length ordered) - 1)) fraction))) in
  match (if (index <? 0)%Z then None else ordered !! Z.to_nat index) with
  | Some sample => Ok sample
  | None => Err (IndexError "list index out of range")
  end.

Definition hundredths (n : Z) : float := float_div (float_of_Z n) (float_of_Z 100).

(** benchmarks/run.py, lines 81-86 *)
Definition distribution (samples : list float) : Py dict :=
  p50 ← percentile samples (hundredths 50);
  p95 ← percentile samples (hundredths 95);
  p99 ← percentile samples (hundredths 99);
  Ok [("p50", JFloat p50); ("p95", JFloat p95); ("p99", JFloat p99)].

(** [statistics.median]. *)
Definition median (samples : list float) : Py float :=
  let ordered := sorted_floats samples in
  let n := length ordered in
  match ordered !! (n / 2)%nat with
  | None => Err (UserError "StatisticsError" "no median for empty data")
  | Some high =>
    if Nat.odd n then Ok high
    else Ok (float_div (float_add (default high (ordered !! (n / 2 - 1)%nat)) high) (float_of_Z 2))
  end.

(** [x / y] of floats. *)
Definition quotient (x y : float) : Py float :=
  if SFeqb y (S754_zero false) then Err ZeroDivisionError else Ok (float_div x y).

(** ** The generated history *)
Section history.
Context `{PyStd}.

Definition benchmark_entity (command_id : Z) : UUID :=
  uuid5 ENTITY_NAMESPACE (uuid_str BENCHMARK_WORKFLOW_ID +:+ ":activity:" +:+ pretty command_id).

(** benchmarks/run.py, lines 96-105 *)
Definition benchmark_command (command_id : Z) : JSON :=
  let command_input := JObj [("args", JList [JInt command_id]); ("kwargs", JObj [])] in
  JObj [("command_type", JStr "activity");
        ("activity_type", JStr "benchmark-identity");
        ("input", command_input);
        ("retry_policy", JObj (RetryPolicy_to_json default_retry_policy));
        ("schedule_to_start_seconds", JNull);
        ("start_to_close_seconds", JNull);
        ("heartbeat_timeout_seconds", JNull)].

(** [len(events) + 1]. *)
Definition next_number (events : list HistoryEvent) : Z := (Z.of_nat (length events) + 1)%Z.

(** benchmarks/run.py, lines 106-126: one command and its outcome. *)
Definition append_activity (events : list HistoryEvent) (command_id : Z) : Py (list HistoryEvent) :=
  let entity_id := benchmark_entity command_id in
  fp ← fingerprint (benchmark_command command_id);
  let events := events ++ [mk_event (next_number events) ActivityScheduled [("fingerprint", JStr fp)]
                             (Some command_id) (Some entity_id) None] in
  Ok (events ++ [mk_event (next_number events) ActivityCompleted
                   [("result", JInt command_id); ("attempt", JInt 1)] None (Some entity_id) None]).

(** benchmarks/run.py, lines 127-136: [n] more events. *)
Fixpoint append_fillers (n : nat) (events : list HistoryEvent) : list HistoryEvent :=
  match n with
  | O => events
  | S n =>
    let filler := Z.of_nat (length events) in
    append_fillers n (events ++ [mk_event (next_number events) SignalReceived
      [("name", JStr "benchmark-filler"); ("payload", JInt filler)] None None
      (Some ("filler-" +:+ pretty filler))])
  end.

(** [range(n)]. *)
Definition range (n : Z) : list Z := seqZ 0 n.

(** benchmarks/run.py, lines 89-137 *)
Definition replay_history (event_count : Z) : Py (list HistoryEvent) :=
  if (event_count <? 1)%Z then Err (ValueError "event_count must be positive")
  else
    let events := [mk_event 1 WorkflowExecutionStarted [("input", JNull)] None None None] in
    let command_count := ((event_count - 1) / 2)%Z in
    events ← foldM append_activity events (range command_count);
    Ok (append_fillers (Z.to_nat event_count - length events) events).
End history.

(** ** Actions *)
Section actions.
Context {S : Type}.

(** [for x in l: body]. *)
Fixpoint loop {A B : Type} (l : list A) (s : B) (body : B → A → IO S B) : IO S B :=
  match l with
  | [] => mret s
  | x :: l => s ← body s x; loop l s body
  end.

(** [for _ in range(n): r = attempt; if r is a result: break], waiting in between. *)
Fixpoint retry_until {A : Type} (n : nat) (attempt : IO S (option A)) : IO S (option A) :=
  match n with
  | O => mret None
  | Datatypes.S n =>
    r ← attempt;
    match r with Some a => mret (Some a) | None => retry_until n attempt end
  end.

(** [time.perf_counter()]. *)
Definition perf_counter : IO S float := fun su mc =>
  (Ok (su_perf_counter su (mc_readings mc)), mc <| mc_readings := (mc_readings mc + 1)%nat |>).

(** [began = perf_counter(); body; perf_counter() - began]. *)
Definition timed {A : Type} (body : IO S A) : IO S (A * float) :=
  began ← perf_counter;
  a ← body;
  ended ← perf_counter;
  mret (a, float_sub ended began).
Definition milliseconds (seconds : float) : float := float_mul seconds (float_of_Z 1000).

(** ** Operations that run together *)

(** The order in which [n] operations end: each once, as asked where it is asked. *)
Definition completion_order (asked : list nat) (n : nat) : list nat :=
  let first := remove_dups (filter (fun i => i < n) asked) in
  first ++ filter (fun i => i ∉ first) (seq 0 n).

Fixpoint run_in_order {A : Type} (ops : list (M A)) (order : list nat) (ended : list (nat * Py A))
    : IO S (list (nat * Py A)) := fun su mc =>
  match order with
  | [] => (Ok ended, mc)
  | i :: order =>
    match ops !! i with
    | None => run_in_order ops order ended su mc
    | Some op =>
      let '(r, mc) := on_database op su mc in
      run_in_order ops order (ended ++ [(i, r)]) su mc
    end
  end.

Fixpoint first_error {A : Type} (ended : list (nat * Py A)) : option PyError :=
  match ended with
  | [] => None
  | (_, Err e) :: _ => Some e
  | (_, Ok _) :: ended => first_error ended
  end.
Definition value_at {A : Type} (ended : list (nat * Py A)) (i : nat) : option A :=
  match list_find (fun x => x.1 = i) ended with Some (_, (_, Ok a)) => Some a | _ => None end.

(** [asyncio.gather] of coroutines that are one operation each: the first error
    is raised; the operations that had not ended go on, and end before the pool
    is closed. *)
Definition gather_on_database {A : Type} (ops : list (M A)) : IO S (list A) := fun su mc =>
  let order := completion_order (su_order su (mc_calls mc) (length ops)) (length ops) in
  match run_in_order ops order [] su mc with
  | (Err e, mc) => (Err e, mc)
  | (Ok ended, mc) =>
    match first_error ended with
    | Some e => (Err e, mc)
    | None => (Ok (omap (value_at ended) (seq 0 (length ops))), mc)
    end
  end.
End actions.

(** ** Statements the benchmark executes itself *)

(** benchmarks/run.py, lines 236-240 *)
Definition expire_lease (task_id : UUID) : M unit :=
  now ← db_now;
  db ← get_db;
  match db_tasks db !! task_id with
  | None => mret tt
  | Some task =>
    let task := task <| task_lease_expires_at := Some (now - 1000000)%Z |> in
    if task_ok task then modify_db (fun db => db <| db_tasks := <[task_id := task]> (db_tasks db) |>)
    else throw (CheckViolation "tasks_check")
  end.

(** benchmarks/run.py, lines 320-328: the delay in milliseconds, of some row. *)
Definition timer_delay (workflow_id : UUID) : M (option float) :=
  db ← get_db;
  let fired := filter (fun r => event_type (hr_event r) = TimerFired) (rows_of workflow_id db) in
  let joined := r ← fired; '(_, t) ← map_to_list (db_tasks db);
    if bool_decide (is_Some (task_entity_id t)) && bool_decide (task_entity_id t = entity_id (hr_event r))
    then [(hr_created_at r - task_visible_at t)%Z] else [] in
  mret (match joined with
        | us :: _ => Some (float_div (float_of_Z us) (float_of_Z 1000))
        | [] => None
        end).

(** benchmarks/run.py, lines 341-358: signals up to the sequence number [size]. *)
Definition seed_signals `{PyStd} (workflow_id : UUID) (size : Z) : M unit :=
  transaction (
    _ ← for_each (seqZ 2 (size - 1)) tt (fun _ value =>
          insert_event workflow_id value SignalReceived None None (Some ("seed-" +:+ pretty value))
            [("name", JStr "seed"); ("payload", JInt value)]);
    modify_db (fun db =>
      db <| db_executions := alter (fun e => e <| exec_next_seq := (size + 1)%Z |>) workflow_id
              (db_executions db) |>)).

(** ** The measurements *)
Section Benchmarks.
Context `{PyStd} `{PyText} `{Asyncpg} (getsource : string → option string).
Context {S : Type} (run_sql : string → S → Py S) (files : list (string * string)).
(** [show name], and what [platform] and [os] say of the host. *)
Context (server_setting : string → string) (host : dict) (timestamp_utc : string).

Abbreviation IO := (IO S).

Definition benchmark_definition (identity : N) (name function : string) (program : JSON → Program)
    : Py WorkflowDefinition :=
  decorate_workflow 1 (Some name)
    (mk_py_function identity "benchmarks.run" function function (getsource function) (coroutine program)).

(** The definitions the module makes when it is imported. *)
Record Definitions : Type := mk_definitions {
  def_replay : WorkflowDefinition;
  def_start : WorkflowDefinition;
  def_timer : WorkflowDefinition;
  def_activity_dispatch : WorkflowDefinition
}.
Definition definitions : Py Definitions :=
  replay ← benchmark_definition 1 "benchmark-replay" "benchmark_replay" benchmark_replay;
  start ← benchmark_definition 2 "benchmark-start" "benchmark_start" benchmark_start;
  timer ← benchmark_definition 3 "benchmark-timer" "benchmark_timer" benchmark_timer;
  dispatch ← benchmark_definition 4 "benchmark-activity-dispatch" "benchmark_activity_dispatch"
               benchmark_activity_dispatch;
  Ok (mk_definitions replay start timer dispatch).

Definition is_quick (profile : string) : bool := String.eqb profile "quick".

(** One replay of the generated history; [2 * command_count + 1] requests at most. *)
Definition replay_once (command_count : Z) (history : list HistoryEvent) : Py ReplayResult :=
  default (Err RecursionError)
    (replay_workflow (2 * Z.to_nat command_count + 1) (coroutine benchmark_replay) BENCHMARK_WORKFLOW_ID
       (JObj [("count", JInt command_count)]) history).

(** benchmarks/run.py, lines 144-172: one size. *)
Definition measure_replay (sample_count : nat) (results : dict) (event_count : Z) : IO dict :=
  history ← io (replay_history event_count);
  let command_count := ((event_count - 1) / 2)%Z in
  warmup ← io (replay_once command_count history);
  _ ← io (assert_ (bool_decide (rr_status warmup = COMPLETED)));
  samples ← loop (seq 0 sample_count) [] (fun samples _ =>
    '(replay, elapsed) ← timed (io (replay_once command_count history));
    _ ← io (assert_ (bool_decide (rr_status replay = COMPLETED)));
    mret (samples ++ [elapsed]));
  median ← io (median samples);
  rate ← io (quotient (float_of_Z event_count) median);
  mret (dict_set (pretty event_count)
    (JObj [("median_seconds", JFloat median); ("events_per_second", JFloat rate);
           ("samples", JInt (Z.of_nat sample_count)); ("warmup_samples", JInt 1)]) results).

(** benchmarks/run.py, lines 140-174 *)
Definition benchmark_replays (profile : string) : IO dict :=
  loop [10; 1000; 100000]%Z [] (measure_replay (if is_quick profile then 2 else 5)).

(** [start_workflow] of a benchmark's definition, version 1. *)
Definition start_one (d : WorkflowDefinition) (input : JSON) (queue : string) : M StartedWorkflow :=
  start_workflow (wd_name d) 1 input queue None [] None None.
Definition start_many (d : WorkflowDefinition) (queue : string) (count : Z) : IO (list StartedWorkflow) :=
  gather_on_database (map (fun index => start_one d (JInt index) queue) (range count)).
Definition lease (t : TaskType) (queue : string) : M (option LeasedTask) := lease_task t queue default_lease.
Definition default_lease_seconds : TimeDelta := default_lease.

(** [assert await run_workflow_task(...)]: the registered functions make two
    requests at most. *)
Definition work (registry : DefinitionRegistry) (queue : string) : IO unit :=
  worked ← on_database (run_workflow_task 3 registry queue default_lease);
  match worked with
  | Some b => io (assert_ b)
  | None => io (Err RecursionError)
  end.

(** [began = ...; await lease_task(...)], so many times; [required]: it is
    asserted that there was a task. *)
Definition lease_samples (t : TaskType) (queue : string) (count : Z) (required : bool) : IO (list float) :=
  loop (range count) [] (fun samples _ =>
    '(leased, elapsed) ← timed (
       leased ← on_database (lease t queue);
       io (assert_ (negb required || bool_decide (is_Some leased))));
    mret (samples ++ [milliseconds elapsed])).

(** benchmarks/run.py, lines 188-207: starts and workflow leases. *)
Definition measure_starts (start_count : Z) (d : Definitions) : IO (float * list float) :=
  '(_, start_elapsed) ← timed (start_many (def_start d) "benchmark-starts" start_count);
  samples ← lease_samples TWorkflow "benchmark-starts" start_count true;
  mret (start_elapsed, samples).

(** benchmarks/run.py, lines 210-223 *)
Definition measure_activities (registry : DefinitionRegistry) (activity_count : Z) (d : Definitions)
    : IO (list float) :=
  _ ← loop (range activity_count) tt (fun _ index =>
    _ ← on_database (start_one (def_activity_dispatch d) (JInt index) "benchmark-activities");
    work registry "benchmark-activities");
  lease_samples TActivity "benchmark-activities" activity_count true.

Definition required {A : Type} (o : option A) : Py A :=
  match o with Some a => Ok a | None => Err AssertionError end.

(** benchmarks/run.py, lines 225-245 *)
Definition measure_recovery (d : Definitions) : IO float :=
  recovery_execution ← on_database (start_one (def_start d) JNull "benchmark-recovery");
  recovery_lease ← on_database (lease TWorkflow "benchmark-recovery");
  recovery_lease ← io (required recovery_lease);
  _ ← on_database (expire_lease (lt_id recovery_lease));
  '(_, elapsed) ← timed (
    reclaimed ← on_database (reclaim_expired_workflow_tasks 100);
    _ ← io (assert_ (1 <=? reclaimed)%Z);
    replacement ← on_database (lease TWorkflow "benchmark-recovery");
    replacement ← io (required replacement);
    io (assert_ (bool_decide (lt_workflow_id replacement = started_workflow_id recovery_execution))));
  mret (milliseconds elapsed).

(** benchmarks/run.py, lines 247-287 *)
Definition measure_activity_recovery (registry : DefinitionRegistry) (d : Definitions) : IO float :=
  execution ← on_database (start_one (def_activity_dispatch d) JNull "benchmark-activity-recovery");
  _ ← work registry "benchmark-activity-recovery";
  abandoned ← on_database (lease TActivity "benchmark-activity-recovery");
  abandoned ← io (required abandoned);
  _ ← on_database (expire_lease (lt_id abandoned));
  '(_, elapsed) ← timed (
    processed ← on_database (process_activity_timeout (Some "benchmark-activity-recovery") (Some (float_of_Z 0)));
    _ ← io (assert_ processed);
    replacement ← retry_until 100 (on_database (lease TActivity "benchmark-activity-recovery"));
    replacement ← io (required replacement);
    io (assert_ (bool_decide (lt_workflow_id replacement = started_workflow_id execution)
                 && (lt_attempt replacement =? 2)%Z)));
  mret (milliseconds elapsed).

(** benchmarks/run.py, lines 292-329: one timer. *)
Definition measure_timer (registry : DefinitionRegistry) (d : Definitions) (timer_delays : list float)
    (index : Z) : IO (list float) :=
  let timer_queue := "benchmark-timer-" +:+ pretty index in
  execution ← on_database (start_one (def_timer d) (JInt index) timer_queue);
  _ ← work registry timer_queue;
  fired ← retry_until 100 (
    fired ← on_database (fire_due_timer (Some timer_queue) None);
    mret (if fired : bool then Some tt else None));
  match fired with
  | None => io (Err (RuntimeError "scheduled timer did not fire"))
  | Some _ =>
    delay ← on_database (timer_delay (started_workflow_id execution));
    match delay with
    | Some delay => mret (timer_delays ++ [delay])
    | None => io (Err (TypeError "float() argument must be a string or a real number, not 'NoneType'"))
    end
  end.

(** benchmarks/run.py, lines 334-366: one size. *)
Definition measure_append (d : Definitions) (append_cost : dict) (history_size : Z) : IO dict :=
  execution ← on_database (start_one (def_start d) JNull "benchmark-append");
  _ ← on_database (seed_signals (started_workflow_id execution) history_size);
  '(_, elapsed) ← timed (on_database
    (send_signal (started_workflow_id execution) "measured-append" "measured" JNull None));
  mret (dict_set (pretty history_size) (JFloat (milliseconds elapsed)) append_cost).

(** benchmarks/run.py, lines 371-392: one depth. *)
Definition measure_depth (d : Definitions) (depth_results : dict) (depth : Z) : IO dict :=
  let queue := "benchmark-depth-" +:+ pretty depth in
  _ ← start_many (def_start d) queue depth;
  samples ← lease_samples TWorkflow queue (Z.min depth 100) false;
  result ← io (distribution samples);
  mret (dict_set (pretty depth) (JObj result) depth_results).

(** benchmarks/run.py, lines 396-416: so many pollers. *)
Definition measure_contention (d : Definitions) (contention : dict) (workers : Z) : IO dict :=
  let queue := "benchmark-contention-" +:+ pretty workers in
  let count := (workers * 20)%Z in
  _ ← start_many (def_start d) queue count;
  '(leases, elapsed) ← timed (gather_on_database
    (replicate (Z.to_nat count) (lease TWorkflow queue)));
  _ ← io (assert_ (forallb (fun lease => bool_decide (is_Some lease)) leases));
  rate ← io (quotient (float_of_Z count) elapsed);
  mret (dict_set (pretty workers) (JFloat rate) contention).

(** benchmarks/run.py, lines 418-443: what is measured with an open pool. *)
Definition measure_postgres (registry : DefinitionRegistry) (d : Definitions) (profile : string) : IO dict :=
  let quick := is_quick profile in
  let start_count := (if quick then 100 else 1000)%Z in
  '(start_elapsed, workflow_samples) ← measure_starts start_count d;
  activity_samples ← measure_activities registry (if quick then 50 else 500)%Z d;
  recovery_ms ← measure_recovery d;
  activity_recovery_ms ← measure_activity_recovery registry d;
  timer_delays ← loop (range (if quick then 20 else 200)%Z) [] (measure_timer registry d);
  append_cost ← loop [10; 1000; 100000]%Z [] (measure_append d);
  let pending_depths := (if quick then [100; 1000] else [1000; 10000])%Z in
  depth_results ← loop pending_depths [] (measure_depth d);
  contention ← loop [1; 4; 16]%Z [] (measure_contention d);
  rate ← io (quotient (float_of_Z start_count) start_elapsed);
  workflow_ms ← io (distribution workflow_samples);
  activity_ms ← io (distribution activity_samples);
  timer_ms ← io (distribution timer_delays);
  mret [("postgres_version", JStr (server_setting "server_version"));
        ("postgres_settings", JObj (map (fun name => (name, JStr (server_setting name)))
           ["max_connections"; "shared_buffers"; "synchronous_commit"; "wal_level"]));
        ("workflow_starts_per_second", JFloat rate);
        ("workflow_dispatch_call_ms", JObj workflow_ms);
        ("activity_dispatch_call_ms", JObj activity_ms);
        ("timer_fire_delay_ms", JObj timer_ms);
        ("expired_workflow_lease_recovery_ms", JFloat recovery_ms);
        ("expired_activity_lease_recovery_ms", JFloat activity_recovery_ms);
        ("append_transition_ms_by_history_size", JObj append_cost);
        ("dispatch_ms_by_pending_depth", JObj depth_results);
        ("leases_per_second_by_concurrent_pollers", JObj contention);
        ("largest_pending_depth_tested", JInt (foldr Z.max 0%Z pending_depths));
        ("first_failure_point", JNull)].

(** benchmarks/run.py, lines 176-187 and 444-445 *)
Definition benchmark_postgres (d : Definitions) (database_url profile : string) : IO dict :=
  _ ← migrate run_sql files database_url;
  _ ← create_pool database_url 1 32 (float_of_Z 30) 30000 "durable-workflow-engine";
  registry ← io (registry ← register_workflow empty_registry (def_timer d);
                 register_workflow registry (def_activity_dispatch d));
  finally (
    _ ← on_database (register_workflow_definition (def_start d));
    _ ← on_database (register_workflow_definition (def_timer d));
    _ ← on_database (register_workflow_definition (def_activity_dispatch d));
    measure_postgres registry d profile) close_pool.

(** benchmarks/run.py, lines 448-463 *)
Definition run (d : Definitions) (profile : string) (database_url : option string) : IO dict :=
  replay ← benchmark_replays profile;
  let result := [("metadata", JObj (("timestamp_utc", JStr timestamp_utc) :: ("profile", JStr profile) :: host));
                 ("replay", JObj replay)] in
  match database_url with
  | None | Some "" => mret result
  | Some url => postgres ← benchmark_postgres d url profile; mret (result ++ [("postgres", JObj postgres)])
  end.

End Benchmarks.
