(* ===== verification/BenchmarksTheory.v ===== *)
(** * What the benchmarks measure

    The generated history is a history of the engine, and the benchmark's
    workflow replays on it to the end: what is timed is a whole replay.  The
    percentiles are samples, the pool is closed. *)
From S2P Require Import Prelude Python Serialization History HistoryTheory Commands Context.
From S2P Require Import Durability Operations Calls Replay Versions Database Config Startup Demo.
From S2P Require Import Leasing Definitions Transitions Commit Workers Migrations DemoTheory.
From S2P Require Import Benchmarks.
From stdpp Require Import sorting.

(** ** Programs along their responses *)

(** After the responses [rs] the program [p0] goes on as [p]. *)
Definition goes_on (p0 : Program) (rs : list Response) (p : Program) : Prop :=
  ∀ rs', after_responses p0 (rs ++ rs') = after_responses p rs'.

Lemma goes_on_nil p : goes_on p [] p.
Proof. done. Qed.
Lemma goes_on_now p0 rs p : goes_on p0 rs p → after_responses p0 rs = after_responses p [].
Proof. intros Hp. by rewrite <- (Hp []), app_nil_r. Qed.
Lemma goes_on_step p0 rs r k x : goes_on p0 rs (ask r k) → goes_on p0 (rs ++ [x]) (k x).
Proof. intros Hp rs'. by rewrite <- (assoc_L (++)), Hp. Qed.

(** ** The generated history *)
Section history.
Context `{PyStd}.

Lemma fingerprint_finite v : json_finite v = true → ∃ h, fingerprint v = Ok h.
Proof. intros Hv. unfold fingerprint, canonical_json, mbind, Result_bind. rewrite Hv. by eexists. Qed.

Definition command_fingerprint (k : Z) : string :=
  match fingerprint (benchmark_command k) with Ok h => h | Err _ => "" end.
Lemma command_fingerprint_ok k : fingerprint (benchmark_command k) = Ok (command_fingerprint k).
Proof.
  unfold command_fingerprint. destruct (fingerprint_finite (benchmark_command k)) as [h ->]; [|done].
  by vm_compute.
Qed.

Definition scheduled_event (k : Z) : HistoryEvent :=
  mk_event (2 * k + 2) ActivityScheduled [("fingerprint", JStr (command_fingerprint k))]
    (Some k) (Some (benchmark_entity k)) None.
Definition completed_event (k : Z) : HistoryEvent :=
  mk_event (2 * k + 3) ActivityCompleted [("result", JInt k); ("attempt", JInt 1)] None
    (Some (benchmark_entity k)) None.
Definition start_event : HistoryEvent :=
  mk_event 1 WorkflowExecutionStarted [("input", JNull)] None None None.
Definition command_events (n : nat) : list HistoryEvent :=
  start_event :: (k ← seqZ 0 (Z.of_nat n); [scheduled_event k; completed_event k]).

Lemma seqZ_snoc (n : nat) : seqZ 0 (Z.of_nat (S n)) = seqZ 0 (Z.of_nat n) ++ [Z.of_nat n].
Proof.
  replace (Z.of_nat (S n)) with (Z.of_nat n + 1)%Z by lia. rewrite seqZ_app by lia. by rewrite Z.add_0_l.
Qed.
Lemma command_events_snoc n :
  command_events (S n) =
  command_events n ++ [scheduled_event (Z.of_nat n)] ++ [completed_event (Z.of_nat n)].
Proof. unfold command_events. by rewrite seqZ_snoc, bind_app. Qed.
Lemma command_events_length n : length (command_events n) = 2 * n + 1.
Proof.
  induction n as [|n IH]; [done|]. rewrite command_events_snoc, !length_app, IH. simpl. lia.
Qed.

Lemma append_activity_events n :
  foldM append_activity [start_event] (range (Z.of_nat n)) = Ok (command_events n).
Proof.
  induction n as [|n IH]; [done|]. unfold range in *. rewrite seqZ_snoc, foldM_snoc, IH.
  unfold append_activity, next_number, mbind, Result_bind. rewrite command_fingerprint_ok.
  rewrite command_events_snoc, !length_app, command_events_length, <- (assoc_L (++)). cbn [length app].
  replace (Z.of_nat (2 * n + 1) + 1)%Z with (2 * Z.of_nat n + 2)%Z by lia.
  by replace (Z.of_nat (2 * n + 1 + 1) + 1)%Z with (2 * Z.of_nat n + 3)%Z by lia.
Qed.

(** The fillers: one signal if the number of events is even. *)
Definition filler_event (k : nat) : HistoryEvent :=
  mk_event (Z.of_nat k + 1) SignalReceived
    [("name", JStr "benchmark-filler"); ("payload", JInt (Z.of_nat k))] None None
    (Some ("filler-" +:+ pretty.pretty (Z.of_nat k))).
Fixpoint filler_events (k n : nat) : list HistoryEvent :=
  match n with O => [] | S n => filler_event k :: filler_events (S k) n end.

Lemma append_fillers_events n es : append_fillers n es = es ++ filler_events (length es) n.
Proof.
  revert es. induction n as [|n IH]; intros es; simpl; [by rewrite app_nil_r|].
  rewrite IH, length_app, <- (assoc_L (++)). simpl. unfold next_number.
  replace (length es + 1) with (S (length es)) by lia. done.
Qed.
Lemma filler_events_length k n : length (filler_events k n) = n.
Proof. revert k. induction n; intros k; simpl; [done|by rewrite IHn]. Qed.

Definition commands_in (event_count : Z) : nat := Z.to_nat ((event_count - 1) / 2).

Lemma replay_history_events n :
  (1 ≤ n)%Z →
  replay_history n = Ok (command_events (commands_in n) ++
    filler_events (2 * commands_in n + 1) (Z.to_nat n - (2 * commands_in n + 1))).
Proof.
  intros Hn. unfold replay_history, commands_in. destruct (Z.ltb_spec n 1); [lia|]. cbv zeta.
  assert (0 ≤ (n - 1) / 2)%Z by (apply Z.div_pos; lia).
  unfold mbind, Result_bind. rewrite <- (Z2Nat.id ((n - 1) / 2)) at 1 by done.
  fold start_event. rewrite append_activity_events. by rewrite append_fillers_events, command_events_length.
Qed.

(** ** Its index *)
Record indexes (n : nat) (s : Z) (i : HistoryIndex) : Prop := {
  gx_previous : previous_seq i = s;
  gx_terminal : workflow_terminal i = None;
  gx_scheduled k : scheduled i !! k = if decide (0 ≤ k < Z.of_nat n)%Z then Some (scheduled_event k) else None;
  gx_entities u e : scheduled_entities i !! u = Some e → ∃ k, (0 ≤ k < Z.of_nat n)%Z ∧ u = benchmark_entity k;
  gx_completed k : (0 ≤ k < Z.of_nat n)%Z → activity_terminal i !! benchmark_entity k = Some (completed_event k);
  gx_settled u e : activity_terminal i !! u = Some e → ∃ k, (0 ≤ k < Z.of_nat n)%Z ∧ u = benchmark_entity k
}.

(** Entities differ: uuid5 has no collision among them. *)
Definition distinct_entities (n : nat) : Prop :=
  ∀ k k', (0 ≤ k < Z.of_nat n)%Z → (0 ≤ k' < Z.of_nat n)%Z → benchmark_entity k = benchmark_entity k' → k = k'.

Lemma index_command n i :
  distinct_entities (S n) → indexes n (2 * Z.of_nat n + 1) i →
  ∃ i', foldM index_event i [scheduled_event (Z.of_nat n); completed_event (Z.of_nat n)] = Ok i' ∧
    indexes (S n) (2 * Z.of_nat n + 3) i'.
Proof.
  intros Hd [Hp Ht Hs He Hc Ha].
  assert (scheduled_entities i !! benchmark_entity (Z.of_nat n) = None) as Hne.
  { destruct (scheduled_entities i !! _) as [e|] eqn:E; [|done]. apply He in E as (k & Hk & Hu).
    apply Hd in Hu; lia. }
  assert (activity_terminal i !! benchmark_entity (Z.of_nat n) = None) as Hna.
  { destruct (activity_terminal i !! _) as [e|] eqn:E; [|done]. apply Ha in E as (k & Hk & Hu).
    apply Hd in Hu; lia. }
  assert (scheduled i !! Z.of_nat n = None) as Hns by (rewrite Hs; case_decide; [lia|done]).
  eexists. split.
  - cbn [foldM]. unfold index_event, index_header, index_schedule, index_activity_terminal,
      index_timer_terminal, index_child_terminal, index_message, index_closing, scheduled_as,
      mbind, Result_bind.
    rewrite Hp, Ht. cbn [event_seq event_type scheduled_event completed_event].
    rewrite (proj2 (Z.eqb_eq (2 * Z.of_nat n + 2) (2 * Z.of_nat n + 1 + 1))) by lia. simpl.
    rewrite Hns, Hne. simpl.
    rewrite (proj2 (Z.eqb_eq (2 * Z.of_nat n + 3) (2 * Z.of_nat n + 2 + 1))) by lia. simpl.
    rewrite Hna, lookup_insert_eq. simpl. reflexivity.
  - split; simpl; [done|done| | | |].
    + intros k. destruct (decide (k = Z.of_nat n)) as [->|Hk].
      * rewrite lookup_insert_eq, decide_True by lia. done.
      * rewrite lookup_insert_ne, Hs by done. repeat case_decide; done || lia.
    + intros u e [[<- _]|[_ [k [? ?]]%He]]%lookup_insert_Some; [|exists k; split; [lia|done]].
      exists (Z.of_nat n). split; [lia|done].
    + intros k Hk. destruct (decide (k = Z.of_nat n)) as [->|Hkn]; [by rewrite lookup_insert_eq|].
      rewrite lookup_insert_ne; [apply Hc; lia|]. intros Hu. apply Hd in Hu; lia.
    + intros u e [[<- _]|[_ [k [? ?]]%Ha]]%lookup_insert_Some; [|exists k; split; [lia|done]].
      exists (Z.of_nat n). split; [lia|done].
Qed.

Lemma index_filler n k i :
  indexes n (Z.of_nat k) i → ∃ i', index_event i (filler_event k) = Ok i' ∧ indexes n (Z.of_nat k + 1) i'.
Proof.
  intros [Hp Ht Hs He Hc Ha]. eexists. split.
  - unfold index_event, index_header, index_schedule, index_activity_terminal,
      index_timer_terminal, index_child_terminal, index_message, index_closing, mbind, Result_bind.
    rewrite Hp, Ht. cbn [event_seq event_type filler_event].
    rewrite (proj2 (Z.eqb_eq (Z.of_nat k + 1) (Z.of_nat k + 1))) by lia. simpl. reflexivity.
  - by split.
Qed.

Lemma index_commands n :
  distinct_entities n →
  ∃ i, foldM index_event empty_index (command_events n) = Ok i ∧ indexes n (2 * Z.of_nat n + 1) i.
Proof.
  induction n as [|n IH]; intros Hd.
  - eexists. split; [reflexivity|]. split; try done. intros k. case_decide; [lia|done].
    intros k Hk. lia.
  - destruct IH as (i & Hf & Hi); [intros k k' ? ?; apply Hd; lia|].
    destruct (index_command n i Hd Hi) as (i' & Hf' & Hi'). exists i'.
    rewrite command_events_snoc, foldM_app, Hf. split; [exact Hf'|].
    by replace (2 * Z.of_nat (S n) + 1)%Z with (2 * Z.of_nat n + 3)%Z by lia.
Qed.

Lemma index_fillers n m k i :
  indexes n (Z.of_nat k) i →
  ∃ i', foldM index_event i (filler_events k m) = Ok i' ∧ indexes n (Z.of_nat (k + m)) i'.
Proof.
  revert k i. induction m as [|m IH]; intros k i Hi.
  - exists i. split; [done|]. by rewrite Nat.add_0_r.
  - destruct (index_filler n k i Hi) as (i1 & E & Hi1). cbn [filler_events foldM]. rewrite E.
    replace (Z.of_nat k + 1)%Z with (Z.of_nat (S k)) in Hi1 by lia.
    destruct (IH _ _ Hi1) as (i' & E' & Hi'). exists i'. split; [done|]. by rewrite Nat.add_succ_r.
Qed.

Lemma index_generated n m :
  distinct_entities n →
  ∃ i, build_index (command_events n ++ filler_events (2 * n + 1) m) = Ok i ∧
    indexes n (Z.of_nat (2 * n + 1 + m)) i.
Proof.
  intros Hd. destruct (index_commands n Hd) as (i & Hf & Hi).
  replace (2 * Z.of_nat n + 1)%Z with (Z.of_nat (2 * n + 1)) in Hi by lia.
  destruct (index_fillers n m _ i Hi) as (i' & Hf' & Hi'). exists i'. split; [|done].
  change (foldM index_event empty_index (command_events n ++ filler_events (2 * n + 1) m) = Ok i').
  by rewrite foldM_app, Hf.
Qed.

(** ** Its replay *)
Lemma identity_call_fingerprint k :
  ∃ input, activity_identity (identity_call (JInt k) None) = Ok (input, command_fingerprint k).
Proof.
  eexists. unfold activity_identity, identity_call. cbn [ac_args ac_kwargs ac_retry ac_schedule_to_start
    ac_start_to_close ac_heartbeat_timeout ac_activity_type].
  assert (clone_json (JList [JInt k]) = Ok (JList [JInt k])) as -> by by apply clone_json_ok.
  assert (clone_json (JObj []) = Ok (JObj [])) as -> by by apply clone_json_ok.
  unfold mbind, Result_bind. cbn [check_positive fmap option_fmap option_map].
  match goal with |- context [fingerprint ?v] =>
    change (fingerprint v) with (fingerprint (benchmark_command k)) end.
  rewrite command_fingerprint_ok. reflexivity.
Qed.

(** Evaluating a new call whose command is recorded and completed. *)
Lemma recorded_identity ref k c :
  ctx_next_command_id c = k →
  scheduled (ctx_history c) !! k = Some (scheduled_event k) →
  activity_terminal (ctx_history c) !! benchmark_entity k = Some (completed_event k) →
  ctx_calls c !! ref = Some (identity_call (JInt k) None) →
  ∃ c', _evaluate_activity ref c = (OReturn (JInt k), c') ∧
    ctx_next_command_id c' = (k + 1)%Z ∧ ctx_history c' = ctx_history c.
Proof.
  intros Hk Hs Ht Hc. rewrite activity_shape, Hc. unfold assign. cbn [ac_command_id identity_call].
  eexists. split; [f_equal|split; [simpl; by rewrite Hk|done]].
  destruct (identity_call_fingerprint k) as [input Hf].
  unfold command_outcome, activity_spec. cbn [spec_check spec_found]. rewrite Hf, Hk, Hs.
  unfold entity_found. cbn [event_type scheduled_event entity_id snd].
  rewrite bool_decide_eq_true_2 by done. rewrite fingerprint_matches_refl by done. simpl.
  unfold activity_result. by rewrite Ht.
Qed.

(** The value the loop returns. *)
Definition last_identity (n : nat) (k : Z) (result : JSON) : JSON :=
  match n with O => result | S n => JInt (k + Z.of_nat n) end.

Lemma run_identities p0 fuel n k rs c result :
  goes_on p0 rs (await_identities n k result) →
  ctx_next_command_id c = k →
  (∀ j, (k ≤ j < k + Z.of_nat n)%Z → scheduled (ctx_history c) !! j = Some (scheduled_event j) ∧
    activity_terminal (ctx_history c) !! benchmark_entity j = Some (completed_event j)) →
  2 * n < fuel →
  ∃ c', Replay.run fuel (after_responses p0) rs c = Some (Returned (last_identity n k result), c') ∧
    ctx_next_command_id c' = (k + Z.of_nat n)%Z.
Proof.
  revert fuel k rs c result. induction n as [|n IH]; intros fuel k rs c result Hp Hk Hi Hf.
  { destruct fuel as [|fuel]; [lia|]. exists c. split; [|lia]. cbn [Replay.run].
    by rewrite (goes_on_now _ _ _ Hp). }
  destruct fuel as [|[|fuel]]; [lia..|].
  cbn [await_identities] in Hp. unfold call_activity_ref, await in Hp.
  erewrite run_step by by rewrite (goes_on_now _ _ _ Hp).
  unfold mbind, Ctx_bind, activity, mret, Ctx_ret. cbv beta iota zeta.
  apply (goes_on_step _ _ _ _ (RActivityCall (length (ctx_calls c)))) in Hp. cbn [default from_option] in Hp.
  erewrite run_step by by rewrite (goes_on_now _ _ _ Hp).
  destruct (Hi k ltac:(lia)) as [Hs Ht].
  match goal with |- context [(_ ← _evaluate_activity ?ref; _) ?c1] =>
    destruct (recorded_identity ref k c1 Hk Hs Ht) as (c2 & He & Hn & Hh) end.
  { simpl. by rewrite lookup_app_r, Nat.sub_diag. }
  unfold mbind, Ctx_bind, mret, Ctx_ret. rewrite He.
  cbv beta iota.
  apply (goes_on_step _ _ _ _ (RValue (JInt k))) in Hp. cbn [default from_option] in Hp.
  destruct (IH fuel (k + 1)%Z _ c2 (JInt k) Hp Hn) as (c3 & Hr & Hn3); [|lia|].
  { intros j Hj. rewrite Hh. apply Hi. lia. }
  exists c3. rewrite Hr. split; [|lia]. do 3 f_equal.
  destruct n as [|n]; unfold last_identity; f_equal; lia.
Qed.

(** What the replay benchmark times is a whole replay: for every number of
    events the generated history has exactly that many, numbered from 1, and the
    benchmark's workflow replays on it to completion -- with the last index as
    its result, without a new command and without non-determinism -- if uuid5
    has no collision among the entities. *)
Theorem benchmark_replay_completes event_count :
  (1 ≤ event_count)%Z → distinct_entities (commands_in event_count) →
  ∃ h, replay_history event_count = Ok h ∧ Z.of_nat (length h) = event_count ∧
    (∀ i e, h !! i = Some e → event_seq e = Z.of_nat i + 1)%Z ∧
    replay_once ((event_count - 1) / 2) h =
      Ok (mk_replay_result COMPLETED [] (last_identity (commands_in event_count) 0 JNull) JNull).
Proof.
  intros Hn Hd. rewrite replay_history_events by done. eexists. split; [reflexivity|].
  assert (0 ≤ (event_count - 1) / 2)%Z as Hc by (apply Z.div_pos; lia).
  pose proof (Z.div_mod (event_count - 1) 2) as Hm. pose proof (Z.mod_pos_bound (event_count - 1) 2).
  set (m := (Z.to_nat event_count - (2 * commands_in event_count + 1))%nat).
  destruct (index_generated (commands_in event_count) m Hd) as (i & Hb & Hi).
  split; [|split].
  - rewrite length_app, command_events_length, filler_events_length. unfold m, commands_in. lia.
  - intros j e. apply (build_index_numbered _ _ Hb).
  - unfold replay_once, replay_workflow. rewrite Hb.
    assert (clone_json (JObj [("count", JInt ((event_count - 1) / 2))]) =
      Ok (JObj [("count", JInt ((event_count - 1) / 2))])) as -> by by apply clone_json_ok.
    destruct (run_identities (await_identities (commands_in event_count) 0 JNull)
      (2 * Z.to_nat ((event_count - 1) / 2) + 1) (commands_in event_count) 0 []
      (init_context BENCHMARK_WORKFLOW_ID i) JNull) as (c & Hr & Hk); [done|done| |unfold commands_in; lia|].
    { intros j Hj. split; [|apply (gx_completed _ _ _ Hi); lia].
      simpl. rewrite (gx_scheduled _ _ _ Hi), decide_True by lia. done. }
    change (Replay.run _ (coroutine benchmark_replay _) [] _) with
      (Replay.run (2 * Z.to_nat ((event_count - 1) / 2) + 1)
         (after_responses (await_identities (commands_in event_count) 0 JNull)) []
         (init_context BENCHMARK_WORKFLOW_ID i)).
    rewrite Hr. cbn [default from_option finish].
    rewrite first_unvisited_none.
    + assert (clone_json (last_identity (commands_in event_count) 0 JNull) =
        Ok (last_identity (commands_in event_count) 0 JNull)) as ->; [|done].
      apply clone_json_ok. by destruct (commands_in event_count).
    + intros j [e Hj]. rewrite (gx_scheduled _ _ _ Hi) in Hj. case_decide; [lia|done].
Qed.
End history.

(** ** The percentiles *)

(** A percentile of some samples is one of them; of none it is an IndexError. *)
Lemma percentile_sample samples fraction :
  match samples with
  | [] => percentile samples fraction = Err (IndexError "list index out of range")
  | _ => ∃ x, percentile samples fraction = Ok x ∧ x ∈ samples
  end.
Proof.
  unfold percentile, sorted_floats. set (s := merge_sort _ samples).
  assert (s ≡ₚ samples) as Hs by apply merge_sort_Permutation.
  pose proof (Permutation_length Hs) as Hl. destruct samples as [|y samples].
  - apply Permutation_nil_r in Hs as ->. by destruct (_ <? 0)%Z.
  - simpl in Hl. match goal with |- context [(?i <? 0)%Z] => set (index := i) end.
    assert (0 ≤ index < Z.of_nat (length s))%Z by lia. destruct (Z.ltb_spec index 0); [lia|].
    destruct (s !! _) as [x|] eqn:E; [|apply lookup_ge_None in E; lia].
    exists x. split; [done|]. rewrite <- Hs. by eapply list_elem_of_lookup_2.
Qed.

(** ** Operations that run together *)
Lemma completion_order_perm asked n : completion_order asked n ≡ₚ seq 0 n.
Proof.
  unfold completion_order. set (first := remove_dups (filter (fun i => i < n) asked)).
  assert (∀ i, i ∈ first → i < n) as Hf.
  { intros i Hi. by apply elem_of_remove_dups, list_elem_of_filter in Hi as [? _]. }
  apply NoDup_Permutation.
  - apply NoDup_app. split_and!; [apply NoDup_remove_dups| |apply NoDup_filter, NoDup_seq].
    intros i Hi [Hn _]%list_elem_of_filter. done.
  - apply NoDup_seq.
  - intros i. rewrite elem_of_app, list_elem_of_filter, !elem_of_seq. split.
    + intros [?%Hf|[_ ?]]; lia.
    + intros Hi. destruct (decide (i ∈ first)); [by left|right]. split; [done|lia].
Qed.

Section processes.
Context `{PyStd} {S : Type}.

(** Every operation of a gather is executed once, whatever the others do. *)
Lemma run_in_order_ends {A} (ops : list (M A)) order ended su mc :
  (∀ i, i ∈ order → i < length ops) →
  ∃ more mc', run_in_order (S:=S) ops order ended su mc = (Ok (ended ++ more), mc') ∧ more.*1 = order ∧
    mc_calls mc' = (mc_calls mc + length order)%nat ∧ mc_pools mc' = mc_pools mc.
Proof.
  revert ended mc. induction order as [|i order IH]; intros ended mc Hi; simpl.
  { exists [], mc. rewrite app_nil_r. split_and!; done || lia. }
  destruct (lookup_lt_is_Some_2 ops i) as [op ->]; [apply Hi; by left|].
  unfold on_database. destruct (exec op _ _) as [r db].
  edestruct (IH (ended ++ [(i, r)])) as (more & mc' & E & Hm & Hc & Hp); [intros; apply Hi; by right|].
  exists ((i, r) :: more), mc'. rewrite E, <- (assoc_L (++)).
  split_and!; [done|by rewrite fmap_cons, Hm|simpl in *; lia|done].
Qed.

Lemma gather_executes {A} (ops : list (M A)) su mc :
  mc_calls (gather_on_database (S:=S) ops su mc).2 = (mc_calls mc + length ops)%nat ∧
  mc_pools (gather_on_database ops su mc).2 = mc_pools mc.
Proof.
  unfold gather_on_database. set (order := completion_order _ _).
  assert (order ≡ₚ seq 0 (length ops)) as Ho by apply completion_order_perm.
  destruct (run_in_order_ends ops order [] su mc) as (more & mc' & -> & _ & Hc & Hp).
  { intros i. rewrite Ho, elem_of_seq. lia. }
  apply Permutation_length in Ho. rewrite length_seq in Ho. rewrite Ho in Hc. by destruct (first_error _).
Qed.

(** ** The pool is closed *)
Definition pooled {A} (m : IO S A) : Prop := ∀ su mc, mc_pools (m su mc).2 = mc_pools mc.

Lemma pooled_ret {A} (a : A) : pooled (mret a).
Proof. done. Qed.
Lemma pooled_io {A} (r : Py A) : pooled (io r).
Proof. done. Qed.
Lemma pooled_bind {A B} (m : IO S A) (k : A → IO S B) : pooled m → (∀ a, pooled (k a)) → pooled (m ≫= k).
Proof.
  intros Hm Hk su mc. unfold mbind, IO_bind. specialize (Hm su mc).
  destruct (m su mc) as [[a|e] mc1]; simpl in *; [|done]. by rewrite (Hk a su mc1).
Qed.
Lemma pooled_on_database {A} (m : M A) : pooled (on_database m).
Proof. intros su mc. unfold on_database. by destruct (exec _ _ _). Qed.
Lemma pooled_gather {A} (ops : list (M A)) : pooled (gather_on_database ops).
Proof. intros su mc. apply gather_executes. Qed.
Lemma pooled_perf_counter : pooled perf_counter.
Proof. done. Qed.
Lemma pooled_timed {A} (m : IO S A) : pooled m → pooled (timed m).
Proof. intros Hm. do 3 (apply pooled_bind; [done|intros ?]). apply pooled_ret. Qed.
Lemma pooled_loop {A B} (l : list A) (body : B → A → IO S B) s :
  (∀ s x, pooled (body s x)) → pooled (loop l s body).
Proof.
  intros Hb. revert s. induction l as [|x l IH]; intros s; [apply pooled_ret|].
  apply pooled_bind; [apply Hb|intros s']. apply IH.
Qed.
Lemma pooled_retry {A} n (m : IO S (option A)) : pooled m → pooled (retry_until n m).
Proof.
  intros Hm. induction n as [|n IH]; [apply pooled_ret|].
  apply pooled_bind; [done|intros [a|]]; [apply pooled_ret|apply IH].
Qed.

Lemma finally_closes {A} (body : IO S A) su mc :
  pooled body → mc_pools (finally body close_pool su mc).2 = tail (mc_pools mc).
Proof.
  intros Hb. unfold finally. specialize (Hb su mc). destruct (body su mc) as [r mc1]. simpl in *. by rewrite Hb.
Qed.
End processes.

Create HintDb pooled.
#[export] Hint Resolve pooled_ret pooled_io pooled_on_database pooled_gather pooled_perf_counter : pooled.

(** Unfolds the action at the head of a goal. *)
Ltac unfold_head m :=
  lazymatch m with ?f _ => unfold_head f | _ => unfold m end.

Ltac pooled_auto :=
  repeat match goal with
  | |- pooled (_ ≫= _) => apply pooled_bind; [|intros ?]
  | |- pooled (loop _ _ _) => apply pooled_loop; intros ? ?
  | |- pooled (timed _) => apply pooled_timed
  | |- pooled (retry_until _ _) => apply pooled_retry
  | |- pooled (if ?b then _ else _) => destruct b
  | |- pooled (match ?x with _ => _ end) => destruct x
  | |- pooled _ => solve [eauto with pooled]
  | |- pooled ?m => progress unfold_head m
  end.

(** [pool = await create_pool(...)], what cannot fail, [try: ... finally: await pool.close()]. *)
Lemma pooled_with_pool `{Asyncpg} {S A B : Type} u a b c t n (x : A) (body : A → IO S B) :
  (∀ x, pooled (body x)) →
  pooled (create_pool u a b c t n ≫= fun _ => io (Ok x) ≫= fun x => finally (body x) close_pool).
Proof.
  intros Hb su mc. unfold mbind, IO_bind, io, create_pool. destruct (asyncpg_create_pool _) as [[]|e]; [|done..].
  by rewrite finally_closes.
Qed.

(** A program within a bound replays with more fuel than that. *)
Lemma replay_within `{PyStd} N fuel p wid input h :
  (∀ input, within N (p input)) → N < fuel → is_Some (replay_workflow fuel (coroutine p) wid input h).
Proof.
  intros Hp Hf. unfold replay_workflow. destruct (build_index h) as [i|e]; [|by eexists].
  destruct (clone_json input) as [v|e]; [|by eexists].
  destruct (fuel_enough (coroutine p v) fuel N [] (init_context wid i)) as [[end_ c] Hr]; [|simpl; lia..|].
  - intros rs. by apply within_ends.
  - rewrite Hr. by eexists.
Qed.

Section postgres.
Context `{PyStd} `{PyText} `{Asyncpg} (getsource : string → option string).
Context {S : Type} (run_sql : string → S → Py S) (files : list (string * string)).
Context (server_setting : string → string).

(** The two definitions have different names, so registering them never fails. *)
Lemma benchmark_registry_ok d :
  definitions getsource = Ok d →
  ∃ registry, (registry ← register_workflow empty_registry (def_timer d);
               register_workflow registry (def_activity_dispatch d)) = Ok registry ∧
    reg_workflows registry = {[ ("benchmark-activity-dispatch", 1%Z) := def_activity_dispatch d;
                                ("benchmark-timer", 1%Z) := def_timer d ]} ∧
    fn_body (wd_function (def_timer d)) = coroutine benchmark_timer ∧
    fn_body (wd_function (def_activity_dispatch d)) = coroutine benchmark_activity_dispatch.
Proof.
  unfold definitions, benchmark_definition, decorate_workflow, WorkflowDefinition_create, _code_hash.
  cbn [fn_source fn_name fn_module fn_qualname]. unfold mbind, Result_bind. cbn.
  destruct (getsource "benchmark_replay"); [|done]. destruct (getsource "benchmark_start"); [|done].
  destruct (getsource "benchmark_timer"); [|done].
  destruct (getsource "benchmark_activity_dispatch"); [|done]. intros [= <-].
  eexists. split; [reflexivity|]. split; [|done]. cbn.
  by rewrite insert_empty.
Qed.

(** Their functions make two requests at most, so the fuel of [work] is enough. *)
Lemma work_never_runs_out d registry queue duration env w :
  definitions getsource = Ok d →
  (registry ← register_workflow empty_registry (def_timer d);
   register_workflow registry (def_activity_dispatch d)) = Ok registry →
  (run_workflow_task 3 registry queue duration env w).1 ≠ Ok None.
Proof.
  intros Hd Hreg. destruct (benchmark_registry_ok d Hd) as (registry' & Hr & Hw & Ht & Ha).
  rewrite Hr in Hreg. injection Hreg as ->.
  unfold run_workflow_task, mbind, M_bind.
  destruct (lease_task _ _ _ env w) as [[[task|]|e] w1]; [|done..].
  destruct (load_workflow_replay_state task env w1) as [[state|e] w2]; [|done].
  destruct (registry_workflow _ _ _) as [definition|e] eqn:Hl.
  - assert (∃ p, fn_body (wd_function definition) = coroutine p ∧ ∀ input, within 2 (p input))
      as (p & -> & Hp).
    { unfold registry_workflow in Hl. rewrite Hw in Hl. destruct (_ !! _) as [x|] eqn:E in Hl; [|done].
      injection Hl as <-. apply lookup_insert_Some in E as [[_ <-]|[_ [_ <-]%lookup_singleton_Some]].
      - exists benchmark_activity_dispatch. split; [done|]. intros input.
        unfold benchmark_activity_dispatch, call_activity_ref, await_value.
        do 2 (apply within_await; intros [] p Hp; try done; injection Hp as <-). apply within_give.
      - exists benchmark_timer. split; [done|]. intros input. unfold benchmark_timer, await_none.
        apply within_await. intros [] p Hp; try done. injection Hp as <-. apply within_give. }
    assert (is_Some (replay_workflow 3 (coroutine p) (rs_workflow_id state) (rs_workflow_input state)
      (rs_history state))) as [r ->] by (by apply replay_within with 2; [|lia]).
    unfold of_result. destruct r as [replay|e]; [|done].
    by destruct (commit_workflow_replay task replay env w2) as [[[]|e] w3].
  - by destruct (release_workflow_task task default_release_delay env w2) as [[]].
Qed.

(** Whatever the measurements do, the pool they use is closed. *)
Lemma pooled_benchmark d url profile :
  definitions getsource = Ok d →
  pooled (benchmark_postgres run_sql files server_setting d url profile).
Proof.
  intros Hd. destruct (benchmark_registry_ok d Hd) as (registry & Hr & _).
  unfold benchmark_postgres. apply pooled_bind.
  { unfold migrate. pooled_auto. intros su mc. unfold run_migrations. by destruct (apply_migrations _ _ _). }
  intros _. rewrite Hr. apply pooled_with_pool. intros registry'. pooled_auto.
Qed.
End postgres.
