(* ===== verification/Chronicle.v ===== *)
(** * The stored histories are versions

    Refinement of the abstract histories of [Versions] by the database: a commit
    of a replay appends the events that record its commands, every other
    operation appends outcomes and messages.  So in a system whose workers
    commit the replays of the histories they load, replay is deterministic. *)
From S2P Require Import Prelude Python Serialization History HistoryTheory Commands Context.
From S2P Require Import Replay.
From S2P Require Import Durability Requests Determinism Versions Database Logic Store Leasing.
From S2P Require Import AuditLog Definitions Transitions Commit Frames StoreInvariant System.
From S2P Require Import Atomicity.
From stdpp Require Import relations.

(** ** Stored attributes *)
Lemma dict_get_Some {A} k (v : A) d : dict_get k d = Some v → (k, v) ∈ d.
Proof.
  induction d as [|[k' v'] d IH]; simpl; [done|]. destruct (String.eqb_spec k k') as [<-|].
  - intros [= <-]. by left.
  - intros ?. right. by apply IH.
Qed.

Lemma elem_of_dict_get {A} k (v : A) d : NoDup d.*1 → (k, v) ∈ d → dict_get k d = Some v.
Proof.
  intros Hnd Hin. destruct (dict_get k d) as [v'|] eqn:Hg.
  - apply dict_get_Some in Hg. f_equal.
    assert ((k, v') = (k, v)) as Heq by by apply (nodup_keys_eq d). by injection Heq.
  - exfalso. clear Hnd. induction d as [|[k' v'] d IH]; [by apply not_elem_of_nil in Hin|].
    simpl in Hg. destruct (String.eqb_spec k k') as [|Hne]; [done|].
    apply elem_of_cons in Hin as [[= ? ?]|Hin]; [done|by apply IH].
Qed.

Definition stored (v : JSON) : JSON := jsonb (sort_keys v).

(** What [event.attributes] holds of an attribute of the source. *)
Lemma stored_attr `{PyStd} k v attrs d s t c n x :
  NoDup attrs.*1 → to_jsonb (JObj attrs) = Ok (JObj d) → dict_get k attrs = Some v →
  attr k (mk_event s t d c n x) = stored v.
Proof.
  intros Hnd Hj Hk. unfold attr, dict_get_json. cbn [attributes].
  unfold to_jsonb, mbind, Result_bind in Hj. destruct (canonical_json _); [|done].
  rewrite sort_keys_obj in Hj. cbn [jsonb] in Hj. injection Hj as <-.
  rewrite (elem_of_dict_get k (stored v)); [done| |].
  - assert (∀ l : dict, (map (fun kv => match kv with (k, v) => (k, jsonb v) end) l).*1 = l.*1) as ->.
    { intros l. induction l as [|[] l IH]; [done|]. simpl. f_equal. exact IH. }
    by rewrite merge_sort_Permutation, sort_kv_keys.
  - apply dict_get_Some in Hk. apply list_elem_of_fmap. exists (k, sort_keys v). split; [done|].
    rewrite merge_sort_Permutation. apply list_elem_of_fmap. by exists (k, v).
Qed.

Lemma to_jsonb_attr `{PyStd} k v attrs j :
  to_jsonb (JObj attrs) = Ok j → dict_get k attrs = Some v → to_jsonb v = Ok (stored v).
Proof.
  unfold to_jsonb, mbind, Result_bind. destruct (canonical_json (JObj attrs)) as [s|] eqn:Hc; [|done].
  intros _ Hk%dict_get_Some. apply canonical_json_ok in Hc as [Hf _].
  rewrite json_finite_obj, forallb_forall in Hf. apply list_elem_of_In, Hf in Hk. simpl in Hk.
  unfold canonical_json. by rewrite Hk.
Qed.

Section chronicle.
Context `{PyStd}.

Lemma wp_insert_event_full wid s t c n x attrs (Q : unit → DB → Prop) db :
  (∀ d db', to_jsonb (JObj attrs) = Ok (JObj d) → appended wid (mk_event s t d c n x) db db' → Q tt db') →
  wp (insert_event wid s t c n x attrs) Q db.
Proof.
  intros HQ. unfold insert_event. wp_auto.
  assert (∃ d, to_jsonb (JObj attrs) = Ok (JObj d) ∧ a = JObj d) as (d & Hd & ->).
  { unfold to_jsonb, mbind, Result_bind in *. destruct (canonical_json _); [|done].
    simplify_eq. simpl. by eexists. }
  apply (HQ d); [done|].
  split; [rewrite hist_append|intros; rewrite hist_append| |]; try done; by case_bool_decide.
Qed.

(** ** The event of a command *)
Definition recorded_event (w : UUID) (k : Command) (db : DB) (db' : DB) : Prop :=
  (∃ e, hist w db' = hist w db ++ [e] ∧ records k e) ∧ is_Some (db_executions db' !! w).

Lemma recorded_core w k db db1 db2 :
  recorded_event w k db db1 → same_core db1 db2 → recorded_event w k db db2.
Proof.
  intros [(e & Hh & He) Hs] Hc. split; [|by destruct Hc as [_ ->]].
  exists e. by rewrite (hist_core _ _ w Hc).
Qed.

Lemma core_recorded w k db db0 db' :
  same_core db db0 → recorded_event w k db0 db' → recorded_event w k db db'.
Proof. intros Hc [(e & Hh & He) Hs]. split; [|done]. exists e. by rewrite <- (hist_core _ _ w Hc). Qed.

Lemma appended_recorded w k e db db' :
  is_Some (db_executions db !! w) → appended w e db db' → records k e → recorded_event w k db db'.
Proof. intros Hs [Hh _ Hx _] He. split; [by exists e|by rewrite Hx]. Qed.

(** The attribute [k] of an event just stored. *)
Ltac stored_attr_of k :=
  match goal with Hd : to_jsonb (JObj ?attrs) = Ok (JObj _) |- context [attr k _] =>
    let Hnd := fresh in
    assert (NoDup attrs.*1) as Hnd by (by apply (bool_decide_unpack _));
    rewrite (stored_attr k _ attrs _ _ _ _ _ _ Hnd Hd eq_refl); clear Hnd
  end.

(** [records] for an event just stored, from its attributes. *)
Ltac record_command := split; [done|done|done|by stored_attr_of "fingerprint"|].

Lemma append_marker_records w s command db :
  is_Some (db_executions db !! w) →
  wp (_append_marker_command w s command) (fun _ => recorded_event w (CRecordMarker command) db) db.
Proof.
  intros Hs. unfold _append_marker_command. apply wp_insert_event_full. intros d db' Hd Happ.
  eapply appended_recorded; [done|done|]. record_command.
  intros m [= <-].
  stored_attr_of "marker_type". stored_attr_of "value".
  split; [done|]. by apply (to_jsonb_attr "value" _ _ _ Hd).
Qed.

Lemma append_activity_records w s command q db :
  is_Some (db_executions db !! w) →
  wp (_append_activity_command w s command q) (fun _ => recorded_event w (CScheduleActivity command) db) db.
Proof.
  intros Hs. unfold _append_activity_command. cbv zeta. apply wp_bind, wp_insert_event_full.
  intros d db' Hd Happ. wp_auto; wp_frame db2 Hc; (eapply recorded_core; [|done]);
    (eapply appended_recorded; [done|done|]); by record_command.
Qed.

Lemma append_timer_records w s command q db :
  is_Some (db_executions db !! w) →
  wp (_append_timer_command w s command q) (fun _ => recorded_event w (CScheduleTimer command) db) db.
Proof.
  intros Hs. unfold _append_timer_command. cbv zeta. apply wp_bind, wp_insert_event_full.
  intros d db' Hd Happ. wp_auto; wp_frame db2 Hc; (eapply recorded_core; [|done]);
    (eapply appended_recorded; [done|done|]); by record_command.
Qed.

Lemma append_resolution_records w s command db :
  is_Some (db_executions db !! w) →
  wp (_append_update_resolution w s command) (fun _ => recorded_event w (CResolveWorkflowUpdate command) db) db.
Proof.
  intros Hs. unfold _append_update_resolution. wp_auto; apply wp_insert_event_full; intros d db' Hd Happ;
    (eapply core_recorded; [|eapply appended_recorded; [|done|by record_command]]); done.
Qed.

Lemma append_child_records w s command q db :
  is_Some (db_executions db !! w) →
  wp (_append_child_workflow_command w s command q)
    (fun _ => recorded_event w (CStartChildWorkflow command) db) db.
Proof.
  intros Hs. unfold _append_child_workflow_command. cbv zeta. apply wp_bind. wp_frame db0 Hc0. wp_auto.
  apply wp_insert_event_full. intros d db1 Hd Happ. wp_auto.
  apply wp_insert_execution. intros db2 Hnew _ Hex Hh _. wp_auto.
  assert (sc_child_workflow_id command ≠ w) as Hne.
  { intros <-. rewrite (app_executions _ _ _ _ Happ) in Hnew. destruct Hc0 as [_ He0].
    rewrite He0 in Hnew. rewrite Hnew in Hs. by destruct Hs. }
  apply wp_insert_event_full. intros d' db3 _ Happ'. wp_frame db4 Hc4.
  eapply recorded_core; [|done]. eapply core_recorded; [done|].
  assert (recorded_event w (CStartChildWorkflow command) db0 db1) as [(e & Hhe & He) [x Hx]].
  { eapply appended_recorded; [by destruct Hc0 as [_ ->]|done|by record_command]. }
  split.
  - exists e. rewrite (app_other _ _ _ _ Happ') by done. split; [|done]. rewrite <- Hhe.
    unfold hist, rows_of. by rewrite Hh.
  - rewrite (app_executions _ _ _ _ Happ'), Hex, lookup_insert_ne by done. by eexists.
Qed.

Lemma append_command_records w q s k db :
  is_continuation k = None → is_Some (db_executions db !! w) →
  wp (append_command w q s k) (fun _ => recorded_event w k db) db.
Proof.
  intros Hk Hs. unfold append_command. apply wp_bind.
  apply (wp_mono _ (fun _ => recorded_event w k db)); [|intros [] db' Hr; by apply wp_ret].
  destruct k; [done|..].
  - by apply append_marker_records.
  - by apply append_resolution_records.
  - by apply append_activity_records.
  - by apply append_timer_records.
  - by apply append_child_records.
Qed.

(** ** The events of a replay *)
Definition quiet (e : HistoryEvent) : Prop := SCHEDULE_EVENT_TYPES (event_type e) = false.
Definition quiet_row (w wid : UUID) (e : HistoryEvent) : Prop := wid = w → quiet e.

Lemma extends_hist w db db' :
  extends (quiet_row w) db db' → ∃ es, hist w db' = hist w db ++ es ∧ Forall quiet es.
Proof.
  intros (l & Hh & Hl). unfold hist, rows_of. rewrite Hh, filter_app, fmap_app.
  eexists. split; [done|]. apply Forall_fmap, Forall_forall. intros r [Hw Hin]%list_elem_of_filter.
  rewrite Forall_forall in Hl. by apply (Hl r Hin).
Qed.

Lemma wp_appends ok {A} (m : M A) db : appends ok m → wp m (fun _ => extends ok db) db.
Proof. intros Hm env n a w' E. pose proof (Hm env (mk_world db n)) as Hx. by rewrite E in Hx. Qed.

Lemma quiet_row_quiet w wid e : quiet e → quiet_row w wid e.
Proof. by intros ? _. Qed.

(** The events of a commit: those of the commands between quiet ones. *)
Definition committed (w : UUID) (cs : list Command) (db db' : DB) : Prop :=
  ∃ es0 es es1, hist w db' = hist w db ++ es0 ++ es ++ es1 ∧ Forall quiet es0 ∧ Forall quiet es1 ∧
    (es = [] ∨ Forall2 records cs es).

Lemma committed_quiet w cs db db' : extends (quiet_row w) db db' → committed w cs db db'.
Proof.
  intros (es & Hh & Hq)%extends_hist. exists es, [], []. rewrite !app_nil_r.
  split_and!; [done|done|done|by left].
Qed.

Lemma committed_then w cs db db1 db2 :
  committed w cs db db1 → extends (quiet_row w) db1 db2 → committed w cs db db2.
Proof.
  intros (es0 & es & es1 & Hh & H0 & H1 & He) (l & Hh2 & Hl)%extends_hist.
  exists es0, es, (es1 ++ l). rewrite Hh2, Hh, <- !(assoc_L (++)). split_and!; [done|done| |done].
  by apply Forall_app.
Qed.

Lemma committed_after w cs db db1 db2 :
  extends (quiet_row w) db db1 → committed w cs db1 db2 → committed w cs db db2.
Proof.
  intros (l & Hh & Hl)%extends_hist (es0 & es & es1 & Hh2 & H0 & H1 & He).
  exists (l ++ es0), es, es1. rewrite Hh2, Hh, <- !(assoc_L (++)). split_and!; [done| |done|done].
  by apply Forall_app.
Qed.

Lemma commands_records w q cs s db :
  omap is_continuation cs = [] → is_Some (db_executions db !! w) →
  wp (for_each cs s (append_command w q)) (fun _ db' => ∃ es,
    hist w db' = hist w db ++ es ∧ Forall2 records cs es) db.
Proof.
  revert s db. induction cs as [|k cs IH]; intros s db Hk Hs; simpl.
  { apply wp_ret. exists []. by rewrite app_nil_r. }
  simpl in Hk. destruct (is_continuation k) eqn:Hkc; [done|].
  apply wp_bind. eapply wp_mono; [by apply append_command_records|].
  intros s' db1 [(e & Hh & He) Hs1]. eapply wp_mono; [by apply IH|].
  intros s2 db2 (es & Hh2 & Hes). exists (e :: es). rewrite Hh2, Hh, <- (assoc_L (++)).
  split; [done|by constructor].
Qed.

Lemma continue_records w id s c db :
  wp (_commit_continue_as_new w id s c) (fun _ => committed w [CContinueAsNew c] db) db.
Proof.
  assert (∀ wid e, SCHEDULE_EVENT_TYPES (event_type e) = false → quiet_row w wid e) as Hok by apply quiet_row_quiet.
  unfold _commit_continue_as_new. apply wp_bind, wp_fetch_execution. wp_auto; [|apply wp_throw].
  wp_frame db0 Hc0. wp_auto. apply wp_insert_event_full. intros attrs db1 Hd Happ.
  eapply (wp_mono _ (fun _ => extends (quiet_row w) db1)); [|intros [] db2 Hx].
  - apply wp_appends. appends_auto.
  - eapply committed_then; [|done]. eexists [], [_], []. rewrite app_nil_r, <- (hist_core _ _ w Hc0).
    split_and!; [apply Happ|done|done|right]. constructor; [|done]. by record_command.
Qed.

Lemma commit_records task q e r db :
  is_Some (db_executions db !! lt_workflow_id task) →
  wp (commit_consequences task q e r)
    (fun _ => committed (lt_workflow_id task) (rr_commands r) db) db.
Proof.
  set (w := lt_workflow_id task). intros Hs.
  assert (∀ wid e, SCHEDULE_EVENT_TYPES (event_type e) = false → quiet_row w wid e) as Hok by apply quiet_row_quiet.
  assert (∀ {A} (m : M A), appends (quiet_row w) m →
    wp m (fun _ => committed w (rr_commands r) db) db) as Hquiet.
  { intros A m Hm. eapply wp_mono; [by apply wp_appends|]. intros ? ?. apply committed_quiet. }
  unfold commit_consequences. destruct (rr_status r); [case_match|case_match|..];
    try solve [apply Hquiet; auto with appends]; [|apply Hquiet; by apply appends_reads].
  unfold commit_commands. fold w. destruct (rr_commands r) as [|k ks] eqn:Hcs; [apply wp_throw|].
  destruct (omap is_continuation (k :: ks)) as [|c l] eqn:Hom.
  - apply wp_bind. eapply wp_mono; [by apply commands_records|].
    intros s db1 (es & Hh & Hes). eapply wp_mono; [apply (wp_appends (quiet_row w)); by appends_auto|].
    intros [] db2. apply committed_then. exists [], es, []. rewrite app_nil_r. split_and!; auto.
  - case_match; [apply wp_throw|]. apply wp_bind.
    eapply wp_mono; [apply (wp_appends (quiet_row w)); by auto with appends|].
    intros [] db1 Hx. eapply wp_mono; [apply continue_records|]. intros [] db2 Hc.
    eapply committed_after; [done|]. destruct ks; [|done]. simpl in Hom.
    destruct k; simpl in Hom; simplify_eq. done.
Qed.

Lemma commit_workflow_records task r db :
  wp (commit_workflow_replay task r)
    (fun _ => committed (lt_workflow_id task) (rr_commands r) db) db.
Proof.
  unfold commit_workflow_replay. wp_auto. apply wp_running_execution. intros e He _. wp_auto.
  eapply wp_mono; [apply commit_records; by eexists|]. intros [] db1 Hc. cbv beta.
  eapply wp_mono; [apply (wp_appends (quiet_row (lt_workflow_id task)))|].
  - assert (∀ wid e, SCHEDULE_EVENT_TYPES (event_type e) = false → quiet_row (lt_workflow_id task) wid e) as Hok by apply quiet_row_quiet.
    auto with appends.
  - intros [] db2. by apply committed_then.
Qed.

End chronicle.


(** ** Runs of the system *)
Section runs.
Context `{PyStdLaws}.
Context (function : Coroutine) (w : UUID) (workflow_input : JSON).

(** The replay of the history of [w] in one of the databases [dbs]. *)
Definition replayed (dbs : list DB) (task : LeasedTask) (r : ReplayResult) : Prop :=
  lt_workflow_id task = w → ∃ db0 fuel, db0 ∈ dbs ∧
    replay_workflow fuel function w workflow_input (history_of w db0) = Some (Ok r).

(** The databases of a run, the latest first.  Any operations interleave; the
    commits for [w] are of replays of its history as it was at some earlier
    point of the run, so possibly of an older version. *)
Inductive honest_run : list DB → Prop :=
| run_begins db : reachable db → history_of w db = [] → honest_run [db]
| run_steps db dbs A (m : M A) env n :
    honest_run (db :: dbs) → operation_by (replayed (db :: dbs)) A m →
    honest_run (leaves m env n db :: db :: dbs).

Lemma honest_reachable dbs : honest_run dbs → ∀ db, db ∈ dbs → reachable db.
Proof.
  induction 1 as [db1 Hr Hh|db1 dbs A m env n Hrun IH Hop]; intros db.
  - by intros ->%list_elem_of_singleton.
  - intros [->|?]%elem_of_cons; [|by apply IH]. eapply rtc_r; [apply IH, list_elem_of_here|].
    constructor. by eapply operation_by_mono.
Qed.

Lemma step_grows dbs A (m : M A) env n db :
  operation_by (replayed dbs) A m → hist w db `prefix_of` hist w (leaves m env n db).
Proof.
  intros Hop. apply (extends_prefix (fun _ _ => True)), extends_leaves.
  apply operation_appends; [done|]. by eapply operation_by_mono.
Qed.

Lemma honest_prefix dbs db : honest_run (db :: dbs) → ∀ db0, db0 ∈ db :: dbs → hist w db0 `prefix_of` hist w db.
Proof.
  intros Hrun. remember (db :: dbs) as l eqn:Hl. revert db dbs Hl.
  induction Hrun as [db1 Hr Hh|db1 dbs1 A m env n Hrun IH Hop]; intros db dbs [= <- <-] db0.
  - by intros ->%list_elem_of_singleton.
  - intros [->|?]%elem_of_cons; [done|]. etrans; [by eapply IH|]. by eapply step_grows.
Qed.

Lemma reachable_hist db : reachable db → history_of w db = hist w db.
Proof. intros Hr. apply history_of_hist, (inv_wf _ _ (reachable_Inv db Hr)). Qed.

(** A step appends the events of a replay between quiet ones. *)
Lemma step_committed dbs A (m : M A) env n db :
  operation_by (replayed dbs) A m →
  extends (quiet_row w) db (leaves m env n db) ∨
  ∃ task r, lt_workflow_id task = w ∧ replayed dbs task r ∧ committed w (rr_commands r) db (leaves m env n db).
Proof.
  intros Hop.
  assert (operation_by (fun task _ => ∀ e, quiet_row w (lt_workflow_id task) e) A m ∨
    ∃ task r (E : A = unit), lt_workflow_id task = w ∧ replayed dbs task r ∧
      eq_rect A M m unit E = commit_workflow_replay task r) as [Hm|(task & r & -> & Hw & Hr & Hm)].
  { destruct Hop as [| | | | | | | | | | | | |task r Hr| | | | | | | | | | | | |];
      try (left; by constructor).
    destruct (decide (lt_workflow_id task = w)) as [Hw|Hw].
    - right. by exists task, r, eq_refl.
    - left. constructor. by intros e ?. }
  - left. apply extends_leaves. apply operation_appends; [|done]. intros wid e. apply quiet_row_quiet.
  - simpl in Hm. subst m. unfold leaves. pose proof (commit_workflow_records task r db env n) as Hwp.
    pose proof (operation_atomic _ _ (op_commit task r I) env (mk_world db n)) as Hat.
    destruct (commit_workflow_replay task r env (mk_world db n)) as [[[]|e] w1]; simpl in *.
    + right. exists task, r. split_and!; [done|done|]. rewrite <- Hw at 1. by eapply Hwp.
    + left. rewrite (Hat eq_refl). reflexivity.
Qed.

Abbreviation versions := (versions function w workflow_input).

Lemma versions_quiet h hs es i :
  versions (h :: hs) → Forall quiet es → build_index (h ++ es) = Ok i →
  ∃ hs', versions ((h ++ es) :: hs') ∧ h :: hs ⊆ (h ++ es) :: hs'.
Proof.
  intros Hv Hes. assert (h ≠ []) as Hne.
  { intros ->. destruct (versions_build _ _ _ _ [] Hv) as [j Hj]; [apply list_elem_of_here|done]. }
  revert i. induction es as [|e es IH] using rev_ind; intros i Hb.
  { rewrite app_nil_r. by exists hs. }
  apply Forall_app in Hes as [Hes [He _]%Forall_cons].
  rewrite (assoc_L (++)) in Hb |- *. pose proof Hb as Hb'.
  apply build_index_snoc in Hb as (j & Hj & _); [|by destruct h].
  destruct (IH Hes _ Hj) as (hs' & Hv' & Hsub). exists ((h ++ es) :: hs'). split.
  - eapply versions_event; [exact Hv'|exact He|exact Hb'].
  - intros x Hx. right. by apply Hsub.
Qed.

(** Every database of a run has a version. *)
Definition run_versions (dbs : list DB) (h : list HistoryEvent) : Prop :=
  ∃ hs, versions (h :: hs) ∧ ∀ db0, db0 ∈ dbs → hist w db0 ≠ [] → hist w db0 ∈ h :: hs.

Lemma replay_nonempty fuel r : replay_workflow fuel function w workflow_input [] ≠ Some (Ok r).
Proof. done. Qed.

Lemma run_versions_grow dbs h h' db' :
  run_versions dbs h → hist w db' = h' →
  (∀ hs, versions (h :: hs) → (∀ db0, db0 ∈ dbs → hist w db0 ≠ [] → hist w db0 ∈ h :: hs) →
    ∃ hs', versions (h' :: hs') ∧ h :: hs ⊆ h' :: hs') → run_versions (db' :: dbs) h'.
Proof.
  intros (hs & Hv & Hin) Hh Hg. destruct (Hg _ Hv Hin) as (hs2 & Hv2 & Hsub). exists hs2. split; [done|].
  intros db0 [->|Hd]%elem_of_cons Hne; [rewrite Hh; apply list_elem_of_here|]. by apply Hsub, Hin.
Qed.

(** The first event of the history. *)
Lemma run_versions_first dbs db' i :
  (∀ db0, db0 ∈ dbs → hist w db0 = []) → Forall quiet (hist w db') → build_index (hist w db') = Ok i →
  run_versions (db' :: dbs) (hist w db').
Proof.
  intros Hnil Hq Hb. destruct (hist w db') as [|e es] eqn:Hh; [done|].
  apply Forall_cons in Hq as [He Hes].
  destruct (build_index_app [e] es _ ltac:(done) Hb) as (j & Hj & _).
  destruct (versions_quiet [e] [] es i) as (hs & Hv & _); [by eapply versions_start|done|done|].
  exists hs. split; [done|]. intros db0 [->|Hd]%elem_of_cons Hne.
  - rewrite Hh. apply list_elem_of_here.
  - by rewrite Hnil in Hne.
Qed.

Lemma versions_committed h hs h0 fuel r es0 es es1 i :
  versions (h :: hs) → h0 ∈ h :: hs → replay_workflow fuel function w workflow_input h0 = Some (Ok r) →
  Forall quiet es0 → Forall quiet es1 → es = [] ∨ Forall2 records (rr_commands r) es →
  build_index (h ++ es0 ++ es ++ es1) = Ok i →
  ∃ hs', versions ((h ++ es0 ++ es ++ es1) :: hs') ∧ h :: hs ⊆ (h ++ es0 ++ es ++ es1) :: hs'.
Proof.
  intros Hv Hin Hr Hq0 Hq1 Hes Hb. assert (h ≠ []) as Hne.
  { intros ->. destruct (versions_build _ _ _ _ [] Hv) as [j Hj]; [apply list_elem_of_here|done]. }
  rewrite !(assoc_L (++)) in Hb |- *.
  assert (∀ l l' j, h ++ l ≠ [] → build_index ((h ++ l) ++ l') = Ok j → ∃ j', build_index (h ++ l) = Ok j') as Hpre.
  { intros l l' j Hl Hj. destruct (build_index_app _ _ _ Hl Hj) as (j' & ? & _). by exists j'. }
  rewrite <- (assoc_L (++) h es0 es) in Hb.
  destruct (Hpre (es0 ++ es) es1 i ltac:(by destruct h) Hb) as [j Hj]. rewrite (assoc_L (++)) in Hj.
  destruct (Hpre es0 es j ltac:(by destruct h) Hj) as [j0 Hj0].
  destruct (versions_quiet _ _ _ _ Hv Hq0 Hj0) as (hs1 & Hv1 & Hsub1).
  assert (∃ hs2, versions (((h ++ es0) ++ es) :: hs2) ∧ (h ++ es0) :: hs1 ⊆ ((h ++ es0) ++ es) :: hs2)
    as (hs2 & Hv2 & Hsub2).
  { destruct Hes as [->|Hes]; [rewrite app_nil_r; by exists hs1|].
    exists ((h ++ es0) :: hs1). split; [|intros x Hx; by right].
    eapply versions_commit; [done| |done|done|done]. by apply Hsub1. }
  rewrite (assoc_L (++)) in Hb.
  destruct (versions_quiet _ _ _ _ Hv2 Hq1 Hb) as (hs3 & Hv3 & Hsub3).
  exists hs3. split; [done|]. by do 2 (etrans; [done|]).
Qed.

Lemma honest_run_versions db dbs i :
  honest_run (db :: dbs) → build_index (hist w db) = Ok i → run_versions (db :: dbs) (hist w db).
Proof.
  intros Hrun. remember (db :: dbs) as l eqn:Hl. revert db dbs Hl i.
  induction Hrun as [db1 Hr Hh|db1 dbs1 A m env n Hrun IH Hop]; intros db dbs [= <- <-] i Hb.
  { rewrite <- reachable_hist, Hh in Hb by done. done. }
  set (db' := leaves m env n db1) in *.
  destruct (step_committed _ _ _ env n db1 Hop) as [Hq|(task & r & Hw & Hr & Hc)].
  - apply extends_hist in Hq as (es & Hes & Hq). fold db' in Hes.
    destruct (decide (hist w db1 = [])) as [Hnil|Hne].
    + apply (run_versions_first _ _ i); [|by rewrite Hes, Hnil|done].
      intros db0 Hd. apply (honest_prefix _ _ Hrun) in Hd. rewrite Hnil in Hd. by apply prefix_nil_inv in Hd.
    + rewrite Hes in Hb. destruct (build_index_app _ _ _ Hne Hb) as (j & Hj & _).
      eapply run_versions_grow; [by eapply IH|done|]. intros hs Hv _. rewrite Hes. by eapply versions_quiet.
  - destruct Hc as (es0 & es & es1 & Hh & Hq0 & Hq1 & Hes). fold db' in Hh.
    destruct (Hr Hw) as (db0 & fuel & Hd & Hrep).
    rewrite reachable_hist in Hrep by (by eapply honest_reachable).
    assert (hist w db0 ≠ []) as Hne0 by (intros Hnil; rewrite Hnil in Hrep; by apply replay_nonempty in Hrep).
    pose proof (honest_prefix _ _ Hrun _ Hd) as Hpre.
    assert (hist w db1 ≠ []) as Hne.
    { intros Hnil. rewrite Hnil in Hpre. by apply prefix_nil_inv in Hpre. }
    rewrite Hh in Hb. destruct (build_index_app _ _ _ Hne Hb) as (j & Hj & _).
    eapply run_versions_grow; [by eapply IH|done|]. intros hs Hv Hin. rewrite Hh.
    eapply versions_committed; [done|by apply Hin|done..].
Qed.

(** No replay of the stored history of an honest run diverges. *)
Lemma honest_replays db dbs fuel r :
  disciplined_input function workflow_input → honest_run (db :: dbs) →
  replay_workflow fuel function w workflow_input (history_of w db) = Some r →
  ∀ c d, r ≠ Err (NonDeterminismError c d).
Proof.
  intros Hdis Hrun Hr. rewrite reachable_hist in Hr by (eapply honest_reachable; [done|apply list_elem_of_here]).
  destruct (build_index (hist w db)) as [i|e] eqn:Hb.
  - destruct (honest_run_versions _ _ _ Hrun Hb) as (hs & Hv & _).
    apply (versions_replay function w workflow_input _ (hist w db) fuel r Hdis Hv); [|done].
    apply list_elem_of_here.
  - unfold replay_workflow in Hr. rewrite Hb in Hr. injection Hr as <-. intros c d [= ->].
    by apply build_index_error in Hb as [? ?].
Qed.

End runs.
