(* ===== verification/Wakes.v ===== *)
(** * Every operation wakes what it rouses

    An operation that appends a rousing event ([Waiting]) to the history of a
    running workflow leaves an open workflow task for it that was not there
    before, and no operation closes the workflow tasks of a running workflow but
    the commit of the task itself.  [owing x db0 X C db] is the state between:
    what was done since [db0] is paid for, but for the workflows of [X], those
    of [C] have ended, and the task [x] is the commit's own. *)
From S2P Require Import Prelude Python Serialization History HistoryTheory Commands Context.
From S2P Require Import Replay Durability Waiting Database Logic Store Leasing AuditLog.
From S2P Require Import Definitions Transitions Commit Activities Messages Timeouts Cron.
From S2P Require Import Schedules Queries Workers Frames StoreInvariant System Atomicity Writes.
From S2P Require Import Chronicle.

(** An open workflow task of [w]. *)
Definition is_awake (w : UUID) (t : Task) : Prop :=
  task_workflow_id t = w ∧ task_task_type t = TWorkflow ∧ is_open t = true.
Definition awake (w : UUID) (db : DB) (id : UUID) : Prop :=
  ∃ t, db_tasks db !! id = Some t ∧ is_awake w t.

(** No row is one, as a computation. *)
Definition asleep (w : UUID) (db : DB) : bool :=
  forallb (fun r => negb (bool_decide (task_workflow_id r.2 = w ∧ task_task_type r.2 = TWorkflow) &&
                          is_open r.2)) (map_to_list (db_tasks db)).

Lemma asleep_not_awake w db id : asleep w db = true → ¬ awake w db id.
Proof.
  intros Hs (t & Ht & Hw & Htt & Ho). unfold asleep in Hs. rewrite forallb_forall in Hs.
  specialize (Hs (id, t)). cbn [snd] in Hs. rewrite Ho, bool_decide_eq_true_2 in Hs by done.
  discriminate Hs. by apply list_elem_of_In, elem_of_map_to_list.
Qed.

(** The workflow is closed. *)
Definition ended (w : UUID) (db : DB) : Prop :=
  ∃ e, db_executions db !! w = Some e ∧ exec_status e ≠ WRunning.

(** The rows [l] hold nothing a replay of [w] reacts to. *)
Definition uneventful (w : UUID) (l : list HistoryRow) : Prop :=
  ∀ r, r ∈ l → hr_workflow_id r = w → rousing (hr_event r) = false.

Record owing (x : option UUID) (db0 : DB) (X C : gset UUID) (db : DB) : Prop := {
  ow_news : ∃ l, db_history db = db_history db0 ++ l ∧
    ∀ w, w ∉ X → uneventful w l ∨ ended w db ∨ ∃ id, db_tasks db0 !! id = None ∧ awake w db id;
  ow_ended w : ended w db0 ∨ w ∈ C → ended w db;
  ow_awake w id : x ≠ Some id → awake w db0 id → ended w db ∨ awake w db id;
  ow_rows id t : db_tasks db0 !! id = Some t →
    ∃ t', db_tasks db !! id = Some t' ∧ task_identity t' = task_identity t;
  ow_exists w : is_Some (db_executions db0 !! w) → is_Some (db_executions db !! w)
}.

(** Everything is paid for. *)
Definition paid (x : option UUID) (db0 db : DB) : Prop := owing x db0 ∅ ∅ db.

Lemma owing_refl x db : owing x db ∅ ∅ db.
Proof.
  split; [|set_solver|auto|eauto|done]. exists []. rewrite app_nil_r. split; [done|].
  intros w _. left. by intros r ?%not_elem_of_nil.
Qed.

Lemma owing_settle x db0 X C X' C' db :
  owing x db0 X C db → (∀ w, w ∈ X → w ∈ X' ∨ w ∈ C) → C' ⊆ C → owing x db0 X' C' db.
Proof.
  intros [(l & Hl & Hn) He Ha Hr Hx] HX HC. split; [|set_solver|done..].
  exists l. split; [done|]. intros w Hw. destruct (decide (w ∈ C)) as [Hc|Hc]; [right; left; auto|].
  apply Hn. naive_solver.
Qed.

(** A workflow stays ended, and awake, from [db] to [db']. *)
Definition keeps (x : option UUID) (db0 : DB) (C : gset UUID) (db db' : DB) : Prop :=
  (∀ w, ended w db → ended w db') ∧
  (∀ w id, x ≠ Some id ∨ db_tasks db0 !! id = None → awake w db id → w ∈ C ∨ awake w db' id) ∧
  (∀ id t, db_tasks db !! id = Some t →
     ∃ t', db_tasks db' !! id = Some t' ∧ task_identity t' = task_identity t) ∧
  (∀ w, is_Some (db_executions db !! w) → is_Some (db_executions db' !! w)).

Lemma owing_keeps x db0 X C db db' :
  owing x db0 X C db → keeps x db0 C db db' → db_history db' = db_history db → owing x db0 X C db'.
Proof.
  intros [(l & Hl & Hn) He Ha Hr Hx] (Ke & Ka & Kr & Kx) Hh. split.
  - exists l. rewrite Hh. split; [done|]. intros w Hw.
    destruct (Hn w Hw) as [?|[?|(id & Hid & Hi)]]; [by left|right; left; auto|right].
    destruct (Ka w id) as [Hc|?]; [by right|done| |right; by exists id]. left. auto.
  - auto.
  - intros w id Hne Hi. destruct (Ha w id Hne Hi) as [?|Hi']; [left; auto|].
    destruct (Ka w id) as [Hc|?]; [by left|done| |by right]. left. auto.
  - intros id t Ht. destruct (Hr id t Ht) as (t1 & Ht1 & E1). destruct (Kr id t1 Ht1) as (t2 & Ht2 & E2).
    exists t2. split; [done|congruence].
  - auto.
Qed.

Lemma keeps_tasks x db0 C db db' :
  db_tasks db' = db_tasks db → (∀ w, ended w db → ended w db') →
  (∀ w, is_Some (db_executions db !! w) → is_Some (db_executions db' !! w)) → keeps x db0 C db db'.
Proof.
  intros Ht He Hx. unfold keeps, awake. rewrite Ht. split_and!; eauto.
Qed.

Lemma keeps_executions x db0 C db db' :
  db_executions db' = db_executions db →
  (∀ w id, x ≠ Some id ∨ db_tasks db0 !! id = None → awake w db id → w ∈ C ∨ awake w db' id) →
  (∀ id t, db_tasks db !! id = Some t →
     ∃ t', db_tasks db' !! id = Some t' ∧ task_identity t' = task_identity t) → keeps x db0 C db db'.
Proof. intros Hx Ha Hr. unfold keeps, ended. rewrite Hx. split_and!; eauto. Qed.

(** ** Appending an event *)
Section events.
Context `{PyStd} (x : option UUID) (db0 : DB).
Abbreviation owing := (owing x db0).

Lemma appended_owing X C wid e now db :
  owing X C db →
  owing (if rousing e then {[wid]} ∪ X else X) C
    (db <| db_history := db_history db ++ [mk_history_row wid e now] |>).
Proof.
  intros [(l & Hl & Hn) He Ha Hr Hx]. split; [|done..]. simpl. eexists. rewrite Hl, <- (assoc_L (++)).
  split; [done|]. intros w Hw.
  assert (w ∉ X ∧ (rousing e = true → w ≠ wid)) as [HwX Hne] by (destruct (rousing e); set_solver).
  destruct (Hn w HwX) as [Hq|?]; [left|by right].
  intros r [Hr'| ->%list_elem_of_singleton]%elem_of_app; [by apply Hq|]. simpl. intros <-.
  destruct (rousing e); [by destruct Hne|done].
Qed.

(** An event of [wid]; a quiet one owes nothing. *)
Lemma owe_event_if b wid s t c n ext attrs X C db :
  (b = false → ∀ d, to_jsonb (JObj attrs) = Ok (JObj d) → rousing (mk_event s t d c n ext) = false) →
  owing X C db →
  wp (insert_event wid s t c n ext attrs) (fun _ db' =>
    owing (if b then {[wid]} ∪ X else X) C db' ∧ is_Some (db_executions db' !! wid) ∧
    db_tasks db' = db_tasks db) db.
Proof.
  intros Hb Ho. unfold insert_event. wp_auto. simpl.
  match goal with E : check_history _ _ _ = Ok ?u |- _ => destruct u; apply check_history_ok in E as (Hex & _) end.
  match goal with E : to_jsonb _ = Ok ?v |- _ => destruct (to_jsonb_obj _ _ E) as [d ->] end.
  split_and!; [|done|done]. eapply owing_settle; [by apply appended_owing| |done].
  intros w Hw. left. destruct b; [by destruct (rousing _); set_solver|]. by rewrite Hb in Hw.
Qed.

Lemma owe_event wid s t c n ext attrs X C db :
  owing X C db →
  wp (insert_event wid s t c n ext attrs) (fun _ db' =>
    owing ({[wid]} ∪ X) C db' ∧ is_Some (db_executions db' !! wid) ∧ db_tasks db' = db_tasks db) db.
Proof. by apply (owe_event_if true). Qed.

Lemma owe_quiet_event wid s t c n ext attrs X C db :
  (∀ d, rousing (mk_event s t d c n ext) = false) → owing X C db →
  wp (insert_event wid s t c n ext attrs) (fun _ db' =>
    owing X C db' ∧ is_Some (db_executions db' !! wid) ∧ db_tasks db' = db_tasks db) db.
Proof. intros Hq. apply (owe_event_if false). by intros _ d _. Qed.

(** ** Tasks *)
Lemma owe_insert_task id t X C db :
  owing X C db →
  wp (insert_task id t) (fun _ db' => owing X C db' ∧ db_tasks db0 !! id = None ∧
    db_tasks db' !! id = Some t) db.
Proof.
  intros Ho. unfold insert_task. wp_auto.
  assert (db_tasks db !! id = None) as Hid.
  { match goal with E : check_task _ _ _ = _ |- _ => unfold check_task in E;
      destruct (bool_decide_reflect (is_Some (db_tasks db !! id))) as [|Hn]; [done|] end.
    by apply eq_None_not_Some. }
  split_and!.
  - eapply owing_keeps; [done| |done]. apply keeps_executions; [done|..]; simpl.
    + intros w i _ (t1 & Ht1 & Ha). right. exists t1. split; [|done]. simpl.
      rewrite lookup_insert_ne; [done|congruence].
    + intros i t1 Ht1. exists t1. rewrite lookup_insert_ne; [done|congruence].
  - destruct (db_tasks db0 !! id) as [t0|] eqn:E0; [|done].
    destruct (ow_rows _ _ _ _ _ Ho _ _ E0) as (t1 & Ht1 & _). congruence.
  - simpl. by rewrite lookup_insert_eq.
Qed.

(** A new workflow task pays. *)
Lemma owe_workflow_task id wid q X C db :
  owing X C db → wp (insert_workflow_task id wid q) (fun _ => owing (X ∖ {[wid]}) C) db.
Proof.
  intros Ho. unfold insert_workflow_task. wp_auto.
  eapply wp_mono; [by apply owe_insert_task|]. intros [] db' (Ho' & Hid & Ht). cbv beta.
  destruct Ho' as [(l & Hl & Hn) He Ha Hr Hx]. split; [|done..]. exists l. split; [done|].
  intros w Hw. destruct (decide (w = wid)) as [->|Hne]; [|apply Hn; set_solver].
  right; right. exists id. split; [done|]. by eexists.
Qed.

Lemma owe_wake wid q X C db :
  owing X C db → wp (wake_workflow wid q) (fun _ => owing (X ∖ {[wid]}) C) db.
Proof. intros Ho. unfold wake_workflow. wp_auto. by apply owe_workflow_task. Qed.

(** A change of a task that does not take a running workflow its task away. *)
Definition harmless (C : gset UUID) (id : UUID) (t t' : Task) : Prop :=
  task_identity t' = task_identity t ∧
  (task_task_type t = TWorkflow → is_open t = true →
   is_open t' = true ∨ task_workflow_id t ∈ C ∨ (x = Some id ∧ is_Some (db_tasks db0 !! id))).

Lemma owe_tasks (m : gmap UUID Task) X C db :
  owing X C db →
  (∀ id t, db_tasks db !! id = Some t → ∃ t', m !! id = Some t' ∧ (t' = t ∨ harmless C id t t')) →
  owing X C (db <| db_tasks := m |>).
Proof.
  intros Ho Hm. eapply owing_keeps; [done| |done]. apply keeps_executions; [done|..]; simpl.
  - intros w id Hid (t & Ht & Hw & Hty & Hop). destruct (Hm _ _ Ht) as (t' & Ht' & [->|[Hi Ha]]).
    + right. exists t. by split_and!.
    + destruct (Ha Hty Hop) as [Hop'|[Hc|[Hx Hs]]]; [right|left; by rewrite <- Hw|].
      * exists t'. injection Hi as Hw' Ht'' _. split; [done|]. by split_and!; congruence.
      * exfalso. destruct Hid as [?|Hn]; [done|]. rewrite Hn in Hs. by destruct Hs.
  - intros id t Ht. destruct (Hm _ _ Ht) as (t' & Ht' & [->|[Hi _]]); eauto.
Qed.

Lemma owe_update_tasks p f X C db :
  owing X C db →
  (∀ id t, db_tasks db !! id = Some t → p id t = true → harmless C id t (f t)) →
  wp (update_tasks p f) (fun _ => owing X C) db.
Proof.
  intros Ho Hp. unfold update_tasks. wp_auto. apply owe_tasks; [done|]. intros id t Ht.
  unfold update_where. rewrite map_lookup_imap, Ht. simpl. eexists. split; [done|].
  destruct (p id t) eqn:E; [right; by apply Hp|by left].
Qed.

Lemma owe_set_task id t t' X C db :
  owing X C db → db_tasks db !! id = Some t → harmless C id t t' →
  wp (set_task id t') (fun _ => owing X C) db.
Proof.
  intros Ho Ht Hh. unfold set_task. wp_auto. apply owe_tasks; [done|]. intros i t1 Ht1.
  destruct (decide (i = id)) as [->|Hne].
  - rewrite lookup_insert_eq. exists t'. split; [done|right]. congruence.
  - rewrite lookup_insert_ne by done. eauto.
Qed.

(** ** Executions *)
Lemma owe_insert_execution id e X C db :
  owing X C db → wp (insert_execution id e) (fun _ => owing X C) db.
Proof.
  intros Ho. apply wp_insert_execution. intros db' Hid _ Hx Hh Ht. eapply owing_keeps; [done| |done].
  apply keeps_tasks; [done|..]; rewrite ?Hx.
  - intros w (e0 & He & Hs). exists e0. rewrite Hx, lookup_insert_ne; [done|congruence].
  - intros w Hs. rewrite lookup_insert_is_Some. destruct (decide (id = w)); eauto.
Qed.

Lemma ended_alter f id w db :
  (∀ e, exec_status e ≠ WRunning → exec_status (f e) ≠ WRunning) → ended w db →
  ended w (db <| db_executions := alter f id (db_executions db) |>).
Proof.
  intros Hf (e & He & Hs). destruct (decide (w = id)) as [->|Hne].
  - exists (f e). simpl. rewrite lookup_alter_eq, He. auto.
  - exists e. simpl. by rewrite lookup_alter_ne.
Qed.

(** An update that does not reopen the execution. *)
Lemma owe_execution f id X C db :
  owing X C db → (∀ e, exec_status e ≠ WRunning → exec_status (f e) ≠ WRunning) →
  wp (update_execution id f) (fun _ db' => owing X C db' ∧ db_executions db' = alter f id (db_executions db)) db.
Proof.
  intros Ho Hf. unfold update_execution. wp_auto. split; [|done]. eapply owing_keeps; [done| |done].
  apply keeps_tasks; [done|..].
  - intros w. by apply ended_alter.
  - intros w. simpl. destruct (decide (w = id)) as [->|?]; [rewrite lookup_alter_eq; by intros [e ->]|].
    by rewrite lookup_alter_ne.
Qed.

Lemma owe_inert f id X C db :
  owing X C db → (∀ e, exec_status (f e) = exec_status e) →
  wp (update_execution id f) (fun _ => owing X C) db.
Proof.
  intros Ho Hf. eapply wp_mono; [apply owe_execution; [done|]|]; [intros e; by rewrite Hf|by intros ? ? []].
Qed.

(** Closing the execution settles it. *)
Lemma owe_close f id X C db :
  owing X C db → is_Some (db_executions db !! id) → (∀ e, exec_status (f e) ≠ WRunning) →
  wp (update_execution id f) (fun _ => owing (X ∖ {[id]}) ({[id]} ∪ C)) db.
Proof.
  intros Ho [e He] Hf. eapply wp_mono; [by apply owe_execution|]. intros [] db' [Ho' Hx].
  assert (ended id db') as Hid.
  { exists (f e). rewrite Hx, lookup_alter_eq, He. split; [done|apply Hf]. }
  destruct Ho' as [(l & Hl & Hn) Hen Ha Hr Hxs]. split; [|clear -Hen Hid; set_solver|done..].
  exists l. split; [done|]. intros w Hw. destruct (decide (w = id)) as [->|Hne]; [by right; left|].
  apply Hn. set_solver.
Qed.
End events.

(** ** Operations on the other tables *)
Definition aside {A : Type} (m : M A) : Prop :=
  ∀ db, wp m (fun _ db' => same_core db db' ∧ db_tasks db' = db_tasks db) db.

Section parts.
Context `{PyStd}.

Lemma aside_reject wid r : aside (_reject_pending_updates wid r).
Proof. intros db. unfold _reject_pending_updates. by wp_auto. Qed.
Lemma aside_audit c wid b d : aside (record_api_audit c wid b d).
Proof. intros db. unfold record_api_audit. by wp_auto. Qed.
Lemma aside_duplicate c wid r : aside (audit_duplicate c wid r).
Proof. intros db. unfold audit_duplicate, record_api_audit. by wp_auto. Qed.
Lemma aside_accepted c wid r : aside (audit_accepted c wid r).
Proof. intros db. unfold audit_accepted, record_api_audit. by wp_auto. Qed.
Lemma aside_require t v : aside (require_definition t v).
Proof. intros db. unfold require_definition. by wp_auto. Qed.
Lemma aside_insert_update w u n p : aside (insert_update w u n p).
Proof. intros db. unfold insert_update. by wp_auto. Qed.
Lemma aside_insert_occurrence s t st w r : aside (insert_occurrence s t st w r).
Proof. intros db. unfold insert_occurrence. by wp_auto. Qed.
Lemma aside_start_buffered s t w : aside (start_buffered s t w).
Proof. intros db. unfold start_buffered. by wp_auto. Qed.
Lemma aside_insert_schedule id r : aside (insert_schedule id r).
Proof. intros db. unfold insert_schedule. by wp_auto. Qed.
Lemma aside_no_such_workflow {A} id : aside (no_such_workflow (A:=A) id).
Proof. intros db. unfold no_such_workflow. by wp_auto. Qed.
Lemma aside_clock c : aside (clock_or_now c).
Proof. intros db. unfold clock_or_now. by wp_auto. Qed.
End parts.

Create HintDb aside.
#[export] Hint Resolve aside_reject aside_audit aside_duplicate aside_accepted aside_require
  aside_insert_update aside_insert_occurrence aside_start_buffered aside_insert_schedule
  aside_no_such_workflow aside_clock : aside.

Lemma owing_core x db0 X C db db' :
  owing x db0 X C db → same_core db db' → db_tasks db' = db_tasks db → owing x db0 X C db'.
Proof.
  intros Ho [Hh Hx] Ht. eapply owing_keeps; [done| |done].
  apply keeps_tasks; [done|..]; unfold ended; by rewrite Hx.
Qed.

Lemma owe_aside {A} (m : M A) x db0 X C db :
  aside m → owing x db0 X C db → wp m (fun _ => owing x db0 X C) db.
Proof. intros Hm Ho. eapply wp_mono; [apply Hm|]. intros ? db' [Hc Ht]. by eapply owing_core. Qed.

(** A task that is no workflow task. *)
Lemma harmless_other x db0 C id t t' :
  task_identity t' = task_identity t → task_task_type t ≠ TWorkflow → harmless x db0 C id t t'.
Proof. by split. Qed.
Lemma harmless_open x db0 C id t t' :
  task_identity t' = task_identity t → is_open t' = true → harmless x db0 C id t t'.
Proof. split; auto. Qed.

Lemma harmless_same x db0 C id t t' :
  task_identity t' = task_identity t → task_status t' = task_status t → harmless x db0 C id t t'.
Proof. intros Hi Hs. split; [done|]. unfold is_open. rewrite Hs. auto. Qed.

(** [owe_prim] is the rule of the operation at the head of a program, from the
    [owing] that is known of the database; [owe] runs a program with them. *)
Ltac owe_rule Ho m :=
  lazymatch m with
  | insert_event _ _ _ _ _ _ _ => first [eapply owe_quiet_event; [by intros ?|exact Ho]|eapply owe_event; exact Ho]
  | wake_workflow _ _ => eapply owe_wake; exact Ho
  | insert_workflow_task _ _ _ => eapply owe_workflow_task; exact Ho
  | insert_task _ _ => eapply owe_insert_task; exact Ho
  | insert_execution _ _ => eapply owe_insert_execution; exact Ho
  | update_execution _ _ =>
    first [ eapply owe_inert; [exact Ho|by intros []]
          | eapply owe_close; [exact Ho|eassumption|intros ?; first [done|by case_match]] ]
  | modify_db _ => eapply owe_aside; [by intros ?; apply wp_modify_db|exact Ho]
  | _ => eapply owe_aside; [solve [eauto 1 with aside nocore]|exact Ho]
  end.
Ltac owe_next :=
  let db := fresh "db" in let Ho := fresh "Ho" in intros ? db Ho; cbv beta in Ho |- *;
  lazymatch type of Ho with
  | _ ∧ _ ∧ _ => destruct Ho as (Ho & ? & ?)
  | _ => idtac
  end.
Ltac owe_prim :=
  lazymatch goal with
  | |- wp (fetch_execution _) _ _ => apply wp_fetch_execution
  | |- wp (no_such_workflow _) _ _ => apply wp_throw
  | |- wp (running_execution _) _ _ => apply wp_running_execution; intros ? ? ?
  | |- wp (set_next_seq _ _) _ _ => unfold set_next_seq
  | Ho : owing _ _ _ _ ?db |- wp ?m _ ?db => eapply wp_mono; [owe_rule Ho m|owe_next]
  end.
Ltac owe :=
  repeat lazymatch goal with
  | |- wp (modify_db _) _ _ => owe_prim
  | |- _ => first [progress (wp_step; cbv beta zeta)|owe_prim]
  end.
(** What is left to pay. *)
Ltac owe_end :=
  match goal with Ho : owing _ _ _ _ ?db |- owing _ _ _ _ ?db =>
    eapply owing_settle; [exact Ho|set_solver|set_solver] end.

Section composites.
Context `{PyStd} (x : option UUID) (db0 : DB).
Abbreviation owing := (owing x db0).

Lemma owe_kill_open w e X C db :
  owing X C db → w ∈ C → wp (kill_open_tasks w e) (fun _ => owing X C) db.
Proof.
  intros Ho Hw. unfold kill_open_tasks, kill_tasks. wp_auto.
  eapply wp_mono; [apply owe_update_tasks; [done|]|intros n db' Ho'; by wp_auto].
  intros id task _ Hp. split; [done|]. right; left.
  rewrite !andb_true_iff, bool_decide_eq_true in Hp. by destruct Hp as [[-> _] _].
Qed.

Lemma wp_and {A} (m : M A) (P Q : A → DB → Prop) db :
  wp m P db → wp m Q db → wp m (fun a db' => P a db' ∧ Q a db') db.
Proof. intros HP HQ env n a w' E. split; [by eapply HP|by eapply HQ]. Qed.

Lemma wp_update_identity p f db :
  (∀ t, task_identity (f t) = task_identity t) →
  wp (update_tasks p f) (fun _ db' => ∀ id t, db_tasks db !! id = Some t →
    ∃ t', db_tasks db' !! id = Some t' ∧ task_identity t' = task_identity t) db.
Proof.
  intros Hf. unfold update_tasks. wp_auto. intros id t Ht. simpl. unfold update_where.
  rewrite map_lookup_imap, Ht. simpl. eexists. split; [done|]. by case_match.
Qed.

Lemma owe_cancel_timers w s r X C db :
  owing X C db → wp (_cancel_pending_timers w s r) (fun _ => owing ({[w]} ∪ X) C) db.
Proof.
  intros Ho. unfold _cancel_pending_timers. wp_auto.
  assert (∀ timer, timer ∈ pending_timers db w →
    ∃ t, db_tasks db !! timer.1 = Some t ∧ task_task_type t = TTimer) as Hrows.
  { intros [id t] [Ht Hp]%elem_of_select. exists t. split; [done|].
    rewrite !andb_true_iff, !bool_decide_eq_true in Hp. by decompose [and] Hp. }
  generalize dependent (pending_timers db w). intros timers Hrows.
  eapply wp_mono; [apply (wp_for_each _ _ (fun _ db' => owing ({[w]} ∪ X) C db' ∧ ∀ timer, timer ∈ timers →
    ∃ t, db_tasks db' !! timer.1 = Some t ∧ task_task_type t = TTimer))|by intros ? ? []].
  { split; [eapply owing_settle; [done|set_solver|done]|done]. }
  clear db Ho Hrows. intros s1 timer db Hin [Ho Hrows]. unfold cancel_timer. wp_auto.
  eapply wp_mono; [apply wp_and; [apply owe_update_tasks; [done|]|by apply wp_update_identity]|].
  { intros id task Ht [->%bool_decide_eq_true _]%andb_true_iff. apply harmless_other; [done|].
    destruct (Hrows _ Hin) as (t0 & Ht0 & Hty). congruence. }
  intros n db1 [Ho1 Hid]. assert (∀ timer, timer ∈ timers →
    ∃ t, db_tasks db1 !! timer.1 = Some t ∧ task_task_type t = TTimer) as Hrows1.
  { intros t1 Ht1. destruct (Hrows _ Ht1) as (row & Hrow & Hty). destruct (Hid _ _ Hrow) as (row' & Hrow' & E).
    exists row'. split; [done|]. injection E as _ -> _. done. }
  wp_auto; [done|]. owe. split; [owe_end|].
  by match goal with E : db_tasks _ = db_tasks _ |- _ => rewrite E end.
Qed.

Lemma owe_notify c p st v X C db :
  owing X C db → wp (_notify_parent_of_child_terminal c p st v) (fun _ => owing X C) db.
Proof. intros Ho. unfold _notify_parent_of_child_terminal. owe; try done. owe_end. Qed.

Lemma owe_terminate_child c s X C db :
  owing X C db → wp (terminate_child c s) (fun _ => owing X C) db.
Proof.
  intros Ho. unfold terminate_child. owe.
  eapply wp_mono; [eapply owe_kill_open; [done|set_solver]|owe_next]. owe. owe_end.
Qed.

Lemma owe_terminate_descendants fuel p X C db :
  owing X C db → wp (terminate_descendants fuel p) (fun _ => owing X C) db.
Proof.
  revert p db. induction fuel as [|fuel IH]; intros p db Ho; simpl; wp_auto.
  apply (wp_for_each _ _ (fun _ => owing X C)); [done|]. intros [] child db1 _ Ho1. wp_auto.
  eapply wp_mono; [by apply IH|]. intros [] db2 Ho2. by apply owe_terminate_child.
Qed.

Lemma owe_descendants p X C db :
  owing X C db → wp (_terminate_descendants p) (fun _ => owing X C) db.
Proof. intros Ho. unfold _terminate_descendants. wp_auto. by apply owe_terminate_descendants. Qed.

Lemma owe_start t v i q w sa r a X C db :
  owing X C db → wp (start_workflow t v i q w sa r a) (fun _ => owing X C) db.
Proof. intros Ho. unfold start_workflow, insert_started. owe; owe_end. Qed.

Lemma owe_start_occurrence i s t b X C db :
  owing X C db → wp (_start_occurrence i s t b) (fun _ => owing X C) db.
Proof. intros Ho. unfold _start_occurrence. owe; owe_end. Qed.

(** ** A commit *)
Lemma owe_append_command w q s k X C db :
  owing X C db → wp (append_command w q s k)
    (fun _ => owing (if wakes_replay k then {[w]} ∪ X else X) C) db.
Proof.
  intros Ho. unfold append_command, _append_activity_command, _append_timer_command,
    _append_marker_command, _append_update_resolution, _append_child_workflow_command.
  destruct k; simpl; owe; try owe_end.
Qed.
Lemma owe_commands w q cs s X C db :
  owing X C db → wp (for_each cs s (append_command w q))
    (fun _ => owing (if existsb wakes_replay cs then {[w]} ∪ X else X) C) db.
Proof.
  revert s X db. induction cs as [|k cs IH]; intros s X db Ho; simpl; [by wp_auto|].
  wp_auto. eapply wp_mono; [by apply owe_append_command|]. intros s1 db1 Ho1. cbv beta in *.
  eapply wp_mono; [by apply IH|]. intros s2 db2 Ho2. cbv beta in *.
  eapply owing_settle; [done| |done]. destruct (wakes_replay k), (existsb wakes_replay cs); set_solver.
Qed.

Lemma owe_continue w id s c X C db :
  is_Some (db_executions db0 !! w) → owing X C db →
  wp (_commit_continue_as_new w id s c) (fun _ => owing X ({[w]} ∪ C)) db.
Proof.
  intros Hs Ho. unfold _commit_continue_as_new. owe.
  match goal with Ho : owing _ _ ?db |- wp _ _ ?db => pose proof (ow_exists _ _ _ _ _ Ho w Hs) end.
  owe. eapply wp_mono; [eapply owe_kill_open; [done|set_solver]|owe_next]. owe_end.
Qed.

End composites.

(** ** The operations *)
Section operations.
Context `{PyStd}.

Lemma owe_commit_cancellation task e x db0 db :
  owing x db0 ∅ ∅ db →
  wp (commit_cancellation task e) (fun _ => owing x db0 ∅ {[lt_workflow_id task]}) db.
Proof.
  intros Ho. unfold commit_cancellation. wp_auto. eapply wp_mono; [by apply owe_cancel_timers|owe_next].
  wp_auto. eapply wp_mono; [by apply owe_descendants|owe_next]. owe.
  eapply wp_mono; [eapply owe_kill_open; [done|set_solver]|owe_next].
  eapply wp_mono; [by apply owe_notify|owe_next]. owe_end.
Qed.

Lemma owe_commit_closed task e b v x db0 db :
  owing x db0 ∅ ∅ db →
  wp (commit_closed task e b v) (fun _ => owing x db0 ∅ {[lt_workflow_id task]}) db.
Proof.
  intros Ho. unfold commit_closed. wp_auto. eapply wp_mono; [by apply owe_descendants|owe_next].
  owe. eapply wp_mono; [by apply owe_cancel_timers|owe_next]. owe.
  eapply wp_mono; [eapply owe_kill_open; [done|set_solver]|owe_next].
  eapply wp_mono; [by apply owe_notify|owe_next]. owe_end.
Qed.

(** What a commit leaves of a replay: the workflow is closed, or the replay is
    one that waits, with its commands in the history. *)
Definition settled (w : UUID) (r : ReplayResult) (db db' : DB) : Prop :=
  ended w db' ∨
  match rr_status r with
  | BLOCKED => True
  | COMMANDS => ∃ es, hist w db' = hist w db ++ es ∧ Forall2 records (rr_commands r) es
  | _ => False
  end.

Lemma owing_ended x db0 w db : owing x db0 ∅ {[w]} db → paid x db0 db ∧ ended w db.
Proof. intros Ho. split; [unfold paid; owe_end|]. apply (ow_ended _ _ _ _ _ Ho). set_solver. Qed.

Lemma settled_ended {A} (m : M A) x db0 w r db1 db :
  wp m (fun _ => owing x db0 ∅ {[w]}) db → wp m (fun _ db' => paid x db0 db' ∧ settled w r db1 db') db.
Proof.
  intros Hm. eapply wp_mono; [exact Hm|]. intros _ db' [Hp He]%owing_ended. split; [done|by left].
Qed.

Lemma commit_commands_settle task q s r x db0 db :
  rr_status r = COMMANDS → is_Some (db_executions db0 !! lt_workflow_id task) → owing x db0 ∅ ∅ db →
  wp (commit_commands task q s (rr_commands r))
    (fun _ db' => paid x db0 db' ∧ settled (lt_workflow_id task) r db db') db.
Proof.
  intros Hst Hs Ho. unfold commit_commands. destruct (rr_commands r) as [|k cs] eqn:Hcs; [by owe|].
  destruct (omap is_continuation (k :: cs)) as [|c l] eqn:Hom.
  - wp_auto. eapply wp_mono; [apply wp_and; [by apply owe_commands|]|].
    { apply (commands_records (lt_workflow_id task) q (k :: cs)); [done|by apply (ow_exists _ _ _ _ _ Ho)]. }
    intros s1 db1 [Ho1 (es & Hh & Hes)].
    eapply wp_mono; [apply (wp_and _ (fun _ => paid x db0) (fun _ db' => db_history db' = db_history db1))|].
    + unfold paid. destruct (existsb wakes_replay (k :: cs)); owe; owe_end.
    + destruct (existsb wakes_replay (k :: cs)); wp_auto; [wp_frame db2 Hc|];
        unfold set_next_seq, update_execution; wp_auto; [apply Hc|done].
    + intros _ db2 [Hp Hh2]. split; [done|right]. rewrite Hst. exists es. rewrite <- Hh. split; [|by rewrite Hcs].
      unfold hist, rows_of. by rewrite Hh2.
  - case_match; [by owe|]. wp_auto. eapply wp_mono; [by apply owe_descendants|owe_next].
    apply settled_ended. eapply wp_mono; [by apply owe_continue|owe_next]. owe_end.
Qed.

Lemma consequences_settle task q e r x db0 db :
  is_Some (db_executions db0 !! lt_workflow_id task) → owing x db0 ∅ ∅ db →
  wp (commit_consequences task q e r)
    (fun _ db' => paid x db0 db' ∧ settled (lt_workflow_id task) r db db') db.
Proof.
  intros Hs Ho. unfold commit_consequences. cbv zeta.
  destruct (rr_status r) eqn:Hst; [case_match|case_match|..];
    try (apply settled_ended; first [by apply owe_commit_cancellation|by apply owe_commit_closed]).
  - by apply commit_commands_settle.
  - apply wp_ret. split; [done|right]. by rewrite Hst.
Qed.

(** The end of an attempt touches the task of the attempt. *)
Lemma owe_finish_task task s x db0 X C db :
  owing x db0 X C db →
  (∀ t, db_tasks db !! lt_id task = Some t → task_task_type t = TWorkflow →
     x = Some (lt_id task) ∧ is_Some (db_tasks db0 !! lt_id task)) →
  wp (finish_task task s) (fun _ => owing x db0 X C) db.
Proof.
  intros Ho Hx. unfold finish_task. wp_auto. apply owe_update_tasks; [done|].
  intros id row Hrow Hp. rewrite !andb_true_iff, bool_decide_eq_true in Hp. destruct Hp as [[-> _] _].
  split; [done|]. intros Hty _. right; right. by eapply Hx.
Qed.

Lemma commit_settles task r db :
  wp (commit_workflow_replay task r) (fun _ db' =>
    paid (Some (lt_id task)) db db' ∧ settled (lt_workflow_id task) r db db') db.
Proof.
  unfold commit_workflow_replay. wp_auto. selected. apply wp_running_execution. intros e He _. wp_auto.
  eapply wp_mono; [eapply consequences_settle; [by eexists|apply owing_refl]|]. intros _ db1 [Ho Hset]. cbv beta.
  eapply wp_mono; [apply (wp_and _ (fun _ => paid (Some (lt_id task)) db)); [|apply frame_complete_task]|].
  - unfold complete_task. wp_auto. eapply wp_mono; [eapply owe_finish_task; [exact Ho|]|owe_next].
    { intros _ _ _. split; [done|by eexists]. }
    by owe.
  - intros _ db2 [Ho2 Hc]. split; [done|]. unfold settled, ended in *. rewrite (hist_core _ _ _ Hc).
    by destruct Hc as [_ ->].
Qed.

(** A row of an activity, by the leased task of its holder. *)
Lemma genuine_activity db0 db X C task t :
  genuine db0 task t → lt_task_type task = TActivity → owing None db0 X C db →
  ∀ t', db_tasks db !! lt_id task = Some t' → task_task_type t' = TWorkflow →
    None = Some (lt_id task) ∧ is_Some (db_tasks db0 !! lt_id task).
Proof.
  intros [Ht _ Hty _ _ _ _] Hact Ho t' Ht' Htw. destruct (ow_rows _ _ _ _ _ Ho _ _ Ht) as (t1 & Ht1 & E).
  injection E as _ E _. congruence.
Qed.

Lemma paid_complete task r db :
  is_genuine db task → wp (complete_activity task r) (fun _ => paid None db) db.
Proof.
  intros [t Hg]. unfold complete_activity, complete_task, paid. pose proof (owing_refl None db) as Ho.
  destruct (lt_task_type task) eqn:Hty; wp_auto. owe.
  eapply wp_mono; [eapply owe_finish_task; [exact Ho0|by eapply genuine_activity]|owe_next]. owe. owe_end.
Qed.

(** An attempt that will be retried is no news. *)
Lemma retried_quiet t attrs s d c n x :
  t = ActivityFailed ∨ t = ActivityTimedOut → NoDup attrs.*1 → dict_get "final" attrs = Some (JBool false) →
  to_jsonb (JObj attrs) = Ok (JObj d) → rousing (mk_event s t d c n x) = false.
Proof.
  intros Ht Hnd Hf Hj. pose proof (stored_attr "final" (JBool false) attrs d s t c n x Hnd Hj Hf) as Ha.
  unfold attr, dict_get_json in Ha. unfold rousing, is_final_attr. cbn [attributes event_type] in *.
  destruct (dict_get "final" d) as [v|]; [|done]. simpl in Ha. subst v. by destruct Ht as [-> | ->].
Qed.

Lemma paid_record_failure task f b v db :
  lt_task_type task = TActivity → is_genuine db task →
  wp (record_failure task f b v) (fun _ => paid None db) db.
Proof.
  intros Hty [t Hg]. unfold record_failure, paid. pose proof (owing_refl None db) as Ho. wp_auto.
  apply wp_running_execution. intros e He _. wp_auto.
  eapply wp_mono; [eapply (owe_event_if _ _ b); [|exact Ho]|owe_next].
  { intros -> d Hd. eapply retried_quiet; [by left| | |exact Hd]; [by apply (bool_decide_unpack _)|done]. }
  wp_auto. eapply wp_mono; [eapply owe_finish_task; [exact Ho0|by eapply genuine_activity]|owe_next].
  destruct b; owe; owe_end.
Qed.

Lemma paid_fail task f r db :
  is_genuine db task → wp (fail_activity task f r) (fun _ => paid None db) db.
Proof.
  intros Hg. unfold fail_activity. destruct (lt_task_type task) eqn:Hty; wp_auto;
    by apply paid_record_failure.
Qed.

(** The task a maintenance operation found. *)
Lemma owe_end_task id s now t X C db0 db :
  owing None db0 X C db → db_tasks db !! id = Some t → task_task_type t ≠ TWorkflow →
  wp (update_tasks (fun i _ => bool_decide (i = id)) (close_task s now)) (fun _ => owing None db0 X C) db.
Proof.
  intros Ho Ht Hty. apply owe_update_tasks; [done|]. intros i row Hrow ->%bool_decide_eq_true.
  apply harmless_other; [done|congruence].
Qed.

(** The row is the one that was found. *)
Ltac kept_row Hr := match goal with E : db_tasks _ = db_tasks _ |- _ => rewrite E; exact Hr end.

Lemma due_timer_row db locked q c id t :
  due_timer db locked q c = Some (id, t) → db_tasks db !! id = Some t ∧ task_task_type t ≠ TWorkflow.
Proof. unfold due_timer. intros E. selected. split; [done|congruence]. Qed.

Lemma due_timeout_row db now locked q id t :
  due_timeout db now locked q = Some (id, t) → db_tasks db !! id = Some t ∧ task_task_type t ≠ TWorkflow.
Proof.
  unfold due_timeout, timed_out. intros E. selected. split; [done|].
  rewrite ?andb_true_iff, ?bool_decide_eq_true in *. intuition congruence.
Qed.

Lemma paid_timer q c db : wp (fire_due_timer q c) (fun _ => paid None db) db.
Proof.
  unfold fire_due_timer, paid. pose proof (owing_refl None db) as Ho. owe; try done; subst.
  match goal with E : due_timer _ _ _ _ = Some _ |- _ => apply due_timer_row in E as [Hr Hty] end.
  eapply wp_mono; [eapply owe_end_task; [exact Ho0|kept_row Hr|done]|owe_next]. owe. owe_end.
Qed.

Lemma paid_timeout q r db : wp (process_activity_timeout q r) (fun _ => paid None db) db.
Proof.
  unfold process_activity_timeout, paid. pose proof (owing_refl None db) as Ho. wp_auto; try done;
    apply wp_fetch_execution; wp_auto; try done; subst;
    match goal with E : due_timeout _ _ _ _ = Some _ |- _ => apply due_timeout_row in E as [Hr Hty] end;
    unfold record_timeout; wp_auto.
  all: match goal with |- context [JBool (?m <=? ?n)%Z] =>
         eapply wp_mono; [eapply (owe_event_if _ _ (m <=? n)%Z); [|exact Ho]|owe_next] end.
  all: try (intros Hb d Hd; rewrite Hb in Hd; eapply retried_quiet; [by right| | |exact Hd];
         [by apply (bool_decide_unpack _)|done]).
  all: wp_auto; eapply wp_mono; [eapply owe_end_task; [exact Ho0|kept_row Hr|done]|owe_next].
  all: case_match; owe; owe_end.
Qed.

Lemma paid_reclaim n db : wp (reclaim_expired_workflow_tasks n) (fun _ => paid None db) db.
Proof.
  unfold reclaim_expired_workflow_tasks, paid. pose proof (owing_refl None db) as Ho. wp_auto.
  apply owe_tasks; [done|]. intros id row Hrow. unfold update_where. rewrite map_lookup_imap, Hrow. simpl.
  eexists. split; [done|]. case_match; [right; by apply harmless_open|by left].
Qed.

Lemma paid_lease ty q d db : wp (lease_task ty q d) (fun _ => paid None db) db.
Proof.
  unfold lease_task, _lease_candidate, paid. pose proof (owing_refl None db) as Ho. wp_auto; try done;
    selected; (eapply wp_mono; [eapply owe_set_task; [exact Ho|done|by apply harmless_open]|owe_next]); owe; owe_end.
Qed.

Lemma paid_renew t l d db : wp (renew_lease t l d) (fun _ => paid None db) db.
Proof.
  unfold renew_lease, paid. pose proof (owing_refl None db) as Ho. wp_auto. selected.
  eapply wp_mono; [eapply owe_set_task; [exact Ho|done|]|owe_next; by owe].
  by apply harmless_same.
Qed.

Lemma paid_heartbeat t l x d db : wp (heartbeat_activity t l x d) (fun _ => paid None db) db.
Proof.
  unfold heartbeat_activity, paid. pose proof (owing_refl None db) as Ho. wp_auto. selected.
  eapply wp_mono; [eapply owe_set_task; [exact Ho|done|]|owe_next; by owe].
  by apply harmless_same.
Qed.

Lemma paid_release t d db : wp (release_workflow_task t d) (fun _ => paid None db) db.
Proof.
  unfold release_workflow_task, paid. pose proof (owing_refl None db) as Ho. wp_auto. selected.
  eapply owe_set_task; [exact Ho|done|]. by apply harmless_open.
Qed.

(** Every operation of clients, workers and maintenance that is not a commit of
    a replay keeps every open workflow task, and wakes what it rouses. *)
Lemma operation_paid A (m : M A) db :
  operation_of (fun _ _ => False) (is_genuine db) A m → wp m (fun _ => paid None db) db.
Proof.
  destruct 1; auto using paid_complete, paid_fail, paid_timer, paid_timeout, paid_reclaim, paid_lease,
    paid_renew, paid_heartbeat, paid_release; try done; unfold paid; pose proof (owing_refl None db) as Ho.
  - unfold register_workflow_definition. owe. done.
  - by apply owe_start.
  - unfold pause_workflow. owe; done.
  - unfold resume_workflow. owe; try done.
    eapply wp_mono; [apply owe_update_tasks; [exact Ho|]|owe_next; owe; owe_end].
    intros id row _ _. by apply harmless_same.
  - unfold retry_workflow. owe; first [done|by apply owe_start].
  - unfold update_search_attributes. owe; done.
  - unfold terminate_workflow. owe; try done.
    eapply wp_mono; [by apply owe_descendants|owe_next]. owe.
    eapply wp_mono; [by apply owe_cancel_timers|owe_next]. owe.
    eapply wp_mono; [eapply owe_kill_open; [done|set_solver]|owe_next]. wp_auto.
    eapply wp_mono; [by apply owe_notify|owe_next]. owe. owe_end.
  - unfold request_workflow_cancellation, kill_tasks. owe; try done.
    eapply wp_mono; [eapply owe_update_tasks; [exact Ho1|]|owe_next; owe; owe_end].
    intros id row _ Hp. apply harmless_other; [done|].
    rewrite !andb_true_iff, !bool_decide_eq_true in Hp. intuition congruence.
  - unfold send_signal. owe; try done. owe_end.
  - unfold send_update. owe; try done. owe_end.
  - unfold create_schedule. owe. done.
  - unfold set_schedule_paused. owe; done.
  - unfold materialize_due_schedule, record_occurrence. owe; try done;
      (eapply wp_mono; [by apply owe_start_occurrence|owe_next]); owe; done.
  - unfold backfill_schedule, backfill_one. wp_auto.
    eapply wp_mono; [apply (wp_for_each _ _ (fun _ => owing None db ∅ ∅)); [done|]|owe_next; owe; done].
    intros n1 at1 db1 _ Ho1. owe; [done|].
    eapply wp_mono; [by apply owe_start_occurrence|owe_next]. by owe.
  - unfold record_idempotent_effect. owe; done.
  - unfold heartbeat_worker. owe; done.
  - unfold stop_worker. owe; done.
Qed.
End operations.
