(* ===== verification/Engine.v ===== *)
(** * Workers and replay together

    The commits of a run are made by workers: [run_workflow_task] leases a task,
    loads the history, replays the registered function on it and commits.  Such
    runs are honest runs, so replay is deterministic in them.

    Nor is a wake-up lost in them: a workflow whose history holds something its
    last replay has not seen has an open workflow task, so a running workflow
    without one is blocked, replay has nothing to do for it.  The invariant is
    [watched]: each rousing event of the history is covered by an open task that
    the history held the event before, or by a committed replay of a history that
    held it. *)
From S2P Require Import Prelude Python Serialization History HistoryTheory Commands Context.
From S2P Require Import Durability Operations Calls Replay Requests Determinism Versions.
From S2P Require Import Database Logic Store Leasing AuditLog Definitions Transitions Commit.
From S2P Require Import Activities Messages Timeouts Cron Schedules Queries Workers Frames.
From S2P Require Import StoreInvariant.
From S2P Require Import System.
From S2P Require Import Atomicity Writes Runner Service Chronicle Waiting Wakes.
From stdpp Require Import relations.

Section lease.
Context `{PyStd}.

(** Leasing a workflow task writes no execution. *)
Lemma wp_lease_executions q d db :
  wp (lease_task TWorkflow q d) (fun _ db' => db_executions db' = db_executions db) db.
Proof. unfold lease_task, set_task. wp_auto; done. Qed.

Lemma lease_executions q d env n db :
  db_executions (leaves (lease_task TWorkflow q d) env n db) = db_executions db.
Proof.
  pose proof (wp_lease_executions q d db env n) as Hwp.
  pose proof (operation_atomic _ _ (op_lease TWorkflow q d) env (mk_world db n)) as Hat.
  unfold leaves. destruct (lease_task TWorkflow q d env (mk_world db n)) as [[a|e] w1]; simpl in *.
  - by eapply Hwp.
  - by rewrite Hat.
Qed.

(** What a worker replays is what the database stores. *)
Lemma load_state task env n db state w1 :
  load_workflow_replay_state task env (mk_world db n) = (Ok state, w1) →
  rs_workflow_id state = lt_workflow_id task ∧ rs_history state = history_of (lt_workflow_id task) db ∧
  ∃ e, db_executions db !! lt_workflow_id task = Some e ∧
    rs_workflow_type state = exec_workflow_type e ∧
    rs_definition_version state = exec_definition_version e ∧ rs_workflow_input state = exec_input e.
Proof.
  intros E. pose (Q := fun (state : WorkflowReplayState) (_ : DB) =>
    rs_workflow_id state = lt_workflow_id task ∧ rs_history state = history_of (lt_workflow_id task) db ∧
    ∃ e, db_executions db !! lt_workflow_id task = Some e ∧
      rs_workflow_type state = exec_workflow_type e ∧
      rs_definition_version state = exec_definition_version e ∧ rs_workflow_input state = exec_input e).
  assert (wp (load_workflow_replay_state task) Q db) as Hwp; [|by eapply Hwp].
  unfold load_workflow_replay_state. wp_auto. apply wp_running_execution. intros e He _. wp_auto.
  unfold Q. eauto 10.
Qed.
End lease.

Section engine.
Context `{PyStdLaws}.
Context (function : Coroutine) (w : UUID) (workflow_input : JSON).

Abbreviation honest_run := (honest_run function w workflow_input).

(** A worker's registry holds the code of the workflow, if it knows it. *)
Definition runs_code (registry : DefinitionRegistry) (db : DB) : Prop :=
  ∀ e, db_executions db !! w = Some e → exec_input e = workflow_input ∧
    ∀ definition, registry_workflow registry (exec_workflow_type e) (exec_definition_version e) = Ok definition →
      fn_body (wd_function definition) = function.

(** A run in which the workflow's commits are those of workers; everything else
    interleaves. *)
Inductive engine_run : list DB → Prop :=
| er_begins db : reachable db → history_of w db = [] → engine_run [db]
| er_operation db dbs A (m : M A) env n :
    engine_run (db :: dbs) → operation_by (fun task _ => lt_workflow_id task ≠ w) A m →
    engine_run (leaves m env n db :: db :: dbs)
| er_works db dbs registry fuel q d env n :
    engine_run (db :: dbs) → runs_code registry db →
    engine_run (leaves (run_workflow_task fuel registry q d) env n db :: db :: dbs).

Lemma honest_worker db dbs registry fuel q d env n :
  honest_run (db :: dbs) → runs_code registry db →
  ∃ dbs', honest_run (leaves (run_workflow_task fuel registry q d) env n db :: dbs').
Proof.
  intros Hrun Hcode. pose proof (lease_executions q d env n db) as Hex.
  assert (honest_run (leaves (lease_task TWorkflow q d) env n db :: db :: dbs)) as Hleased
    by (apply run_steps; [done|apply op_lease]).
  unfold leaves in *. unfold run_workflow_task, mbind, M_bind.
  destruct (lease_task TWorkflow q d env (mk_world db n)) as [[[task|]|e] [db1 n1]]; [|by eexists..].
  cbn [w_db fst snd] in Hleased, Hex |- *.
  pose proof (reads_load task env (mk_world db1 n1)) as Hload.
  destruct (load_workflow_replay_state task env (mk_world db1 n1)) as [[state|e] [db2 n2]] eqn:El;
    cbn [w_db snd] in Hload; subst db2; [|by eexists].
  apply load_state in El as (Hw & Hh & e & He & Ht & Hv & Hi).
  rewrite Hex in He. rewrite Hw, Hh, Ht, Hv, Hi.
  destruct (registry_workflow registry _ _) as [definition|e1] eqn:Hdef.
  - destruct (replay_workflow fuel _ _ _ _) as [[replay|e1]|] eqn:Hr; [|by eexists..].
    exists (db1 :: db :: dbs). unfold of_result.
    assert (honest_run (leaves (commit_workflow_replay task replay) env n2 db1 :: db1 :: db :: dbs)) as Hc.
    { apply run_steps; [done|]. apply op_commit. intros Htw. rewrite Htw in *.
      destruct (Hcode e He) as [Hin Hfun]. exists db1, fuel. split; [by left|].
      by rewrite <- Hin, <- (Hfun definition Hdef). }
    unfold leaves in Hc. by destruct (commit_workflow_replay task replay env _) as [[[]|e1] w2].
  - exists (db1 :: db :: dbs).
    assert (honest_run (leaves (release_workflow_task task default_release_delay) env n2 db1 :: db1 :: db :: dbs)) as Hc
      by (apply run_steps; [done|apply op_release]).
    unfold leaves in Hc. by destruct (release_workflow_task task default_release_delay env _) as [[u|e2] w2].
Qed.

Lemma engine_honest db dbs : engine_run (db :: dbs) → ∃ dbs', honest_run (db :: dbs').
Proof.
  intros Hrun. remember (db :: dbs) as l eqn:Hl. revert db dbs Hl.
  induction Hrun as [db0 Hr Hh|db0 dbs0 A m env n _ IH Hop|db0 dbs0 registry fuel q d env n _ IH Hcode];
    intros db dbs [= <- <-].
  - exists []. by apply run_begins.
  - destruct (IH _ _ eq_refl) as [dbs' Hrun]. exists (db0 :: dbs'). apply run_steps; [done|].
    eapply operation_by_mono; [|done]. intros task r Hne Heq. done.
  - destruct (IH _ _ eq_refl) as [dbs' Hrun]. by eapply honest_worker.
Qed.

End engine.

(** ** No wake-up is lost *)
Section wakeups.
Context `{PyStdLaws}.
Context (function : Coroutine) (w : UUID) (workflow_input : JSON).
Abbreviation replay := (fun fuel => replay_workflow fuel function w workflow_input).

(** A replay of the history a worker loaded for its task at some point of the
    run. *)
Definition replays_loaded (dbs : list DB) (task : LeasedTask) (r : ReplayResult) : Prop :=
  ∃ db0 env n state world fuel, db0 ∈ dbs ∧
    load_workflow_replay_state task env (mk_world db0 n) = (Ok state, world) ∧
    replay fuel (rs_history state) = Some (Ok r).

(** What the workers of a run commit: their leased tasks are those of the
    database, and replays of [w] are of a history loaded under the task. *)
Definition worker_commits (dbs : list DB) (db : DB) (task : LeasedTask) (r : ReplayResult) : Prop :=
  is_genuine db task ∧ (lt_workflow_id task = w → replays_loaded dbs task r).

(** The databases of a run, the latest first: any operations interleave, the
    steps of a worker too. *)
Inductive worker_run : list DB → Prop :=
| wr_begins db : reachable db → history_of w db = [] → worker_run [db]
| wr_steps db dbs A (m : M A) env n :
    worker_run (db :: dbs) →
    operation_of (worker_commits (db :: dbs) db) (is_genuine db) A m →
    worker_run (leaves m env n db :: db :: dbs).

Lemma operation_weaken (P P' : LeasedTask → ReplayResult → Prop) (Q Q' : LeasedTask → Prop) A (m : M A) :
  (∀ t r, P t r → P' t r) → (∀ t, Q t → Q' t) → operation_of P Q A m → operation_of P' Q' A m.
Proof. intros HP HQ. destruct 1; constructor; auto. Qed.

Lemma loaded_task task env n db state world :
  load_workflow_replay_state task env (mk_world db n) = (Ok state, world) →
  is_Some (db_tasks db !! lt_id task) ∧ rs_history state = history_of (lt_workflow_id task) db.
Proof.
  intros E. split; [|by apply load_state in E as (_ & ? & _)].
  assert (wp (load_workflow_replay_state task) (fun _ _ => is_Some (db_tasks db !! lt_id task)) db) as Hwp;
    [|by eapply Hwp].
  unfold load_workflow_replay_state. wp_auto. selected. eapply wp_mono; [apply wp_true|].
  intros. wp_auto. by eexists.
Qed.

Lemma worker_honest dbs : worker_run dbs → honest_run function w workflow_input dbs.
Proof.
  induction 1 as [db Hr Hh|db dbs A m env n _ IH Hop]; [by apply run_begins|].
  apply run_steps; [done|]. eapply operation_weaken; [|done|exact Hop].
  intros task r [_ Hr] Hw. destruct (Hr Hw) as (db0 & env' & n' & state & world & fuel & Hin & Hl & Hrep).
  exists db0, fuel. split; [done|]. apply loaded_task in Hl as [_ Hh]. rewrite Hw in Hh. by rewrite <- Hh.
Qed.

(** ** What a step does *)
Lemma step_paid dbs A (m : M A) env n db :
  operation_of (worker_commits dbs db) (is_genuine db) A m →
  paid None db (leaves m env n db) ∨
  ∃ task r, worker_commits dbs db task r ∧ paid (Some (lt_id task)) db (leaves m env n db) ∧
    settled (lt_workflow_id task) r db (leaves m env n db).
Proof.
  intros Hop. assert (atomic m) as Hat.
  { apply operation_atomic. by eapply operation_weaken; [..|exact Hop]. }
  specialize (Hat env (mk_world db n)). unfold leaves.
  assert (operation_of (fun _ _ => False) (is_genuine db) A m ∨
    ∃ task r (E : A = unit), worker_commits dbs db task r ∧
      eq_rect A M m unit E = commit_workflow_replay task r) as [Hm|(task & r & -> & Hc & Hm)].
  { destruct Hop; try (left; by constructor). right. by exists t, r, eq_refl. }
  - left. destruct (m env (mk_world db n)) as [[a|e] w1] eqn:E.
    + by apply (operation_paid _ _ _ Hm env n a w1 E).
    + rewrite Hat by done. apply owing_refl.
  - simpl in Hm. subst m.
    destruct (commit_workflow_replay task r env (mk_world db n)) as [[[]|e] w1] eqn:E.
    + right. exists task, r. split; [done|]. apply (commit_settles task r db env n tt w1 E).
    + left. rewrite Hat by done. apply owing_refl.
Qed.

(** Rows and executions persist. *)
Lemma run_rows db dbs :
  worker_run (db :: dbs) → ∀ db0 id, db0 ∈ db :: dbs →
  is_Some (db_tasks db0 !! id) → is_Some (db_tasks db !! id).
Proof.
  intros Hrun. remember (db :: dbs) as l eqn:Hl. revert db dbs Hl.
  induction Hrun as [db1 Hr Hh|db1 dbs1 A m env n Hrun IH Hop]; intros db dbs [= <- <-] db0 id.
  - by intros ->%list_elem_of_singleton.
  - intros [->|Hin]%elem_of_cons; [done|]. intros Hs. destruct (IH _ _ eq_refl _ _ Hin Hs) as [t Ht].
    assert (∃ x, paid x db1 (leaves m env n db1)) as [x Hp].
    { destruct (step_paid _ _ _ env n db1 Hop) as [?|(task & r & _ & ? & _)]; eauto. }
    destruct (ow_rows _ _ _ _ _ Hp _ _ Ht) as (t' & -> & _). by eexists.
Qed.

(** ** The invariant *)
Definition running (db : DB) : Prop := ∃ e, db_executions db !! w = Some e ∧ exec_status e = WRunning.

Definition runningb (db : DB) : bool :=
  match db_executions db !! w with Some e => bool_decide (exec_status e = WRunning) | None => false end.
Lemma runningb_running db : runningb db = true → running db.
Proof.
  unfold runningb, running. destruct (db_executions db !! w) as [e|]; [|done].
  intros ?%bool_decide_eq_true. by exists e.
Qed.

(** The rousing event at [k] is covered. *)
Definition covered_by_task (dbs : list DB) (db : DB) (k : nat) : Prop :=
  ∃ id, awake w db id ∧ ∀ db0, db0 ∈ dbs → is_Some (db_tasks db0 !! id) → k < length (hist w db0).
Definition covered_by_replay (dbs : list DB) (db : DB) (k : nat) : Prop :=
  ∃ db0 r fuel l1 es l2, db0 ∈ dbs ∧ k < length (hist w db0) ∧
    replay fuel (hist w db0) = Some (Ok r) ∧ (rr_status r = BLOCKED ∨ rr_status r = COMMANDS) ∧
    hist w db = hist w db0 ++ l1 ++ es ++ l2 ∧ Forall2 records (rr_commands r) es.

Definition watched (dbs : list DB) (db : DB) : Prop :=
  running db → ∀ k e, hist w db !! k = Some e → rousing e = true →
  covered_by_task dbs db k ∨ covered_by_replay dbs db k.

Lemma running_not_ended db : running db → ¬ ended w db.
Proof. intros (e & He & Hs) (e' & He' & Hs'). congruence. Qed.

(** A replay that is blocked emits nothing. *)
Lemma blocked_emits fuel h r : replay fuel h = Some (Ok r) → rr_status r = BLOCKED → rr_commands r = [].
Proof.
  unfold replay_workflow. destruct (build_index h) as [i|]; [|done].
  assert (∀ e c, finish i (Raised e) c = Ok r → rr_status r ≠ BLOCKED) as Hr.
  { intros e c. destruct e; simpl; try done; by intros [= <-]. }
  destruct (clone_json workflow_input) as [input|e].
  - destruct (run fuel _ _ _) as [[end_ c]|]; [|done]. intros [= Hf] Hb. destruct end_ as [v|e|s].
    + cbn [finish] in Hf. case_match; [by case_match|]. destruct (clone_json v); [|done].
      by injection Hf as <-.
    + by destruct (Hr e c Hf).
    + destruct s; injection Hf as <-; done.
  - intros [= Hf] Hb. by destruct (Hr e (init_context w i) Hf).
Qed.

Section step.
Context (db : DB) (dbs : list DB) (A : Type) (m : M A) (env : Env) (n : nat).
Context (Hrun : worker_run (db :: dbs)).
Context (Hop : operation_of (worker_commits (db :: dbs) db) (is_genuine db) A m).
Let db' : DB := leaves m env n db.

Lemma step_prefix : hist w db `prefix_of` hist w db'.
Proof.
  apply (extends_prefix (fun _ _ => True)), extends_leaves, operation_appends; [done|].
  by eapply operation_weaken; [..|exact Hop].
Qed.

(** An event covered by a replay stays so. *)
Lemma replay_still_covers k :
  covered_by_replay (db :: dbs) db k → covered_by_replay (db' :: db :: dbs) db' k.
Proof.
  intros (db0 & r & fuel & l1 & es & l2 & Hin & Hk & Hrep & Hst & Hh & Hes).
  destruct step_prefix as [l Hl]. exists db0, r, fuel, l1, es, (l2 ++ l).
  split_and!; [by right|done|done|done| |done]. rewrite Hl, Hh. by rewrite <- !(assoc_L (++)).
Qed.

(** So does one covered by a task that is not committed. *)
Lemma task_still_covers x k :
  paid x db db' → running db' → covered_by_task (db :: dbs) db k → k < length (hist w db) →
  covered_by_task (db' :: db :: dbs) db' k ∨
  ∃ id, x = Some id ∧ awake w db id ∧
    ∀ db0, db0 ∈ db :: dbs → is_Some (db_tasks db0 !! id) → k < length (hist w db0).
Proof.
  intros Hp Hr (id & Ha & Hold) Hk. destruct (decide (x = Some id)) as [->|Hne]; [right; by exists id|left].
  destruct (ow_awake _ _ _ _ _ Hp w id Hne Ha) as [He|Ha']; [by apply running_not_ended in Hr|].
  exists id. split; [done|]. intros db0 [->|Hin]%elem_of_cons Hs; [|by apply Hold].
  pose proof (prefix_length _ _ step_prefix). lia.
Qed.

(** A new event is covered by the task that came with it. *)
Lemma new_covered x k e :
  paid x db db' → running db' → hist w db' !! k = Some e → rousing e = true →
  length (hist w db) ≤ k → covered_by_task (db' :: db :: dbs) db' k.
Proof.
  intros Hp Hr Hk He Hle. destruct (ow_news _ _ _ _ _ Hp) as (l & Hl & Hn).
  assert (hist w db' = hist w db ++ (hr_event <$> filter (fun r => hr_workflow_id r = w) l)) as Hh.
  { unfold hist, rows_of. by rewrite Hl, filter_app, fmap_app. }
  destruct (Hn w) as [Hq|[Hc|(id & Hid & Ha)]]; [set_solver|exfalso|by apply running_not_ended in Hr|].
  - rewrite Hh, lookup_app_r in Hk by done. apply list_elem_of_lookup_2, list_elem_of_fmap in Hk as (r & -> & Hk).
    apply list_elem_of_filter in Hk as [Hw Hin]. by rewrite (Hq r Hin Hw) in He.
  - exists id. split; [done|]. intros db0 [->|Hin]%elem_of_cons Hs; [by apply lookup_lt_Some in Hk|].
    apply (run_rows _ _ Hrun _ _ Hin) in Hs. rewrite Hid in Hs. by destruct Hs.
Qed.

(** The commit of a task covers what the task covered. *)
Lemma commit_covers task r k :
  worker_commits (db :: dbs) db task r → settled (lt_workflow_id task) r db db' → running db' →
  awake w db (lt_id task) →
  (∀ db0, db0 ∈ db :: dbs → is_Some (db_tasks db0 !! lt_id task) → k < length (hist w db0)) →
  covered_by_replay (db' :: db :: dbs) db' k.
Proof.
  intros [[t Hg] Hrep] Hset Hr (t' & Ht' & Hw & _) Hold.
  rewrite (gn_row _ _ _ Hg) in Ht'. injection Ht' as <-. pose proof (gn_workflow _ _ _ Hg) as Htw.
  rewrite Hw in Htw. rewrite Htw in *.
  destruct (Hrep eq_refl) as (db0 & env0 & n0 & state & world & fuel & Hin & [Hs Hh]%loaded_task & Hrp).
  rewrite Htw in Hh. rewrite Hh in Hrp.
  pose proof (worker_honest _ Hrun) as Hhon.
  rewrite (reachable_hist w db0) in Hrp by (by eapply honest_reachable).
  destruct (honest_prefix _ _ _ _ _ Hhon _ Hin) as [l1 Hl1]. destruct step_prefix as [l Hl].
  destruct Hset as [He|Hset]; [by apply running_not_ended in Hr|].
  destruct (rr_status r) eqn:Hst; [| |done..].
  - destruct Hset as (es & Hes & Hrec). exists db0, r, fuel, l1, es, []. rewrite app_nil_r.
    split_and!; [by right|by apply Hold|done|by right| |done]. by rewrite Hes, Hl1, <- (assoc_L (++)).
  - exists db0, r, fuel, (l1 ++ l), [], []. rewrite !app_nil_r.
    split_and!; [by right|by apply Hold|done|by left| |].
    + by rewrite Hl, Hl1, <- (assoc_L (++)).
    + by rewrite (blocked_emits _ _ _ Hrp Hst).
Qed.

Lemma step_watched : watched (db :: dbs) db → watched (db' :: db :: dbs) db'.
Proof.
  intros Hwa Hr k e Hk He.
  assert (∃ x, paid x db db' ∧ ∀ id, x = Some id → ∃ task r, id = lt_id task ∧
    worker_commits (db :: dbs) db task r ∧ settled (lt_workflow_id task) r db db') as (x & Hp & Hx).
  { destruct (step_paid _ _ _ env n db Hop) as [?|(task & r & Hc & ? & ?)]; [by exists None|].
    exists (Some (lt_id task)). split; [done|]. intros id [= <-]. by exists task, r. }
  destruct (Nat.le_gt_cases (length (hist w db)) k) as [Hle|Hlt]; [left; by eapply new_covered|].
  assert (hist w db !! k = Some e) as Hk0.
  { destruct step_prefix as [l Hl]. fold db' in Hl. rewrite Hl, lookup_app_l in Hk; done. }
  assert (running db) as Hr0.
  { destruct (db_executions db !! w) as [x0|] eqn:Hx0.
    - destruct (decide (exec_status x0 = WRunning)) as [?|Hs]; [by exists x0|exfalso].
      apply (running_not_ended _ Hr), (ow_ended _ _ _ _ _ Hp). left. by exists x0.
    - exfalso. pose proof (worker_honest _ Hrun) as Hhon.
      assert (reachable db) as Hre by (eapply honest_reachable; [done|left]).
      rewrite (inv_foreign _ _ (reachable_Inv _ Hre) w Hx0) in Hk0. done. }
  destruct (Hwa Hr0 k e Hk0 He) as [Ht|Hrep]; [|right; by apply replay_still_covers].
  destruct (task_still_covers x k Hp Hr Ht Hlt) as [?|(id & -> & Ha & Hold)]; [by left|right].
  destruct (Hx id eq_refl) as (task & r & -> & Hc & Hset). by eapply commit_covers.
Qed.
End step.

Lemma run_watched db dbs : worker_run (db :: dbs) → watched (db :: dbs) db.
Proof.
  intros Hrun. remember (db :: dbs) as l eqn:Hl. revert db dbs Hl.
  induction Hrun as [db1 Hr Hh|db1 dbs1 A m env n Hrun IH Hop]; intros db dbs [= <- <-].
  - intros _ k e Hk. rewrite <- reachable_hist, Hh in Hk by done. done.
  - apply step_watched; [done|done|]. by apply (IH _ dbs1).
Qed.

(** ** The last event a replay reacts to *)
Lemma last_such {A} (p : A → bool) (l : list A) x :
  x ∈ l → p x = true →
  ∃ k y, l !! k = Some y ∧ p y = true ∧ Forall (fun z => p z = false) (drop (S k) l).
Proof.
  induction l as [|z l IH] using rev_ind; intros Hx Hp; [by apply not_elem_of_nil in Hx|].
  destruct (p z) eqn:Hz.
  - exists (length l), z. rewrite drop_ge by (rewrite length_app; simpl; lia).
    split_and!; [by apply list_lookup_middle|done|constructor].
  - destruct IH as (k & y & Hk & Hy & Hall); [|done|].
    { apply elem_of_app in Hx as [?| ->%list_elem_of_singleton]; [done|congruence]. }
    exists k, y. pose proof (lookup_lt_Some _ _ _ Hk). rewrite drop_app_le by lia.
    split_and!; [by apply lookup_app_l_Some|done|]. apply Forall_app. split; [done|by constructor].
Qed.

Lemma first_rouses db e es : reachable db → hist w db = e :: es → rousing e = true.
Proof.
  intros Hr Hh. pose proof (wf_started _ (inv_wf _ _ (reachable_Inv db Hr) w) 0 e) as Hs.
  rewrite Hh in Hs. unfold rousing. by rewrite (proj2 (Hs eq_refl) eq_refl).
Qed.

Lemma running_nonempty db : reachable db → running db → hist w db ≠ [].
Proof. intros Hr (e & He & _). by apply (inv_agrees _ _ (reachable_Inv db Hr) w e He). Qed.

End wakeups.

(** ** The workers make such runs

    The task [lease_task] returns is the one of its row and stays so, so the
    steps of both workers extend a run. *)
Section workers.
Context `{PyStdLaws}.
Context (function : Coroutine) (w : UUID) (workflow_input : JSON).
Abbreviation worker_run := (worker_run function w workflow_input).
Abbreviation worker_commits := (worker_commits function w workflow_input).

Lemma lease_genuine ty q d db :
  wp (lease_task ty q d) (fun r db' => ∀ task, r = Some task → is_genuine db' task) db.
Proof.
  unfold lease_task, set_task, insert_event, set_next_seq, update_execution. wp_auto; try done.
  all: intros task [= <-]; eexists; split; try done; apply lookup_insert_eq.
Qed.

Lemma run_exec db dbs A (m : M A) env :
  worker_run (db :: dbs) → operation_of (worker_commits (db :: dbs) db) (is_genuine db) A m →
  worker_run ((exec m env db).2 :: db :: dbs).
Proof. rewrite exec_leaves. by constructor. Qed.

(** Rows keep their identity, and a leased task stays genuine. *)
Lemma genuine_stays db dbs A (m : M A) env n task :
  operation_of (worker_commits (db :: dbs) db) (is_genuine db) A m →
  is_genuine db task → is_genuine (leaves m env n db) task.
Proof.
  intros Hop [t [Ht Hw Hty Hen Hc Ha Hi]].
  assert (∃ x, paid x db (leaves m env n db)) as [x Hp].
  { destruct (step_paid _ _ _ _ _ _ env n db Hop) as [?|(task' & r & _ & ? & _)]; eauto. }
  destruct (ow_rows _ _ _ _ _ Hp _ _ Ht) as (t' & Ht' & [= E1 E2 _ E4 E5 E6 E7]).
  exists t'. split; congruence.
Qed.

(** A run goes on from [db] to [db']: what was loaded stays loaded, what is
    leased stays so. *)
Definition later (db : DB) (dbs : list DB) (db' : DB) (dbs' : list DB) : Prop :=
  worker_run (db' :: dbs') ∧ db :: dbs ⊆ db' :: dbs' ∧
  ∀ task, is_genuine db task → is_genuine db' task.

Lemma later_refl db dbs : worker_run (db :: dbs) → later db dbs db dbs.
Proof. intros. by split; [|split]. Qed.

Lemma later_trans db dbs db1 dbs1 db2 dbs2 :
  later db dbs db1 dbs1 → later db1 dbs1 db2 dbs2 → later db dbs db2 dbs2.
Proof. intros (_ & H1 & G1) (? & H2 & G2). split; [done|split; [by etrans|auto]]. Qed.

Lemma later_step db dbs A (m : M A) env n :
  worker_run (db :: dbs) → operation_of (worker_commits (db :: dbs) db) (is_genuine db) A m →
  later db dbs (leaves m env n db) (db :: dbs).
Proof.
  intros Hrun Hop. split; [by apply wr_steps|split; [intros d ?; by right|]]. intros task. by eapply genuine_stays.
Qed.

(** A program whose steps a run goes on by, while it holds the tasks [G]. *)
Definition continues {A} (G : LeasedTask → Prop) (m : M A) : Prop :=
  ∀ env n db dbs, worker_run (db :: dbs) → (∀ task, G task → is_genuine db task) →
  ∃ dbs', later db dbs (leaves m env n db) dbs'.

Lemma continues_reads {A} G (m : M A) : reads m → continues G m.
Proof. intros Hm env n db dbs Hrun _. exists dbs. unfold leaves. rewrite Hm. by apply later_refl. Qed.

Lemma continues_operation {A} (G : LeasedTask → Prop) (m : M A) :
  operation_of (fun _ _ => False) G A m → continues G m.
Proof.
  intros Hop env n db dbs Hrun HG. exists (db :: dbs). apply later_step; [done|].
  by eapply operation_weaken; [..|exact Hop].
Qed.

Lemma continues_bind {A B} G (m : M A) (k : A → M B) :
  continues G m → (∀ a, continues G (k a)) → continues G (m ≫= k).
Proof.
  intros Hm Hk env n db dbs Hrun HG. destruct (Hm env n db dbs Hrun HG) as [dbs1 Hl].
  unfold leaves, mbind, M_bind in *. destruct (m env (mk_world db n)) as [[a|e] [db1 n1]]; [|by exists dbs1].
  cbn [w_db snd] in Hl. destruct (Hk a env n1 db1 dbs1) as [dbs2 Hl2]; [apply Hl| |].
  - intros task Ht. by apply Hl, HG.
  - exists dbs2. by eapply later_trans.
Qed.

Lemma continues_bind_result {A B} G (r : Py A) (k : A → M B) :
  (∀ a, r = Ok a → continues G (k a)) → continues G (of_result r ≫= k).
Proof. destruct r as [a|e]; intros Hk; [by apply (Hk a)|]. by apply continues_reads. Qed.

Lemma continues_call G body current args kwargs :
  continues G (body current args kwargs) → continues G (call_activity body current args kwargs).
Proof.
  intros Hb env n db dbs Hrun HG. specialize (Hb env n db dbs Hrun HG). unfold leaves, call_activity in *.
  destruct (body current args kwargs env (mk_world db n)) as [[v|e] w1]; [done|]. by destruct e.
Qed.

(** A run goes on by leasing, and by what is done with the task. *)
Lemma continues_leased {A} ty q d (rest : option LeasedTask → M A) (R : DB → Prop) env n db dbs :
  worker_run (db :: dbs) → wp (lease_task ty q d) (fun _ => R) db →
  (∀ task n db1, R db1 → (∀ t, task = Some t → is_genuine db1 t) → worker_run (db1 :: db :: dbs) →
     ∃ dbs', later db1 (db :: dbs) (leaves (rest task) env n db1) dbs') →
  ∃ dbs', later db dbs (leaves (lease_task ty q d ≫= rest) env n db) dbs'.
Proof.
  intros Hrun HR Hrest. specialize (HR env n). pose proof (lease_genuine ty q d db env n) as Hg.
  pose proof (later_step db dbs _ (lease_task ty q d) env n Hrun (op_lease ty q d)) as Hl.
  unfold leaves, mbind, M_bind in *. destruct (lease_task ty q d env (mk_world db n)) as [[task|e] [db1 n1]];
    [|by eexists]. cbn [w_db snd] in Hl. specialize (Hg _ _ eq_refl). specialize (HR _ _ eq_refl). cbn in Hg, HR.
  destruct (Hrest task n1 db1) as [dbs' Hl']; [done|auto|apply Hl|]. exists dbs'. by eapply later_trans.
Qed.

(** The workflow worker, when its registry has no other code for [w]. *)
Lemma workflow_worker_continues registry fuel q d env n db dbs :
  worker_run (db :: dbs) → runs_code function w workflow_input registry db →
  ∃ dbs', later db dbs (leaves (run_workflow_task fuel registry q d) env n db) dbs'.
Proof.
  intros Hrun Hcode. apply (continues_leased _ _ _ _ (fun db1 => db_executions db1 = db_executions db));
    [done|apply wp_lease_executions|].
  clear n. intros [task|] n db1 Hex Hg Hrun1; [|exists (db :: dbs); by apply later_refl].
  specialize (Hg task eq_refl). unfold leaves, mbind, M_bind.
  pose proof (reads_load task env (mk_world db1 n)) as Hload.
  destruct (load_workflow_replay_state task env (mk_world db1 n)) as [[state|e] [db2 n2]] eqn:El;
    cbn [w_db snd] in Hload; subst db2; [|exists (db :: dbs); by apply later_refl].
  pose proof El as (Hw & Hh & e & He & Ht & Hv & Hi)%load_state. rewrite Hex in He.
  destruct (registry_workflow registry _ _) as [definition|e1] eqn:Hdef.
  - destruct (replay_workflow fuel _ _ _ _) as [[replay|e1]|] eqn:Hr;
      [|exists (db :: dbs); by apply later_refl..].
    exists (db1 :: db :: dbs). unfold of_result.
    assert (later db1 (db :: dbs) (leaves (commit_workflow_replay task replay) env n2 db1) (db1 :: db :: dbs)) as Hc.
    { apply later_step; [done|]. apply op_commit. split; [done|]. intros Htw.
      exists db1, env, n, state, (mk_world db1 n2), fuel. split; [left|]. split; [done|].
      rewrite Hw, Hi, Htw in *. rewrite Ht, Hv in Hdef. destruct (Hcode e He) as [Hin Hfun].
      by rewrite <- Hin, <- (Hfun definition Hdef). }
    unfold leaves in Hc. by destruct (commit_workflow_replay task replay env _) as [[[]|e1] w2].
  - exists (db1 :: db :: dbs).
    assert (later db1 (db :: dbs) (leaves (release_workflow_task task default_release_delay) env n2 db1)
              (db1 :: db :: dbs)) as Hc by (apply later_step; [done|apply op_release]).
    unfold leaves in Hc. by destruct (release_workflow_task task default_release_delay env _) as [[u|e2] w2].
Qed.

(** The activity worker, when the activities' own steps are such. *)
Definition activities_continue (registry : DefinitionRegistry) : Prop :=
  ∀ G name definition current args kwargs,
    reg_activities registry !! name = Some definition →
    (∀ context details duration, current = Some context →
       continues G (aec_heartbeat context details duration)) →
    continues G (fn_body (ad_function definition) current args kwargs).

Lemma activity_worker_continues registry q d env n db dbs :
  worker_run (db :: dbs) → activities_continue registry →
  ∃ dbs', later db dbs (leaves (run_activity_task registry q d) env n db) dbs'.
Proof.
  intros Hrun Hreg. apply (continues_leased _ _ _ _ (fun _ => True)); [done|apply wp_true|].
  intros [task|] n1 db1 _ Hg Hrun1; [|exists (db :: dbs); by apply later_refl].
  match goal with |- context [leaves ?m] => assert (continues (eq task) m) as Hm end.
  { apply continues_bind_result. intros [[[name args] kwargs] key] _.
    unfold registry_activity. apply continues_bind_result. intros definition Hdef.
    destruct (reg_activities registry !! name) eqn:Hname; [simplify_eq|done].
    apply continues_bind.
    - apply continues_call, (Hreg _ name); [done|]. intros context details duration [= <-].
      apply continues_operation, op_heartbeat.
    - intros outcome. apply continues_bind; [|intros ?; by apply continues_reads].
      destruct outcome as [result|failure]; [by apply continues_operation, op_complete|].
      apply continues_bind; [by apply continues_operation, op_fail|intros ?; by apply continues_reads]. }
  apply Hm; [done|]. intros t <-. by apply Hg.
Qed.
End workers.
