(* ===== verification/Delivery.v ===== *)
(** * Messages are delivered at most once

    The identity a client gives a signal is recorded in the workflow's history for
    good, and that of an update in its row: sending it again, at any later time
    and with any content, delivers nothing. *)
From S2P Require Import Prelude Python Serialization History Commands Context Replay Database.
From S2P Require Import Logic Leasing AuditLog Definitions Transitions Commit Activities Messages.
From S2P Require Import Timeouts Cron Schedules Queries Workers Store Frames StoreInvariant.
From S2P Require Import System.
From S2P Require Import Atomicity Writes Tables Records Chronicle.
From stdpp Require Import relations.

Section delivery.
Context `{PyStd}.

Lemma external_seen_hist db w x :
  external_seen db w x = true ↔ ∃ e, e ∈ hist w db ∧ external_id e = Some x.
Proof.
  unfold external_seen, hist. rewrite existsb_exists. split.
  - intros (r & Hin & Hx%bool_decide_eq_true). exists (hr_event r). split; [|done].
    apply list_elem_of_fmap. exists r. split; [done|]. by apply list_elem_of_In.
  - intros (e & (r & -> & Hin)%list_elem_of_fmap & Hx). exists r.
    split; [by apply list_elem_of_In|]. by apply bool_decide_eq_true.
Qed.

Lemma external_seen_extends ok db db' w x :
  extends ok db db' → external_seen db w x = true → external_seen db' w x = true.
Proof.
  intros Hext. rewrite !external_seen_hist. intros (e & Hin & Hx). exists e. split; [|done].
  destruct (extends_prefix _ w _ _ Hext) as [l ->]. apply elem_of_app. by left.
Qed.

#[local] Hint Resolve appends_audit : appends.

(** A signal that was accepted is in the history. *)
Lemma send_signal_records w id name payload audit db :
  wp (send_signal w id name payload audit)
    (fun b db' => b = true → external_seen db' w id = true) db.
Proof.
  unfold send_signal. case_match; [apply wp_throw|]. case_match; [apply wp_throw|].
  wp_auto. apply wp_fetch_execution. wp_auto; [| |by apply wp_throw].
  - eapply wp_mono; [apply wp_true|]. intros [] ? _. wp_auto. done.
  - apply wp_running_execution. intros e1 He _. wp_auto.
    apply wp_insert_event_full. intros d db1 _ Happ.
    assert (external_seen db1 w id = true) as Hseen.
    { apply external_seen_hist. eexists.
      split; [rewrite (app_hist _ _ _ _ Happ); apply elem_of_app; right; apply list_elem_of_here|done]. }
    pose (ok := fun (_ : UUID) (_ : HistoryEvent) => True).
    assert (∀ wid e, SCHEDULE_EVENT_TYPES (event_type e) = false → ok wid e) as Hok by done.
    eapply wp_mono; [apply (wp_appends ok); by appends_auto|].
    intros b db2 Hext _. eapply external_seen_extends; [exact Hext|exact Hseen].
Qed.

(** The tables an audit record does not touch. *)
Lemma audit_only audit w b d env wd :
  let db' := w_db (record_api_audit audit w b d env wd).2 in
  db_history db' = db_history (w_db wd) ∧ db_tasks db' = db_tasks (w_db wd) ∧
  db_executions db' = db_executions (w_db wd) ∧ db_updates db' = db_updates (w_db wd).
Proof.
  destruct audit as [c|]; [|done].
  unfold record_api_audit, of_result, db_now, get_db, modify_db, throw, mbind, M_bind.
  destruct (clone_json d) as [v|]; [|done]. destruct (to_jsonb v) as [v'|]; [|done].
  by repeat case_match.
Qed.

(** C28 A signal is delivered at most once: after [send_signal] accepted an
    identity, no later [send_signal] with it -- whatever happened in between,
    whatever its name and payload -- is accepted, and none adds an event, wakes
    the workflow or changes its execution. *)
Theorem signal_delivered_once w id name payload audit env db db1 db2 name' payload' audit' env' r db3 :
  exec (send_signal w id name payload audit) env db = (Ok true, db1) → rtc step db1 db2 →
  exec (send_signal w id name' payload' audit') env' db2 = (r, db3) →
  r ≠ Ok true ∧ db_history db3 = db_history db2 ∧ db_tasks db3 = db_tasks db2 ∧
  db_executions db3 = db_executions db2.
Proof.
  intros E Hr E3. unfold exec in E.
  destruct (send_signal w id name payload audit env (mk_world db 0)) as [o w1] eqn:Em.
  injection E as -> <-. pose proof (send_signal_records _ _ _ _ _ _ _ _ _ _ Em eq_refl) as Hseen.
  eapply external_seen_extends in Hseen; [|by apply rtc_extends]. clear Em Hr.
  unfold exec, send_signal in E3.
  destruct (String.eqb id ""); [by injection E3 as <- <-|].
  destruct (String.eqb name' ""); [by injection E3 as <- <-|].
  unfold of_result, mbind, M_bind in E3. destruct (clone_json payload') as [v|]; [|by injection E3 as <- <-].
  unfold transaction, fetch_execution, get_db, mbind, M_bind, mret, M_ret in E3. cbn [w_db] in E3.
  destruct (db_executions db2 !! w) as [e|]; [|by injection E3 as <- <-]. cbn beta iota in E3. cbn [w_db] in E3. rewrite Hseen in E3.
  match type of E3 with context [record_api_audit ?a ?x ?b ?d ?env ?wd] =>
    pose proof (audit_only a x b d env wd) as Ha;
    destruct (record_api_audit a x b d env wd) as [[u|e1] w2] end;
    injection E3 as <- <-; cbn [snd w_db] in Ha |- *; [|done]. by destruct Ha as (-> & -> & -> & _).
Qed.

(** The row of an accepted update. *)
Lemma send_update_records w id name payload audit db :
  wp (send_update w id name payload audit)
    (fun r db' => r.2 = true → is_Some (db_updates db' !! (w, id))) db.
Proof.
  unfold send_update. case_match; [apply wp_throw|]. case_match; [apply wp_throw|].
  wp_auto. apply wp_fetch_execution. wp_auto; [| |by apply wp_throw].
  - eapply wp_mono; [apply wp_true|]. intros [] ? _. by wp_auto.
  - apply wp_running_execution. intros e1 He _. wp_auto.
    unfold insert_update. wp_auto.
    match goal with |- wp _ _ ?d =>
      assert (is_Some (db_updates d !! (w, id))) as [u Hu] by (simpl; rewrite lookup_insert_eq; by eexists);
      eapply (wp_writes (may:=anything) _ d); [by writes_auto|done|] end.
    intros [] db2 Hk1 _. eapply (wp_writes (may:=anything)); [writes_auto|exact Hk1|].
    intros [r b] db3 Hk%written_keeps _ _.
    destruct (keep_update _ _ Hk _ _ Hu) as (u' & Hu' & _). by eexists.
Qed.

(** C29 An update is requested at most once, and answered for good: after
    [send_update] accepted an identity, a later one with it -- whatever happened
    in between, whatever its name and payload -- adds no event, task or row, and
    returns the row of the first request, which does not change once it is
    resolved. *)
Theorem update_requested_once w id name payload audit env db row db1 db2 name' payload' audit' env' r db3 :
  exec (send_update w id name payload audit) env db = (Ok (row, true), db1) → rtc step db1 db2 →
  exec (send_update w id name' payload' audit') env' db2 = (r, db3) →
  db_history db3 = db_history db2 ∧ db_tasks db3 = db_tasks db2 ∧
  db_executions db3 = db_executions db2 ∧ db_updates db3 = db_updates db2 ∧
  ∃ u, db_updates db2 !! (w, id) = Some u ∧ (∀ a, r = Ok a → a = (u, false)) ∧
    ∀ db4, rtc step db3 db4 → upd_status u ≠ UPending → db_updates db4 !! (w, id) = Some u.
Proof.
  intros E Hr E3. unfold exec in E.
  destruct (send_update w id name payload audit env (mk_world db 0)) as [o w1] eqn:Em.
  injection E as -> <-. pose proof (send_update_records _ _ _ _ _ _ _ _ _ _ Em eq_refl) as [u1 Hu1].
  destruct (keep_update _ _ (rtc_keeps _ _ Hr) _ _ Hu1) as (u & Hu & _). clear Em Hr.
  assert (∀ db3, db_updates db3 = db_updates db2 → ∀ db4, rtc step db3 db4 →
    upd_status u ≠ UPending → db_updates db4 !! (w, id) = Some u) as Hlater.
  { intros d3 Hd db4 Hs Hn. rewrite <- Hd in Hu.
    destruct (keep_update _ _ (rtc_keeps _ _ Hs) _ _ Hu) as (u' & Hu' & E). by rewrite Hu', E. }
  assert (db_history db3 = db_history db2 ∧ db_tasks db3 = db_tasks db2 ∧
    db_executions db3 = db_executions db2 ∧ db_updates db3 = db_updates db2 ∧
    (∀ a, r = Ok a → a = (u, false))) as (-> & -> & -> & Hup & Hres);
    [|split_and!; eauto 8].
  clear Hlater. unfold exec, send_update in E3.
  do 2 (destruct (String.eqb _ "" || _); [by injection E3 as <- <-|]).
  unfold of_result, mbind, M_bind in E3. destruct (clone_json payload') as [v|]; [|by injection E3 as <- <-].
  unfold transaction, fetch_execution, get_db, mbind, M_bind, mret, M_ret in E3. cbn [w_db] in E3.
  destruct (db_executions db2 !! w) as [e|]; [|by injection E3 as <- <-].
  cbn beta iota in E3. cbn [w_db] in E3. rewrite Hu in E3.
  match type of E3 with context [record_api_audit ?a ?x ?b ?d ?env ?wd] =>
    pose proof (audit_only a x b d env wd) as Ha;
    destruct (record_api_audit a x b d env wd) as [[[]|e1] w2] end;
    injection E3 as <- <-; cbn [snd w_db] in Ha |- *; [|done].
  destruct Ha as (-> & -> & -> & ->). split_and!; [done..|]. by intros a [= <-].
Qed.

End delivery.
