(* ===== verification/Fencing.v ===== *)
(** * Fencing: a task's outcome is committed at most once

    A completed or dead task keeps its row through every write ([settled]).
    Together with the lease token checks this fences a worker whose lease is
    gone. *)
From S2P Require Import Prelude Python Serialization History Commands Context Replay Database.
From S2P Require Import Logic Leasing AuditLog Definitions Transitions Commit Activities Messages.
From S2P Require Import Timeouts Cron Schedules Queries Workers Store Frames StoreInvariant.
From S2P Require Import System.
From S2P Require Import Atomicity Writes.
From stdpp Require Import relations.

(** A completed or dead task keeps its row. *)
Definition settled (db db' : DB) : Prop :=
  ∀ id t, db_tasks db !! id = Some t → is_open t = false → db_tasks db' !! id = Some t.

#[export] Instance settled_preorder : PreOrder settled.
Proof. split; [by intros db id t|]. intros d1 d2 d3 H1 H2 id t Ht Ho. by apply H2; [apply H1|]. Qed.

Lemma write_settled db db' : write anything db db' → settled db db'.
Proof.
  intros Hw id t Ht Ho. destruct Hw as [| | | |id' t' Hc|m Hm| | | | | | | | |]; simpl; try done.
  - rewrite lookup_insert_ne; [done|]. intros ->. unfold check_task in Hc.
    by rewrite bool_decide_eq_true_2 in Hc by eauto.
  - destruct (evolves_some _ _ _ _ _ Hm Ht) as (t' & -> & [->|[Hop _ _]]); [done|congruence].
Qed.

Lemma written_settled db db' : written anything db db' → settled db db'.
Proof. induction 1 as [|d1 d2 d3 ?%write_settled _ IH]; [done|]. by etrans. Qed.

(** ** A stale worker changes nothing *)

(** What a worker does with the task it leased. *)
Inductive worker_operation `{PyStd} (task : LeasedTask) : ∀ A : Type, M A → Prop :=
| wo_renew d : worker_operation task _ (renew_lease (lt_id task) (lt_lease_token task) d)
| wo_heartbeat x d :
    worker_operation task _ (heartbeat_activity (lt_id task) (lt_lease_token task) x d)
| wo_release d : worker_operation task _ (release_workflow_task task d)
| wo_load : worker_operation task _ (load_workflow_replay_state task)
| wo_commit r : worker_operation task _ (commit_workflow_replay task r)
| wo_complete r : worker_operation task _ (complete_activity task r)
| wo_fail f r : worker_operation task _ (fail_activity task f r).

(** What ends the task. *)
Inductive final_operation `{PyStd} (task : LeasedTask) : ∀ A : Type, M A → Prop :=
| fo_commit r : final_operation task _ (commit_workflow_replay task r)
| fo_complete r : final_operation task _ (complete_activity task r)
| fo_fail f r : final_operation task _ (fail_activity task f r).

(** The row of the task is closed. *)
Definition task_closed (id : UUID) (db : DB) : Prop :=
  ∃ t, db_tasks db !! id = Some t ∧ is_open t = false.

Lemma settled_closed id db db' : settled db db' → task_closed id db → task_closed id db'.
Proof. intros Hs (t & Ht & Ho). exists t. eauto. Qed.

Section fencing.
Context `{PyStd}.

Lemma find_task_weaken db id (p q : Task → bool) :
  (∀ t, q t = true → p t = true) → find_task db id p = None → find_task db id q = None.
Proof.
  unfold find_task. intros Hpq. destruct (db_tasks db !! id) as [t|]; [|done].
  destruct (p t) eqn:Hp, (q t) eqn:Hq; try done. apply Hpq in Hq. congruence.
Qed.

(** The error of an operation that raises and changes nothing. *)
Definition refused {A : Type} (m : M A) (env : Env) (db : DB) : Prop :=
  ∃ e, exec m env db = (Err e, db).

Lemma refused_world {A} (m : M A) env db :
  (∀ n, ∃ e w, m env (mk_world db n) = (Err e, w) ∧ w_db w = db) → refused m env db.
Proof. intros Hm. destruct (Hm 0) as (e & w & E & Hw). exists e. unfold exec. by rewrite E, Hw. Qed.

Ltac refuse := apply refused_world; intros n; repeat first
  [ progress unfold mbind, M_bind, db_now, get_db, throw, of_result, transaction, mret, M_ret,
      random_random, utc_now
  | progress cbn [w_db w_ticks]
  | match goal with H : find_task _ _ _ = None |- _ => rewrite H end
  | case_match; simplify_eq
  | progress simpl
  | eexists _, _; split; [reflexivity|done] ].

Lemma worker_refused task A (m : M A) env db :
  worker_operation task A m →
  find_task db (lt_id task) (holds_lease (env_now env) (lt_lease_token task)) = None →
  refused m env db.
Proof.
  intros Hm Hf.
  assert (find_task db (lt_id task) (attempt_live (env_now env) (lt_lease_token task)) = None) as Hl.
  { eapply find_task_weaken, Hf. unfold attempt_live. intros t. by rewrite !andb_true_iff; intros [[]]. }
  assert (find_task db (lt_id task) (fun t => bool_decide (task_task_type t = TActivity)
            && holds_lease (env_now env) (lt_lease_token task) t) = None) as Hh.
  { eapply find_task_weaken, Hf. intros t. by rewrite andb_true_iff; intros []. }
  destruct Hm.
  - unfold renew_lease. refuse.
  - unfold heartbeat_activity. refuse.
  - unfold release_workflow_task. refuse.
  - unfold load_workflow_replay_state. refuse.
  - unfold commit_workflow_replay. refuse.
  - unfold complete_activity. refuse.
  - unfold fail_activity, record_failure. refuse.
Qed.

(** A closed task has no lease. *)
Lemma closed_not_held now token id db : task_closed id db → find_task db id (holds_lease now token) = None.
Proof.
  intros (t & Ht & Ho). unfold find_task. rewrite Ht. destruct (holds_lease now token t) eqn:E; [|done].
  apply holds_lease_open in E. congruence.
Qed.

Lemma lookup_update_where {K V} `{Countable K} (p : K → V → bool) f (m : gmap K V) k v :
  m !! k = Some v → p k v = true → update_where p f m !! k = Some (f v).
Proof. intros Hk Hp. unfold update_where. by rewrite map_lookup_imap, Hk; simpl; rewrite Hp. Qed.

(** [finish_task] on a row the task's lease still holds. *)
Lemma finish_task_closes task s db t :
  db_tasks db !! lt_id task = Some t → task_status t = TLeased →
  task_lease_token t = Some (lt_lease_token task) → s = TCompleted ∨ s = TDead →
  wp (finish_task task s) (fun _ db' => task_closed (lt_id task) db') db.
Proof.
  intros Ht Hst Htok Hs. unfold finish_task, update_tasks. wp_auto.
  eexists. simpl. split; [apply lookup_update_where; [done|]|by destruct Hs as [-> | ->]].
  by rewrite !bool_decide_eq_true_2.
Qed.

Lemma complete_task_closes task db :
  wp (complete_task task) (fun _ db' => task_closed (lt_id task) db') db.
Proof.
  unfold complete_task, finish_task, update_tasks. wp_auto.
  match goal with H : negb (Nat.eqb (length ?l) 1) = false |- _ =>
    rename H into Hlen; set (sel := l) in Hlen; assert (∃ x, x ∈ sel) as [[id x] Hin] end.
  { destruct sel as [|x l]; [done|]. exists x. by left. }
  apply elem_of_select in Hin as [Hid Hp].
  assert (id = lt_id task) as -> by by rewrite !andb_true_iff, !bool_decide_eq_true in Hp; destruct Hp as [[]].
  eexists. simpl. by split; [apply lookup_update_where|].
Qed.

Lemma find_task_held now token id db t (p : Task → bool) :
  (∀ t, p t = true → holds_lease now token t = true) → find_task db id p = Some t →
  db_tasks db !! id = Some t ∧ task_status t = TLeased ∧ task_lease_token t = Some token.
Proof.
  intros Hp. unfold find_task. destruct (db_tasks db !! id) as [t1|]; [|done].
  destruct (p t1) eqn:E; [|done]. intros [= ->]. apply Hp in E. unfold holds_lease in E.
  rewrite !andb_true_iff, !bool_decide_eq_true in E. naive_solver.
Qed.

(** A closed task stays closed. *)
Lemma wp_closed {A} (m : M A) id db :
  writes anything m → task_closed id db → wp m (fun _ db' => task_closed id db') db.
Proof.
  intros Hm Hc. apply (wp_writes (may:=anything) _ db db); [done..|]. intros _ db' Hs%written_settled _.
  by eapply settled_closed.
Qed.

Lemma final_closes task A (m : M A) db :
  final_operation task A m → wp m (fun _ db' => task_closed (lt_id task) db') db.
Proof.
  destruct 1.
  - unfold commit_workflow_replay. wp_auto. apply wp_running_execution. intros e _ _. wp_auto.
    eapply wp_mono; [apply wp_true|]. intros [] db1 _. apply complete_task_closes.
  - unfold complete_activity. wp_auto. apply wp_running_execution. intros e _ _. wp_auto.
    eapply wp_mono; [apply wp_true|]. intros [] db1 _. wp_auto.
    eapply wp_mono; [apply complete_task_closes|]. intros [] db2 Hc. apply wp_closed; [|done].
    writes_auto.
  - unfold fail_activity. wp_auto; unfold record_failure; wp_auto; apply wp_running_execution;
      intros e _ _; wp_auto;
      match goal with Hf : find_task ?db _ _ = Some _ |- _ =>
        eapply find_task_held in Hf as (Ht & Hst & Htok);
        [|intros ?; unfold attempt_live; rewrite !andb_true_iff; intros [[? _] _]; eassumption] end;
      apply wp_insert_event_raw; intros ev db1 _ _ _ Happ;
      rewrite <- (app_tasks _ _ _ _ Happ) in Ht; wp_auto;
      (eapply wp_mono; [eapply finish_task_closes; [done..|by case_match; auto]|]);
      intros [] db2 Hc; cbv beta; apply wp_closed; try done; writes_auto.
Qed.

End fencing.

Section properties.
Context `{PyStd}.

Lemma rtc_settled db db' : rtc step db db' → settled db db'.
Proof. by intros ?%rtc_written%written_settled. Qed.

(** C6 A worker whose lease token is not the current one of its task, or whose
    lease has expired, changes nothing: renewing, heartbeating, releasing,
    loading history, committing a replay, completing or failing an activity all
    raise and leave the database as it was. *)
Theorem stale_lease_refused task A (m : M A) env db :
  worker_operation task A m →
  (∀ t expires_at, db_tasks db !! lt_id task = Some t → task_status t = TLeased →
     task_lease_token t = Some (lt_lease_token task) →
     task_lease_expires_at t = Some expires_at → (expires_at ≤ env_now env)%Z) →
  ∃ e, exec m env db = (Err e, db).
Proof.
  intros Hw Hlost. apply (worker_refused task); [done|]. unfold find_task.
  destruct (db_tasks db !! lt_id task) as [t|]; [|done]. unfold holds_lease.
  destruct (bool_decide_reflect (task_status t = TLeased)); [|done].
  destruct (bool_decide_reflect (task_lease_token t = Some (lt_lease_token task))); [|done].
  simpl. destruct (task_lease_expires_at t) as [x|] eqn:Hx; [|done].
  rewrite (proj2 (Z.ltb_ge _ _)); [done|]. by apply (Hlost t x).
Qed.

(** C5 The outcome of a leased task is committed at most once: after a commit of
    a replay, a completion or a failure of an activity has succeeded, no
    sequence of operations makes any further operation on that lease succeed or
    change the database. *)
Theorem outcome_committed_once task A (m : M A) env a db db1 db2 B (m' : M B) env' :
  final_operation task A m → exec m env db = (Ok a, db1) → rtc step db1 db2 →
  worker_operation task B m' → ∃ e, exec m' env' db2 = (Err e, db2).
Proof.
  intros Hf E Hr Hw. apply (worker_refused task); [done|]. apply closed_not_held.
  eapply settled_closed; [by apply rtc_settled|]. unfold exec in E.
  destruct (m env (mk_world db 0)) as [r w] eqn:Em. injection E as -> <-.
  by eapply (final_closes task), Em.
Qed.

End properties.
