(* ===== verification/LeaseSpec.v ===== *)
(** * What leasing a task promises

    [leasable]: the task is visible in its queue, its execution may proceed and
    no other transaction holds its row.  [lease_task] takes the first leasable
    task in the order of visibility and creation, exclusively, or none when
    there is none.

    A crashed worker loses no work: an open workflow task of a running, unpaused
    workflow is handed out.  When it is due -- visible, or its lease expired,
    whatever became of the worker that held it -- one pass of maintenance and as
    many leases of its queue as the queue has open tasks suffice.  Leasing is fair:
    a task is only overtaken by tasks before it in the order of visibility,
    creation and identity. *)
From S2P Require Import Prelude Python Serialization History Commands Context Replay Database.
From S2P Require Import Logic Store Leasing AuditLog Definitions Transitions Commit Activities.
From S2P Require Import Messages Timeouts Cron Schedules Queries Workers Frames StoreInvariant.
From S2P Require Import System Writes Tables Wakes Fencing.

(** ** The first row of an ordered selection *)
Lemma lex_le_total a b : lex_le a b = true ∨ lex_le b a = true.
Proof.
  revert b; induction a as [|x a IH]; intros [|y b]; simpl; auto.
  rewrite !orb_true_iff, !andb_true_iff, !Z.ltb_lt, !Z.eqb_eq.
  destruct (IH b), (Z.lt_trichotomy x y) as [?|[->|?]]; tauto.
Qed.

Lemma lex_le_trans a b c : lex_le a b = true → lex_le b c = true → lex_le a c = true.
Proof.
  revert b c; induction a as [|x a IH]; intros [|y b] [|z c]; simpl; try done.
  rewrite !orb_true_iff, !andb_true_iff, !Z.ltb_lt, !Z.eqb_eq.
  intros [Hxy|[-> Hab]] [Hyz|[-> Hbc]]; [left; lia|auto|auto|right; eauto].
Qed.

Section select.
Context {K V : Type} `{Countable K} (p : K → V → bool) (key : K → V → list Z) (m : gmap K V).

#[local] Instance row_le_total : Total (row_le (K:=K) (V:=V) key).
Proof. intros a b. apply lex_le_total. Qed.
#[local] Instance row_le_trans : Transitive (row_le (K:=K) (V:=V) key).
Proof. intros a b c. apply lex_le_trans. Qed.

(** [select ... order by ... limit 1]. *)
Lemma select_head_some k v :
  head (select p key m) = Some (k, v) →
  m !! k = Some v ∧ p k v = true ∧
  ∀ k' v', m !! k' = Some v' → p k' v' = true → lex_le (key k v) (key k' v') = true.
Proof.
  intros Hh. pose proof (head_Some_elem_of _ _ Hh) as Hin. apply elem_of_select in Hin as [Hk Hp].
  split_and!; [done|done|]. intros k' v' Hk' Hp'.
  assert ((k', v') ∈ select p key m) as Hin' by by apply elem_of_select.
  assert (StronglySorted (row_le key) (select p key m)) as Hs.
  { apply Sorted_StronglySorted; [apply _|]. apply Sorted_merge_sort, _. }
  destruct (select p key m) as [|[k0 v0] l]; [done|]. injection Hh as -> ->.
  apply elem_of_cons in Hin' as [[= -> ->] | Hin'].
  - by destruct (lex_le_total (key k v) (key k v)).
  - apply StronglySorted_inv in Hs as [_ Hall]. rewrite Forall_forall in Hall.
    by apply (Hall (k', v')).
Qed.

Lemma select_head_none : head (select p key m) = None → ∀ k v, m !! k = Some v → p k v = false.
Proof.
  intros Hh k v Hk. destruct (p k v) eqn:Hp; [|done].
  assert ((k, v) ∈ select p key m) as Hin by by apply elem_of_select.
  destruct (select p key m); [by apply not_elem_of_nil in Hin|done].
Qed.
End select.

Record leasable (db : DB) (now : Timestamp) (locked : gset UUID) (ty : TaskType) (q : string)
    (id : UUID) (t : Task) : Prop := {
  le_row : db_tasks db !! id = Some t;
  le_pending : task_status t = TPending;
  le_type : task_task_type t = ty;
  le_queue : task_queue_name t = q;
  le_visible : (task_visible_at t ≤ now)%Z;
  le_execution : ∃ e, db_executions db !! task_workflow_id t = Some e ∧
    exec_status e = WRunning ∧ exec_paused_at e = None ∧
    (ty = TActivity → exec_cancellation_requested_at e = None);
  le_unlocked : id ∉ locked
}.

Lemma runnable_leasable db now locked ty q id t :
  db_tasks db !! id = Some t → runnable db now locked ty q id t = true ↔ leasable db now locked ty q id t.
Proof.
  intros Ht. unfold runnable, with_execution.
  rewrite !andb_true_iff, !bool_decide_eq_true, String.eqb_eq, Z.leb_le, negb_true_iff,
    bool_decide_eq_false.
  split.
  - intros [[[[[H1 H2] H3] H4] H5] H6].
    destruct (db_executions db !! task_workflow_id t) as [e|] eqn:He; [|done].
    rewrite !andb_true_iff, !bool_decide_eq_true, orb_true_iff, negb_true_iff, bool_decide_eq_false,
      bool_decide_eq_true in H5. destruct H5 as [[? ?] Hc].
    split; try done. exists e. split_and!; try done. intros ->. naive_solver.
  - intros [_ H1 H2 H3 H4 (e & He & Hr & Hp & Hc) H6]. rewrite He. split_and!; try done.
    rewrite !andb_true_iff, !bool_decide_eq_true, orb_true_iff, negb_true_iff, bool_decide_eq_false,
      bool_decide_eq_true. split_and!; try done. destruct (decide (ty = TActivity)); [right; auto|left; congruence].
Qed.

Section lease.
Context `{PyStd}.

Lemma insert_event_tasks wid s t c n x a env w u w' :
  insert_event wid s t c n x a env w = (Ok u, w') → db_tasks (w_db w') = db_tasks (w_db w).
Proof.
  destruct w as [db k]. intros E.
  refine (wp_insert_event_raw wid s t c n x a (fun _ db' => db_tasks db' = db_tasks db) db _ env k u w' E).
  intros e db' _ _ _ Happ. apply (app_tasks _ _ _ _ Happ).
Qed.

(** The body of [lease_task] once its arguments are checked. *)
Lemma lease_task_eq ty q d env db r db' :
  exec (lease_task ty q d) env db = (Ok r, db') →
  let token := env_uuid4 env 0 in
  match _lease_candidate db (env_now env) (env_locked env) ty q with
  | None => r = None ∧ db' = db
  | Some (id, t) =>
    (ty = TActivity ∧ r = None ∧ db' = db ∧
     with_execution db t (fun e => bool_decide (exec_status e = WRunning)) = false) ∨
    (r = Some (leased_task id token (env_now env) d (lease_row (env_now env) token d (task_task_type t) t)) ∧
     db_tasks db' = <[id := lease_row (env_now env) token d (task_task_type t) t]> (db_tasks db))
  end.
Proof.
  unfold exec, lease_task. destruct (String.eqb q EmptyString); [done|]. destruct (not_positive d); [done|].
  unfold uuid4, transaction, db_now, locked_rows, get_db, mbind, M_bind. cbn [w_db w_ticks].
  destruct (_lease_candidate _ _ _ _ _) as [[id t]|]; [|by intros [= <- <-]].
  unfold with_execution, set_task, set_next_seq, update_execution, modify_db, mret, M_ret.
  cbn [w_db w_ticks].
  destruct ty; [intros [= <- <-]; by right| |intros [= <- <-]; by right].
  destruct (db_executions db !! task_workflow_id t) as [e|]; [|intros [= <- <-]; by left].
  destruct (bool_decide (exec_status e = WRunning)); [|intros [= <- <-]; by left]. simpl.
  destruct (insert_event _ _ _ _ _ _ _ _ _) as [[u|er] w1] eqn:E; [|done].
  apply insert_event_tasks in E. intros [= <- <-]. right. by split.
Qed.

(** C35 A leased task is the first leasable one in the order of visibility,
    creation and identity; it was pending, so no other worker held it; and now
    exactly the returned token holds it, until [d] from now. *)
Theorem lease_task_takes ty q d env db task db' :
  exec (lease_task ty q d) env db = (Ok (Some task), db') →
  ∃ t t', leasable db (env_now env) (env_locked env) ty q (lt_id task) t ∧
    (∀ id2 t2, leasable db (env_now env) (env_locked env) ty q id2 t2 →
       lex_le [task_visible_at t; task_created_at t; uuid_key (lt_id task)]
         [task_visible_at t2; task_created_at t2; uuid_key id2] = true) ∧
    db_tasks db' = <[lt_id task := t']> (db_tasks db) ∧
    task_status t' = TLeased ∧ task_lease_token t' = Some (lt_lease_token task) ∧
    task_lease_expires_at t' = Some (env_now env + d)%Z.
Proof.
  intros E. apply lease_task_eq in E. cbv zeta in E.
  destruct (_lease_candidate _ _ _ _ _) as [[id t]|] eqn:Hc; [|by destruct E].
  destruct E as [(_ & ? & _)|[E Hdb]]; [done|]. injection E as ->. simpl.
  unfold _lease_candidate in Hc. apply select_head_some in Hc as (Ht & Hp & Hmin).
  eexists t, _. split_and!; [by apply runnable_leasable| |exact Hdb|done..].
  intros id2 t2 Hl. pose proof (le_row _ _ _ _ _ _ _ Hl).
  apply Hmin; [done|]. by apply runnable_leasable.
Qed.

(** [lease_task] finds nothing only when nothing is leasable, and then it
    changes nothing. *)
Theorem lease_task_none ty q d env db db' :
  exec (lease_task ty q d) env db = (Ok None, db') →
  db' = db ∧ ∀ id t, ¬ leasable db (env_now env) (env_locked env) ty q id t.
Proof.
  intros E. apply lease_task_eq in E. cbv zeta in E.
  destruct (_lease_candidate _ _ _ _ _) as [[id t]|] eqn:Hc.
  - exfalso. unfold _lease_candidate in Hc. apply select_head_some in Hc as (Ht & Hp & _).
    apply runnable_leasable in Hp; [|done]. destruct E as [(_ & _ & _ & Hw)|[? _]]; [|done].
    destruct (le_execution _ _ _ _ _ _ _ Hp) as (e & He & Hr & _).
    unfold with_execution in Hw. by rewrite He, bool_decide_eq_true_2 in Hw.
  - destruct E as [_ ->]. split; [done|]. intros id t Hl.
    unfold _lease_candidate in Hc.
    pose proof (select_head_none _ _ _ Hc id t (le_row _ _ _ _ _ _ _ Hl)) as Hp.
    apply runnable_leasable in Hl; [congruence|]. apply Hl.
Qed.

End lease.

(** ** Every due task is reached *)
(** The workflow tasks of a queue, and those of them that wait. *)
Definition queued (q : string) (t : Task) : Prop :=
  task_task_type t = TWorkflow ∧ task_queue_name t = q.
Definition open_tasks (q : string) (db : DB) : gmap UUID Task :=
  filter (fun r : UUID * Task => queued q r.2 ∧ is_open r.2 = true) (db_tasks db).
Definition pending_tasks (q : string) (db : DB) : gmap UUID Task :=
  filter (fun r : UUID * Task => queued q r.2 ∧ task_status r.2 = TPending) (db_tasks db).

(** The task waits until [now], or its lease expires by [now]. *)
Definition due (now : Timestamp) (t : Task) : Prop :=
  match task_status t with
  | TPending => (task_visible_at t ≤ now)%Z
  | _ => ∀ x, task_lease_expires_at t = Some x → (x ≤ now)%Z
  end.

(** The executions a worker may be given tasks of. *)
Definition proceeds (w : UUID) (db : DB) : Prop :=
  ∃ e, db_executions db !! w = Some e ∧ exec_status e = WRunning ∧ exec_paused_at e = None.

(** Workers lease one task of the queue after the other. *)
Fixpoint leases `{PyStd} (q : string) (d : TimeDelta) (envs : list Env) (db : DB)
    : list (Py (option LeasedTask)) :=
  match envs with
  | [] => []
  | env :: envs =>
    let '(r, db) := exec (lease_task TWorkflow q d) env db in r :: leases q d envs db
  end.

Section leasing.
Context `{PyStd} (q : string) (d : TimeDelta) (Hq : q ≠ "") (Hd : not_positive d = false).

Lemma lease_workflow_eq env db :
  exec (lease_task TWorkflow q d) env db =
  match _lease_candidate db (env_now env) (env_locked env) TWorkflow q with
  | None => (Ok None, db)
  | Some (id, t) =>
    let t' := lease_row (env_now env) (env_uuid4 env 0) d (task_task_type t) t in
    (Ok (Some (leased_task id (env_uuid4 env 0) (env_now env) d t')),
     db <| db_tasks := <[id := t']> (db_tasks db) |>)
  end.
Proof.
  unfold exec, lease_task. rewrite (proj2 (String.eqb_neq q "")), Hd by done.
  unfold uuid4, transaction, db_now, locked_rows, get_db, mbind, M_bind. cbn [w_db w_ticks].
  by destruct (_lease_candidate _ _ _ _ _) as [[id t]|].
Qed.

(** A lease takes the task, or one that no longer waits then. *)
Lemma lease_serves env db id t :
  leasable db (env_now env) (env_locked env) TWorkflow q id t →
  ∃ task db', exec (lease_task TWorkflow q d) env db = (Ok (Some task), db') ∧
    (lt_id task = id ∧ lt_workflow_id task = task_workflow_id t ∨
     db_tasks db' !! id = Some t ∧ db_executions db' = db_executions db ∧
     size (pending_tasks q db') < size (pending_tasks q db)).
Proof.
  intros Hl. rewrite lease_workflow_eq. pose proof (le_row _ _ _ _ _ _ _ Hl) as Ht.
  destruct (_lease_candidate _ _ _ _ _) as [[id' t']|] eqn:Hc; unfold _lease_candidate in Hc.
  - apply select_head_some in Hc as (Ht' & Hp & _). eexists _, _. split; [done|]. cbn.
    destruct (decide (id' = id)) as [->|Hne]; [left; split; [done|congruence]|right].
    rewrite lookup_insert_ne by done. split_and!; [done|done|].
    apply runnable_leasable in Hp; [|done]. unfold pending_tasks at 1. cbn.
    assert (pending_tasks q db !! id' = Some t') as Hin
      by (apply map_lookup_filter_Some; by destruct Hp).
    rewrite map_filter_insert_False, map_filter_delete by (cbn; by intros [_ ?]).
    rewrite map_size_delete_Some by by eexists. unfold pending_tasks in Hin.
    pose proof (map_size_non_empty_iff (filter (fun r : UUID * Task => queued q r.2 ∧ task_status r.2 = TPending)
      (db_tasks db))) as [_ Hs]. assert (size (pending_tasks q db) ≠ 0); [apply Hs|unfold pending_tasks in *; lia].
    intros Hemp. by rewrite Hemp in Hin.
  - apply (select_head_none _ _ _ Hc) in Ht. apply runnable_leasable in Hl; [congruence|apply Hl].
Qed.

(** As many leases as tasks wait reach the task. *)
Lemma leases_serve now w id envs db t :
  Forall (fun env => (now ≤ env_now env)%Z ∧ env_locked env = ∅) envs →
  db_tasks db !! id = Some t → task_workflow_id t = w → queued q t → task_status t = TPending →
  (task_visible_at t ≤ now)%Z → proceeds w db → size (pending_tasks q db) ≤ length envs →
  ∃ task, Ok (Some task) ∈ leases q d envs db ∧ lt_id task = id ∧ lt_workflow_id task = w.
Proof.
  intros Henvs Ht Hw [Hty Hqt] Hst Hv Hx Hlen. revert db Ht Hx Hlen.
  induction Henvs as [|env envs [Hnow Hlk] _ IH]; intros db Ht Hx Hlen.
  - exfalso. apply Nat.le_0_r, map_size_empty_inv in Hlen.
    assert (pending_tasks q db !! id = Some t) as Hin by by apply map_lookup_filter_Some.
    by rewrite Hlen in Hin.
  - assert (leasable db (env_now env) (env_locked env) TWorkflow q id t) as Hl.
    { destruct Hx as (e & He & Hr & Hp). split; try done; [lia| |rewrite Hlk; set_solver].
      exists e. rewrite Hw. by split_and!. }
    destruct (lease_serves env db id t Hl) as (task & db' & E & Hcase). cbn [leases]. rewrite E.
    destruct Hcase as [[Hid Hwf]|(Ht' & Hex & Hsz)].
    + exists task. split; [left|by rewrite Hwf].
    + destruct (IH db' Ht') as (task' & Hin & ?); [|simpl in Hlen; lia|exists task'; split; [by right|done]].
      unfold proceeds. by rewrite Hex.
Qed.
End leasing.

(** ** Maintenance *)
Section reclaiming.
Context `{PyStd}.

Lemma reclaim_eq limit env n db :
  (1 ≤ limit)%Z →
  let expired := (take (Z.to_nat limit) (expired_workflow_tasks db (env_now env) (env_locked env))).*1 in
  leaves (reclaim_expired_workflow_tasks limit) env n db =
  db <| db_tasks := update_where (fun id _ => bool_decide (id ∈ expired))
    (fun t => clear_lease (env_now env) t <| task_start_to_close_deadline := None |>
                <| task_heartbeat_at := None |> <| task_heartbeat_details := None |>) (db_tasks db) |>.
Proof.
  intros Hl. unfold leaves, reclaim_expired_workflow_tasks.
  rewrite (proj2 (Z.ltb_ge limit 1)) by done. done.
Qed.

Lemma leased_expires db id t :
  reachable db → db_tasks db !! id = Some t → task_status t = TLeased → is_Some (task_lease_expires_at t).
Proof.
  intros Hc%(reachable_write_ind _ _ constraints_empty write_constraints) Ht Hs. destruct (c_task _ Hc _ _ Ht) as [Hok _].
  unfold task_ok in Hok. rewrite Hs, !andb_true_iff, !bool_decide_eq_true in Hok. tauto.
Qed.

(** One pass makes an open task that is due wait, visible; the open tasks stay
    those they were. *)
Lemma reclaim_frees limit env n db w id t :
  reachable db → (1 ≤ limit)%Z → env_locked env = ∅ →
  (Z.of_nat (length (expired_workflow_tasks db (env_now env) ∅)) ≤ limit)%Z →
  proceeds w db → db_tasks db !! id = Some t → is_awake w t → due (env_now env) t →
  let db' := leaves (reclaim_expired_workflow_tasks limit) env n db in
  ∃ t', db_tasks db' !! id = Some t' ∧ task_identity t' = task_identity t ∧
    task_status t' = TPending ∧ (task_visible_at t' ≤ env_now env)%Z ∧ proceeds w db'.
Proof.
  intros Hr Hl Hlk Hlen Hx Ht (Hw & Hty & Ho) Hdue. cbv zeta. rewrite reclaim_eq by done. cbn.
  rewrite Hlk, take_ge by lia. unfold update_where. rewrite map_lookup_imap, Ht. cbn.
  eexists. split; [done|]. destruct (bool_decide_reflect (id ∈ (expired_workflow_tasks db (env_now env) ∅).*1)) as [Hin|Hout].
  - split_and!; [done..|simpl; lia|done].
  - destruct (task_status t) eqn:Hs; unfold is_open in Ho; rewrite Hs in Ho; [|exfalso|done..].
    + unfold due in Hdue. rewrite Hs in Hdue. by split_and!.
    + apply Hout, list_elem_of_fmap. exists (id, t). split; [done|]. apply elem_of_select. split; [done|].
      destruct (leased_expires _ _ _ Hr Ht Hs) as [x Hxp]. unfold due in Hdue. rewrite Hs in Hdue.
      destruct Hx as (e & He & Hre & _). unfold with_execution. rewrite Hw, He, Hxp.
      rewrite Hty, Hs, Hre, !bool_decide_eq_true_2, bool_decide_eq_false_2 by set_solver.
      rewrite (proj2 (Z.leb_le x (env_now env))) by auto. done.
Qed.

Lemma reclaim_counts limit env n db q :
  (1 ≤ limit)%Z →
  size (pending_tasks q (leaves (reclaim_expired_workflow_tasks limit) env n db)) ≤ size (open_tasks q db).
Proof.
  intros Hl. rewrite reclaim_eq by done. rewrite <- !size_dom. apply subseteq_size. intros id.
  rewrite !elem_of_dom. intros [t' Ht']. apply map_lookup_filter_Some in Ht' as [Ht' [[Hty Hq] Hs]].
  cbn in Ht'. unfold update_where in Ht'. rewrite map_lookup_imap in Ht'.
  destruct (db_tasks db !! id) as [t|] eqn:Ht; [|done]. injection Ht' as Ht'. exists t.
  apply map_lookup_filter_Some. split; [done|]. unfold queued, is_open. cbn.
  destruct (bool_decide_reflect (id ∈ (take (Z.to_nat limit)
    (expired_workflow_tasks db (env_now env) (env_locked env))).*1)) as [Hin|_]; simplify_eq/=; [|by rewrite Hs].
  apply list_elem_of_fmap in Hin as ([id0 t0] & -> & Hin). apply (subseteq_take _), elem_of_select in Hin as [H0 Hp].
  simpl in *. simplify_eq. rewrite !andb_true_iff, !bool_decide_eq_true in Hp. destruct Hp as [[[[_ ->] _] _] _]. done.
Qed.

End reclaiming.
