(* ===== verification/Sample.v ===== *)
(** * A concrete environment for the witnesses

    An executable instance of [PyStd] that satisfies [PyStdLaws]: text forms are
    fixed-width hexadecimal numbers, digests are polynomial.  It stands for the
    Python functions only where a theorem is applied to a concrete input. *)
From S2P Require Import Prelude Python Serialization.
From stdpp Require Import pretty.

(** ** Fixed-width hexadecimal text *)
Definition unhex_digit (c : Ascii.ascii) : option N :=
  let n := Ascii.N_of_ascii c in
  if ((48 <=? n) && (n <=? 57))%N then Some (n - 48)%N
  else if ((97 <=? n) && (n <=? 102))%N then Some (n - 87)%N else None.

Fixpoint unhex (acc : N) (s : string) : option N :=
  match s with
  | EmptyString => Some acc
  | String c s => match unhex_digit c with Some d => unhex (acc * 16 + d) s | None => None end
  end.

Lemma unhex_hex_digit n : (n < 16)%N → unhex_digit (hex_digit n) = Some n.
Proof.
  intros Hn. destruct n as [|p]; [done|]. do 4 (destruct p as [p|p|]; try done; try lia).
Qed.

Lemma unhex_app a s1 s2 :
  unhex a (s1 +:+ s2) = match unhex a s1 with Some b => unhex b s2 | None => None end.
Proof.
  revert a; induction s1 as [|c s1 IH]; intros a; [done|]. cbn [unhex String.append app].
  change (String c s1 +:+ s2) with (String c (s1 +:+ s2)). cbn [unhex].
  destruct (unhex_digit c); [apply IH|done].
Qed.

Lemma unhex_hex k n a : (n < 16 ^ N.of_nat k)%N → unhex a (hex k n) = Some (a * 16 ^ N.of_nat k + n)%N.
Proof.
  revert n; induction k as [|k IH]; intros n Hn.
  - simpl in *. f_equal. lia.
  - cbn [hex]. rewrite unhex_app. rewrite Nat2N.inj_succ, N.pow_succ_r' in *. rewrite IH.
    + cbn [unhex]. rewrite unhex_hex_digit by (apply N.mod_lt; lia). f_equal.
      pose proof (N.div_mod n 16). lia.
    + apply N.Div0.div_lt_upper_bound. lia.
Qed.

Fixpoint split_at (k : nat) (s : string) : string * string :=
  match k, s with
  | S k, String c s => let '(a, b) := split_at k s in (String c a, b)
  | _, _ => (EmptyString, s)
  end.

Lemma split_at_app s1 s2 : split_at (String.length s1) (s1 +:+ s2) = (s1, s2).
Proof.
  induction s1 as [|c s1 IH]; [done|]. change (String c s1 +:+ s2) with (String c (s1 +:+ s2)).
  cbn [String.length split_at]. by rewrite IH.
Qed.

Lemma length_string_app s1 s2 : String.length (s1 +:+ s2) = String.length s1 + String.length s2.
Proof.
  induction s1 as [|c s1 IH]; [done|]. change (String c s1 +:+ s2) with (String c (s1 +:+ s2)).
  cbn [String.length]. rewrite IH. done.
Qed.

Lemma length_hex k n : String.length (hex k n) = k.
Proof.
  revert n; induction k as [|k IH]; intros n; [done|]. cbn [hex]. rewrite length_string_app, IH.
  simpl. lia.
Qed.

(** ** The instance *)
Fixpoint poly_hash (acc : N) (s : string) : N :=
  match s with
  | EmptyString => acc
  | String c s => poly_hash ((acc * 257 + Ascii.N_of_ascii c + 1) mod 2 ^ 256) s
  end.

Definition sample_iso (d : Datetime) : string :=
  hex 16 (Z.to_N (dt_wall d - datetime_begin)) +:+
  match dt_offset d with Some z => hex 10 (Z.to_N (z + day_us)) | None => "" end.

Definition datetime_okb (d : Datetime) : bool :=
  (datetime_begin <=? dt_wall d)%Z && (dt_wall d <? datetime_end)%Z &&
  match dt_offset d with Some z => (- day_us <? z)%Z && (z <? day_us)%Z | None => true end.

Lemma datetime_okb_ok d : datetime_okb d = true ↔ datetime_ok d.
Proof.
  unfold datetime_okb, datetime_ok.
  destruct (dt_offset d); rewrite ?andb_true_iff, Z.leb_le, !Z.ltb_lt; tauto.
Qed.

Definition sample_of_iso (s : string) : option Datetime :=
  let '(a, b) := split_at 16 s in
  wall ← unhex 0 a;
  offset ← (if String.eqb b "" then Some None else z ← unhex 0 b; Some (Some (Z.of_N z - day_us)%Z));
  let d := mk_datetime (Z.of_N wall + datetime_begin) offset in
  if datetime_okb d then Some d else None.

Fixpoint sample_pow (c acc : float) (n : nat) : option float :=
  match n with
  | O => Some acc
  | S n => let acc := float_mul acc c in if is_finite acc then sample_pow c acc n else None
  end.

#[export] Instance sample_std : PyStd := {|
  float_repr f :=
    match f with
    | S754_finite s m e => (if s then "-" else "") +:+ pretty (Npos m) +:+ "e" +:+ pretty e
    | S754_zero _ => "0.0" | S754_infinity _ => "inf" | S754_nan => "nan"
    end;
  float_pow c n := sample_pow c (float_of_Z 1) (Z.to_nat n);
  float_of_str _ := None;
  sha256 s := (poly_hash 7 s mod 2 ^ 256)%N;
  uuid5 ns s := (poly_hash ns s mod 2 ^ 128)%N;
  uuid_str u := hex 32 u;
  uuid_parse s := unhex 0 s;
  isoformat := sample_iso;
  fromisoformat := sample_of_iso;
  py_repr _ := "<value>";
  json_error _ := "value is not JSON";
  zone_info z := if String.eqb z "UTC" then Ok (fun _ => 0%Z) else Err (KeyError z)
|}.

Lemma sample_iso_roundtrip d : datetime_ok d → sample_of_iso (sample_iso d) = Some d.
Proof.
  intros Hd. pose proof Hd as [Hw Ho]. unfold sample_of_iso, sample_iso.
  set (a := hex 16 (Z.to_N (dt_wall d - datetime_begin))).
  assert (unhex 0 a = Some (Z.to_N (dt_wall d - datetime_begin))) as Ha.
  { unfold a. rewrite unhex_hex; [done|]. unfold datetime_begin, datetime_end in *.
    change (16 ^ N.of_nat 16)%N with (Z.to_N (2 ^ 64)). apply Z2N.inj_lt; lia. }
  assert (String.length a = 16) as Hl by apply length_hex.
  change 16 with (16 : nat). rewrite <- Hl, split_at_app. unfold mbind, option_bind. rewrite Ha.
  destruct d as [w [z|]]; cbn [dt_wall dt_offset] in *.
  - set (b := hex 10 (Z.to_N (z + day_us))).
    assert (unhex 0 b = Some (Z.to_N (z + day_us))) as Hb.
    { unfold b. rewrite unhex_hex; [done|]. unfold day_us in *.
      change (16 ^ N.of_nat 10)%N with (Z.to_N (2 ^ 40)). apply Z2N.inj_lt; lia. }
    destruct (String.eqb_spec b "") as [He|_].
    { pose proof (length_hex 10 (Z.to_N (z + day_us))) as Hlb. fold b in Hlb. by rewrite He in Hlb. }
    rewrite Hb, !Z2N.id, !Z.sub_add, Z.add_simpl_r by lia.
    by rewrite (proj2 (datetime_okb_ok _) Hd).
  - change (String.eqb "" "") with true. cbv iota beta zeta. rewrite Z2N.id, Z.sub_add by lia. by rewrite (proj2 (datetime_okb_ok _) Hd).
Qed.

#[export] Instance sample_laws : PyStdLaws.
Proof.
  split.
  - intros s. by apply N.mod_lt.
  - intros n s. by apply N.mod_lt.
  - intros u Hu. change (unhex 0 (hex 32 u) = Some u). by rewrite unhex_hex.
  - intros s d. change (sample_of_iso s = Some d → datetime_ok d). unfold sample_of_iso.
    destruct (split_at 16 s) as [a b]. unfold mbind, option_bind.
    destruct (unhex 0 a); [|done]. destruct (if String.eqb b "" then _ else _); [|done].
    cbv zeta. destruct (datetime_okb _) eqn:E; [|done]. intros Heq. injection Heq as <-.
    by apply datetime_okb_ok.
  - apply sample_iso_roundtrip.
Qed.
