(* ===== verification/Scenario.v ===== *)
(** * A scenario

    Run on the sample environment: a workflow that charges a card is registered
    and started, its task is leased, the first replay's command is committed, the
    activity is leased and completed, and a signal arrives.  The witnesses apply
    their theorems to it. *)
From S2P Require Import Prelude Python Serialization History Commands Context Replay Database.
From S2P Require Import Logic Leasing AuditLog Definitions Transitions Commit Activities Messages.
From S2P Require Import Timeouts Cron Schedules Workers System Sample.
From stdpp Require Import relations.

(** The environment of the [k]-th transaction, [k] minutes after the epoch. *)
Definition at_minute (k : N) : Env :=
  mk_env (60000000 * Z.of_N k) (fun n => (60000000 * Z.of_N k + Z.of_nat n)%Z) (float_of_Z 0)
    (fun n => (1000 * k + N.of_nat n)%N) ∅.

(** [async def order(ctx, order): return await ctx.activity("charge", order)]. *)
Definition order_workflow : Coroutine := fun input rs =>
  match rs with
  | [] => ReqActivity (mk_activity_call "charge" [input] [] None None None None None)
  | [RActivityCall n] => ReqAwaitActivity n
  | [_; RValue v] => ReqReturn v
  | _ => ReqRaise (UserError "CardDeclined" "declined")
  end.

Definition order_definition : WorkflowDefinition :=
  mk_workflow_definition "order" 1
    (mk_py_function 1 "shop" "order" "order" (Some "source") order_workflow) "hash".

Definition order_id : UUID := 77.
Definition lease_30s : TimeDelta := 30000000.

Definition db_registered : DB :=
  (exec (register_workflow_definition order_definition) (at_minute 1) empty_db).2.
Definition db_started : DB :=
  (exec (start_workflow "order" 1 (JInt 12) "default" (Some order_id) [] None None)
     (at_minute 2) db_registered).2.
Definition lease_result : Py (option LeasedTask) * DB :=
  exec (lease_task TWorkflow "default" lease_30s) (at_minute 3) db_started.
Definition db_leased : DB := lease_result.2.
Definition leased : LeasedTask :=
  match lease_result.1 with
  | Ok (Some t) => t
  | _ => mk_leased_task 0 0 TTimer "" None None 0 JNull 0 0 0 None
  end.
Definition first_replay : ReplayResult :=
  match replay_workflow 10 order_workflow order_id (JInt 12) (history_of order_id db_leased) with
  | Some (Ok r) => r
  | _ => mk_replay_result BLOCKED [] JNull JNull
  end.
Definition commit_result : Py unit * DB :=
  exec (commit_workflow_replay leased first_replay) (at_minute 3) db_leased.
Definition db_committed : DB := commit_result.2.

(** The activity and a signal. *)
Definition activity_result : Py (option LeasedTask) * DB :=
  exec (lease_task TActivity "default" lease_30s) (at_minute 4) db_committed.
Definition db_activity : DB := activity_result.2.
Definition activity_leased : LeasedTask :=
  match activity_result.1 with
  | Ok (Some t) => t
  | _ => mk_leased_task 0 0 TTimer "" None None 0 JNull 0 0 0 None
  end.
Definition db_charged : DB :=
  (exec (complete_activity activity_leased (JInt 5)) (at_minute 4) db_activity).2.
Definition db_signalled : DB :=
  (exec (send_signal order_id "s1" "note" JNull None) (at_minute 5) db_charged).2.

(** Another run: the workflow is terminated before its task is leased. *)
Definition db_terminated : DB :=
  (exec (terminate_workflow order_id (Some "stop") None) (at_minute 3) db_started).2.

Lemma reach_op A (m : M A) env db : operation A m → reachable db → reachable (exec m env db).2.
Proof. intros Hm Hr. eapply rtc_r; [exact Hr|]. by apply step_exec. Qed.

Lemma reachable_started : reachable db_started.
Proof. apply reach_op; [constructor|]. apply reach_op; [constructor|]. apply rtc_refl. Qed.
Lemma reachable_committed : reachable db_committed.
Proof.
  apply reach_op; [by constructor|]. apply (reach_op _ (lease_task TWorkflow "default" lease_30s));
    [constructor|apply reachable_started].
Qed.

(** The scenario does what it says. *)
Example scenario_leases : is_ok lease_result.1 = true ∧ lt_workflow_id leased = order_id.
Proof. vm_compute. done. Qed.
Example scenario_replays : rr_status first_replay = COMMANDS ∧ length (rr_commands first_replay) = 1.
Proof. vm_compute. done. Qed.
Example scenario_commits :
  is_ok commit_result.1 = true ∧
  (event_type <$> history_of order_id db_committed) = [WorkflowExecutionStarted; ActivityScheduled].
Proof. vm_compute. done. Qed.
Example scenario_charges :
  (event_type <$> history_of order_id db_signalled) =
  [WorkflowExecutionStarted; ActivityScheduled; ActivityStarted; ActivityCompleted; SignalReceived].
Proof. vm_compute. done. Qed.
