(* ===== verification/Limits.v ===== *)
(** * The limits of deterministic replay

    [Engine.workers_never_diverge] asks workflow code to be [disciplined]: not to
    read [cancellation_requested], and to let the error of a failed [gather]
    leave the function.  Two runs in which only workers commit show that the
    engine needs both: each reaches a history that does not replay.

    [Engine.no_lost_wakeup] excepts code that waits with a timeout for a signal
    it received before.  A run of workers shows that the engine lets it sleep. *)
From S2P Require Import Prelude Python Serialization History Commands Context Replay Determinism.
From S2P Require Import Versions Database Logic Leasing AuditLog Definitions Transitions Commit.
From S2P Require Import Activities Messages Timeouts Cron Schedules Workers Store System Runner.
From S2P Require Import Atomicity Service Chronicle Waiting Wakes Engine Sample Scenario.
From stdpp Require Import relations.

Definition call_of (name : string) : ActivityCall :=
  mk_activity_call name [] [] None None None None None.

(** Books a room and a car together; when one cannot be booked, the code
    compensates.

    [async def trip(ctx, order):
         calls = ctx.activity(room), ctx.activity(car)
         try: await ctx.gather( *calls )
         except ActivityError: await ctx.activity(refund)] *)
Definition trip : Coroutine := fun _ rs =>
  match rs with
  | [] => ReqActivity (call_of "room")
  | [_] => ReqActivity (call_of "car")
  | [RActivityCall room; RActivityCall car] => ReqGather [room; car]
  | [_; _; RExn (ActivityError _ _)] => ReqActivity (call_of "refund")
  | [_; _; RExn (ActivityError _ _); RActivityCall refund] => ReqAwaitActivity refund
  | [_; _; RExn e] | [_; _; _; _; RExn e] => ReqRaise e
  | _ => ReqReturn JNull
  end.

(** Charges a card, unless the execution was asked to stop.

    [async def polite(ctx, order):
         if ctx.cancellation_requested: return await ctx.activity(refund)
         return await ctx.activity(charge)] *)
Definition polite : Coroutine := fun _ rs =>
  match rs with
  | [] => ReqCancellationRequested
  | [RBool stop] => ReqActivity (call_of (if stop then "refund" else "charge"))
  | [_; RActivityCall n] => ReqAwaitActivity n
  | [_; _; RExn e] => ReqRaise e
  | _ => ReqReturn JNull
  end.

Definition definition_of (name : string) (function : Coroutine) : WorkflowDefinition :=
  mk_workflow_definition name 1 (mk_py_function 1 "shop" name name (Some "source") function) "hash".
Definition registry_of (definition : WorkflowDefinition) : DefinitionRegistry :=
  mk_registry {[(wd_name definition, 1%Z) := definition]} ∅.

Definition leased_by (r : Py (option LeasedTask)) : LeasedTask :=
  match r with Ok (Some t) => t | _ => leased end.

(** ** Runs of one workflow *)
Section run.
Context (definition : WorkflowDefinition).
Definition run_id : UUID := 91.
Definition registered : DB := (exec (register_workflow_definition definition) (at_minute 1) empty_db).2.
Definition started : DB :=
  (exec (start_workflow (wd_name definition) 1 (JInt 12) "default" (Some run_id) [] None None)
     (at_minute 2) registered).2.
Definition worked (k : N) (db : DB) : DB :=
  leaves (run_workflow_task 10 (registry_of definition) "default" default_lease) (at_minute k) 0 db.
Definition replays (db : DB) : option (Py ReplayResult) :=
  replay_workflow 10 (fn_body (wd_function definition)) run_id (JInt 12) (history_of run_id db).

(** The registry of the run holds the code of the execution. *)
Definition as_started (db : DB) : bool :=
  match db_executions db !! run_id with
  | Some e => bool_decide (exec_input e = JInt 12 ∧ exec_workflow_type e = wd_name definition ∧
                           exec_definition_version e = 1%Z)
  | None => false
  end.

Lemma run_begun :
  history_of run_id registered = [] →
  engine_run (fn_body (wd_function definition)) run_id (JInt 12) [started; registered].
Proof.
  intros Hh. unfold started. rewrite exec_leaves. apply er_operation; [|constructor].
  apply er_begins; [|done]. apply reach_op; [constructor|apply rtc_refl].
Qed.

Lemma as_started_runs db :
  as_started db = true →
  runs_code (fn_body (wd_function definition)) run_id (JInt 12) (registry_of definition) db.
Proof.
  intros Has e He. unfold as_started in Has. rewrite He in Has.
  apply bool_decide_eq_true in Has as (Hi & Ht & Hv). split; [done|]. intros d. rewrite Ht, Hv.
  unfold registry_workflow, registry_of. cbn [reg_workflows]. rewrite lookup_singleton_eq. by intros [= <-].
Qed.

Lemma run_worked k db dbs :
  engine_run (fn_body (wd_function definition)) run_id (JInt 12) (db :: dbs) → as_started db = true →
  engine_run (fn_body (wd_function definition)) run_id (JInt 12) (worked k db :: db :: dbs).
Proof. intros Hrun Has. apply er_works; [done|]. by apply as_started_runs. Qed.

Lemma run_operated A (m : M A) env db dbs :
  engine_run (fn_body (wd_function definition)) run_id (JInt 12) (db :: dbs) →
  operation_by (fun task _ => lt_workflow_id task ≠ run_id) A m →
  engine_run (fn_body (wd_function definition)) run_id (JInt 12) ((exec m env db).2 :: db :: dbs).
Proof. intros Hrun Hop. rewrite exec_leaves. by apply er_operation. Qed.
End run.

(** ** A caught gather *)
Definition trip_definition : WorkflowDefinition := definition_of "trip" trip.
Definition trip_started : DB := started trip_definition.
Definition trip_scheduled : DB := worked trip_definition 3 trip_started.
Definition trip_lease : Py (option LeasedTask) * DB :=
  exec (lease_task TActivity "default" lease_30s) (at_minute 4) trip_scheduled.
Definition trip_room : LeasedTask :=
  leased_by trip_lease.1.
Definition trip_failed : DB :=
  (exec (fail_activity trip_room (JStr "full") (Some (float_of_Z 0))) (at_minute 4) trip_lease.2).2.

Example trip_runs :
  (event_type <$> history_of run_id trip_failed) =
  [WorkflowExecutionStarted; ActivityScheduled; ActivityScheduled; ActivityStarted; ActivityFailed].
Proof. vm_compute. done. Qed.

(** A gather stops at the first failed activity, before the activities after it
    have taken their command identities: code that catches the error and goes
    on is given the identity the next activity was recorded under.  The
    compensating workflow never replays again. *)
Lemma gather_compensation_diverges :
  engine_run trip run_id (JInt 12)
    [trip_failed; trip_lease.2; trip_scheduled; trip_started; registered trip_definition] ∧
  ∃ detail, replays trip_definition trip_failed = Some (Err (NonDeterminismError 1 detail)).
Proof.
  split.
  - change trip with (fn_body (wd_function trip_definition)).
    simple refine (run_operated trip_definition _ (fail_activity trip_room (JStr "full") (Some (float_of_Z 0)))
      (at_minute 4) trip_lease.2 _ _ _); [|apply op_fail; exact I].
    simple refine (run_operated trip_definition _ (lease_task TActivity "default" lease_30s) (at_minute 4)
      trip_scheduled _ _ _); [|apply op_lease].
    apply (run_worked trip_definition 3 trip_started); [|by vm_compute].
    apply (run_begun trip_definition). by vm_compute.
  - eexists. vm_compute. reflexivity.
Qed.

(** ** A workflow that looks for a cancellation request *)
Definition polite_definition : WorkflowDefinition := definition_of "polite" polite.
Definition polite_started : DB := started polite_definition.
Definition polite_scheduled : DB := worked polite_definition 3 polite_started.
Definition polite_cancelled : DB :=
  (exec (request_workflow_cancellation run_id None None) (at_minute 4) polite_scheduled).2.

(** The attribute is not recorded as a command: code that branches on it before
    a command it has already issued takes the other branch once a request is
    recorded, and never replays again. *)
Lemma cancellation_check_diverges :
  engine_run polite run_id (JInt 12)
    [polite_cancelled; polite_scheduled; polite_started; registered polite_definition] ∧
  ∃ detail, replays polite_definition polite_cancelled = Some (Err (NonDeterminismError 0 detail)).
Proof.
  split.
  - change polite with (fn_body (wd_function polite_definition)).
    simple refine (run_operated polite_definition _ (request_workflow_cancellation run_id None None) (at_minute 4)
      polite_scheduled _ _ _); [|apply op_cancel].
    apply (run_worked polite_definition 3 polite_started); [|by vm_compute].
    apply (run_begun polite_definition). by vm_compute.
  - eexists. vm_compute. reflexivity.
Qed.

(** Both functions break a clause of [disciplined], as they must. *)
Lemma trip_undisciplined : ¬ disciplined_input trip (JInt 12).
Proof.
  intros Hd. destruct (clone_json (JInt 12)) as [input|] eqn:E; [|by vm_compute in E].
  destruct (dis_gather _ (Hd input E) [RActivityCall 0; RActivityCall 1] [0; 1] (ActivityError "" JNull) eq_refl)
    as [e' He]. done.
Qed.

Lemma polite_undisciplined : ¬ disciplined_input polite (JInt 12).
Proof.
  intros Hd. destruct (clone_json (JInt 12)) as [input|] eqn:E; [|by vm_compute in E].
  by apply (dis_cancel _ (Hd input E) []).
Qed.

(** ** A signal that comes before it is waited for *)

(** Charges a card, then waits an hour for a note.

    [async def patient(ctx, order):
         await ctx.activity(charge)
         return await ctx.wait_signal("note", timeout=timedelta(hours=1))] *)
Definition patient : Coroutine := fun _ rs =>
  match rs with
  | [] => ReqActivity (call_of "charge")
  | [r] => match r with RActivityCall n => ReqAwaitActivity n | _ => ReqReturn JNull end
  | [_; r] => match r with RExn e => ReqRaise e | _ => ReqWaitSignal "note" (Some 3600000000%Z) end
  | [_; _; r] =>
    match r with RValue v => ReqReturn v | RExn e => ReqRaise e | _ => ReqReturn JNull end
  | _ => ReqReturn JNull
  end.

Definition patient_definition : WorkflowDefinition := definition_of "patient" patient.
Definition patient_started : DB := started patient_definition.
Definition patient_scheduled : DB := worked patient_definition 3 patient_started.
Definition patient_signalled : DB :=
  (exec (send_signal run_id "s1" "note" (JInt 7) None) (at_minute 4) patient_scheduled).2.
Definition patient_blocked : DB := worked patient_definition 5 patient_signalled.
Definition patient_lease : Py (option LeasedTask) * DB :=
  exec (lease_task TActivity "default" lease_30s) (at_minute 6) patient_blocked.
Definition patient_charge : LeasedTask :=
  leased_by patient_lease.1.
Definition patient_charged : DB :=
  (exec (complete_activity patient_charge (JInt 5)) (at_minute 6) patient_lease.2).2.
Definition patient_waiting : DB := worked patient_definition 7 patient_charged.

Example patient_runs :
  (event_type <$> history_of run_id patient_waiting) =
  [WorkflowExecutionStarted; ActivityScheduled; SignalReceived; ActivityStarted; ActivityCompleted;
   TimerStarted].
Proof. vm_compute. done. Qed.

Lemma patient_disciplined : disciplined_input patient (JInt 12).
Proof.
  intros input _. unfold patient. split.
  - intros rs. by repeat case_match.
  - intros rs refs e Heq. by repeat case_match.
  - intros rs e' Hrs Heq. repeat case_match; simplify_eq; apply Hrs; set_solver.
Qed.

Lemma works k db dbs :
  worker_run patient run_id (JInt 12) (db :: dbs) → as_started patient_definition db = true →
  ∃ dbs', worker_run patient run_id (JInt 12) (worked patient_definition k db :: dbs').
Proof.
  intros Hrun Has. destruct (workflow_worker_continues patient run_id (JInt 12)
    (registry_of patient_definition) 10 "default" default_lease (at_minute k) 0 db dbs Hrun)
    as (dbs' & Hrun' & _); [by apply (as_started_runs patient_definition)|by exists dbs'].
Qed.

Lemma patient_run : ∃ dbs, worker_run patient run_id (JInt 12) (patient_waiting :: dbs).
Proof.
  assert (worker_run patient run_id (JInt 12) [patient_started; registered patient_definition]) as Hrun.
  { apply run_exec; [|apply op_start]. apply wr_begins; [|by vm_compute].
    apply reach_op; [constructor|apply rtc_refl]. }
  destruct (works 3 _ _ Hrun) as [dbs1 Hrun1]; [by vm_compute|]. fold patient_scheduled in Hrun1.
  assert (worker_run patient run_id (JInt 12) (patient_signalled :: patient_scheduled :: dbs1)) as Hrun2
    by (apply run_exec; [done|apply op_signal]).
  destruct (works 5 _ _ Hrun2) as [dbs2 Hrun3]; [by vm_compute|]. fold patient_blocked in Hrun3.
  assert (worker_run patient run_id (JInt 12) (patient_lease.2 :: patient_blocked :: dbs2)) as Hrun4
    by (apply run_exec; [done|apply op_lease]).
  assert (worker_run patient run_id (JInt 12) (patient_charged :: patient_lease.2 :: patient_blocked :: dbs2))
    as Hrun5 by (apply run_exec; [done|apply op_complete, genuineb_genuine; by vm_compute]).
  destruct (works 7 _ _ Hrun5) as [dbs3 Hrun6]; [by vm_compute|]. by exists dbs3.
Qed.

(** [wait_signal] starts the timer before it looks for the signal, and the
    commit of a timer does not wake the workflow: in a run of workers the signal
    has been received, replay would deliver it and complete, and no workflow task
    is there to do so before the hour is over. *)
Lemma signal_overlooked :
  (∃ dbs, worker_run patient run_id (JInt 12) (patient_waiting :: dbs)) ∧
  running run_id patient_waiting ∧ (∀ id, ¬ awake run_id patient_waiting id) ∧
  replays patient_definition patient_waiting = Some (Ok (mk_replay_result COMPLETED [] (JInt 7) JNull)).
Proof.
  split; [apply patient_run|]. split; [apply runningb_running; by vm_compute|].
  split; [intros id; apply asleep_not_awake; by vm_compute|by vm_compute].
Qed.
