(* ===== verification/Witnesses.v ===== *)
(** * Witnesses: the theorems at concrete inputs

    Each witness applies its theorem to the scenario. *)
From S2P Require Import Prelude Python Serialization History Commands Context Replay Database.
From S2P Require Import Logic Leasing AuditLog Definitions Transitions Commit Activities Messages.
From S2P Require Import Timeouts Cron Schedules Workers Store Frames StoreInvariant System.
From S2P Require Import Atomicity Fencing LeaseSpec Wakes Queries Views Sample Scenario.
From stdpp Require Import relations.

(** ** Applications *)
Lemma reachable_history_wf_witness :
  ∃ e, history_of order_id db_committed !! 1 = Some e ∧ event_seq e = 2%Z ∧
       event_type e = ActivityScheduled.
Proof.
  assert (event_type <$> history_of order_id db_committed !! 1 = Some ActivityScheduled) as E
    by (vm_compute; reflexivity).
  apply fmap_Some in E as (e & E & Ht). exists e. split; [exact E|].
  destruct (reachable_history_wf db_committed order_id 1 e reachable_committed E) as [Hs _].
  split; [exact Hs|by symmetry].
Defined.

Lemma reachable_execution_agrees_witness :
  ∃ e, db_executions db_committed !! order_id = Some e ∧ exec_next_seq e = 3%Z ∧
       exec_status e = WRunning.
Proof.
  destruct (db_executions db_committed !! order_id) as [e|] eqn:E; [|by vm_compute in E].
  exists e. split; [done|].
  destruct (reachable_execution_agrees db_committed order_id e reachable_committed E) as (_ & Hn & _ & _).
  split; [rewrite Hn; by vm_compute|]. vm_compute in E. by injection E as <-.
Defined.

Lemma reachable_no_orphan_events_witness : history_of 5 db_committed = [].
Proof. apply (reachable_no_orphan_events db_committed 5 reachable_committed). by vm_compute. Defined.

Lemma operation_rolls_back_witness :
  ∃ e db', exec (pause_workflow 5 None None) (at_minute 4) db_started = (Err e, db') ∧ db' = db_started.
Proof.
  destruct (exec (pause_workflow 5 None None) (at_minute 4) db_started) as [[b|e] db'] eqn:E;
    [by vm_compute in E|]. exists e, db'. split; [done|].
  exact (operation_rolls_back bool (pause_workflow 5 None None) (at_minute 4) db_started e db'
           (op_pause 5 None None) E).
Defined.

Lemma committed_steps : rtc step db_started db_committed.
Proof.
  eapply rtc_l; [|apply rtc_once].
  - exact (step_exec db_started _ (lease_task TWorkflow "default" lease_30s) (at_minute 3) (op_lease _ _ _)).
  - exact (step_exec db_leased _ (commit_workflow_replay leased first_replay) (at_minute 3) (op_commit _ _ I)).
Qed.

Lemma history_append_only_witness :
  hist order_id db_started `prefix_of` hist order_id db_committed ∧
  length (hist order_id db_started) = 1 ∧ length (hist order_id db_committed) = 2.
Proof.
  split; [exact (history_append_only db_started db_committed order_id committed_steps)|].
  by vm_compute.
Defined.

Lemma closed_execution_final_witness :
  ∃ db', rtc step db_terminated db' ∧
    history_of order_id db' = history_of order_id db_terminated ∧
    ∃ e', db_executions db' !! order_id = Some e' ∧ exec_status e' = WTerminated.
Proof.
  assert (reachable db_terminated) as Hr by (apply reach_op; [constructor|apply reachable_started]).
  eexists (exec (lease_task TWorkflow "default" lease_30s) (at_minute 4) db_terminated).2.
  assert (step db_terminated (exec (lease_task TWorkflow "default" lease_30s) (at_minute 4) db_terminated).2)
    as Hs by (apply step_exec; constructor).
  split; [by apply rtc_once|].
  assert (exec_status <$> db_executions db_terminated !! order_id = Some WTerminated) as E
    by (vm_compute; reflexivity).
  apply fmap_Some in E as (e & E & Hst). rewrite Hst.
  apply (closed_execution_final db_terminated _ order_id e Hr (rtc_once _ _ Hs) E). by rewrite <- Hst.
Defined.

(** Pages of one event. *)
Lemma history_pages_complete_witness :
  ∃ history, exec (get_history order_id) (at_minute 4) db_committed = (Ok history, db_committed) ∧
    length history = 2 ∧
    exec (read_pages 3 order_id 0 1) (at_minute 4) db_committed = (Ok (Some history), db_committed).
Proof.
  destruct (history_pages_complete db_committed order_id 1 (at_minute 4) 3 reachable_committed
    ltac:(lia) ltac:(vm_compute; lia)) as (history & Hh & Hp).
  exists history. split_and!; [exact Hh| |exact Hp].
  assert (length <$> (fun r : Py (list HistoryRecord) * DB => match r.1 with Ok h => Some h | Err _ => None end)
    (exec (get_history order_id) (at_minute 4) db_committed) = Some 2) as E by (vm_compute; reflexivity).
  rewrite Hh in E. by injection E.
Defined.

Lemma history_tail_suffix_witness :
  ∃ tail, exec (get_history_tail order_id 1) (at_minute 4) db_committed = (Ok tail, db_committed) ∧
    (length tail ≤ 1)%nat.
Proof.
  destruct (history_tail_suffix db_committed order_id 1 (at_minute 4) reachable_committed ltac:(lia))
    as (history & tail & _ & Ht & _ & Hl).
  exists tail. split; [exact Ht|]. rewrite Hl. change (Z.to_nat 1) with 1. lia.
Defined.

(** The lease of 30 seconds has expired in minute 5. *)
Lemma stale_lease_refused_witness :
  ∃ e, exec (commit_workflow_replay leased first_replay) (at_minute 5) db_leased = (Err e, db_leased).
Proof.
  apply (stale_lease_refused leased unit (commit_workflow_replay leased first_replay)
           (at_minute 5) db_leased (wo_commit leased first_replay)).
  intros t x Ht _ _ Hx. vm_compute in Ht. injection Ht as <-. vm_compute in Hx.
  injection Hx as <-. by vm_compute.
Defined.

Lemma outcome_committed_once_witness :
  ∃ e, exec (commit_workflow_replay leased first_replay) (at_minute 3) db_committed
       = (Err e, db_committed).
Proof.
  apply (outcome_committed_once leased unit (commit_workflow_replay leased first_replay)
           (at_minute 3) tt db_leased db_committed db_committed
           unit (commit_workflow_replay leased first_replay) (at_minute 3)).
  - constructor.
  - change (commit_result = (Ok tt, commit_result.2)). by vm_compute.
  - apply rtc_refl.
  - constructor.
Defined.

Lemma lease_task_takes_witness :
  ∃ t, leasable db_started (env_now (at_minute 3)) ∅ TWorkflow "default" (lt_id leased) t.
Proof.
  destruct (lease_task_takes TWorkflow "default" lease_30s (at_minute 3) db_started leased db_leased)
    as (t & _ & Ht & _); [by vm_compute|]. by exists t.
Defined.

Lemma lease_task_none_witness :
  ¬ leasable db_started (env_now (at_minute 3)) ∅ TWorkflow "other" 5 (new_task 5 TWorkflow "other" 0).
Proof.
  destruct (lease_task_none TWorkflow "other" lease_30s (at_minute 3) db_started db_started)
    as [_ Hn]; [by vm_compute|apply Hn].
Defined.

Definition ordered : JSON := JObj [("amount", JInt 12); ("currency", JStr "EUR")].
Definition reversed : JSON := JObj [("currency", JStr "EUR"); ("amount", JInt 12)].

Lemma fingerprint_key_order_witness :
  ∃ h, fingerprint ordered = Ok h ∧ fingerprint reversed = Ok h ∧
       canonical_json ordered = canonical_json reversed.
Proof.
  destruct (fingerprint ordered) as [h|e] eqn:E; [|by vm_compute in E]. exists h. split; [done|].
  apply (fingerprint_key_order ordered reversed h); [|apply json_eq_obj with (d' := [("amount", JInt 12); ("currency", JStr "EUR")])|exact E].
  - split; [|done]. apply NoDup_cons_2; [by rewrite list_elem_of_singleton|apply NoDup_singleton].
  - repeat constructor.
  - apply Permutation_swap.
Defined.

Lemma clone_json_canonical_witness :
  match clone_json reversed with
  | Ok w => clone_json w = Ok w ∧ canonical_json w = canonical_json reversed
  | Err e => json_finite reversed = false ∧ exn_type_name e = "SerializationError"
  end ∧ is_ok (clone_json reversed) = true.
Proof.
  split; [|by vm_compute]. apply (clone_json_canonical reversed).
  split; [|done]. apply NoDup_cons_2; [by rewrite list_elem_of_singleton|apply NoDup_singleton].
Defined.

(** The worker that leased the order's task crashed; a minute after the lease
    expired another one is given the task. *)
Lemma leased_row :
  ∃ t, db_tasks db_leased !! lt_id leased = Some t ∧ is_awake order_id t ∧
    due (env_now (at_minute 5)) t ∧ task_queue_name t = "default".
Proof.
  eexists. split; [vm_compute; reflexivity|]. split; [by vm_compute|].
  split; [|done]. intros x [= <-]. by vm_compute.
Qed.

