(* ===== verification/ReplayWitnesses.v ===== *)
(** * Witnesses of the theorems on replay

    The scenario's databases form a run whose commits are honest, so its
    histories are versions; the replay theorems are applied to them. *)
From S2P Require Import Prelude Python Serialization History HistoryTheory Commands Context.
From S2P Require Import Durability Operations Calls Replay Requests Determinism Versions.
From S2P Require Import Database Logic Store Leasing AuditLog Definitions Transitions Commit.
From S2P Require Import Activities Messages Timeouts Cron Schedules Workers StoreInvariant System.
From S2P Require Import Atomicity Chronicle Waiting Wakes Engine Sample Scenario.

Lemma order_disciplined : disciplined_input order_workflow (JInt 12).
Proof.
  intros input _. split.
  - by intros [|[] [|[] []]].
  - by intros [|[] [|[] []]].
  - intros rs e' _. by destruct rs as [|[] [|[] []]]; simpl; intros Heq; simplify_eq/=.
Qed.

Definition scenario_run : list DB :=
  [db_signalled; db_charged; db_activity; db_committed; db_leased; db_started; db_registered].

Lemma honest_exec function w input db dbs A (m : M A) env :
  honest_run function w input (db :: dbs) →
  operation_by (replayed function w input (db :: dbs)) A m →
  honest_run function w input ((exec m env db).2 :: db :: dbs).
Proof. rewrite exec_leaves. by constructor. Qed.

Lemma scenario_honest : honest_run order_workflow order_id (JInt 12) scenario_run.
Proof.
  assert (honest_run order_workflow order_id (JInt 12) [db_registered]) as H0.
  { apply run_begins; [|by vm_compute]. apply reach_op; [constructor|apply rtc_refl]. }
  assert (honest_run order_workflow order_id (JInt 12) [db_leased; db_started; db_registered]) as H1.
  { apply honest_exec; [|apply op_lease]. apply honest_exec; [done|apply op_start]. }
  apply honest_exec; [|apply op_signal]. apply honest_exec; [|apply op_complete; exact I].
  apply honest_exec; [|apply op_lease]. apply honest_exec; [done|apply op_commit].
  intros _. exists db_leased, 10. split; [apply list_elem_of_here|]. by vm_compute.
Qed.

(** The scenario's histories. *)
Definition final_history : list HistoryEvent := Eval vm_compute in hist order_id db_signalled.
Definition charged_history : list HistoryEvent := Eval vm_compute in hist order_id db_charged.
Definition start_history : list HistoryEvent := Eval vm_compute in hist order_id db_started.

Lemma scenario_versions : ∃ hs,
  versions order_workflow order_id (JInt 12) (final_history :: hs) ∧
  start_history ∈ final_history :: hs ∧ charged_history ∈ final_history :: hs.
Proof.
  assert (∃ i, build_index (hist order_id db_signalled) = Ok i) as [i Hi] by (eexists; by vm_compute).
  destruct (honest_run_versions _ _ _ _ _ _ scenario_honest Hi) as (hs & Hv & Hin).
  exists hs. change final_history with (Datatypes.id final_history).
  assert (hist order_id db_signalled = Datatypes.id final_history) as Hf by by vm_compute.
  rewrite <- Hf. split; [done|]. split.
  - assert (hist order_id db_started = start_history) as <- by by vm_compute.
    apply Hin; [|by vm_compute]. do 5 right. by left.
  - assert (hist order_id db_charged = charged_history) as <- by by vm_compute.
    apply Hin; [|by vm_compute]. right. by left.
Qed.




(** [returned], as a computation. *)
Definition returns (function : Coroutine) (w : UUID) (input : JSON) (fuel : nat)
    (h : list HistoryEvent) (v : JSON) : bool :=
  match clone_json input, build_index h with
  | Ok input, Ok i =>
    match run fuel (function input) [] (init_context w i) with
    | Some (Returned v', _) => bool_decide (v' = v)
    | _ => false
    end
  | _, _ => false
  end.

Lemma returns_returned function w input fuel h v :
  returns function w input fuel h v = true → returned function w input fuel h v.
Proof.
  unfold returns, returned. destruct (clone_json input) as [input'|]; [|done].
  destruct (build_index h) as [i|]; [|done].
  destruct (run _ _ _ _) as [[[v'|e|s] c]|] eqn:Hr; try done.
  intros Hb%bool_decide_eq_true. subst v'. by exists input', i, c.
Qed.

Lemma charged_returns : returned order_workflow order_id (JInt 12) 10 charged_history (JInt 5).
Proof. apply returns_returned. vm_compute. reflexivity. Qed.


(** A signal arrives while the first task is leased. *)
Definition signal_event : HistoryEvent :=
  mk_event 2 SignalReceived [("name", JStr "note"); ("payload", JNull)] None None (Some "s0").

Lemma signalled_versions :
  versions order_workflow order_id (JInt 12) [start_history ++ [signal_event]; start_history].
Proof.
  assert (∃ i, build_index start_history = Ok i) as [i Hi] by (eexists; by vm_compute).
  assert (∃ i, build_index (start_history ++ [signal_event]) = Ok i) as [j Hj] by (eexists; by vm_compute).
  eapply versions_event; [|done|exact Hj]. by eapply versions_start.
Qed.

Lemma replay_repeats_witness :
  ∃ res', replay_workflow 10 order_workflow order_id (JInt 12) (start_history ++ [signal_event]) =
      Some (Ok res') ∧
    (rr_commands res' = rr_commands first_replay ∨ rr_status res' = FAILED).
Proof.
  assert (∃ i, build_index (start_history ++ [signal_event]) = Ok i ∧ scheduled i = ∅) as (i & Hi & Hs)
    by (eexists; split; [by vm_compute|done]).
  assert (∃ res', replay_workflow 10 order_workflow order_id (JInt 12) (start_history ++ [signal_event]) =
    Some (Ok res')) as [res' Hr'] by (eexists; by vm_compute).
  exists res'. split; [done|].
  refine (replay_repeats order_workflow order_id (JInt 12) [start_history] _ start_history i 10 10
    first_replay res' order_disciplined signalled_versions _ _ _ Hi _ Hr').
  - right. by left.
  - by vm_compute.
  - by vm_compute.
  - intros k _. by rewrite Hs.
Defined.


(** The same steps as a run of workers. *)
Lemma leased_genuine : is_genuine db_leased leased.
Proof. apply genuineb_genuine. by vm_compute. Qed.

Lemma leased_loads dbs :
  db_leased ∈ dbs → replays_loaded order_workflow order_id (JInt 12) dbs leased first_replay.
Proof.
  intros Hin. destruct (load_workflow_replay_state leased (at_minute 3) (mk_world db_leased 0))
    as [[state|e] world] eqn:E; [|by vm_compute in E].
  exists db_leased, (at_minute 3), 0, state, world, 10. split; [done|]. split; [done|].
  apply loaded_task in E as [_ ->]. by vm_compute.
Qed.

Lemma scenario_works :
  worker_run order_workflow order_id (JInt 12) [db_committed; db_leased; db_started; db_registered].
Proof.
  assert (worker_run order_workflow order_id (JInt 12) [db_registered]) as H0.
  { apply wr_begins; [|by vm_compute]. apply reach_op; [constructor|apply rtc_refl]. }
  apply run_exec.
  - apply run_exec; [|apply op_lease]. apply run_exec; [done|apply op_start].
  - apply op_commit. split; [apply leased_genuine|]. intros _. apply leased_loads, list_elem_of_here.
Qed.

