(* ===== verification/PlatformWitnesses.v ===== *)
(** * Witnesses of the theorems on the platform

    Configuration, authentication, rate and body limits and migrations at
    concrete inputs, with ASCII text functions. *)
From S2P Require Import Prelude Python Config Security Migrations Sample.

(** ** Text functions of ASCII strings *)
Definition ascii_lower (a : Ascii.ascii) : Ascii.ascii :=
  let n := Ascii.N_of_ascii a in
  if ((65 <=? n) && (n <=? 90))%N then Ascii.ascii_of_N (n + 32) else a.

Definition ascii_upper (a : Ascii.ascii) : Ascii.ascii :=
  let n := Ascii.N_of_ascii a in
  if ((97 <=? n) && (n <=? 122))%N then Ascii.ascii_of_N (n - 32) else a.

Fixpoint map_chars (f : Ascii.ascii → Ascii.ascii) (s : string) : string :=
  match s with EmptyString => "" | String a s => String (f a) (map_chars f s) end.

Fixpoint strip_left (s : string) : string :=
  match s with
  | EmptyString => ""
  | String a s' => if is_space a then strip_left s' else s
  end.

(** The text up to its last character that is not a space. *)
Fixpoint strip_right (s : string) : string :=
  match s with
  | EmptyString => ""
  | String a s =>
    match strip_right s with
    | EmptyString => if is_space a then "" else String a ""
    | t => String a t
    end
  end.

Definition is_digit (a : Ascii.ascii) : bool :=
  let n := Ascii.N_of_ascii a in ((48 <=? n) && (n <=? 57))%N.
Definition is_alnum (a : Ascii.ascii) : bool :=
  let n := Ascii.N_of_ascii (ascii_lower a) in is_digit a || ((97 <=? n) && (n <=? 122))%N.

#[export] Instance sample_text : PyText := {|
  str_strip s := strip_right (strip_left s);
  str_lower := map_chars ascii_lower;
  str_upper := map_chars ascii_upper;
  str_isalnum s := negb (String.eqb s "") && all_chars is_alnum s;
  str_isdigit s := negb (String.eqb s "") && all_chars is_digit s;
  Config.int_of_str s := Python.int_of_str (strip_right (strip_left s))
|}.

(** ** Configuration *)
Definition sample_process : Process :=
  mk_process
    (fun name =>
       if String.eqb name "DATABASE_URL_FILE" then Some "/run/secrets/url"
       else if String.eqb name "DWE_DB_POOL_MAX_SIZE" then Some " 20 " else None)
    (fun file => if String.eqb file "/run/secrets/url" then Some "postgresql://db/engine " else None).

Lemma database_config_valid_witness :
  ∃ config, database_from_env sample_process None "dwe-api" = Ok config ∧
    dc_url config = "postgresql://db/engine" ∧ dc_max_pool_size config = 20%Z ∧
    (1 ≤ dc_min_pool_size config ≤ dc_max_pool_size config)%Z.
Proof.
  assert (∃ config, database_from_env sample_process None "dwe-api" = Ok config ∧
    dc_url config = "postgresql://db/engine" ∧ dc_max_pool_size config = 20%Z)
    as (config & Hc & Hu & Hm) by (eexists; split_and!; by vm_compute).
  exists config. split_and!; [done|done|done|..];
    apply (database_config_valid sample_process None "dwe-api" config Hc).
Defined.

(** ** The rate limiter *)
Definition seconds (n : Z) : float := float_of_Z n.
Definition call_times : list float := [seconds 0; seconds 1; seconds 2; seconds 61; seconds 62].
Definition limited_run : FixedWindowRateLimiter * list float :=
  allow_all (mk_rate_limiter 2 ∅) "alice" call_times.

(** The third request is refused; a minute later the first two count no more. *)
Example limiter_allows : limited_run.2 = [seconds 0; seconds 1; seconds 61; seconds 62].
Proof. vm_compute. reflexivity. Qed.

Lemma rate_limit_window_witness :
  (Z.of_nat (length (filter (fun r => counts call_times r = true) limited_run.2)) ≤ 2)%Z.
Proof.
  apply (rate_limit_window 2 "alice" call_times limited_run.1 limited_run.2); [done|].
  vm_compute. reflexivity.
Defined.

Definition full_limiter : FixedWindowRateLimiter :=
  mk_rate_limiter 2 {["alice" := [seconds 0; seconds 1]; "bob" := [seconds 1]]}.

Lemma allow_isolated_witness :
  (allow full_limiter "alice" (seconds 2)).1 = Ok (false, 58%Z) ∧
  rl_requests (allow full_limiter "alice" (seconds 2)).2 !! "bob" = Some [seconds 1].
Proof.
  split; [by vm_compute|].
  destruct (allow full_limiter "alice" (seconds 2)) as [r limiter'] eqn:E.
  destruct (allow_isolated full_limiter "alice" (seconds 2) r limiter' "bob" ltac:(done) E) as [_ Hb].
  simpl. rewrite Hb; done.
Defined.

(** ** Authentication *)
Definition alice_token : string := "alice-secret-token".
Definition sample_auth : AuthConfig :=
  mk_auth_config
    [mk_api_key "alice" operator (hexdigest alice_token);
     mk_api_key "root" admin (hexdigest "root-secret-token-1")] false 300 1048576.

Lemma authenticate_exact_witness :
  authenticate sample_auth alice_token = Some (mk_principal "alice" operator) ∧
  authenticate sample_auth "guess" = None.
Proof.
  split; [|by vm_compute].
  apply (authenticate_exact sample_auth alice_token (mk_principal "alice" operator));
    [by vm_compute|].
  exists (mk_api_key "alice" operator (hexdigest alice_token)).
  split; [apply list_elem_of_here|]. do 2 (split; [done|]).
  intros k' [->|[->|[]%not_elem_of_nil]%elem_of_cons]%elem_of_cons; [done|].
  intros Heq. by vm_compute in Heq.
Defined.

(** ** The body limit *)
Lemma body_limit_bounds_witness :
  body_limit 10 true (Some "9") [http_request 4; other_message; http_request 5] = app_answers ∧
  (body_bytes [http_request 4; other_message; http_request 5] ≤ 10)%Z.
Proof.
  assert (body_limit 10 true (Some "9") [http_request 4; other_message; http_request 5] = app_answers)
    as E by by vm_compute.
  split; [exact E|].
  destruct (body_limit_bounds 10 (Some "9") _ ltac:(done) E) as [Hb _]. exact Hb.
Defined.

(** ** Migrations *)

(** Tables are the SQL that ran; ["fail"] is SQL that PostgreSQL refuses. *)
Definition log_sql (sql : string) (tables : list string) : Py (list string) :=
  if String.eqb sql "fail" then Err (CheckViolation "sql") else Ok (tables ++ [sql]).

Definition sample_migrations (third : string) : list Migration :=
  match discover_migrations [("0001_initial", "a"); ("0002_signals", "b"); ("0003_audit", third)] with
  | Ok ms => ms
  | Err _ => []
  end.
Definition old_db : SchemaDB (list string) :=
  (apply_migrations log_sql (take 1 (sample_migrations "c")) (mk_schema_db [] ∅ false)).2.

Definition migrated : Py unit * SchemaDB (list string) :=
  apply_migrations log_sql (sample_migrations "c") old_db.
Definition interrupted : Py unit * SchemaDB (list string) :=
  apply_migrations log_sql (sample_migrations "fail") old_db.

Lemma migrate_once_witness :
  sd_tables migrated.2 = ["a"; "b"; "c"] ∧
  apply_migrations log_sql (sample_migrations "c") migrated.2 = (Ok tt, migrated.2).
Proof.
  assert (apply_migrations log_sql (sample_migrations "c") old_db = (Ok tt, migrated.2)) as E
    by (vm_compute; reflexivity).
  split; [by vm_compute|].
  apply (migrate_once log_sql (sample_migrations "c") old_db migrated.2 E).
Defined.

Lemma migrate_resumes_witness :
  sd_tables interrupted.2 = ["a"; "b"] ∧ sd_locked interrupted.2 = false.
Proof.
  assert (apply_migrations log_sql (sample_migrations "fail") old_db =
    (Err (CheckViolation "sql"), interrupted.2)) as E by (vm_compute; reflexivity).
  split; [by vm_compute|].
  apply (migrate_resumes log_sql (sample_migrations "fail") old_db _ interrupted.2 E).
Defined.
