(* ===== verification/RecordWitnesses.v ===== *)
(** * Witnesses: what is recorded, constraints, schedules, retries and families

    Runs with a child workflow, a schedule, an effect, an update and a retried
    activity, and the theorems about recorded rows applied to them. *)
From S2P Require Import Prelude Python Serialization History Commands Context Replay Database.
From S2P Require Import Logic Leasing AuditLog Definitions Transitions Commit Activities Messages.
From S2P Require Import Timeouts Cron Schedules Workers Store Frames StoreInvariant System.
From S2P Require Import Atomicity Writes Tables Records Occurrences Backfill Retries Families.
From S2P Require Import Delivery.
From S2P Require Import Sample Scenario.
From stdpp Require Import relations.

(** ** A parent and its child *)
(** [return await ctx.child_workflow("order", 1, input, parent_close_policy="terminate")]. *)
Definition parent_workflow : Coroutine := fun input rs =>
  match rs with
  | [] => ReqChildWorkflow "order" 1 input None "terminate"
  | [RChildCall c] => ReqAwaitChild c
  | [_; RValue v] => ReqReturn v
  | _ => ReqRaise (UserError "Failed" "failed")
  end.

Definition parent_definition : WorkflowDefinition :=
  mk_workflow_definition "parent" 1
    (mk_py_function 1 "shop" "parent" "parent" (Some "source") parent_workflow) "hash2".

Definition parent_id : UUID := 78.
Definition db_two_types : DB :=
  (exec (register_workflow_definition parent_definition) (at_minute 1) db_registered).2.
Definition db_parent : DB :=
  (exec (start_workflow "parent" 1 (JInt 3) "default" (Some parent_id) [] None None)
     (at_minute 2) db_two_types).2.
Definition parent_lease_result : Py (option LeasedTask) * DB :=
  exec (lease_task TWorkflow "default" lease_30s) (at_minute 3) db_parent.
Definition db_parent_leased : DB := parent_lease_result.2.
Definition parent_leased : LeasedTask :=
  match parent_lease_result.1 with Ok (Some t) => t | _ => leased end.
Definition parent_replay : ReplayResult :=
  match replay_workflow 10 parent_workflow parent_id (JInt 3) (history_of parent_id db_parent_leased) with
  | Some (Ok r) => r
  | _ => mk_replay_result BLOCKED [] JNull JNull
  end.
Definition db_family : DB :=
  (exec (commit_workflow_replay parent_leased parent_replay) (at_minute 3) db_parent_leased).2.

(** The child's identity. *)
Definition child_id : UUID :=
  match filter (fun r => bool_decide (exec_parent_workflow_id r.2 = Some parent_id) = true)
          (map_to_list (db_executions db_family)) with
  | (id, _) :: _ => id
  | [] => 0%N
  end.

Example scenario_child :
  (fun e => (exec_status e, exec_parent_close_policy e)) <$> db_executions db_family !! child_id =
  Some (WRunning, Some "terminate").
Proof. vm_compute. done. Qed.

Lemma reachable_registered : reachable db_registered.
Proof. apply reach_op; [constructor|apply rtc_refl]. Qed.
Lemma reachable_parent : reachable db_parent.
Proof. apply reach_op; [constructor|]. apply reach_op; [constructor|apply reachable_registered]. Qed.
Lemma reachable_family_scenario : reachable db_family.
Proof.
  apply reach_op; [by constructor|].
  apply (reach_op _ (lease_task TWorkflow "default" lease_30s)); [constructor|apply reachable_parent].
Qed.

Lemma children_closed_with_parent_witness :
  ∃ e ep, db_executions db_family !! child_id = Some e ∧
    db_executions db_family !! parent_id = Some ep ∧ exec_status ep = WRunning.
Proof.
  destruct (db_executions db_family !! child_id) as [e|] eqn:E; [|by vm_compute in E].
  destruct (children_closed_with_parent db_family child_id e parent_id reachable_family_scenario E)
    as (ep & Hep & Hs).
  - vm_compute in E. by injection E as <-.
  - vm_compute in E. by injection E as <-.
  - vm_compute in E. by injection E as <-.
  - exists e, ep. split_and!; [done|exact Hep|exact Hs].
Defined.


(** With the fuel of the code the child is terminated; more fuel does the same. *)
Lemma terminate_descendants_ends_witness :
  _terminate_descendants parent_id (at_minute 4) (mk_world db_family 0) =
  terminate_descendants 50 parent_id (at_minute 4) (mk_world db_family 0).
Proof.
  apply (terminate_descendants_ends 50 parent_id (at_minute 4) db_family 0 reachable_family_scenario).
  - by vm_compute; eexists.
  - apply Nat.ltb_lt. by vm_compute.
Defined.


Lemma started_steps : rtc step db_started db_committed.
Proof.
  eapply rtc_l; [|apply rtc_once].
  - exact (step_exec db_started _ (lease_task TWorkflow "default" lease_30s) (at_minute 3) (op_lease _ _ _)).
  - exact (step_exec db_leased _ (commit_workflow_replay leased first_replay) (at_minute 3) (op_commit _ _ I)).
Qed.

Lemma records_stay_witness : keeps db_started db_committed.
Proof. exact (records_stay db_started db_committed started_steps). Defined.

(** Other code under the same name and version. *)
Definition changed_definition : WorkflowDefinition :=
  mk_workflow_definition "order" 1
    (mk_py_function 1 "shop" "order" "order" (Some "other") order_workflow) "other hash".

Lemma execution_pinned_witness :
  ∃ r, exec (register_workflow_definition changed_definition) (at_minute 4) db_committed
       = (Err r, db_committed).
Proof.
  destruct (db_executions db_started !! order_id) as [e|] eqn:E; [|by vm_compute in E].
  destruct (execution_pinned db_started db_committed order_id e reachable_started started_steps E)
    as (e' & h & _ & _ & Hh & _ & Hreg).
  vm_compute in E. injection E as <-. apply (Hreg changed_definition (at_minute 4)); [by vm_compute|].
  vm_compute in Hh. injection Hh as <-. by vm_compute.
Defined.

Definition db_effect : DB :=
  (exec (record_idempotent_effect "charge-12" (JInt 5)) (at_minute 4) db_committed).2.
Lemma effect_recorded_once_witness :
  (exec (record_idempotent_effect "charge-12" (JInt 6)) (at_minute 5) db_effect).1 ≠ Ok true.
Proof.
  destruct (exec (record_idempotent_effect "charge-12" (JInt 6)) (at_minute 5) db_effect) as [r db3] eqn:E.
  apply (effect_recorded_once "charge-12" (JInt 5) (at_minute 4) db_committed db_effect db_effect
           (JInt 6) (at_minute 5) r db3); [|apply rtc_refl|exact E].
  change (exec (record_idempotent_effect "charge-12" (JInt 5)) (at_minute 4) db_committed
          = (Ok true, (exec (record_idempotent_effect "charge-12" (JInt 5)) (at_minute 4) db_committed).2)).
  by vm_compute.
Defined.

(** ** Updates *)
Definition update_result : Py (UpdateRow * bool) * DB :=
  exec (send_update order_id "u1" "amend" (JInt 1) None) (at_minute 4) db_committed.
Definition db_updated : DB := update_result.2.
Definition update_row : UpdateRow :=
  match update_result.1 with
  | Ok (u, _) => u
  | Err _ => mk_update_row "" JNull UPending None None 0 None
  end.

Lemma update_requested_once_witness :
  db_history (exec (send_update order_id "u1" "other" (JInt 2) None) (at_minute 5) db_updated).2
  = db_history db_updated.
Proof.
  destruct (exec (send_update order_id "u1" "other" (JInt 2) None) (at_minute 5) db_updated) as [r db3] eqn:E.
  apply (update_requested_once order_id "u1" "amend" (JInt 1) None (at_minute 4) db_committed update_row
           db_updated db_updated "other" (JInt 2) None (at_minute 5) r db3); [|apply rtc_refl|exact E].
  change (update_result = (Ok (update_row, true), update_result.2)). by vm_compute.
Defined.

(** ** A schedule and its first occurrence *)
Definition db_schedule : DB :=
  (exec (create_schedule "nightly" "order" 1 (JInt 12) "* * * * *" "UTC" "default" [] allow None None)
     (at_minute 2) db_registered).2.
Definition db_materialized : DB :=
  (exec (materialize_due_schedule None) (at_minute 4) db_schedule).2.

(** The execution it started. *)
Definition occurrence_execution : option (UUID * Execution) :=
  head (map_to_list (db_executions db_materialized)).

Lemma reachable_materialized : reachable db_materialized.
Proof. apply reach_op; [constructor|]. apply reach_op; [constructor|apply reachable_registered]. Qed.

Lemma occurrence_started_once_witness :
  ∃ id e s t o, occurrence_execution = Some (id, e) ∧
    db_occurrences db_materialized !! (s, t) = Some o ∧ occ_status o = OStarted ∧
    occ_workflow_id o = Some id.
Proof.
  destruct occurrence_execution as [[id e]|] eqn:E; [|by vm_compute in E].
  assert (db_executions db_materialized !! id = Some e) as He.
  { apply elem_of_map_to_list. unfold occurrence_execution in E. revert E.
    destruct (map_to_list (db_executions db_materialized)); [done|]. intros [= ->]. by left. }
  assert ((fun x : UUID * Execution => (bool_decide (is_Some (exec_schedule_id x.2)), exec_continued_from x.2))
            <$> occurrence_execution = Some (true, None)) as Es by (vm_compute; reflexivity).
  rewrite E in Es. injection Es as [s Hs]%bool_decide_eq_true Hc.
  destruct (occurrence_started_once db_materialized id e s reachable_materialized He Hs Hc)
    as (t & o & _ & Ho & Hst & Hw & _).
  exists id, e, s, t, o. split_and!; [done|exact Ho|exact Hst|exact Hw].
Defined.

(** ** An activity that is retried *)
(** As [order_workflow], with [retry=RetryPolicy(max_attempts=2)]. *)
Definition flaky_workflow : Coroutine := fun input rs =>
  match rs with
  | [] => ReqActivity (mk_activity_call "charge" [input] []
            (Some (mk_retry_policy 2 1000000 (float_of_Z 2) None)) None None None None)
  | [RActivityCall n] => ReqAwaitActivity n
  | [_; RValue v] => ReqReturn v
  | _ => ReqRaise (UserError "CardDeclined" "declined")
  end.

Definition flaky_replay : ReplayResult :=
  match replay_workflow 10 flaky_workflow order_id (JInt 12) (history_of order_id db_leased) with
  | Some (Ok r) => r
  | _ => mk_replay_result BLOCKED [] JNull JNull
  end.
Definition db_flaky : DB := (exec (commit_workflow_replay leased flaky_replay) (at_minute 3) db_leased).2.
Definition flaky_lease_result : Py (option LeasedTask) * DB :=
  exec (lease_task TActivity "default" lease_30s) (at_minute 4) db_flaky.
Definition flaky_leased : LeasedTask :=
  match flaky_lease_result.1 with Ok (Some t) => t | _ => leased end.
Definition failure_json : JSON := JObj [("type", JStr "CardDeclined"); ("message", JStr "declined")].
Definition db_retried : DB :=
  (exec (fail_activity flaky_leased failure_json None) (at_minute 4) flaky_lease_result.2).2.

Lemma attempt_exec A (m : M A) env db :
  rtc attempt_step empty_db db → operation_of (fun _ _ => True) (is_genuine db) A m →
  rtc attempt_step empty_db (exec m env db).2.
Proof. intros Hr Hm. rewrite exec_leaves. eapply rtc_r; [exact Hr|]. by constructor. Qed.

Lemma attempts_flaky : rtc attempt_step empty_db flaky_lease_result.2.
Proof.
  unfold flaky_lease_result. apply attempt_exec; [|constructor].
  unfold db_flaky. apply attempt_exec; [|by constructor].
  unfold db_leased, lease_result. apply attempt_exec; [|constructor].
  unfold db_started. apply attempt_exec; [|constructor].
  unfold db_registered. apply attempt_exec; [apply rtc_refl|constructor].
Qed.

Lemma attempts_retried : rtc attempt_step empty_db db_retried.
Proof.
  unfold db_retried. apply attempt_exec; [apply attempts_flaky|]. apply op_fail, genuineb_genuine.
  by vm_compute.
Qed.

(** The task of the second attempt. *)
Definition second_attempt : option (UUID * Task) :=
  head (filter (fun r => (task_attempt r.2 =? 2)%Z = true) (map_to_list (db_tasks db_retried))).


(** ** A backfill, and one ahead of its schedule *)
Definition schedule_id_of (db : DB) : UUID := default 0%N (head (map fst (map_to_list (db_schedules db)))).
Definition minute (k : Z) : Datetime := utc (k * minute_us).
Definition backfill_result : Py Z * DB :=
  exec (backfill_schedule (schedule_id_of db_schedule) (minute 1) (minute 3) 10 None) (at_minute 4) db_schedule.

Lemma backfill_exact_witness :
  backfill_result.1 = Ok 3%Z ∧ ∃ schedule l,
    db_schedules db_schedule !! schedule_id_of db_schedule = Some schedule ∧
    length (missing db_schedule (schedule_id_of db_schedule) l) = 3 ∧
    backfilled (schedule_id_of db_schedule) schedule l db_schedule backfill_result.2.
Proof.
  assert (backfill_result.1 = Ok 3%Z) as E by by vm_compute. split; [done|].
  destruct (backfill_exact (schedule_id_of db_schedule) (minute 1) (minute 3) 10 None (at_minute 4)
    db_schedule 3 backfill_result.2) as (schedule & so & eo & l & Hs & _ & _ & _ & _ & Hn & Hb).
  - rewrite <- E. unfold backfill_result. apply surjective_pairing.
  - exists schedule, l. split_and!; [exact Hs| |exact Hb]. lia.
Defined.

(** The next run of the schedule, minute 3, is among what was backfilled: no
    schedule is materialised any more, at whatever later minute. *)
Example backfill_blocks_schedules :
  (fun k => (exec (materialize_due_schedule None) (at_minute k) backfill_result.2).1) <$> [5; 6; 100]%N =
  [Err (UniqueViolation "schedule_occurrences_pkey"); Err (UniqueViolation "schedule_occurrences_pkey");
   Err (UniqueViolation "schedule_occurrences_pkey")].
Proof. by vm_compute. Qed.
