(* ===== verification/ServiceWitnesses.v ===== *)
(** * Witnesses of the theorems on the services

    The worker service, workers and replay, the HTTP application, the client,
    signals and cron at concrete inputs, on the scenario. *)
From S2P Require Import Prelude Python Serialization History Commands Context Replay Determinism.
From S2P Require Import Versions Config Security Metrics Database Logic Leasing AuditLog.
From S2P Require Import Definitions.
From S2P Require Import Transitions Commit Activities Messages Timeouts Queries Cron CronSpec.
From S2P Require Import Schedules Workers Debugger Api Http Store StoreInvariant System Runner.
From S2P Require Import Atomicity Client Audits HttpTheory Service Chronicle Engine Delivery.
From S2P Require Import Sample.
From S2P Require Import Scenario ReplayWitnesses PlatformWitnesses.
From stdpp Require Import relations.

(** ** The worker service *)

(** [async def charge(order): context().heartbeat(); return 5]. *)
Definition charge : ActivityBody := fun current _ _ =>
  context ← of_result (current_activity_context current);
  _ ← context_heartbeat context None None; mret (JInt 5).
Definition charge_definition : ActivityDefinition :=
  mk_activity_definition "charge" (mk_py_function 2 "shop" "charge" "charge" (Some "source") charge).
Definition order_registry : DefinitionRegistry :=
  mk_registry {[("order", 1%Z) := order_definition]} {["charge" := charge_definition]}.
Definition order_service : Service :=
  mk_service order_registry "default" 9 [activity; workflow] "host" 42.

Lemma order_activities : activities_by_operations order_registry.
Proof.
  intros name definition current args kwargs Hl Hhb. unfold order_registry in Hl. cbn [reg_activities] in Hl.
  apply lookup_singleton_Some in Hl as [<- <-].
  apply runs_bind_result. intros context Hc. destruct current as [c|]; [injection Hc as ->|done].
  apply runs_bind; [by apply Hhb|]. intros ?. by apply runs_reads.
Qed.

Definition service_begins : ServiceState := started_service db_started empty_metrics false.
Definition first_round : option ServiceState :=
  _run_loop order_service workflow 10 (at_minute 3) 0 (seconds 1) service_begins.
Definition service_working : ServiceState := default service_begins first_round.

Lemma service_works : transition order_service service_begins service_working.
Proof.
  apply tr_loop. apply (lt_runs _ _ workflow 10 (at_minute 3) 0 (seconds 1)).
  - by do 2 right; left.
  - done.
  - done.
  - change (_run_loop order_service workflow 10 (at_minute 3) 0 (seconds 1) service_begins) with first_round.
    assert (match first_round with Some _ => true | None => false end = true) as Hs by by vm_compute.
    unfold service_working. by destruct first_round.
Qed.



Definition stopping : ServiceState := set_stop service_begins.
Definition stopped : ServiceState :=
  set_loop (role_loop workflow) finished (set_loop (role_loop activity) finished
    (set_loop heartbeat_loop finished stopping)).


(** ** Workers and replay *)
Lemma order_runs_code : runs_code order_workflow order_id (JInt 12) order_registry db_started.
Proof.
  intros e He.
  assert (match db_executions db_started !! order_id with
          | Some e => bool_decide (exec_input e = JInt 12 ∧ exec_workflow_type e = "order" ∧
                                   exec_definition_version e = 1%Z)
          | None => false end = true) as Hb by by vm_compute.
  rewrite He in Hb. apply bool_decide_eq_true in Hb as (Hi & Ht & Hv). split; [done|].
  rewrite Ht, Hv. intros definition Hd. vm_compute in Hd. by injection Hd as <-.
Qed.

Definition db_worked : DB :=
  leaves (run_workflow_task 10 order_registry "default" default_lease) (at_minute 3) 0 db_started.

Lemma worked_run : engine_run order_workflow order_id (JInt 12) [db_worked; db_started; db_registered].
Proof.
  apply er_works; [|apply order_runs_code].
  unfold db_started. rewrite exec_leaves. apply er_operation; [|constructor].
  apply er_begins; [|by vm_compute]. apply reach_op; [constructor|apply rtc_refl].
Qed.

Definition worked_replay : option (Py ReplayResult) :=
  replay_workflow 10 order_workflow order_id (JInt 12) (history_of order_id db_worked).


(** ** The HTTP application *)
#[export] Instance sample_pg_text : PgText := {|
  ilike_contains s p := String.prefix p s;
  text_le := String.leb;
  jsonb_text _ := "";
  jsonb_contains _ _ := true
|}.
#[export] Instance sample_json : PyJson := {| json_loads _ := None |}.

Definition sample_app : Application := mk_application sample_auth "0016".
Definition signal_request : HttpRequest :=
  mk_request "POST" "/api/workflows/77/signals" "/api/workflows/{workflow_id}/signals"
    ("Bearer " +:+ alice_token) None [http_request 40]
    (target (e_signal order_id (mk_signal_request "s9" "note" (JInt 1)))) (seconds 1) (seconds 100).
Definition sample_state : AppState := mk_app_state (mk_rate_limiter 300 ∅) empty_metrics.
Definition served : Py (Py HttpResponse * AppState) * World :=
  serve (fun _ => "") sample_app signal_request sample_state (at_minute 4) (mk_world db_committed 0).

Lemma served_ok : ∃ response state' w', served = (Ok (Ok response, state'), w') ∧
  rs_status response = 200%Z ∧ length (db_history (w_db w')) = 3.
Proof.
  assert (match served with
          | (Ok (Ok response, _), w) => bool_decide (rs_status response = 200%Z ∧ length (db_history (w_db w)) = 3)
          | _ => false end = true) as Hb by by vm_compute.
  destruct served as [[[[response|e] state']|e] w]; try done.
  apply bool_decide_eq_true in Hb. by exists response, state', w.
Qed.

Lemma committed_length : length (db_history db_committed) = 2.
Proof. vm_compute. reflexivity. Qed.


Lemma http_request_refines_witness :
  ∃ A (m : M A), operation A m ∧ length (db_history (leaves m (at_minute 4) 1 db_committed)) = 3.
Proof.
  destruct served_ok as (response & state' & w' & Hs & _ & Hl).
  destruct (http_request_refines (fun _ => "") sample_app signal_request sample_state (at_minute 4) 0
    db_committed (Ok response) state' w' Hs) as [[Heq|(A & m & Hm & Heq)] _].
  - exfalso. rewrite Heq, committed_length in Hl. discriminate Hl.
  - exists A, m. split; [exact Hm|]. by rewrite <- Heq.
Defined.

(** The payload NaN: a conflict for an update, an unhandled error for a signal. *)
Definition alice_caller : Caller := mk_caller 5 (Some (mk_principal "alice" operator)).
Definition nan_signal : SignalRequest := mk_signal_request "s9" "note" (JFloat S754_nan).
Definition nan_update : UpdateRequest := mk_update_request "u9" "note" (JFloat S754_nan).

Lemma message_errors_witness :
  ∃ m, (handle (fun _ => "") sample_app empty_metrics alice_caller (e_signal order_id nan_signal)
          (at_minute 4) (mk_world db_committed 0)).1 = Err (SerializationError m) ∧
       (handle (fun _ => "") sample_app empty_metrics alice_caller (e_update order_id nan_update)
          (at_minute 4) (mk_world db_committed 0)).1 = Err (HTTPException 409 m).
Proof.
  exists "value is not canonical JSON: value is not JSON".
  destruct (message_errors (fun _ => "") sample_app empty_metrics alice_caller (mk_principal "alice" operator)
    order_id nan_signal nan_update (at_minute 4) (mk_world db_committed 0)
    (SerializationError "value is not canonical JSON: value is not JSON")
    (mk_world db_committed 0)
    (SerializationError "value is not canonical JSON: value is not JSON")
    (mk_world db_committed 0)) as [Hs Hu].
  - reflexivity.
  - done.
  - vm_compute. reflexivity.
  - vm_compute. reflexivity.
  - rewrite Hs, Hu. split; reflexivity.
Defined.

(** ** The client *)
Definition polls : list Poll := [(at_minute 2, db_started); (at_minute 4, db_terminated)].

Lemma polls_successive : successive polls.
Proof.
  apply SSorted_cons; [apply SSorted_cons; [apply SSorted_nil|apply Forall_nil_2]|].
  apply Forall_cons_2; [|apply Forall_nil_2]. cbn [snd]. unfold db_terminated.
  apply rtc_once, step_exec. apply op_terminate.
Qed.

Lemma started_exists : ∃ e, db_executions db_started !! order_id = Some e.
Proof. destruct (db_executions db_started !! order_id) as [e|] eqn:E; [by exists e|by vm_compute in E]. Qed.

Lemma terminated_closed : ∃ e,
  db_executions db_terminated !! order_id = Some e ∧ exec_status e = WTerminated.
Proof.
  assert (exec_status <$> db_executions db_terminated !! order_id = Some WTerminated) as E
    by (vm_compute; reflexivity).
  apply fmap_Some in E as (e & E & Hst). by exists e.
Qed.

Lemma positive_interval : SFleb (seconds 1) (float_of_Z 0) = false.
Proof. vm_compute. reflexivity. Qed.


(** ** Signals *)
Definition resent : Py bool * DB :=
  exec (send_signal order_id "s1" "again" (JInt 2) None) (at_minute 6) db_signalled.

Lemma signal_accepted :
  exec (send_signal order_id "s1" "note" JNull None) (at_minute 5) db_charged = (Ok true, db_signalled).
Proof. vm_compute. reflexivity. Qed.

Lemma resent_eq : exec (send_signal order_id "s1" "again" (JInt 2) None) (at_minute 6) db_signalled =
  (resent.1, resent.2).
Proof. apply surjective_pairing. Qed.

Lemma signal_delivered_once_witness :
  resent.1 ≠ Ok true ∧ db_history resent.2 = db_history db_signalled.
Proof.
  destruct (signal_delivered_once order_id "s1" "note" JNull None (at_minute 5) db_charged db_signalled
    db_signalled "again" (JInt 2) None (at_minute 6) resent.1 resent.2 signal_accepted (rtc_refl _ _)
    resent_eq) as (Hr & Hh & _).
  exact (conj Hr Hh).
Defined.

(** ** Cron *)

(** "Every quarter of an hour", asked at 00:07:30. *)
Definition half_past_seven : Datetime := mk_datetime 450000000 (Some 0%Z).

Lemma next_cron_time_earliest_witness :
  ∃ parsed, parse_cron "*/15 * * * *" = Ok parsed ∧
    next_cron_time "*/15 * * * *" half_past_seven "UTC" = Ok 900000000%Z ∧
    ∀ t', (450000000 < t' < 900000000)%Z → ¬ occurs parsed (fun _ => 0%Z) t'.
Proof.
  assert (∃ parsed, parse_cron "*/15 * * * *" = Ok parsed) as [parsed Hp] by (eexists; by vm_compute).
  assert (next_cron_time "*/15 * * * *" half_past_seven "UTC" = Ok 900000000%Z) as Hn by by vm_compute.
  assert (zone_info "UTC" = Ok (fun _ => 0%Z)) as Hz by reflexivity.
  exists parsed. split_and!; [done|done|].
  destruct (next_cron_time_earliest "*/15 * * * *" half_past_seven "UTC" 0 parsed (fun _ => 0%Z)
    (Ok 900000000%Z) eq_refl Hp Hz Hn) as (_ & _ & Hnone).
  exact Hnone.
Defined.
