(* ===== verification/CliWitnesses.v ===== *)
(** * Witnesses: the command line and the demo

    A small argparse, importer and asyncpg that satisfy what is assumed of them,
    and the theorems of the command line applied to runs of [main] with them. *)
From S2P Require Import Prelude Python Serialization History Commands Context Replay Database.
From S2P Require Import Leasing AuditLog Definitions Transitions Commit Workers Debugger Queries.
From S2P Require Import System Config Security Metrics Migrations Api Runner Startup Cli Service.
From S2P Require Import CliTheory ApiKeys Demo DemoTheory Sample Scenario PlatformWitnesses.
From S2P Require Import Benchmarks BenchmarksTheory.
From stdpp Require Import relations.

(** ** Text *)
Lemma strip_left_visible s : all_chars ascii_visible s = true → strip_left s = s.
Proof.
  destruct s as [|a s]; [done|]. simpl. rewrite andb_true_iff. intros [Ha _].
  assert (implb (ascii_visible a) (negb (is_space a)) = true) as Hc
    by (clear; revert a; apply ascii_cases; by vm_compute).
  rewrite Ha in Hc. simpl in Hc. apply negb_true_iff in Hc. by rewrite Hc.
Qed.

Lemma strip_right_visible s : all_chars ascii_visible s = true → strip_right s = s.
Proof.
  induction s as [|a s IH]; [done|]. simpl. rewrite andb_true_iff. intros [Ha Hs].
  rewrite IH by done. destruct s; [|done].
  assert (implb (ascii_visible a) (negb (is_space a)) = true) as Hc
    by (clear; revert a; apply ascii_cases; by vm_compute).
  rewrite Ha in Hc. simpl in Hc. apply negb_true_iff in Hc. by rewrite Hc.
Qed.

#[export] Instance sample_text_laws : PyTextLaws.
Proof.
  split.
  - intros s Hs. change (strip_right (strip_left s) = s).
    by rewrite strip_left_visible, strip_right_visible.
  - intros s Hs. change (map_chars ascii_lower s = s). revert Hs.
    induction s as [|a s IH]; [done|]. simpl. rewrite andb_true_iff. intros [Ha Hs]. rewrite IH by done.
    f_equal. assert (implb (ascii_visible a && negb (ascii_between 65 90 a)) (Ascii.eqb (ascii_lower a) a) = true)
      as Hc by (clear; revert a; apply ascii_cases; by vm_compute).
    rewrite Ha in Hc. by apply Ascii.eqb_eq in Hc.
  - intros s Hne Hs. change (negb (String.eqb s "") && all_chars is_alnum s = true).
    apply String.eqb_neq in Hne. rewrite Hne. simpl. revert Hs. apply all_chars_mono, ascii_cases.
    by vm_compute.
Qed.

(** ** A small argparse *)
#[export] Instance ArgValue_eq_dec : EqDecision ArgValue.
Proof. solve_decision. Defined.

Definition has_typeb (t : ArgType) (v : ArgValue) : bool :=
  match t, v with type_str, arg_str _ | type_int, arg_int _ | type_float, arg_float _ => true | _, _ => false end.
Definition chosenb (choices : option (list string)) (v : ArgValue) : bool :=
  match choices, v with
  | Some cs, arg_str s => bool_decide (s ∈ cs)
  | Some cs, arg_list l => forallb (fun s => bool_decide (s ∈ cs)) l
  | Some _, _ => false
  | None, _ => true
  end.
Definition argument_valueb (a : Argument) (v : ArgValue) : bool :=
  (negb (ag_required a) && bool_decide (v = ag_default a)) ||
  (chosenb (ag_choices a) v &&
   if ag_append a then match v with arg_list (_ :: _) => true | _ => false end
   else has_typeb (ag_type a) v).

Lemma argument_valueb_sound a v : argument_valueb a v = true → argument_value a v.
Proof.
  unfold argument_valueb, argument_value. rewrite orb_true_iff, !andb_true_iff, negb_true_iff, bool_decide_eq_true.
  intros [?|[Hc Ht]]; [by left|right]. split.
  - unfold chosenb, chosen in *. destruct (ag_choices a) as [cs|], v; try done.
    + by apply bool_decide_eq_true in Hc.
    + rewrite forallb_forall in Hc. apply Forall_forall. intros x Hx.
      apply (bool_decide_eq_true _), Hc. by apply list_elem_of_In.
  - destruct (ag_append a); [destruct v as [| | | |[|]]; try done; by eexists|].
    by destruct (ag_type a), v.
Qed.

(** The word after a flag. *)
Fixpoint flag_value (name : string) (words : list string) : option string :=
  match words with
  | flag :: ((v :: _) as rest) => if String.eqb flag name then Some v else flag_value name rest
  | _ => None
  end.
Definition sample_argument (words : list string) (a : Argument) : ArgValue :=
  match flag_value (ag_name a) words with
  | None => ag_default a
  | Some v =>
    match ag_type a with
    | type_str => if ag_append a then arg_list [v] else arg_str v
    | type_int => match Python.int_of_str v with Some n => arg_int n | None => arg_none end
    | type_float => arg_none
    end
  end.

#[export] Instance sample_argparse : Argparse := {|
  parse_args parser argv :=
    match argv with
    | command :: words =>
      match filter (fun s => sp_command s = command) parser with
      | sub :: _ =>
        let ns : Namespace := <["command" := arg_str (sp_command sub)]>
          (list_to_map (map (fun a => (dest (ag_name a), sample_argument words a)) (sp_arguments sub))) in
        if forallb (fun a => match ns !! dest (ag_name a) with
                             | Some v => argument_valueb a v
                             | None => false
                             end) (sp_arguments sub)
        then parsed ns else parser_exits 2
      | [] => parser_exits 2
      end
    | [] => parser_exits 2
    end
|}.

#[export] Instance sample_argparse_laws : ArgparseLaws.
Proof.
  split. intros parser argv ns. unfold parse_args, sample_argparse. destruct argv as [|command words]; [done|].
  destruct (filter _ parser) as [|sub subs] eqn:Hf; [done|].
  destruct (forallb _ _) eqn:Hall; [|done]. intros [= <-]. exists sub. split_and!.
  - assert (sub ∈ filter (fun s => sp_command s = command) parser) as Hin by (rewrite Hf; by left).
    by apply list_elem_of_filter in Hin as [_ Hin].
  - exact (lookup_insert_eq (M:=gmap string) _ _ _).
  - intros a Ha. rewrite forallb_forall in Hall. specialize (Hall a). apply list_elem_of_In in Ha.
    apply Hall in Ha. destruct (_ !! dest (ag_name a)) as [v|] eqn:Hv; [|done].
    exists v. split; [done|by apply argument_valueb_sound].
Qed.

(** ** The surroundings *)
Definition order_shop : DefinitionRegistry :=
  mk_registry (<[("order", 1%Z) := order_definition]> ∅) ∅.
#[export] Instance sample_imports : Imports := {|
  module_attribute m a :=
    if String.eqb m "shop" then
      if String.eqb a "registry" then Ok (module_registry order_shop)
      else if String.eqb a "order" then Ok (module_definition order_definition)
      else Err (UserError "AttributeError" a)
    else Err (UserError "ModuleNotFoundError" m)
|}.
#[export] Instance sample_asyncpg : Asyncpg := {|
  asyncpg_connect _ := Ok tt;
  asyncpg_create_pool _ := Ok true
|}.
#[export] Instance sample_json : PyJson := {| json_loads s := if String.eqb s "null" then Some JNull else None |}.

Lemma sample_imports_operations : imports_operations.
Proof.
  intros m a registry. simpl. repeat case_match; intros; simplify_eq.
  intros name definition context args kwargs Hd. by vm_compute in Hd.
Qed.

(** A worker that is told to stop before it starts. *)
Definition stopped_worker : WorkerCall (S:=list string) :=
  fun registry queue roles idle_delay heartbeat_interval _ mc =>
    match validate_worker idle_delay heartbeat_interval roles with
    | Err e => (Err e, mc)
    | Ok selected =>
      let service := mk_service registry queue 9 selected "host" 1 in
      (Ok tt, mc <| mc_db := service_stopped service (at_minute 9) 0
                               (started_service (mc_db mc) empty_metrics true) |>)
    end.

Lemma loops_stop service ls st :
  ls ⊆ service_loops service → ss_stop st = true → (∀ l, ss_loops st l = polling ∨ ss_loops st l = finished) →
  ∃ st', rtc (transition service) st st' ∧ ss_db st' = ss_db st ∧ ss_cancelled st' = ss_cancelled st ∧
    (∀ l, ss_loops st' l = polling ∨ ss_loops st' l = finished) ∧
    (∀ l, l ∈ ls ∨ ss_loops st l = finished → ss_loops st' l = finished).
Proof.
  revert st. induction ls as [|l ls IH]; intros st Hls Hstop Hl.
  { exists st. split_and!; try done. intros l [Hin|?]; [by apply elem_of_nil in Hin|done]. }
  set (st1 := match ss_loops st l with polling => set_loop l finished st | _ => st end).
  assert (rtc (transition service) st st1 ∧ ss_db st1 = ss_db st ∧ ss_cancelled st1 = ss_cancelled st ∧
    ss_stop st1 = true ∧ ss_loops st1 l = finished ∧
    ∀ l', (ss_loops st1 l' = polling ∨ ss_loops st1 l' = finished) ∧
          (ss_loops st l' = finished → ss_loops st1 l' = finished)) as (Hr & Hdb & Hc & Hs1 & Hf & Hl1).
  { unfold st1. destruct (Hl l) as [E|E]; rewrite E.
    - split_and!; [|done..| |].
      + apply rtc_once. apply tr_loop, lt_stops; [apply Hls; by left|done|done].
      + simpl. by rewrite decide_True.
      + intros l'. simpl. destruct (decide (l' = l)); [by split; [right|]|]. split; [apply Hl|done].
    - split_and!; [apply rtc_refl|done..|]. intros l'. split; [apply Hl|done]. }
  destruct (IH st1) as (st2 & Hr2 & Hdb2 & Hc2 & Hl2 & Hf2);
    [by intros x Hx; apply Hls; right|done|intros l'; apply Hl1|].
  exists st2. split_and!; [by etrans|congruence|congruence|done|].
  intros l' [[->|Hin]%elem_of_cons|Hfin]; apply Hf2; [by right|by left|right; by apply Hl1].
Qed.

Lemma stopped_worker_serves : runs_service stopped_worker.
Proof.
  intros registry queue roles i h su mc r mc' E. unfold stopped_worker in E.
  destruct (validate_worker i h roles) as [selected|e]; injection E as <- <-; [|done].
  set (service := mk_service registry queue 9 selected "host" 1).
  destruct (loops_stop service (service_loops service) (started_service (mc_db mc) empty_metrics true))
    as (st & Hr & Hdb & Hc & Hl & Hf); [done|done|by left|].
  exists 9%N, "host", 1%Z, empty_metrics, true, st, (at_minute 9), 0. split_and!; [exact Hr| | |].
  - apply forallb_forall. intros l Hin%list_elem_of_In. by rewrite (Hf l) by by left.
  - unfold service_outcome. rewrite Hc. destruct (omap _ _) as [|e es] eqn:Eo; [done|].
    assert (e ∈ e :: es) as He by by left. rewrite <- Eo in He.
    apply list_elem_of_omap in He as (l & _ & Hx). by destruct (Hl l) as [E|E]; rewrite E in Hx.
  - unfold service_stopped. by rewrite Hdb.
Qed.

(** The engine's process: no other process in between. *)
Definition alone : Surroundings := mk_surroundings (fun n => at_minute (N.of_nat n + 1)) (fun _ db => db)
  (fun n => float_of_Z (Z.of_nat n)) (fun _ n => seq 0 n).
Lemma alone_by_operations : by_operations alone.
Proof. intros n db. apply rtc_refl. Qed.

Definition run_create (sql : string) (tables : list string) : Py (list string) := Ok (tables ++ [sql]).
Definition sample_files : list (string * string) := [("0001_initial", "create tables")].
Definition new_machine (db : DB) : Machine (list string) :=
  mk_machine (mk_schema_db [] ∅ false) db 0 [] [] (mk_root_logger [] 0) 0.

Definition run_main (argv : list string) (db : DB) : ProcessEnd * Machine (list string) :=
  main run_create sample_files sample_process stopped_worker 10 argv "token" alone (new_machine db).

Definition registered_machine : Machine (list string) :=
  (run_main ["register"; "--definitions"; "shop:registry"] empty_db).2.


(** [engine replay-check <order> --against-version 1 --definition shop:order]. *)
Definition check_args : Namespace :=
  <["definition" := arg_str "shop:order"]> (<["against_version" := arg_int 1]>
  (<["database_url" := arg_str "postgresql://db/engine"]>
  (<["workflow_id" := arg_str (uuid_str order_id)]> ∅))).
Definition check_result : Py (option Z) * Machine (list string) :=
  _run_replay_check sample_process 10 check_args alone (new_machine db_committed).


Definition register_args : Namespace :=
  <["definitions" := arg_str "shop:registry"]> (<["database_url" := arg_str "postgresql://db/engine"]> ∅).
Definition register_result : Py Z * Machine (list string) :=
  _run_register run_create sample_files sample_process register_args alone (new_machine empty_db).

Lemma register_persists_witness :
  register_result.1 = Ok 0%Z ∧
  exec (register_workflow_definition order_definition) (at_minute 7) (mc_db register_result.2)
  = (Ok tt, mc_db register_result.2).
Proof.
  assert (register_result.1 = Ok 0%Z) as E by by vm_compute. split; [done|].
  destruct (register_persists run_create sample_files sample_process register_args alone
    (new_machine empty_db) 0 register_result.2 alone_by_operations) as (_ & reference & registry & Href & Hreg & _ & Hd).
  - rewrite <- E. unfold register_result. apply surjective_pairing.
  - apply (Hd order_definition); [|apply rtc_refl]. vm_compute in Href. injection Href as <-.
    vm_compute in Hreg. injection Hreg as <-. by left.
Defined.

Definition key_args : Namespace :=
  <["key_id" := arg_str "ci-bot_1"]> (<["role" := arg_str "operator"]> ∅).

(** ** The demo *)
Definition demo_source (name : string) : option string := Some (name +:+ " source").
Definition demo_definitions : list WorkflowDefinition :=
  match Demo.registry demo_source with Ok r => registry_workflows r | Err _ => [] end.
Definition seed_result : Py dict * DB := exec (seed_demo demo_definitions) (at_minute 1) empty_db.

Lemma seed_demo_idempotent_witness :
  ∃ answer, length answer = 4 ∧ size (db_executions seed_result.2) = 4 ∧
    exec (seed_demo demo_definitions) (at_minute 2) seed_result.2 = (Ok answer, seed_result.2).
Proof.
  assert (is_ok seed_result.1 = true) as Eok by by vm_compute.
  destruct seed_result.1 as [answer|] eqn:E; [|done]. exists answer. split_and!.
  - assert ((fun r : Py dict => match r with Ok d => length d | Err _ => 0 end) seed_result.1 = 4) as El
      by by vm_compute. by rewrite E in El.
  - by vm_compute.
  - apply (seed_demo_idempotent demo_definitions (at_minute 1) empty_db answer seed_result.2);
      [|apply rtc_refl]. rewrite <- E. unfold seed_result. apply surjective_pairing.
Defined.

(** A worker for the demo, an operation a minute. *)
Definition demo_registry : DefinitionRegistry :=
  match Demo.registry demo_source with Ok r => r | Err _ => empty_registry end.
Fixpoint work (rounds : nat) (minute : N) (db : DB) : DB :=
  match rounds with
  | O => db
  | S rounds =>
    let db := (exec (run_workflow_task 20 demo_registry "demo" default_lease) (at_minute minute) db).2 in
    let db := (exec (run_activity_task demo_registry "demo" default_lease) (at_minute (minute + 1)) db).2 in
    let db := (exec (run_maintenance (Some "demo") 100 None) (at_minute (minute + 2)) db).2 in
    work rounds (minute + 3) db
  end.

(** The confirmed order of the demo, worked on until it completes. *)
Definition confirmed_order : UUID := scenario_id "completed-order".
Definition db_confirmed : DB :=
  (exec (_ ← for_each demo_definitions tt (fun _ => register_workflow_definition);
         seed_scenario "completed-order") (at_minute 1) empty_db).2.
Definition order_outcome (db : DB) : option WorkflowStatus * list EventType :=
  (exec_status <$> db_executions db !! confirmed_order, event_type <$> history_of confirmed_order db).
Example confirmed_order_completes :
  order_outcome (work 7 2 db_confirmed) =
  (Some WCompleted,
   [WorkflowExecutionStarted; SignalReceived; ActivityScheduled; ActivityStarted; ActivityCompleted;
    TimerStarted; TimerFired; ActivityScheduled; ActivityScheduled; ActivityStarted; ActivityCompleted;
    ActivityStarted; ActivityCompleted; MarkerRecorded; MarkerRecorded; WorkflowExecutionCompleted]).
Proof. vm_cast_no_check (eq_refl (order_outcome (work 7 2 db_confirmed))). Qed.

(** ** The benchmarks *)
Lemma sample_entities : distinct_entities (commands_in 10).
Proof.
  assert (∀ k, (0 ≤ k < 4)%Z → k = 0 ∨ k = 1 ∨ k = 2 ∨ k = 3)%Z as Hfour by lia.
  intros k k' Hk%Hfour Hk'%Hfour He.
  destruct Hk as [->|[->|[->| ->]]], Hk' as [->|[->|[->| ->]]]; first [reflexivity|by vm_compute in He].
Qed.

Lemma benchmark_replay_completes_witness :
  ∃ h, replay_history 10 = Ok h ∧ length h = 10 ∧
    rr_result <$> replay_once 4 h = Ok (JInt 3).
Proof.
  destruct (benchmark_replay_completes 10 ltac:(lia) sample_entities) as (h & Hh & Hl & _ & Hr).
  exists h. split; [exact Hh|]. split; [lia|]. change ((10 - 1) / 2)%Z with 4%Z in Hr. rewrite Hr. done.
Defined.

(** The measurements of a database do not fail: each part once. *)
Definition benchmark_source (name : string) : option string := Some name.
Definition benchmark_definitions : Benchmarks.Definitions :=
  match Benchmarks.definitions benchmark_source with
  | Ok d => d
  | Err _ => Benchmarks.mk_definitions order_definition order_definition order_definition order_definition
  end.
Definition benchmark_registry : DefinitionRegistry :=
  match (r ← register_workflow empty_registry (def_timer benchmark_definitions);
         register_workflow r (def_activity_dispatch benchmark_definitions)) with
  | Ok r => r | Err _ => empty_registry end.
Definition benchmark_steps : IO (list string) dict :=
  let d := benchmark_definitions in
  _ ← on_database (register_workflow_definition (def_start d));
  _ ← on_database (register_workflow_definition (def_timer d));
  _ ← on_database (register_workflow_definition (def_activity_dispatch d));
  _ ← measure_recovery d;
  _ ← measure_activity_recovery benchmark_registry d;
  _ ← measure_timer benchmark_registry d [] 0;
  cost ← measure_append d [] 3;
  contention ← measure_contention d cost 1;
  mret contention.
Example benchmark_measures : is_ok (benchmark_steps alone (new_machine empty_db)).1 = true.
Proof. by vm_compute. Qed.
